(** * Region pooling, consistency tracking and loss assembly of the
      Mask R-CNN pipeline (lib/sub_module.py, lib/model.py)

    A shallow embedding of [Dev] (the scale router), of
    [MaskRCNN.meta_loss], [MaskRCNN.adjust_input_gt] and of the control
    flow of [MaskRCNN.forward].

    Conventions.
    - Tensors are nested lists, outermost dimension first.
    - Float entries are idealised as exact rationals ([Q]); the level
      formula, which needs [sqrt] and [log], is stated over the reals
      extended with the IEEE special values. The consistency tracker is
      written over the arithmetic of its element type, so that it also
      runs in IEEE single precision ([MaskRCNN.binary32]).
    - Python exceptions are the [Raise] results of an error monad; the
      box tensors that [Dev.forward] indexes and scales in place live in
      an explicit store. *)

From Stdlib Require Import ZArith QArith Qround Qreals Reals Psatz List String SpecFloat.
From stdpp Require Import base tactics option list.

Local Open Scope Z_scope.

(** ** Exceptions and results *)

Inductive exn : Type :=
| TypeError      (* subscripting None *)
| IndexError     (* index out of range *)
| ValueError     (* max() of an empty sequence *)
| RuntimeError   (* torch shape errors, torch.cat of an empty list *)
| AttributeError (* attribute never assigned *)
| Exception.     (* raise Exception(...) in the source *)

Inductive result (A : Type) : Type :=
| Ok (a : A)
| Raise (e : exn).
Arguments Ok {A} a.
Arguments Raise {A} e.

Definition result_bind {A B} (r : result A) (f : A -> result B) : result B :=
  match r with Ok a => f a | Raise e => Raise e end.

#[global] Instance result_mret : MRet result := fun A a => Ok a.
#[global] Instance result_mbind : MBind result := fun A B f r => result_bind r f.

(** [o or_raise e]: the value of a lookup, or the exception Python raises
    when the lookup is out of range. *)
Definition or_raise {A} (o : option A) (e : exn) : result A :=
  match o with Some a => Ok a | None => Raise e end.

(** ** Tensor helpers shared by the modules *)

(** Two-dimensional lookup [t[i][j]]. *)
Definition lookup2 {A} (t : list (list A)) (i j : nat) : option A :=
  t !! i ≫= fun row => row !! j.

(** A tensor of shape [bs, n]: every row has [n] entries. *)
Definition rect {A} (bs n : nat) (t : list (list A)) : Prop :=
  length t = bs /\ Forall (fun row => length row = n) t.

(** ** The scale router [Dev] (lib/sub_module.py) *)

Module Dev.

(** *** Byte and index tensors *)

(** [t == v] on an IntTensor: a ByteTensor of 0/1 entries. *)
Definition eq_scalar (t : list (list Z)) (v : Z) : list (list Z) :=
  map (map (fun l => if l =? v then 1 else 0)) t.

(** [a + b] on ByteTensors (unsigned 8-bit addition). *)
Definition byte_add (a b : list (list Z)) : list (list Z) :=
  zip_with (zip_with (fun p q => (p + q) mod 256)) a b.

(** [t.any()]. *)
Definition any (t : list (list Z)) : bool :=
  existsb (existsb (fun v => negb (v =? 0))) t.

(** [torch.nonzero(t)]: the (row, column) pairs of the nonzero entries, in
    row-major order. *)
Fixpoint nonzero_row (i j : nat) (row : list Z) : list (nat * nat) :=
  match row with
  | [] => []
  | v :: row' =>
      (if v =? 0 then [] else [(i, j)]) ++ nonzero_row i (S j) row'
  end.

Fixpoint nonzero_from (i : nat) (t : list (list Z)) : list (nat * nat) :=
  match t with
  | [] => []
  | row :: t' => nonzero_row i 0 row ++ nonzero_from (S i) t'
  end.

Definition nonzero (t : list (list Z)) : list (nat * nat) := nonzero_from 0 t.

(** An entry is flagged when it is present and nonzero. *)
Definition flagged (t : list (list Z)) (i j : nat) : Prop :=
  exists v, lookup2 t i j = Some v /\ v <> 0.

(** *** [Dev._find_big_box] *)

Definition _find_big_box (level : Z) (roi_level : list (list Z)) : list (list Z) :=
  if level =? 2 then
    byte_add (eq_scalar roi_level 4) (eq_scalar roi_level 5)
  else if level =? 3 then
    eq_scalar roi_level 5
  else
    (* higher scales 4, 5 do not apply the rule *)
    eq_scalar roi_level (-1).

(** *** Boxes, pooled crops and the tensor store *)

(** One row [(y1, x1, y2, x2)] of a box tensor, normalized coordinates. *)
Record box : Type := Box { y1 : Q; x1 : Q; y2 : Q; x2 : Q }.

Definition zero_box : box := Box 0 0 0 0.

(** One row of [boxes *= c]. *)
Definition box_scale (c : Q) (b : box) : box :=
  Box (y1 b * c) (x1 b * c) (y2 b * c) (x2 b * c).

(** One pooled crop, shape [channels, height, width]. *)
Abbreviation patch := (list (list (list Q))).

Definition zeros (c h w : nat) : patch := replicate c (replicate h (replicate w 0%Q)).

Definition all_zero (p : patch) : Prop :=
  Forall (Forall (Forall (fun q => q == 0)%Q)) p.

(** The box tensors of a forward pass are objects in a store: [rois] is
    passed by reference, indexing it with index tensors allocates a new
    tensor, and [*=] writes through the reference it is given. *)
Inductive cell : Type :=
| Rois (t : list (list box))   (* shape [bs, num_roi, 4] *)
| Boxes (t : list box).        (* shape [m, 4] *)

Abbreviation loc := nat.
Abbreviation store := (list cell).

Definition M (A : Type) : Type := store -> result A * store.

#[global] Instance M_ret : MRet M := fun A a st => (Ok a, st).
#[global] Instance M_bind : MBind M := fun A B f m st =>
  match m st with
  | (Ok a, st') => f a st'
  | (Raise e, st') => (Raise e, st')
  end.

Definition lift {A} (r : result A) : M A := fun st => (r, st).

Definition read_rois (r : loc) : M (list (list box)) := fun st =>
  match st !! r with
  | Some (Rois t) => (Ok t, st)
  | _ => (Raise TypeError, st)
  end.

Definition read_boxes (l : loc) : M (list box) := fun st =>
  match st !! l with
  | Some (Boxes t) => (Ok t, st)
  | _ => (Raise TypeError, st)
  end.

Definition alloc (c : cell) : M loc := fun st => (Ok (length st), st ++ [c]).

(** [t[index[:, 0], index[:, 1]]]: gather the entries at the listed
    positions. *)
Fixpoint gather {A} (t : list (list A)) (index : list (nat * nat)) : result (list A) :=
  match index with
  | [] => Ok []
  | (i, j) :: index' =>
      a ← or_raise (lookup2 t i j) IndexError;
      rest ← gather t index';
      Ok (a :: rest)
  end.

(** [rois[index[:, 0].data, index[:, 1].data, :]]: indexing with index
    tensors copies the selected rows into a new tensor. *)
Definition advanced_index (r : loc) (index : list (nat * nat)) : M loc :=
  t ← read_rois r;
  rows ← lift (gather t index);
  alloc (Boxes rows).

(** [boxes *= c], in place. *)
Definition imul (l : loc) (c : Q) : M unit := fun st =>
  match st !! l with
  | Some (Boxes t) => (Ok tt, <[l := Boxes (map (box_scale c) t)]> st)
  | _ => (Raise TypeError, st)
  end.

(** [roi_cls_gt[index[:, 0].data, index[:, 1].data]]; [roi_cls_gt]
    defaults to [None]. *)
Definition index_gt (roi_cls_gt : option (list (list Z))) (index : list (nat * nat))
  : result (list Z) :=
  match roi_cls_gt with
  | None => Raise TypeError
  | Some t => gather t index
  end.

(** [x.clamp(lo, hi)] on one entry. *)
Definition clamp (lo hi v : Z) : Z := Z.min hi (Z.max lo v).

(** [torch.cat(ts, dim=0)]; an empty list of tensors is an error. *)
Definition cat {A} (ts : list (list A)) : result (list A) :=
  match ts with
  | [] => Raise RuntimeError
  | _ => Ok (concat ts)
  end.

(** [out[index[:, 0], index[:, 1], :, :, :] = vals]. *)
Fixpoint index_put {A} (out : list (list A)) (index : list (nat * nat)) (vals : list A)
  : result (list (list A)) :=
  match index, vals with
  | [], [] => Ok out
  | (i, j) :: index', v :: vals' =>
      match out !! i with
      | Some row =>
          if decide (j < length row)%nat
          then index_put (<[i := <[j := v]> row]> out) index' vals'
          else Raise IndexError
      | None => Raise IndexError
      end
  | _, _ => Raise RuntimeError
  end.

(** Sizes 1 to 3 of a batch of crops, read off its first crop. *)
Definition crop_shape (ps : list patch) : nat * nat * nat :=
  match ps with
  | [] => (0, 0, 0)%nat
  | p :: _ => (length p, length (hd [] p), length (hd [] (hd [] p)))
  end.

Definition zeros_like (ps : list patch) : patch :=
  let '(c, h, w) := crop_shape ps in zeros c h w.

(** *** [Dev._reshape_result] *)

Definition _reshape_result (pooled mask : list (list patch))
    (box_to_level : list (list (nat * nat))) (rois_size : nat * nat)
  : result (list patch * list patch) :=
  pooled ← cat pooled;
  mask ← cat mask;
  box_to_level ← cat box_to_level;
  (* Rearrange pooled features to match the order of the original boxes *)
  let pooled_out := replicate rois_size.1 (replicate rois_size.2 (zeros_like pooled)) in
  pooled_out ← index_put pooled_out box_to_level pooled;
  let pooled_out := concat pooled_out in
  let mask_out := replicate rois_size.1 (replicate rois_size.2 (zeros_like mask)) in
  mask_out ← index_put mask_out box_to_level mask;
  let mask_out := concat mask_out in
  Ok (pooled_out, mask_out).

(** *** [Dev.forward] *)

Record config : Type := Config {
  use_dev : bool;            (* config.DEV.SWITCH *)
  pool_size : nat;           (* config.MRCNN.POOL_SIZE *)
  mask_pool_size : nat;      (* config.MRCNN.MASK_POOL_SIZE *)
  feat_pool_size : nat;      (* config.DEV.FEAT_BRANCH_POOL_SIZE *)
  upsample_fac : Q;          (* config.DEV.UPSAMPLE_FAC *)
  image_shape : Z * Z;       (* config.DATA.IMAGE_SHAPE[:2] *)
}.

Section Forward.
(** The collaborators of the router: feature maps and the networks and
    pooling operators applied to them. *)
Variable fmap : Type.
Variable descs : Type.
(** [CropAndResizeFunction(h, w)(image, boxes, box_ind)], one box at a
    time: the crop of [boxes[k]] is taken from [image[box_ind[k]]]. *)
Variable crop_and_resize : nat -> nat -> fmap -> box -> nat -> patch.
Variable upsample : fmap -> fmap.
Variable feat_extract : list patch -> descs.
Variable pyramid_roi_align : list (list box) -> list fmap -> nat -> list patch.
(** The entry of [(4 + log2(sqrt(h*w) / (224/sqrt(image_area)))).round().int()]
    for one box; [RoiLevel.level_int] is its reading over the reals. *)
Variable raw_level : box -> Z.
Variable cfg : config.

Definition CropAndResizeFunction (h w : nat) (image : fmap)
    (boxes : list box) (box_ind : list nat) : list patch :=
  zip_with (crop_and_resize h w image) boxes box_ind.

(** One entry of [feat_out]. *)
Record feat_rec : Type := FeatRec {
  big_box_gt : list Z;
  big_output : option descs;   (* [None] stands for the empty list *)
  small_box_gt : list Z;
  small_output : descs;
}.

Record acc : Type := Acc {
  pooled : list (list patch);
  mask : list (list patch);
  box_to_level : list (list (nat * nat));
  feat_out : list feat_rec;
}.

Definition roi_level_of (rois : list (list box)) : list (list Z) :=
  map (map (fun b => clamp 2 5 (raw_level b))) rois.

(** The body of [for i, level in enumerate(range(2, 6))]. *)
Definition level_body (x : list fmap) (rois : loc)
    (roi_cls_gt : option (list (list Z))) (roi_level : list (list Z))
    (a : acc) (i : nat) (level : Z) : M acc :=
  let ix := eq_scalar roi_level level in
  if negb (any ix) then mret a   (* continue *)
  else
    curr_feat_maps ← lift (or_raise (x !! i) IndexError);
    let _use_upsample := (level =? 2) || (level =? 3) in
    let big_ix := _find_big_box level roi_level in
    big ← (if negb (any big_ix) then mret ([], None)
           else
             let big_index := nonzero big_ix in
             big_boxes ← advanced_index rois big_index;
             big_box_gt ← lift (index_gt roi_cls_gt big_index);
             let big_box_ind := map fst big_index in
             bb ← read_boxes big_boxes;
             let big_feat :=
               CropAndResizeFunction (feat_pool_size cfg) (feat_pool_size cfg)
                 curr_feat_maps bb big_box_ind in
             mret (big_box_gt, Some (feat_extract big_feat)));
    let index := nonzero ix in
    small_boxes ← advanced_index rois index;
    small_box_gt ← lift (index_gt roi_cls_gt index);
    let box_ind := map fst index in
    _feat_maps ← (if _use_upsample
                  then _ ← imul small_boxes (upsample_fac cfg);
                       mret (upsample curr_feat_maps)
                  else mret curr_feat_maps);
    sb ← read_boxes small_boxes;
    let pooled_features :=
      CropAndResizeFunction (pool_size cfg) (pool_size cfg) _feat_maps sb box_ind in
    let mask_and_feat :=
      CropAndResizeFunction (mask_pool_size cfg) (mask_pool_size cfg) _feat_maps sb box_ind in
    let feat_out' :=
      if _use_upsample
      then feat_out a ++ [FeatRec big.1 big.2 small_box_gt (feat_extract mask_and_feat)]
      else feat_out a in
    mret (Acc (pooled a ++ [pooled_features]) (mask a ++ [mask_and_feat])
              (box_to_level a ++ [index]) feat_out').

Fixpoint for_levels (x : list fmap) (rois : loc)
    (roi_cls_gt : option (list (list Z))) (roi_level : list (list Z))
    (levels : list (nat * Z)) (a : acc) : M acc :=
  match levels with
  | [] => mret a
  | (i, level) :: levels' =>
      a' ← level_body x rois roi_cls_gt roi_level a i level;
      for_levels x rois roi_cls_gt roi_level levels' a'
  end.

(** [enumerate(range(2, 6))]. *)
Definition levels : list (nat * Z) := [(0%nat, 2); (1%nat, 3); (2%nat, 4); (3%nat, 5)].

(** [rois.size()[:2]]. *)
Definition size2 {A} (t : list (list A)) : nat * nat := (length t, length (hd [] t)).

Definition forward (x : list fmap) (rois : loc) (roi_cls_gt : option (list (list Z)))
  : M (list patch * list patch * option (list feat_rec)) :=
  t ← read_rois rois;
  if negb (use_dev cfg) then
    let pooled_out := pyramid_roi_align t x (pool_size cfg) in
    let mask_out := pyramid_roi_align t x (mask_pool_size cfg) in
    mret (pooled_out, mask_out, None)
  else
    (* Assign each ROI to a level in the pyramid based on the ROI area. *)
    let roi_level := roi_level_of t in
    a ← for_levels x rois roi_cls_gt roi_level levels (Acc [] [] [] []);
    out ← lift (_reshape_result (pooled a) (mask a) (box_to_level a) (size2 t));
    mret (out.1, out.2, Some (feat_out a)).

End Forward.

End Dev.


(** ** The level formula of [Dev.forward], over the reals *)

Module RoiLevel.

(** A float, idealised: an exact real number or an IEEE special value. *)
Inductive fval : Type :=
| NaN
| NegInf
| PosInf
| Fin (r : R).

(** [torch.sqrt]. *)
Definition fsqrt (a : fval) : fval :=
  match a with
  | Fin r => if Rlt_dec r 0 then NaN else Fin (sqrt r)
  | PosInf => PosInf
  | _ => NaN
  end.

(** [a / b]; the sign of a zero divisor is taken as positive. *)
Definition fdiv (a b : fval) : fval :=
  match a, b with
  | NaN, _ | _, NaN => NaN
  | Fin x, Fin y =>
      if Req_dec_T y 0 then
        if Req_dec_T x 0 then NaN else if Rlt_dec 0 x then PosInf else NegInf
      else Fin (x / y)
  | Fin _, _ => Fin 0
  | PosInf, Fin y => if Rlt_dec y 0 then NegInf else PosInf
  | NegInf, Fin y => if Rlt_dec y 0 then PosInf else NegInf
  | _, _ => NaN
  end.

(** [a + b]. *)
Definition fadd (a b : fval) : fval :=
  match a, b with
  | NaN, _ | _, NaN => NaN
  | Fin x, Fin y => Fin (x + y)
  | PosInf, NegInf | NegInf, PosInf => NaN
  | PosInf, _ | _, PosInf => PosInf
  | NegInf, _ | _, NegInf => NegInf
  end.

(** Modelled from the spec: [utils.log2] (tools/utils.py), the base-2
    logarithm of the level formula; on floats, the logarithm of zero is
    minus infinity and that of a negative number is not a number. *)
Definition log2 (a : fval) : fval :=
  match a with
  | Fin r =>
      if Rlt_dec r 0 then NaN
      else if Req_dec_T r 0 then NegInf
      else Fin (ln r / ln 2)
  | PosInf => PosInf
  | _ => NaN
  end.

(** Rounding to the nearest integer, halves away from zero. *)
Definition round_half_away (r : R) : Z :=
  if Rle_dec 0 r then Zfloor (r + / 2) else Zceil (r - / 2).

(** [x.round()]. *)
Definition fround (a : fval) : fval :=
  match a with
  | Fin r => Fin (IZR (round_half_away r))
  | _ => a
  end.

(** [x.int()] on the device: truncation toward zero, saturating at the
    bounds of a 32-bit integer, with not-a-number sent to 0. *)
Definition fint (a : fval) : Z :=
  match a with
  | NaN => 0
  | NegInf => - 2 ^ 31
  | PosInf => 2 ^ 31 - 1
  | Fin r =>
      Z.max (- 2 ^ 31) (Z.min (2 ^ 31 - 1) (if Rle_dec 0 r then Zfloor r else Zceil r))
  end.

(** [h * w] for one box. *)
Definition area (b : Dev.box) : R :=
  ((Q2R (Dev.y2 b) - Q2R (Dev.y1 b)) * (Q2R (Dev.x2 b) - Q2R (Dev.x1 b)))%R.

(** [4 + utils.log2(torch.sqrt(h*w) / (224.0 / torch.sqrt(image_area)))]. *)
Definition level_float (image_shape : Z * Z) (b : Dev.box) : fval :=
  let image_area := Fin (IZR (image_shape.1 * image_shape.2)) in
  fadd (Fin 4)
    (log2 (fdiv (fsqrt (Fin (area b))) (fdiv (Fin 224) (fsqrt image_area)))).

(** [roi_level.round().int()]: the entry handed to [clamp]. *)
Definition level_int (image_shape : Z * Z) (b : Dev.box) : Z :=
  fint (fround (level_float image_shape b)).

(** The level tensor of [Dev.forward] for the configured image shape. *)
Definition roi_level (cfg : Dev.config) (rois : list (list Dev.box)) : list (list Z) :=
  Dev.roi_level_of (level_int (Dev.image_shape cfg)) rois.

(** The formula of the specification, for a box of positive area:
    [clamp(round(4 + log2(sqrt(area) / (224 / sqrt(image_area)))), 2, 5)]. *)
Definition spec_level (image_height image_width : Z) (b : Dev.box) : Z :=
  Dev.clamp 2 5
    (round_half_away
       (4 + ln (sqrt (area b) / (224 / sqrt (IZR image_height * IZR image_width))) / ln 2)).

(** The same level decided on the rationals, by comparing
    [area * image_area] with [224^2 / 8], [224^2 / 2] and [224^2 * 2]. *)
Definition level_q (H W : Z) (b : Dev.box) : Z :=
  let v := ((Dev.y2 b - Dev.y1 b) * (Dev.x2 b - Dev.x1 b) * inject_Z (H * W))%Q in
  if Qle_bool 100352 v then 5
  else if Qle_bool 25088 v then 4
  else if Qle_bool 6272 v then 3
  else 2.

End RoiLevel.

(** ** The layers of the network (lib/sub_module.py) *)

(** Exceptions of the layers beside those of [exn]. *)
Inductive raised : Type :=
| ZeroDivisionError   (* float division by zero *)
| AssertionError      (* a failed [assert] *)
| Raised (e : exn).

Inductive outcome (A : Type) : Type :=
| Return (a : A)
| Throw (e : raised).
Arguments Return {A} a.
Arguments Throw {A} e.

#[global] Instance outcome_mret : MRet outcome := fun A a => Return a.
#[global] Instance outcome_mbind : MBind outcome := fun A B f r =>
  match r with Return a => f a | Throw e => Throw e end.

(** *** [F.pad(input, (left, right, top, bottom), 'constant', 0)]

    Constant padding of the last two dimensions of a tensor of shape
    [batch, channels, height, width]; a negative amount crops. The sizes are
    read off the first plane. *)
Module Pad.

Definition size2 (input : list (list (list (list Q)))) : Z :=
  Z.of_nat (length (hd [] (hd [] input))).
Definition size3 (input : list (list (list (list Q)))) : Z :=
  Z.of_nat (length (hd [] (hd [] (hd [] input)))).

(** One dimension: crop where the amount is negative, then surround with
    [d] where it is positive. *)
Definition pad_dim {A} (d : A) (l r : Z) (v : list A) : list A :=
  let v := if l <? 0 then drop (Z.to_nat (- l)) v else v in
  let v := if r <? 0 then take (length v - Z.to_nat (- r)) v else v in
  replicate (Z.to_nat l) d ++ v ++ replicate (Z.to_nat r) d.

(** The new size of a dimension must be positive ('input is too small'). *)
Definition check_dim (size l r : Z) : outcome unit :=
  if negb (0 <? size + l + r) then Throw AssertionError
  else Return tt.

(** Each crop of a dimension, by [narrow], must leave something. *)
Definition crop_dim (size l r : Z) : outcome unit :=
  if (l <? 0) && negb (0 <? size + l) then Throw (Raised RuntimeError)
  else if (r <? 0) && negb (0 <? size + Z.min l 0 + r) then Throw (Raised RuntimeError)
  else Return tt.

Definition pad (input : list (list (list (list Q))))
    (pad_left pad_right pad_top pad_bottom : Z)
  : outcome (list (list (list (list Q)))) :=
  let h := size2 input in
  let w := size3 input in
  _ ← check_dim h pad_top pad_bottom;
  _ ← check_dim w pad_left pad_right;
  _ ← crop_dim h pad_top pad_bottom;
  _ ← crop_dim w pad_left pad_right;
  let zero_row := replicate (Z.to_nat (w + pad_left + pad_right)) 0%Q in
  Return
    (map (map (fun plane =>
       pad_dim zero_row pad_top pad_bottom
         (map (pad_dim 0%Q pad_left pad_right) plane))) input).

End Pad.

(** *** [SamePad2d] *)

Module SamePad2d.

Record t : Type := Make {
  kernel_size : Z * Z;
  stride : Z * Z;
}.

(** [torch.nn.modules.utils._pair] on an integer. *)
Definition _pair (x : Z) : Z * Z := (x, x).

Definition __init__ (kernel_size stride : Z) : t :=
  Make (_pair kernel_size) (_pair stride).

(** [math.ceil(float(a) / float(b))]. *)
Definition ceil_div (a b : Z) : outcome Z :=
  if b =? 0 then Throw ZeroDivisionError
  else Return (Qceiling (inject_Z a / inject_Z b)).

Definition forward (self : t) (input : list (list (list (list Q))))
  : outcome (list (list (list (list Q)))) :=
  let in_width := Pad.size2 input in
  let in_height := Pad.size3 input in
  out_width ← ceil_div in_width (stride self).1;
  out_height ← ceil_div in_height (stride self).2;
  let pad_along_width :=
    (out_width - 1) * (stride self).1 + (kernel_size self).1 - in_width in
  let pad_along_height :=
    (out_height - 1) * (stride self).2 + (kernel_size self).2 - in_height in
  let pad_left := Qfloor (inject_Z pad_along_width / 2) in
  let pad_top := Qfloor (inject_Z pad_along_height / 2) in
  let pad_right := pad_along_width - pad_left in
  let pad_bottom := pad_along_height - pad_top in
  Pad.pad input pad_left pad_right pad_top pad_bottom.

End SamePad2d.

(** *** The layers of [torch.nn] on the shapes of their tensors

    The weights of the layers are learned; what the source fixes is how
    the layers are sized and chained. A tensor is read here as its shape,
    a list of positive sizes, and a layer as the shape it gives its output
    or the exception it raises. *)
Module Torch.

Definition shape : Type := list nat.

Inductive layer : Type :=
| Conv2d (in_channels out_channels kernel_size stride padding : nat)
| ConvTranspose2d (in_channels out_channels kernel_size stride padding output_padding : nat)
| BatchNorm2d (num_features : nat) (eps momentum : Q)
| ReLU
| MaxPool2d (kernel_size stride : nat)
| SamePad (m : SamePad2d.t)
| Linear (in_features out_features : nat)
| Softmax (dim : nat)
| Sigmoid.

(** Output size of a convolution or pooling window along one dimension. *)
Definition window_out (size kernel_size stride padding : nat) : nat :=
  ((size + 2 * padding - kernel_size) / stride + 1)%nat.

(** [F.pad(x, (left, right, top, bottom))] on a shape: the last two
    dimensions change, under the checks of [Pad.pad]. *)
Definition pad (x : shape) (pad_left pad_right pad_top pad_bottom : Z) : outcome shape :=
  match rev x with
  | w :: h :: front =>
      let h := Z.of_nat h in
      let w := Z.of_nat w in
      _ ← Pad.check_dim h pad_top pad_bottom;
      _ ← Pad.check_dim w pad_left pad_right;
      _ ← Pad.crop_dim h pad_top pad_bottom;
      _ ← Pad.crop_dim w pad_left pad_right;
      Return (rev (Z.to_nat (w + pad_left + pad_right)
                   :: Z.to_nat (h + pad_top + pad_bottom) :: front))
  | _ => Throw AssertionError
  end.

(** [SamePad2d.forward] on a shape. *)
Definition SamePad_forward (self : SamePad2d.t) (x : shape) : outcome shape :=
  match x !! 2%nat, x !! 3%nat with
  | Some size2, Some size3 =>
      let in_width := Z.of_nat size2 in
      let in_height := Z.of_nat size3 in
      out_width ← SamePad2d.ceil_div in_width (SamePad2d.stride self).1;
      out_height ← SamePad2d.ceil_div in_height (SamePad2d.stride self).2;
      let pad_along_width :=
        (out_width - 1) * (SamePad2d.stride self).1 + (SamePad2d.kernel_size self).1
        - in_width in
      let pad_along_height :=
        (out_height - 1) * (SamePad2d.stride self).2 + (SamePad2d.kernel_size self).2
        - in_height in
      let pad_left := Qfloor (inject_Z pad_along_width / 2) in
      let pad_top := Qfloor (inject_Z pad_along_height / 2) in
      let pad_right := pad_along_width - pad_left in
      let pad_bottom := pad_along_height - pad_top in
      pad x pad_left pad_right pad_top pad_bottom
  | _, _ => Throw (Raised IndexError)
  end.

(** [layer(x)]; [training] is the mode of the module. *)
Definition forward (training : bool) (l : layer) (x : shape) : outcome shape :=
  match l with
  | Conv2d cin cout k s p =>
      match x with
      | [n; c; h; w] =>
          if negb (c =? cin)%nat then Throw (Raised RuntimeError)
          else if (s =? 0)%nat || (k =? 0)%nat
                  || (h + 2 * p <? k)%nat || (w + 2 * p <? k)%nat
          then Throw (Raised RuntimeError)
          else Return [n; cout; window_out h k s p; window_out w k s p]
      | _ => Throw (Raised RuntimeError)
      end
  | ConvTranspose2d cin cout k s p op =>
      match x with
      | [n; c; h; w] =>
          if negb (c =? cin)%nat then Throw (Raised RuntimeError)
          else if (s =? 0)%nat || (k =? 0)%nat
                  || ((h - 1) * s + k + op <=? 2 * p)%nat
                  || ((w - 1) * s + k + op <=? 2 * p)%nat
          then Throw (Raised RuntimeError)
          else Return [n; cout; ((h - 1) * s + k + op - 2 * p)%nat;
                       ((w - 1) * s + k + op - 2 * p)%nat]
      | _ => Throw (Raised RuntimeError)
      end
  | BatchNorm2d f _ _ =>
      match x with
      | [n; c; h; w] =>
          (* 'Expected more than 1 value per channel when training' *)
          if training && (n * (h * w) =? 1)%nat then Throw (Raised ValueError)
          else if negb (c =? f)%nat then Throw (Raised RuntimeError)
          else Return x
      | _ => Throw (Raised ValueError)
      end
  | ReLU => Return x
  | MaxPool2d k s =>
      match rev x with
      | w :: h :: front =>
          if negb ((length front =? 1)%nat || (length front =? 2)%nat)
          then Throw (Raised RuntimeError)
          else if (s =? 0)%nat || (k =? 0)%nat || (h <? k)%nat || (w <? k)%nat
          then Throw (Raised RuntimeError)
          else Return (rev (window_out w k s 0 :: window_out h k s 0 :: front))
      | _ => Throw (Raised RuntimeError)
      end
  | SamePad m => SamePad_forward m x
  | Linear fin fout =>
      match rev x with
      | f :: front =>
          if (f =? fin)%nat then Return (rev (fout :: front))
          else Throw (Raised RuntimeError)
      | [] => Throw (Raised RuntimeError)
      end
  | Softmax dim =>
      if (dim <? length x)%nat then Return x else Throw (Raised RuntimeError)
  | Sigmoid => Return x
  end.

(** [nn.Sequential]: the layers applied in order. *)
Fixpoint Sequential_forward (training : bool) (layers : list layer) (x : shape)
  : outcome shape :=
  match layers with
  | [] => Return x
  | l :: layers' => y ← forward training l x; Sequential_forward training layers' y
  end.

(** [a + b], with broadcasting from the last dimension. *)
Fixpoint broadcast (a b : shape) : outcome shape :=
  match a, b with
  | [], b => Return b
  | a, [] => Return a
  | da :: a', db :: b' =>
      rest ← broadcast a' b';
      if (da =? db)%nat then Return (da :: rest)
      else if (da =? 1)%nat then Return (db :: rest)
      else if (db =? 1)%nat then Return (da :: rest)
      else Throw (Raised RuntimeError)
  end.

Definition add (a b : shape) : outcome shape :=
  s ← broadcast (rev a) (rev b); Return (rev s).

(** [a += b]: the sum must have the shape of [a]. *)
Definition iadd (a b : shape) : outcome shape :=
  s ← add a b;
  if decide (s = a) then Return a else Throw (Raised RuntimeError).

(** [F.upsample(x, scale_factor=2)], of a batch of planes. *)
Definition upsample2 (x : shape) : outcome shape :=
  match x with
  | [n; c; h; w] => Return [n; c; (h * 2)%nat; (w * 2)%nat]
  | _ => Throw (Raised RuntimeError)
  end.

(** [x.permute(0, 2, 3, 1)]. *)
Definition permute_0231 (x : shape) : outcome shape :=
  match x with
  | [n; c; h; w] => Return [n; h; w; c]
  | _ => Throw (Raised RuntimeError)
  end.

Definition numel (x : shape) : nat := foldr Nat.mul 1%nat x.

(** [x.view(a, -1, c)]. *)
Definition view_a_m1_c (x : shape) (a c : nat) : outcome shape :=
  if (a * c =? 0)%nat || (numel x =? 0)%nat then Throw (Raised RuntimeError)
  else if (numel x mod (a * c) =? 0)%nat then Return [a; (numel x / (a * c))%nat; c]
  else Throw (Raised RuntimeError).

(** [x.view(-1, c)]. *)
Definition view_m1_c (x : shape) (c : nat) : outcome shape :=
  if (c =? 0)%nat || (numel x =? 0)%nat then Throw (Raised RuntimeError)
  else if (numel x mod c =? 0)%nat then Return [(numel x / c)%nat; c]
  else Throw (Raised RuntimeError).

(** [x.squeeze()]. *)
Definition squeeze (x : shape) : shape := filter (fun d => d <> 1%nat) x.

(** [torch.cat(ts, dim=1)]: the tensors agree on every other dimension. *)
Fixpoint cat_dim1 (ts : list shape) : outcome shape :=
  match ts with
  | [] => Throw (Raised RuntimeError)
  | [n :: r :: rest] => Return (n :: r :: rest)
  | (n :: r :: rest) :: ts' =>
      t ← cat_dim1 ts';
      match t with
      | n' :: r' :: rest' =>
          if decide (n' = n /\ rest' = rest) then Return (n :: (r + r')%nat :: rest)
          else Throw (Raised RuntimeError)
      | _ => Throw (Raised RuntimeError)
      end
  | _ => Throw (Raised RuntimeError)
  end.

End Torch.

(** *** [Bottleneck] *)

Module Bottleneck.

Definition expansion : nat := 4.

Record t : Type := Make {
  conv1 : Torch.layer;
  bn1 : Torch.layer;
  padding2 : Torch.layer;
  conv2 : Torch.layer;
  bn2 : Torch.layer;
  conv3 : Torch.layer;
  bn3 : Torch.layer;
  relu : Torch.layer;
  downsample : option (list Torch.layer);
  stride : nat;
}.

Definition __init__ (inplanes planes stride : nat) (downsample : option (list Torch.layer))
  : t :=
  Make (Torch.Conv2d inplanes planes 1 stride 0)
       (Torch.BatchNorm2d planes (1 # 1000) (1 # 100))
       (Torch.SamePad (SamePad2d.__init__ 3 1))
       (Torch.Conv2d planes planes 3 1 0)
       (Torch.BatchNorm2d planes (1 # 1000) (1 # 100))
       (Torch.Conv2d planes (planes * 4) 1 1 0)
       (Torch.BatchNorm2d (planes * 4) (1 # 1000) (1 # 100))
       Torch.ReLU
       downsample
       stride.

Definition forward (training : bool) (self : t) (x : Torch.shape)
  : outcome Torch.shape :=
  let residual := x in
  out ← Torch.forward training (conv1 self) x;
  out ← Torch.forward training (bn1 self) out;
  out ← Torch.forward training (relu self) out;
  out ← Torch.forward training (padding2 self) out;
  out ← Torch.forward training (conv2 self) out;
  out ← Torch.forward training (bn2 self) out;
  out ← Torch.forward training (relu self) out;
  out ← Torch.forward training (conv3 self) out;
  out ← Torch.forward training (bn3 self) out;
  residual ← match downsample self with
             | Some d => Torch.Sequential_forward training d x
             | None => Return residual
             end;
  out ← Torch.iadd out residual;
  Torch.forward training (relu self) out.

End Bottleneck.

(** *** [ResNet] *)

Module ResNet.

(** A stage: [nn.Sequential] of layers (C1) or of blocks (C2 to C5). *)
Inductive stage : Type :=
| Layers (layers : list Torch.layer)
| Blocks (blocks : list Bottleneck.t).

Fixpoint blocks_forward (training : bool) (blocks : list Bottleneck.t) (x : Torch.shape)
  : outcome Torch.shape :=
  match blocks with
  | [] => Return x
  | b :: blocks' =>
      y ← Bottleneck.forward training b x; blocks_forward training blocks' y
  end.

(** Calling a stage; a stage that is [None] is not callable. *)
Definition call (training : bool) (s : option stage) (x : Torch.shape)
  : outcome Torch.shape :=
  match s with
  | Some (Layers layers) => Torch.Sequential_forward training layers x
  | Some (Blocks blocks) => blocks_forward training blocks x
  | None => Throw (Raised TypeError)
  end.

Record t : Type := Make {
  inplanes : nat;
  layers : list nat;
  stage5 : bool;
  C1 : option stage;
  C2 : option stage;
  C3 : option stage;
  C4 : option stage;
  C5 : option stage;
}.

(** [make_layer] with [block = Bottleneck]: the stage and the new value
    of [self.inplanes]. *)
Definition make_layer (inplanes planes blocks stride : nat) : stage * nat :=
  let downsample :=
    if negb (stride =? 1)%nat || negb (inplanes =? planes * Bottleneck.expansion)%nat
    then Some [Torch.Conv2d inplanes (planes * Bottleneck.expansion) 1 stride 0;
               Torch.BatchNorm2d (planes * Bottleneck.expansion) (1 # 1000) (1 # 100)]
    else None in
  let layers := [Bottleneck.__init__ inplanes planes stride downsample] in
  let inplanes := (planes * Bottleneck.expansion)%nat in
  let layers :=
    layers ++ map (fun i => Bottleneck.__init__ inplanes planes 1 None)
                  (seq 1 (blocks - 1)) in
  (Blocks layers, inplanes).

Definition __init__ (architecture : string) (stage5 : bool) : outcome t :=
  if negb (String.eqb architecture "resnet50" || String.eqb architecture "resnet101")
  then Throw AssertionError
  else
    let inplanes := 64%nat in
    let layers :=
      [3; 4; if String.eqb architecture "resnet50" then 6 else 23; 3]%nat in
    let C1 := Layers [Torch.Conv2d 3 64 7 2 3;
                      Torch.BatchNorm2d 64 (1 # 1000) (1 # 100);
                      Torch.ReLU;
                      Torch.SamePad (SamePad2d.__init__ 3 2);
                      Torch.MaxPool2d 3 2] in
    let '(C2, inplanes) := make_layer inplanes 64 (nth 0 layers 0%nat) 1 in
    let '(C3, inplanes) := make_layer inplanes 128 (nth 1 layers 0%nat) 2 in
    let '(C4, inplanes) := make_layer inplanes 256 (nth 2 layers 0%nat) 2 in
    let '(C5, inplanes) :=
      if stage5
      then let '(s, i) := make_layer inplanes 512 (nth 3 layers 0%nat) 2 in (Some s, i)
      else (None, inplanes) in
    Return (Make inplanes layers stage5 (Some C1) (Some C2) (Some C3) (Some C4) C5).

Definition forward (training : bool) (self : t) (x : Torch.shape) : outcome Torch.shape :=
  x ← call training (C1 self) x;
  x ← call training (C2 self) x;
  x ← call training (C3 self) x;
  x ← call training (C4 self) x;
  x ← call training (C5 self) x;
  Return x.

Definition stages (self : t) : list (option stage) :=
  [C1 self; C2 self; C3 self; C4 self; C5 self].

End ResNet.

(** *** [FPN] *)

Module FPN.

Record t : Type := Make {
  out_channels : nat;
  C1 : option ResNet.stage;
  C2 : option ResNet.stage;
  C3 : option ResNet.stage;
  C4 : option ResNet.stage;
  C5 : option ResNet.stage;
  P6 : Torch.layer;
  P5_conv1 : Torch.layer;
  P5_conv2 : list Torch.layer;
  P4_conv1 : Torch.layer;
  P4_conv2 : list Torch.layer;
  P3_conv1 : Torch.layer;
  P3_conv2 : list Torch.layer;
  P2_conv1 : Torch.layer;
  P2_conv2 : list Torch.layer;
}.

Definition __init__ (C1 C2 C3 C4 C5 : option ResNet.stage) (out_channels : nat) : t :=
  let conv2 := [Torch.SamePad (SamePad2d.__init__ 3 1);
                Torch.Conv2d out_channels out_channels 3 1 0] in
  Make out_channels C1 C2 C3 C4 C5
    (Torch.MaxPool2d 1 2)
    (Torch.Conv2d 2048 out_channels 1 1 0) conv2
    (Torch.Conv2d 1024 out_channels 1 1 0) conv2
    (Torch.Conv2d 512 out_channels 1 1 0) conv2
    (Torch.Conv2d 256 out_channels 1 1 0) conv2.

Definition forward (training : bool) (self : t) (x : Torch.shape)
  : outcome (list Torch.shape) :=
  x ← ResNet.call training (C1 self) x;
  x ← ResNet.call training (C2 self) x;
  let c2_out := x in
  x ← ResNet.call training (C3 self) x;
  let c3_out := x in
  x ← ResNet.call training (C4 self) x;
  let c4_out := x in
  x ← ResNet.call training (C5 self) x;
  p5_out ← Torch.forward training (P5_conv1 self) x;
  p4_out ← (a ← Torch.forward training (P4_conv1 self) c4_out;
            b ← Torch.upsample2 p5_out; Torch.add a b);
  p3_out ← (a ← Torch.forward training (P3_conv1 self) c3_out;
            b ← Torch.upsample2 p4_out; Torch.add a b);
  p2_out ← (a ← Torch.forward training (P2_conv1 self) c2_out;
            b ← Torch.upsample2 p3_out; Torch.add a b);
  p5_out ← Torch.Sequential_forward training (P5_conv2 self) p5_out;
  p4_out ← Torch.Sequential_forward training (P4_conv2 self) p4_out;
  p3_out ← Torch.Sequential_forward training (P3_conv2 self) p3_out;
  p2_out ← Torch.Sequential_forward training (P2_conv2 self) p2_out;
  (* P6 is used for the 5th anchor scale in RPN. *)
  p6_out ← Torch.forward training (P6 self) p5_out;
  Return [p2_out; p3_out; p4_out; p5_out; p6_out].

End FPN.

(** *** [RPN] *)

Module RPN.

Record t : Type := Make {
  anchor_stride : nat;
  input_ch : nat;
  padding : Torch.layer;
  conv_shared : Torch.layer;
  relu : Torch.layer;
  conv_class : Torch.layer;
  softmax : Torch.layer;
  conv_bbox : Torch.layer;
}.

Definition __init__ (anchors_per_location anchor_stride input_ch : nat) : t :=
  Make anchor_stride input_ch
    (Torch.SamePad (SamePad2d.__init__ 3 (Z.of_nat anchor_stride)))
    (Torch.Conv2d input_ch 512 3 anchor_stride 0)
    Torch.ReLU
    (Torch.Conv2d 512 (2 * anchors_per_location) 1 1 0)
    (Torch.Softmax 2)
    (Torch.Conv2d 512 (4 * anchors_per_location) 1 1 0).

Definition forward (training : bool) (self : t) (x : Torch.shape)
  : outcome (list Torch.shape) :=
  (* Shared convolutional base of the RPN *)
  x ← Torch.forward training (padding self) x;
  x ← Torch.forward training (conv_shared self) x;
  x ← Torch.forward training (relu self) x;
  (* Anchor score *)
  rpn_class_logits ← Torch.forward training (conv_class self) x;
  rpn_class_logits ← Torch.permute_0231 rpn_class_logits;
  size0 ← match x with n :: _ => Return n | [] => Throw (Raised IndexError) end;
  rpn_class_logits ← Torch.view_a_m1_c rpn_class_logits size0 2;
  (* Softmax on last dimension of BG/FG. *)
  rpn_probs ← Torch.forward training (softmax self) rpn_class_logits;
  (* Bounding box refinement *)
  rpn_bbox ← Torch.forward training (conv_bbox self) x;
  rpn_bbox ← Torch.permute_0231 rpn_bbox;
  rpn_bbox ← Torch.view_a_m1_c rpn_bbox size0 4;
  Return [rpn_class_logits; rpn_probs; rpn_bbox].

End RPN.

(** *** [Dev.__init__]: the layers of the branch *)

Module DevNet.

Record t : Type := Make {
  depth : nat;
  config : Dev.config;
  upsample : option (list Torch.layer);
  feat_extract : option (list Torch.layer);
}.

Definition __init__ (config : Dev.config) (depth : nat) : outcome t :=
  if Dev.use_dev config then
    if negb (Dev.feat_pool_size config mod 2 =? 0)%nat then Throw AssertionError
    else if Qeq_bool (Dev.upsample_fac config) 2 then
      let upsample :=
        [Torch.ConvTranspose2d depth depth 3 2 1 1;
         Torch.BatchNorm2d depth (1 # 100000) (1 # 10);
         Torch.ReLU;
         Torch.Conv2d depth depth 3 1 1;
         Torch.BatchNorm2d depth (1 # 100000) (1 # 10);
         Torch.ReLU] in
      let _ksize := (Dev.feat_pool_size config / 2)%nat in
      let feat_extract :=
        [Torch.Conv2d depth 512 3 2 1;
         Torch.BatchNorm2d 512 (1 # 100000) (1 # 10);
         Torch.ReLU;
         Torch.Conv2d 512 1024 _ksize 1 0;
         Torch.BatchNorm2d 1024 (1 # 100000) (1 # 10);
         Torch.ReLU] in
      Return (Make depth config (Some upsample) (Some feat_extract))
    else Throw (Raised Exception)
  else Return (Make depth config None None).

(** [self.feat_extract(x).squeeze()], as [Dev.forward] calls it. *)
Definition extract (training : bool) (self : t) (x : Torch.shape) : outcome Torch.shape :=
  match feat_extract self with
  | Some layers =>
      y ← Torch.Sequential_forward training layers x; Return (Torch.squeeze y)
  | None => Throw (Raised AttributeError)
  end.

End DevNet.

(** *** [Classifier] *)

Module Classifier.

Record t : Type := Make {
  depth : nat;
  pool_size : nat;
  num_classes : nat;
  conv1 : Torch.layer;
  bn1 : Torch.layer;
  conv2 : Torch.layer;
  bn2 : Torch.layer;
  relu : Torch.layer;
  linear_class : Torch.layer;
  softmax : Torch.layer;
  linear_bbox : Torch.layer;
}.

Definition __init__ (depth num_classes pool_size : nat) : t :=
  Make depth pool_size num_classes
    (Torch.Conv2d depth 1024 pool_size 1 0)
    (Torch.BatchNorm2d 1024 (1 # 1000) (1 # 100))
    (Torch.Conv2d 1024 1024 1 1 0)
    (Torch.BatchNorm2d 1024 (1 # 1000) (1 # 100))
    Torch.ReLU
    (Torch.Linear 1024 num_classes)
    (Torch.Softmax 1)
    (Torch.Linear 1024 (num_classes * 4)).

Definition forward (training : bool) (self : t) (x : Torch.shape)
  : outcome (list Torch.shape) :=
  x ← Torch.forward training (conv1 self) x;
  x ← Torch.forward training (bn1 self) x;
  x ← Torch.forward training (relu self) x;
  x ← Torch.forward training (conv2 self) x;
  x ← Torch.forward training (bn2 self) x;
  x ← Torch.forward training (relu self) x;
  x ← Torch.view_m1_c x 1024;
  mrcnn_class_logits ← Torch.forward training (linear_class self) x;
  mrcnn_probs ← Torch.forward training (softmax self) mrcnn_class_logits;
  mrcnn_bbox ← Torch.forward training (linear_bbox self) x;
  size0 ← match mrcnn_bbox with n :: _ => Return n | [] => Throw (Raised IndexError) end;
  mrcnn_bbox ← Torch.view_a_m1_c mrcnn_bbox size0 4;
  Return [mrcnn_class_logits; mrcnn_probs; mrcnn_bbox].

End Classifier.

(** *** [Mask] *)

Module Mask.

Record t : Type := Make {
  depth : nat;
  num_classes : nat;
  padding : Torch.layer;
  conv1 : Torch.layer;
  bn1 : Torch.layer;
  conv2 : Torch.layer;
  bn2 : Torch.layer;
  conv3 : Torch.layer;
  bn3 : Torch.layer;
  conv4 : Torch.layer;
  bn4 : Torch.layer;
  deconv : Torch.layer;
  conv5 : Torch.layer;
  sigmoid : Torch.layer;
  relu : Torch.layer;
}.

Definition __init__ (depth num_classes : nat) : t :=
  Make depth num_classes
    (Torch.SamePad (SamePad2d.__init__ 3 1))
    (Torch.Conv2d depth 256 3 1 0)
    (Torch.BatchNorm2d 256 (1 # 1000) (1 # 10))
    (Torch.Conv2d 256 256 3 1 0)
    (Torch.BatchNorm2d 256 (1 # 1000) (1 # 10))
    (Torch.Conv2d 256 256 3 1 0)
    (Torch.BatchNorm2d 256 (1 # 1000) (1 # 10))
    (Torch.Conv2d 256 256 3 1 0)
    (Torch.BatchNorm2d 256 (1 # 1000) (1 # 10))
    (Torch.ConvTranspose2d 256 256 2 2 0 0)
    (Torch.Conv2d 256 num_classes 1 1 0)
    Torch.Sigmoid
    Torch.ReLU.

Definition forward (training : bool) (self : t) (x : Torch.shape) : outcome Torch.shape :=
  x ← Torch.forward training (padding self) x;
  x ← Torch.forward training (conv1 self) x;
  x ← Torch.forward training (bn1 self) x;
  x ← Torch.forward training (relu self) x;
  x ← Torch.forward training (padding self) x;
  x ← Torch.forward training (conv2 self) x;
  x ← Torch.forward training (bn2 self) x;
  x ← Torch.forward training (relu self) x;
  x ← Torch.forward training (padding self) x;
  x ← Torch.forward training (conv3 self) x;
  x ← Torch.forward training (bn3 self) x;
  x ← Torch.forward training (relu self) x;
  x ← Torch.forward training (padding self) x;
  x ← Torch.forward training (conv4 self) x;
  x ← Torch.forward training (bn4 self) x;
  x ← Torch.forward training (relu self) x;
  x ← Torch.forward training (deconv self) x;
  x ← Torch.forward training (relu self) x;
  x ← Torch.forward training (conv5 self) x;
  x ← Torch.forward training (sigmoid self) x;
  Return x.

End Mask.

(** ** The model [MaskRCNN] (lib/model.py) *)

Module MaskRCNN.

(** [EPS = 10e-20]. *)
Definition EPS : Q := 10 # 100000000000000000000.

(** *** The element type of the float tensors

    The model's tensors hold single-precision floats. The definitions below
    are written once over the arithmetic of the element type; the proofs
    read them over exact rationals, and [binary32] runs them with the
    rounding of the tensors. *)
Class Scalar (num : Type) : Type := {
  zero : num;
  eps : num;                     (* EPS in the element type *)
  add : num -> num -> num;
  sub : num -> num -> num;
  mul : num -> num -> num;
  div : num -> num -> num;
  is_zero : num -> bool;         (* what [torch.nonzero] leaves out *)
  of_count : nat -> num;
}.

#[global] Instance Q_scalar : Scalar Q := {|
  zero := 0%Q;
  eps := EPS;
  add := Qplus;
  sub := Qminus;
  mul := Qmult;
  div := Qdiv;
  is_zero := fun q => Qeq_bool q 0;
  of_count := fun n => inject_Z (Z.of_nat n);
|}.

(** IEEE 754 single precision, rounding to nearest even. *)
Definition binary32 : Type := spec_float.

Definition prec : Z := 24.
Definition emax : Z := 128.

(** An integer as a float. *)
Definition of_Z (z : Z) : binary32 := binary_normalize prec emax z 0 false.

(** [EPS] to the nearest float: [15474250 * 2^-87]. *)
Definition EPS32 : binary32 := S754_finite false 15474250 (-87).

#[global] Instance binary32_scalar : Scalar binary32 := {|
  zero := S754_zero false;
  eps := EPS32;
  add := SFadd prec emax;
  sub := SFsub prec emax;
  mul := SFmul prec emax;
  div := SFdiv prec emax;
  is_zero := fun x => match x with S754_zero _ => true | _ => false end;
  of_count := fun n => of_Z (Z.of_nat n);
|}.

(** *** Tensors

    [vec] has shape [cls_num]; [mat] has shape [feat_dim, cls_num] or
    [1, cls_num]; [ten3] adds the buffer slot (or scale) in front and [ten4]
    the device. *)
Abbreviation vec := (list Q).
Abbreviation mat := (list (list Q)).
Abbreviation ten3 := (list (list (list Q))).
Abbreviation ten4 := (list (list (list (list Q)))).

(** Broadcasting along one dimension: a dimension of size 1 is stretched
    to the size of the other operand. *)
Definition expand {A} (n : nat) (l : list A) : list A :=
  match l with
  | [a] => replicate n a
  | _ => l
  end.

Definition bzip {A B C} (f : A -> B -> C) (a : list A) (b : list B) : list C :=
  zip_with f (expand (length b) a) (expand (length a) b).

(** Elementwise binary operations at each rank. *)
Definition vop {A} (f : A -> A -> A) : list A -> list A -> list A := bzip f.
Definition mop {A} (f : A -> A -> A) := bzip (vop f).
Definition t3op {A} (f : A -> A -> A) := bzip (mop f).
Definition t4op {A} (f : A -> A -> A) := bzip (t3op f).

(** [torch.sum(t, dim=0)]. *)
Definition sum0 {A} (add : A -> A -> A) (empty : A) (t : list A) : A :=
  match t with
  | [] => empty
  | a :: t' => foldl add a t'
  end.

(** The running buffer of the model: [buffer] of shape
    [buffer_size, 1024, 81] and [buffer_cnt] of shape [buffer_size, 1, 81]. *)
Record state (num : Type) : Type := State {
  buffer : list (list (list num));
  buffer_cnt : list (list (list num));
}.
Arguments State {num} _ _.
Arguments buffer {num} _.
Arguments buffer_cnt {num} _.

(** [feat_input]. *)
Record feat_input (num : Type) : Type := FeatInput {
  big_feat : list (list (list (list num)));
  big_cnt : list (list (list (list num)));
  small_feat : list (list (list (list num)));
  small_cnt : list (list (list (list num)));
}.
Arguments FeatInput {num} _ _ _ _.
Arguments big_feat {num} _.
Arguments big_cnt {num} _.
Arguments small_feat {num} _.
Arguments small_cnt {num} _.

Section Arith.
Context {num : Type} {scalar : Scalar num}.

(** [t + EPS]. *)
Definition madd_eps (t : list (list num)) : list (list num) :=
  map (map (fun q => add q eps)) t.
Definition t3add_eps (t : list (list (list num))) : list (list (list num)) :=
  map madd_eps t.

Definition t4sum0 (t : list (list (list (list num)))) : list (list (list num)) :=
  sum0 (t3op add) [] t.
Definition t3sum0 (t : list (list (list num))) : list (list num) :=
  sum0 (mop add) [] t.

(** *** [MaskRCNN._merge_feat_vec] *)

Definition _merge_feat_vec (box_feat box_cnt : list (list (list (list num))))
  : list (list num) * list (list num) :=
  let feat_avg_sum := t4op mul box_feat box_cnt in
  let feat_avg_sum := t3sum0 (t4sum0 feat_avg_sum) in   (* 1024 x 81 *)
  let cnt_sum := t3sum0 (t4sum0 box_cnt) in             (* 1 x 81 *)
  let feat_avg_sum := mop div feat_avg_sum (madd_eps cnt_sum) in
  (feat_avg_sum, cnt_sum).

(** *** [MaskRCNN.meta_loss] *)

(** [torch.nonzero(v).squeeze()] on a vector: the positions of its nonzero
    entries, in order. *)
Fixpoint nonzero_from (k : nat) (v : list num) : list nat :=
  match v with
  | [] => []
  | q :: v' => (if is_zero q then [] else [k]) ++ nonzero_from (S k) v'
  end.

Definition nonzero (v : list num) : list nat := nonzero_from 0 v.

(** [t[:, _idx].t()]: one row per selected class, holding its column. *)
Definition columns (t : list (list num)) (_idx : list nat) : list (list num) :=
  map (fun k => map (fun row => default zero (row !! k)) t) _idx.

(** [nn.MSELoss()]: the mean of the squared differences. *)
Definition sumsq (a b : list (list num)) : num :=
  foldr add zero
    (map (fun ab : list num * list num =>
            foldr add zero (zip_with (fun p q => mul (sub p q) (sub p q)) ab.1 ab.2))
         (zip a b)).

Definition numel (a : list (list num)) : nat := length (concat a).

Definition MSELoss (a b : list (list num)) : num :=
  div (sumsq a b) (of_count (numel a)).

(** [self.criterion]; it is assigned only when [DEV.LOSS_CHOICE] is ['l2']. *)
Variable criterion : option (list (list num) -> list (list num) -> num).

(** The call returns its loss or raises; either way the model is left as
    the statements executed so far have made it. The emptiness test
    [if _idx.size()] is that of the tensors of the source's torch version,
    where only an empty index tensor has an empty size. *)
Definition meta_loss (self : state num) (feat_input : feat_input num)
  : result num * state num :=
  (* final_small_feat, 1024 x 81; final_small_cnt, 1 x 81 *)
  let '(final_small_feat, final_small_cnt) :=
    _merge_feat_vec (small_feat feat_input) (small_cnt feat_input) in
  let '(_big_feat, _big_cnt) :=
    _merge_feat_vec (big_feat feat_input) (big_cnt feat_input) in
  (* update buffer (buffer_size x 1024 x 81) *)
  let buffer_size := length (buffer self) in
  let updated : result (state num * list (list num)) :=
    if (buffer_size =? 1)%nat then
      (* use all historic data *)
      let feat_sum :=
        t3op add (t3op mul (buffer self) (buffer_cnt self))
                 (t3op mul [_big_feat] [_big_cnt]) in
      let buffer_cnt' := t3op add (buffer_cnt self) [_big_cnt] in
      let buffer' := t3op div feat_sum (t3add_eps buffer_cnt') in
      Ok (State buffer' buffer_cnt', hd [] buffer')
    else if (buffer_size =? 0)%nat then
      (* self.buffer[-1, :, :] on a buffer without slots *)
      Raise IndexError
    else
      (* in-place opt. on Tensor *)
      let buffer' := tail (buffer self) ++ [_big_feat] in
      let buffer_cnt' := tail (buffer_cnt self) ++ [_big_cnt] in
      let final_big_feat :=
        mop div (t3sum0 (t3op mul buffer' buffer_cnt'))
                (madd_eps (t3sum0 buffer_cnt')) in
      Ok (State buffer' buffer_cnt', final_big_feat) in
  match updated with
  | Raise e => (Raise e, self)
  | Ok (self', final_big_feat) =>
      (((* final_small_cnt.data[0][0] = 0 *)
        row ← or_raise (final_small_cnt !! 0%nat) IndexError;
        _ ← or_raise (row !! 0%nat) IndexError;
        let final_small_cnt := <[0%nat := <[0%nat := zero]> row]> final_small_cnt in
        let _idx := nonzero (hd [] final_small_cnt) in
        match _idx with
        | [] => Ok zero
        | _ =>
            let SMALL := columns final_small_feat _idx in
            let BIG := columns final_big_feat _idx in
            (* compute meta-loss *)
            crit ← or_raise criterion AttributeError;
            Ok (crit SMALL BIG)
        end),
       self')
  end.

(** [n] consecutive training steps that feed the same [feat_input], up to
    the first that raises: the losses in order, and the buffer left
    behind. *)
Fixpoint steps (n : nat) (self : state num) (feat_input : feat_input num)
  : result (list num) * state num :=
  match n with
  | O => (Ok [], self)
  | S n' =>
      match meta_loss self feat_input with
      | (Ok loss, self1) =>
          match steps n' self1 feat_input with
          | (Ok losses, self') => (Ok (loss :: losses), self')
          | (Raise e, self') => (Raise e, self')
          end
      | (Raise e, self1) => (Raise e, self1)
      end
  end.

End Arith.

(** *** [MaskRCNN.adjust_input_gt] *)

(** The masks of one image: a numpy array of shape [n, mask_h, mask_w]. *)
Record mask_array : Type := MaskArray {
  mask_h : nat;
  mask_w : nat;
  mask_items : ten3;
}.

(** [max(l)] of Python. *)
Definition pymax (l : list nat) : result nat :=
  match l with
  | [] => Raise ValueError
  | a :: l' => Ok (foldl Nat.max a l')
  end.

(** [T[i, :k] = src]: the source must have [k] entries of the shape of the
    destination's entries. *)
Definition setitem_prefix {A} (ok : A -> bool) (T : list (list A)) (i k : nat)
    (src : list A) : result (list (list A)) :=
  row ← or_raise (T !! i) IndexError;
  if (length src =? k)%nat && forallb ok src
  then Ok (<[i := src ++ drop k row]> T)
  else Raise RuntimeError.

(** The padded tensors while the loop runs. *)
Record padded : Type := Padded {
  GT_CLS_IDS : mat;    (* bs, max_gt_num *)
  GT_BOXES : ten3;     (* bs, max_gt_num, 4 *)
  GT_MASKS : ten4;     (* bs, max_gt_num, mask_shape, mask_shape *)
}.

(** The body of [for i in range(bs)]. *)
Definition pad_image (gt_cls_ids : list (list Z)) (gt_boxes : list mat)
    (gt_masks : list mask_array) (gt_num : list nat) (mask_shape : nat)
    (p : padded) (i : nat) : result padded :=
  n ← or_raise (gt_num !! i) IndexError;
  cls ← or_raise (gt_cls_ids !! i) IndexError;
  ids ← setitem_prefix (fun _ => true) (GT_CLS_IDS p) i n (map inject_Z cls);
  boxes ← or_raise (gt_boxes !! i) IndexError;
  bxs ← setitem_prefix (fun r : vec => (length r =? 4)%nat) (GT_BOXES p) i n boxes;
  masks ← or_raise (gt_masks !! i) IndexError;
  mks ← (if (mask_h masks =? mask_shape)%nat && (mask_w masks =? mask_shape)%nat
         then setitem_prefix (fun _ => true) (GT_MASKS p) i n (mask_items masks)
         else Raise RuntimeError);
  Ok (Padded ids bxs mks).

Fixpoint pad_images (gt_cls_ids : list (list Z)) (gt_boxes : list mat)
    (gt_masks : list mask_array) (gt_num : list nat) (mask_shape : nat)
    (range : list nat) (p : padded) : result padded :=
  match range with
  | [] => Ok p
  | i :: range' =>
      p' ← pad_image gt_cls_ids gt_boxes gt_masks gt_num mask_shape p i;
      pad_images gt_cls_ids gt_boxes gt_masks gt_num mask_shape range' p'
  end.

Definition adjust_input_gt (gt_cls_ids : list (list Z)) (gt_boxes : list mat)
    (gt_masks : list mask_array) : result (padded * list nat) :=
  let gt_num := map length gt_cls_ids in
  max_gt_num ← pymax gt_num;
  let bs := length gt_cls_ids in
  first ← or_raise (gt_masks !! 0%nat) IndexError;
  let mask_shape := mask_h first in
  let ids := replicate bs (replicate max_gt_num 0%Q) in
  let boxes := replicate bs (replicate max_gt_num (replicate 4 0%Q)) in
  let masks :=
    replicate bs
      (replicate max_gt_num (replicate mask_shape (replicate mask_shape 0%Q))) in
  p ← pad_images gt_cls_ids gt_boxes gt_masks gt_num mask_shape (seq 0 bs)
        (Padded ids boxes masks);
  Ok (p, gt_num).

(** *** [MaskRCNN.forward] *)

Abbreviation ten5 := (list (list (list (list (list Q))))).

Record config : Type := Config {
  POST_NMS_ROIS_INFERENCE : nat;   (* config.RPN.POST_NMS_ROIS_INFERENCE *)
  POST_NMS_ROIS_TRAINING : nat;    (* config.RPN.POST_NMS_ROIS_TRAINING *)
  TRAIN_ROIS_PER_IMAGE : nat;      (* config.ROIS.TRAIN_ROIS_PER_IMAGE *)
  MASK_SHAPE : nat;                (* config.MRCNN.MASK_SHAPE[0] *)
  NUM_CLASSES : nat;               (* config.DATASET.NUM_CLASSES *)
  DEV : Dev.config;                (* config.DEV, config.MRCNN pool sizes, image shape *)
}.

(** [torch.zeros] at ranks 3 to 5. *)
Definition zeros3 (a b c : nat) : ten3 := replicate a (replicate b (replicate c 0%Q)).
Definition zeros4 (a b c d : nat) : ten4 := replicate a (zeros3 b c d).
Definition zeros5 (a b c d e : nat) : ten5 := replicate a (zeros4 b c d e).

(** [torch.sum(_rois)]. *)
Definition sum_box (b : Dev.box) : Q := (Dev.y1 b + Dev.x1 b + Dev.y2 b + Dev.x2 b)%Q.
Definition sum_rois (rois : list (list Dev.box)) : Q :=
  foldr Qplus 0%Q (map (fun row => foldr Qplus 0%Q (map sum_box row)) rois).

(** [t.view(sample_per_gpu, -1, ...)]: the rows split into [bs] groups of
    equal size. *)
Fixpoint chunks {A} (size : nat) (groups : nat) (l : list A) : list (list A) :=
  match groups with
  | O => []
  | S groups' => take size l :: chunks size groups' (drop size l)
  end.

Definition view {A} (bs : nat) (l : list A) : result (list (list A)) :=
  if (bs =? 0)%nat then Raise RuntimeError
  else if (length l mod bs =? 0)%nat then Ok (chunks (length l / bs) bs l)
  else Raise RuntimeError.

(** [torch.stack(losses, dim=1)]: every loss has one entry per sample. *)
Definition stack_dim1 (losses : list (list Q)) : result (list (list Q)) :=
  match losses with
  | [] => Raise RuntimeError
  | l :: _ =>
      if forallb (fun l' => (length l' =? length l)%nat) losses
      then Ok (imap (fun i _ => map (fun l' => default 0%Q (l' !! i)) losses) l)
      else Raise RuntimeError
  end.

(** [detections[:, :, :4] / scale] with [scale = (h, w, h, w)]. *)
Definition normalize_box (shape : Z * Z) (row : list Q) : Dev.box :=
  Dev.Box (default 0%Q (row !! 0%nat) / inject_Z shape.1)
          (default 0%Q (row !! 1%nat) / inject_Z shape.2)
          (default 0%Q (row !! 2%nat) / inject_Z shape.1)
          (default 0%Q (row !! 3%nat) / inject_Z shape.2).

(** [gt_boxes / scale]. *)
Definition normalize_gt (shape : Z * Z) (gt_boxes : ten3) : ten3 :=
  map (map (fun row =>
         [default 0%Q (row !! 0%nat) / inject_Z shape.1;
          default 0%Q (row !! 1%nat) / inject_Z shape.2;
          default 0%Q (row !! 2%nat) / inject_Z shape.1;
          default 0%Q (row !! 3%nat) / inject_Z shape.2]%Q)) gt_boxes.

Section Forward.
(** The collaborators: backbone, region-proposal trunk, proposal and
    detection layers, target assignment, heads and loss functions. The heads
    and the pooling may raise. *)
Variables images metas tensor rpn_targets : Type.
Variable fmap : Type.
Variable descs : Type.
Variable crop_and_resize : nat -> nat -> fmap -> Dev.box -> nat -> Dev.patch.
Variable upsample : fmap -> fmap.
Variable feat_extract : list Dev.patch -> descs.
Variable pyramid_roi_align : list (list Dev.box) -> list fmap -> nat -> list Dev.patch.
Variable raw_level : Dev.box -> Z.
Variable batch_size : images -> nat.
Variable fpn : images -> list fmap.
Variable rpn : fmap -> tensor * tensor * tensor.
Variable cat1 : list tensor -> tensor.
Variable proposal_layer : tensor -> tensor -> nat -> list (list Dev.box).
Variable parse_image_meta : metas -> tensor.
Variable detection_layer :
  list (list Dev.box) -> mat -> ten3 -> tensor -> ten3.
Variable classifier : list Dev.patch -> result (mat * mat * ten3).
Variable mask : list Dev.patch -> result ten4.
Variable prepare_rpn_target : mat -> ten3 -> rpn_targets * tensor.
Variable prepare_det_target :
  list (list Dev.box) -> mat -> ten3 -> ten4 ->
  list (list Dev.box) * list (list Z) * ten4 * ten4.
Variable compute_rpn_class_loss : rpn_targets -> tensor -> list Q.
Variable compute_rpn_bbox_loss : tensor -> rpn_targets -> tensor -> list Q.
Variable compute_mrcnn_class_loss : list (list Z) -> ten3 -> list Q.
Variable compute_mrcnn_bbox_loss : ten4 -> list (list Z) -> ten4 -> list Q.
Variable compute_mrcnn_mask_loss : ten4 -> list (list Z) -> ten5 -> list Q.
Variable cfg : config.

(** [input]. *)
Record input : Type := Input {
  molded_images : images;
  image_metas : metas;
  gt_class_ids : mat;
  gt_boxes : ten3;
  gt_masks : ten4;
}.

(** The meta outputs of the train path: the zero tensors it starts from,
    or the four values unpacked from the router's [feat_out]. *)
Inductive meta_out : Type :=
| MetaZeros (big_feat big_cnt small_feat small_cnt : ten4)
| MetaRouted (big_feat big_cnt small_feat small_cnt : Dev.feat_rec descs).

Inductive output : Type :=
| Detections (detections : ten3) (mrcnn_mask : ten5)
| Losses (loss_merge : list (list Q)) (meta : meta_out).

Definition dev_roi :=
  Dev.forward fmap descs crop_and_resize upsample feat_extract pyramid_roi_align
    raw_level (DEV cfg).

Definition forward (input : input) (mode : string) : Dev.M output :=
  let sample_per_gpu := batch_size (molded_images input) in
  (* set model state *)
  _proposal_cnt ←
    Dev.lift (if String.eqb mode "inference" then Ok (POST_NMS_ROIS_INFERENCE cfg)
              else if String.eqb mode "train" then Ok (POST_NMS_ROIS_TRAINING cfg)
              else Raise Exception);
  (* Feature extraction *)
  maps ← Dev.lift (match fpn (molded_images input) with
                   | [p2; p3; p4; p5; p6] => Ok (p2, p3, p4, p5, p6)
                   | _ => Raise ValueError
                   end);
  let '(p2_out, p3_out, p4_out, p5_out, p6_out) := maps in
  let _rpn_feature_maps := [p2_out; p3_out; p4_out; p5_out; p6_out] in
  let _mrcnn_feature_maps := [p2_out; p3_out; p4_out; p5_out] in
  let layer_outputs := map rpn _rpn_feature_maps in
  let rpn_pred_cls_logits := cat1 (map (fun o => o.1.1) layer_outputs) in
  let _rpn_class_score := cat1 (map (fun o => o.1.2) layer_outputs) in
  let rpn_pred_bbox := cat1 (map (fun o => o.2) layer_outputs) in
  (* Generate proposals *)
  let _proposals := proposal_layer _rpn_class_score rpn_pred_bbox _proposal_cnt in
  if String.eqb mode "inference" then
    proposals_ref ← Dev.alloc (Dev.Rois _proposals);
    pooled ← dev_roi _mrcnn_feature_maps proposals_ref None;
    heads ← Dev.lift (classifier pooled.1.1);
    let '(_, mrcnn_class, mrcnn_bbox) := heads in
    (* Detections *)
    let windows := parse_image_meta (image_metas input) in
    let detections :=
      detection_layer _proposals mrcnn_class mrcnn_bbox windows in
    (* Convert boxes to normalized coordinates *)
    let normalize_boxes :=
      map (map (normalize_box (Dev.image_shape (DEV cfg)))) detections in
    (* Create masks for detections *)
    boxes_ref ← Dev.alloc (Dev.Rois normalize_boxes);
    pooled ← dev_roi _mrcnn_feature_maps boxes_ref None;
    mrcnn_mask ← Dev.lift (mask pooled.1.2);
    mrcnn_mask ← Dev.lift (view sample_per_gpu mrcnn_mask);
    mret (Detections detections mrcnn_mask)
  else
    (* 0. init outputs *)
    let num_rois := TRAIN_ROIS_PER_IMAGE cfg in
    let mask_sz := MASK_SHAPE cfg in
    let num_cls := NUM_CLASSES cfg in
    let mrcnn_class_logits := zeros3 sample_per_gpu num_rois num_cls in
    let mrcnn_bbox := zeros4 sample_per_gpu num_rois num_cls 4 in
    let mrcnn_mask := zeros5 sample_per_gpu num_rois num_cls mask_sz mask_sz in
    let meta :=
      MetaZeros (zeros4 1 2 1024 num_cls) (zeros4 1 2 1 num_cls)
                (zeros4 1 2 1024 num_cls) (zeros4 1 2 1 num_cls) in
    (* 1. compute RPN targets *)
    let '(target_rpn_match, target_rpn_bbox) :=
      prepare_rpn_target (gt_class_ids input) (gt_boxes input) in
    (* 2. compute DET targets *)
    let '(_rois, target_class_ids, target_deltas, target_mask) :=
      prepare_det_target _proposals (gt_class_ids input)
        (normalize_gt (Dev.image_shape (DEV cfg)) (gt_boxes input)) (gt_masks input) in
    (* 3. mask and cls generation *)
    preds ←
      (if negb (Qeq_bool (sum_rois _rois) 0) then
         rois_ref ← Dev.alloc (Dev.Rois _rois);
         pooled ← dev_roi _mrcnn_feature_maps rois_ref (Some target_class_ids);
         let '(_pooled_cls, _pooled_mask, _feat_out) := pooled in
         meta ←
           Dev.lift (if Dev.use_dev (DEV cfg) then
                       match _feat_out with
                       | Some [a; b; c; d] => Ok (MetaRouted a b c d)
                       | Some _ => Raise ValueError
                       | None => Raise TypeError
                       end
                     else Ok meta);
         (* classifier *)
         heads ← Dev.lift (classifier _pooled_cls);
         let '(mrcnn_cls_logits, _, mrcnn_bbox) := heads in
         (* mask *)
         mrcnn_mask ← Dev.lift (mask _pooled_mask);
         (* reshape output *)
         mrcnn_class_logits ← Dev.lift (view sample_per_gpu mrcnn_cls_logits);
         mrcnn_bbox ← Dev.lift (view sample_per_gpu mrcnn_bbox);
         mrcnn_mask ← Dev.lift (view sample_per_gpu mrcnn_mask);
         mret (mrcnn_class_logits, mrcnn_bbox, mrcnn_mask, meta)
       else mret (mrcnn_class_logits, mrcnn_bbox, mrcnn_mask, meta));
    let '(mrcnn_class_logits, mrcnn_bbox, mrcnn_mask, meta) := preds in
    (* 4. compute loss *)
    let rpn_class_loss := compute_rpn_class_loss target_rpn_match rpn_pred_cls_logits in
    let rpn_bbox_loss :=
      compute_rpn_bbox_loss target_rpn_bbox target_rpn_match rpn_pred_bbox in
    let mrcnn_class_loss := compute_mrcnn_class_loss target_class_ids mrcnn_class_logits in
    let mrcnn_bbox_loss :=
      compute_mrcnn_bbox_loss target_deltas target_class_ids mrcnn_bbox in
    let mrcnn_mask_loss :=
      compute_mrcnn_mask_loss target_mask target_class_ids mrcnn_mask in
    loss_merge ←
      Dev.lift (stack_dim1 [rpn_class_loss; rpn_bbox_loss; mrcnn_class_loss;
                            mrcnn_bbox_loss; mrcnn_mask_loss]);
    mret (Losses loss_merge meta).

End Forward.

(** *** [MaskRCNN._build] *)

(** The entries of the configuration that only [_build] reads. *)
Record build_config : Type := BuildConfig {
  BACKBONE : string;             (* config.MODEL.BACKBONE *)
  ANCHOR_RATIOS : list Q;        (* config.RPN.ANCHOR_RATIOS *)
  ANCHOR_STRIDE : nat;           (* config.RPN.ANCHOR_STRIDE *)
  LOSS_CHOICE : string;          (* config.DEV.LOSS_CHOICE *)
}.

(** The attributes [_build] sets; [criterion] is set on one path only. *)
Module Model.
Record t (anchors : Type) : Type := Make {
  fpn : FPN.t;
  priors : anchors;
  rpn : RPN.t;
  dev_roi : DevNet.t;
  criterion : option (mat -> mat -> Q);
  classifier : Classifier.t;
  mask : Mask.t;
}.
Arguments Make {anchors}.
Arguments fpn {anchors}.
Arguments priors {anchors}.
Arguments rpn {anchors}.
Arguments dev_roi {anchors}.
Arguments criterion {anchors}.
Arguments classifier {anchors}.
Arguments mask {anchors}.
End Model.

(** [int(q)]: towards zero. *)
Definition int (q : Q) : Z := if Qle_bool 0 q then Qfloor q else Qceiling q.

(** [x / 2**6 != int(x / 2**6)]; the quotient of an image side by 64 is
    exact in floating point. *)
Definition fraction (x : Z) : bool :=
  negb (Qeq_bool (inject_Z x / inject_Z (2 ^ 6)) (inject_Z (int (inject_Z x / inject_Z (2 ^ 6))))).

Section Build.

(** The anchors come from [generate_pyramid_priors] of lib/workflow.py. *)
Variable anchors : Type.
Variable generate_pyramid_priors : config -> build_config -> outcome anchors.

Definition _build (config : config) (options : build_config) : outcome (Model.t anchors) :=
  (* Image size must be dividable by 2 multiple times *)
  let '(h, w) := Dev.image_shape (DEV config) in
  if fraction h || fraction w then Throw (Raised Exception)
  else
    resnet ← ResNet.__init__ (BACKBONE options) true;
    match ResNet.stages resnet with
    | [C1; C2; C3; C4; C5] =>
        let fpn := FPN.__init__ C1 C2 C3 C4 C5 256 in
        priors ← generate_pyramid_priors config options;
        let rpn := RPN.__init__ (length (ANCHOR_RATIOS options)) (ANCHOR_STRIDE options) 256 in
        dev_roi ← DevNet.__init__ (DEV config) 256;
        let criterion :=
          if Dev.use_dev (DEV config) && String.eqb (LOSS_CHOICE options) "l2"
          then Some (MSELoss (num := Q)) else None in
        let classifier :=
          Classifier.__init__ 256 (NUM_CLASSES config) (Dev.pool_size (DEV config)) in
        let mask := Mask.__init__ 256 (NUM_CLASSES config) in
        Return (Model.Make fpn priors rpn dev_roi criterion classifier mask)
    | _ => Throw (Raised ValueError)
    end.

End Build.

(** *** The region proposals of [MaskRCNN.forward]

    The first steps of [forward] on shapes: the pyramid, the
    region-proposal trunk on each of its five maps, and the outputs
    concatenated across the maps. *)

(** [zip] of the unpacked list: entry [k] collects the entries [k], up
    to the shortest length. *)
Definition zip_unpacked {A} (ls : list (list A)) : list (list A) :=
  match ls with
  | [] => []
  | l :: ls' =>
      map (fun k => omap (fun o => o !! k) ls)
          (seq 0 (foldr Nat.min (length l) (map length ls')))
  end.

Definition rpn_outputs (training : bool) (fpn : FPN.t) (rpn : RPN.t)
    (molded_images : Torch.shape) : outcome (Torch.shape * Torch.shape * Torch.shape) :=
  (* Feature extraction *)
  maps ← FPN.forward training fpn molded_images;
  match maps with
  | [p2_out; p3_out; p4_out; p5_out; p6_out] =>
      let _rpn_feature_maps := [p2_out; p3_out; p4_out; p5_out; p6_out] in
      (* Loop through pyramid layers *)
      layer_outputs ← mapM (RPN.forward training rpn) _rpn_feature_maps;
      (* Concatenate rpn layer outputs *)
      let outputs := zip_unpacked layer_outputs in
      outputs ← mapM Torch.cat_dim1 outputs;
      match outputs with
      | [rpn_pred_cls_logits; _rpn_class_score; rpn_pred_bbox] =>
          Return (rpn_pred_cls_logits, _rpn_class_score, rpn_pred_bbox)
      | _ => Throw (Raised ValueError)
      end
  | _ => Throw (Raised ValueError)
  end.

(** *** [MaskRCNN.set_trainable] *)

Section Trainable.

(** [bool(re.fullmatch(layer_regex, layer_name))] and [print_log] of the
    library. *)
Variable fullmatch : string -> string -> bool.
Variable log : Type.
Variable print_log : string -> log -> log.

(** A named parameter: its name and its [requires_grad]. *)
Record parameter : Type := Named {
  name : string;
  requires_grad : bool;
}.

Definition tab : string := String (Ascii.ascii_of_nat 9) EmptyString.

Definition log_line (param : parameter) : string :=
  (tab ++ "layer name: " ++ name param ++ tab ++ tab ++ "reguires_grad: "
   ++ (if requires_grad param then "True" else "False"))%string.

Definition set_trainable (layer_regex : string) (named_parameters : list parameter)
    (log_file : log) : list parameter * log :=
  let named_parameters :=
    map (fun param : parameter =>
           let layer_name := name param in
           let trainable := fullmatch layer_regex layer_name in
           if negb trainable then Named (name param) false else param)
        named_parameters in
  (named_parameters,
   foldl (fun log_file param => print_log (log_line param) log_file) log_file
     named_parameters).

End Trainable.

End MaskRCNN.
(** * Proofs *)

(** ** Tensor shapes *)

Lemma lookup2_Some_lt {A} (t : list (list A)) bs n i j a :
  rect bs n t -> lookup2 t i j = Some a -> (i < bs)%nat /\ (j < n)%nat.
Proof.
  intros [Hl Hr] H. unfold lookup2 in H.
  destruct (t !! i) as [row|] eqn:Ei; simpl in H; [|done].
  split.
  - rewrite <- Hl. by eapply lookup_lt_Some.
  - rewrite Forall_lookup in Hr. rewrite <- (Hr _ _ Ei). by eapply lookup_lt_Some.
Qed.

Lemma lookup2_lt_is_Some {A} (t : list (list A)) bs n i j :
  rect bs n t -> (i < bs)%nat -> (j < n)%nat -> is_Some (lookup2 t i j).
Proof.
  intros [Hl Hr] Hi Hj. unfold lookup2.
  destruct (lookup_lt_is_Some_2 t i) as [row Ei]; [lia|].
  rewrite Ei. simpl. apply lookup_lt_is_Some_2.
  rewrite Forall_lookup in Hr. by rewrite (Hr _ _ Ei).
Qed.

(** ** The scale router *)

Lemma lookup2_eq_scalar t v i j :
  lookup2 (Dev.eq_scalar t v) i j =
  (fun l => if l =? v then 1 else 0) <$> lookup2 t i j.
Proof.
  unfold lookup2, Dev.eq_scalar. rewrite list_lookup_fmap.
  destruct (t !! i) as [row|]; simpl; [|done].
  by rewrite list_lookup_fmap.
Qed.

Lemma lookup2_byte_add a b i j :
  lookup2 (Dev.byte_add a b) i j =
  match lookup2 a i j, lookup2 b i j with
  | Some p, Some q => Some ((p + q) mod 256)
  | _, _ => None
  end.
Proof.
  unfold lookup2, Dev.byte_add. rewrite lookup_zip_with.
  destruct (a !! i) as [ra|]; simpl; [|done].
  destruct (b !! i) as [rb|]; simpl; [|by destruct (ra !! j)].
  rewrite lookup_zip_with.
  destruct (ra !! j); simpl; [|done]. by destruct (rb !! j).
Qed.

(** C5. [_find_big_box] flags, among the ROIs carrying a pyramid level
    (2 to 5), exactly those of level 4 or 5 when called for level 2, those
    of level 5 when called for level 3, and none for any other level. *)
Theorem find_big_box_flags (level : Z) (roi_level : list (list Z)) (i s : nat) (l : Z) :
  lookup2 roi_level i s = Some l ->
  2 <= l <= 5 ->
  Dev.flagged (Dev._find_big_box level roi_level) i s <->
  (level = 2 /\ (l = 4 \/ l = 5)) \/ (level = 3 /\ l = 5).
Proof.
  intros Hl Hrange. unfold Dev.flagged, Dev._find_big_box.
  destruct (Z.eqb_spec level 2) as [->|H2]; [|destruct (Z.eqb_spec level 3) as [->|H3]].
  - rewrite lookup2_byte_add, !lookup2_eq_scalar, Hl. simpl. split.
    + intros (v & Hv & Hnz). left. split; [done|].
      destruct (Z.eqb_spec l 4); [by left|].
      destruct (Z.eqb_spec l 5); [by right|]. by simplify_eq/=.
    + intros [[_ [-> | ->]] | [? _]]; [| |done]; eexists; split; try reflexivity; done.
  - rewrite lookup2_eq_scalar, Hl. simpl. split.
    + intros (v & Hv & Hnz). right. split; [done|].
      destruct (Z.eqb_spec l 5); [done|]. by simplify_eq/=.
    + intros [[? _] | [_ ->]]; [done|]. eexists; split; try reflexivity; done.
  - rewrite lookup2_eq_scalar, Hl. simpl. split.
    + intros (v & Hv & Hnz). destruct (Z.eqb_spec l (-1)); [lia|]. by simplify_eq/=.
    + intros [[? _] | [? _]]; done.
Qed.

Lemma find_big_box_flags_witness :
  Dev.flagged (Dev._find_big_box 2 [[2; 4]; [5; 3]]) 1 0 <->
  (2 = 2 /\ (5 = 4 \/ 5 = 5)) \/ (2 = 3 /\ 5 = 5).
Proof. apply (find_big_box_flags 2 [[2; 4]; [5; 3]] 1 0 5); [reflexivity | lia]. Defined.

(** *** Facts on byte and index tensors *)

Lemma elem_of_nonzero_row i j row a b :
  (a, b) ∈ Dev.nonzero_row i j row <->
  a = i /\ (j <= b)%nat /\ exists v, row !! (b - j)%nat = Some v /\ v <> 0.
Proof.
  revert j. induction row as [|v row IH]; intros j; simpl.
  - split; [by intros ?%elem_of_nil|]. by intros (_ & _ & ? & ? & _).
  - rewrite elem_of_app, IH. split.
    + intros [H | (-> & Hj & w & Hw & Hnz)].
      * destruct (Z.eqb_spec v 0); [by apply elem_of_nil in H|].
        apply list_elem_of_singleton in H as [= -> ->].
        split; [done|]. split; [done|]. exists v. by rewrite Nat.sub_diag.
      * split; [done|]. split; [lia|]. exists w. split; [|done].
        by replace (b - j)%nat with (S (b - S j)) by lia.
    + intros (-> & Hj & w & Hw & Hnz).
      destruct (decide (b = j)) as [->|Hne].
      * left. rewrite Nat.sub_diag in Hw. simplify_eq/=.
        destruct (Z.eqb_spec w 0); [done|]. by apply list_elem_of_singleton.
      * right. split; [done|]. split; [lia|]. exists w. split; [|done].
        by replace (b - j)%nat with (S (b - S j)) in Hw by lia.
Qed.

Lemma elem_of_nonzero_from i t a b :
  (a, b) ∈ Dev.nonzero_from i t <->
  (i <= a)%nat /\ Dev.flagged t (a - i) b.
Proof.
  revert i. induction t as [|row t IH]; intros i; simpl.
  - split; [by intros ?%elem_of_nil|]. by intros (_ & ? & ? & _).
  - rewrite elem_of_app, IH, elem_of_nonzero_row. unfold Dev.flagged, lookup2. split.
    + intros [(-> & _ & v & Hv & Hnz) | (Hi & v & Hv & Hnz)].
      * split; [done|]. exists v. rewrite Nat.sub_diag. simpl.
        by rewrite Nat.sub_0_r in Hv.
      * split; [lia|]. exists v. split; [|done].
        by replace (a - i)%nat with (S (a - S i)) by lia.
    + intros (Hi & v & Hv & Hnz).
      destruct (decide (a = i)) as [->|Hne].
      * left. rewrite Nat.sub_diag in Hv. simpl in Hv.
        split; [done|]. split; [lia|]. exists v. by rewrite Nat.sub_0_r.
      * right. split; [lia|]. exists v. split; [|done].
        by replace (a - i)%nat with (S (a - S i)) in Hv by lia.
Qed.

Lemma elem_of_nonzero t p :
  p ∈ Dev.nonzero t <-> Dev.flagged t p.1 p.2.
Proof.
  destruct p as [a b]. unfold Dev.nonzero. rewrite elem_of_nonzero_from. simpl.
  rewrite Nat.sub_0_r. split; [by intros [_ ?]|]. intros ?; split; [lia|done].
Qed.

Lemma any_true t : Dev.any t = true <-> exists i j, Dev.flagged t i j.
Proof.
  unfold Dev.any, Dev.flagged, lookup2. rewrite existsb_exists. split.
  - intros (row & Hrow & Hex). apply existsb_exists in Hex as (v & Hv & Hnz).
    apply list_elem_of_In, list_elem_of_lookup in Hrow as [i Hi].
    apply list_elem_of_In, list_elem_of_lookup in Hv as [j Hj].
    exists i, j, v. rewrite Hi. simpl. split; [done|].
    by destruct (Z.eqb_spec v 0).
  - intros (i & j & v & Hv & Hnz).
    destruct (t !! i) as [row|] eqn:Hi; simpl in Hv; [|done].
    exists row. split; [apply list_elem_of_In; by eapply list_elem_of_lookup_2|].
    apply existsb_exists. exists v.
    split; [apply list_elem_of_In; by eapply list_elem_of_lookup_2|].
    by destruct (Z.eqb_spec v 0).
Qed.

Lemma any_false_nonzero t : Dev.any t = false -> Dev.nonzero t = [].
Proof.
  intros Hany. destruct (Dev.nonzero t) as [|p l] eqn:E; [done|].
  assert (Hp : p ∈ Dev.nonzero t) by (rewrite E; left).
  apply elem_of_nonzero in Hp.
  assert (Dev.any t = true) by (apply any_true; eauto). congruence.
Qed.

(** *** Facts on the store operations *)

(** Total two-dimensional access, for positions known to be in range. *)
Definition get2 {A} (d : A) (t : list (list A)) (p : nat * nat) : A :=
  default d (lookup2 t p.1 p.2).

(** [g] has an entry wherever [t] has one. *)
Definition covers {A B} (g : list (list A)) (t : list (list B)) : Prop :=
  forall i j, is_Some (lookup2 t i j) -> is_Some (lookup2 g i j).

Lemma gather_Ok {A} (d : A) (t : list (list A)) (index : list (nat * nat)) :
  Forall (fun p => is_Some (lookup2 t p.1 p.2)) index ->
  Dev.gather t index = Ok (map (get2 d t) index).
Proof.
  induction 1 as [|[i j] index [a Ha] _ IH]; [done|].
  simpl in *. rewrite Ha, IH. unfold get2. simpl. by rewrite Ha.
Qed.

Lemma bind_run {A B} (m : Dev.M A) (f : A -> Dev.M B) st :
  (m ≫= f) st =
  match m st with
  | (Ok a, st') => f a st'
  | (Raise e, st') => (Raise e, st')
  end.
Proof. reflexivity. Qed.

Lemma ret_run {A} (a : A) st : (mret a : Dev.M A) st = (Ok a, st).
Proof. reflexivity. Qed.

Lemma lift_run {A} (r : result A) st : Dev.lift r st = (r, st).
Proof. reflexivity. Qed.

Lemma read_rois_run r t st :
  st !! r = Some (Dev.Rois t) -> Dev.read_rois r st = (Ok t, st).
Proof. intros H. unfold Dev.read_rois. by rewrite H. Qed.

Lemma advanced_index_run r t index rows st :
  st !! r = Some (Dev.Rois t) ->
  Dev.gather t index = Ok rows ->
  Dev.advanced_index r index st = (Ok (length st), st ++ [Dev.Boxes rows]).
Proof.
  intros Hr Hg. unfold Dev.advanced_index.
  rewrite bind_run, (read_rois_run _ _ _ Hr), bind_run, lift_run, Hg. done.
Qed.

Lemma read_boxes_fresh st rows ext :
  Dev.read_boxes (length st) (st ++ Dev.Boxes rows :: ext) =
  (Ok rows, st ++ Dev.Boxes rows :: ext).
Proof. unfold Dev.read_boxes. by rewrite list_lookup_middle. Qed.

Lemma imul_fresh st rows ext c :
  Dev.imul (length st) c (st ++ Dev.Boxes rows :: ext) =
  (Ok tt, st ++ Dev.Boxes (map (Dev.box_scale c) rows) :: ext).
Proof.
  unfold Dev.imul. rewrite list_lookup_middle by done.
  by rewrite insert_app_r_alt, Nat.sub_diag by lia.
Qed.

Lemma lookup_app_Some_l {A} (l ext : list A) i a :
  l !! i = Some a -> (l ++ ext) !! i = Some a.
Proof. intros H. rewrite lookup_app_l; [done|]. by eapply lookup_lt_Some. Qed.

(** *** Facts on scattering and flattening *)

Lemma lookup2_insert2 {A} (out : list (list A)) i j row v i' j' :
  out !! i = Some row -> (j < length row)%nat ->
  lookup2 (<[i := <[j := v]> row]> out) i' j' =
  if decide ((i', j') = (i, j)) then Some v else lookup2 out i' j'.
Proof.
  intros Hrow Hj. unfold lookup2.
  destruct (decide (i' = i)) as [->|Hi].
  - rewrite list_lookup_insert_eq by (by eapply lookup_lt_Some). simpl.
    destruct (decide (j' = j)) as [->|Hj'].
    + rewrite list_lookup_insert_eq by done. by rewrite decide_True.
    + rewrite list_lookup_insert_ne by done. rewrite Hrow. simpl.
      rewrite decide_False; [done|congruence].
  - rewrite list_lookup_insert_ne by done. rewrite decide_False; [done|congruence].
Qed.

Lemma rect_insert2 {A} bs n (out : list (list A)) i j row v :
  out !! i = Some row -> rect bs n out -> rect bs n (<[i := <[j := v]> row]> out).
Proof.
  intros Hrow [Hl Hr]. split; [by rewrite length_insert|].
  apply Forall_insert; [done|]. rewrite length_insert.
  rewrite Forall_lookup in Hr. by eapply Hr.
Qed.

(** Scattering values that are a function of the position: every listed
    position receives its value, every other position keeps what it had. *)
Lemma index_put_map {A} (F : nat * nat -> A) (index : list (nat * nat))
    (out : list (list A)) :
  Forall (fun p => is_Some (lookup2 out p.1 p.2)) index ->
  exists out',
    Dev.index_put out index (map F index) = Ok out' /\
    (forall bs n, rect bs n out -> rect bs n out') /\
    (forall i j, lookup2 out' i j =
                 if decide ((i, j) ∈ index) then Some (F (i, j)) else lookup2 out i j).
Proof.
  revert out. induction index as [|[i j] index IH]; intros out Hin.
  - exists out. split; [done|]. split; [done|]. intros i j.
    rewrite decide_False; [done|]. by intros ?%elem_of_nil.
  - apply Forall_cons in Hin as [[a Ha] Hin]. simpl in Ha. unfold lookup2 in Ha.
    destruct (out !! i) as [row|] eqn:Hrow; simpl in Ha; [|done].
    assert (Hj : (j < length row)%nat) by (by eapply lookup_lt_Some).
    simpl. rewrite Hrow. rewrite decide_True by done.
    destruct (IH (<[i := <[j := F (i, j)]> row]> out)) as (out' & Hput & Hrect & Hlook).
    { eapply Forall_impl; [exact Hin|]. intros [i' j'] Hs. simpl in *.
      rewrite lookup2_insert2 by done. by case_decide. }
    exists out'. split; [done|]. split.
    { intros bs n Hr. apply Hrect. by apply rect_insert2. }
    intros i' j'. rewrite Hlook, lookup2_insert2 by done.
    destruct (decide ((i', j') ∈ index)) as [Hel|Hel].
    + rewrite decide_True; [done|by right].
    + destruct (decide ((i', j') = (i, j))) as [Heq|Hne].
      * rewrite decide_True; [by rewrite Heq|rewrite Heq; by left].
      * rewrite decide_False; [done|]. by intros [?|?]%elem_of_cons.
Qed.

Lemma lookup_concat_rect {A} bs n (t : list (list A)) i j :
  rect bs n t -> (j < n)%nat -> concat t !! (i * n + j)%nat = lookup2 t i j.
Proof.
  intros [Hl Hr] Hj. clear Hl. revert i.
  induction Hr as [|row t Hrow _ IH]; intros i; [by destruct i|].
  simpl. destruct i as [|i].
  - simpl. unfold lookup2. simpl. rewrite lookup_app_l by lia. done.
  - rewrite lookup_app_r by (rewrite Hrow; simpl; lia).
    replace (S i * n + j - length row)%nat with (i * n + j)%nat by (rewrite Hrow; simpl; lia).
    by rewrite IH.
Qed.

Lemma length_concat_rect {A} bs n (t : list (list A)) :
  rect bs n t -> length (concat t) = (bs * n)%nat.
Proof.
  intros [<- Hr]. induction Hr as [|row t Hrow _ IH]; [done|].
  simpl. rewrite length_app, IH, Hrow. done.
Qed.

Lemma rect_replicate {A} bs n (z : A) : rect bs n (replicate bs (replicate n z)).
Proof.
  split; [by rewrite length_replicate|].
  apply Forall_replicate. by rewrite length_replicate.
Qed.

Lemma lookup2_replicate {A} bs n (z : A) i j :
  (i < bs)%nat -> (j < n)%nat -> lookup2 (replicate bs (replicate n z)) i j = Some z.
Proof.
  intros Hi Hj. unfold lookup2.
  rewrite lookup_replicate_2 by done. simpl. by rewrite lookup_replicate_2.
Qed.

(** *** Facts on [Dev.forward] *)

Section ForwardFacts.
Variable fmap : Type.
Variable descs : Type.
Variable crop_and_resize : nat -> nat -> fmap -> Dev.box -> nat -> Dev.patch.
Variable upsample : fmap -> fmap.
Variable feat_extract : list Dev.patch -> descs.
Variable pyramid_roi_align : list (list Dev.box) -> list fmap -> nat -> list Dev.patch.
Variable raw_level : Dev.box -> Z.
Variable cfg : Dev.config.

Local Abbreviation level_body :=
  (Dev.level_body fmap descs crop_and_resize upsample feat_extract cfg).
Local Abbreviation for_levels :=
  (Dev.for_levels fmap descs crop_and_resize upsample feat_extract cfg).
Local Abbreviation forward :=
  (Dev.forward fmap descs crop_and_resize upsample feat_extract pyramid_roi_align
     raw_level cfg).
Local Abbreviation roi_level_of := (Dev.roi_level_of raw_level).
Local Abbreviation acc := (Dev.acc descs).
Local Abbreviation Acc := (Dev.Acc descs).

(** The level a box is routed to, and what is pooled for it there. *)
Definition level_of (b : Dev.box) : Z := Dev.clamp 2 5 (raw_level b).

Definition upsampled (level : Z) : bool := (level =? 2) || (level =? 3).

Definition level_map (fm : fmap) (level : Z) : fmap :=
  if upsampled level then upsample fm else fm.

Definition level_box (level : Z) (b : Dev.box) : Dev.box :=
  if upsampled level then Dev.box_scale (Dev.upsample_fac cfg) b else b.

Definition slot_crop (sz : nat) (fm : fmap) (level : Z)
    (t : list (list Dev.box)) (p : nat * nat) : Dev.patch :=
  crop_and_resize sz sz (level_map fm level)
    (level_box level (get2 Dev.zero_box t p)) p.1.

Lemma level_of_range b : 2 <= level_of b <= 5.
Proof. unfold level_of, Dev.clamp. lia. Qed.

Lemma lookup2_roi_level_of t i j :
  lookup2 (roi_level_of t) i j = level_of <$> lookup2 t i j.
Proof.
  unfold lookup2, Dev.roi_level_of. rewrite list_lookup_fmap.
  destruct (t !! i) as [row|]; simpl; [|done]. by rewrite list_lookup_fmap.
Qed.

(** The index tensor of a level lists exactly the slots routed to it. *)
Lemma elem_of_level_index t level p :
  p ∈ Dev.nonzero (Dev.eq_scalar (roi_level_of t) level) <->
  exists b, lookup2 t p.1 p.2 = Some b /\ level_of b = level.
Proof.
  rewrite elem_of_nonzero. unfold Dev.flagged.
  setoid_rewrite lookup2_eq_scalar. setoid_rewrite lookup2_roi_level_of.
  destruct (lookup2 t p.1 p.2) as [b|]; simpl.
  - split.
    + intros (v & [= <-] & Hnz). exists b. split; [done|].
      by destruct (Z.eqb_spec (level_of b) level).
    + intros (b' & [= <-] & Hl). eexists. split; [done|].
      by destruct (Z.eqb_spec (level_of b) level).
  - split; [by intros (? & ? & _)|by intros (? & ? & _)].
Qed.

Lemma level_index_in_range t level :
  Forall (fun p => is_Some (lookup2 t p.1 p.2))
    (Dev.nonzero (Dev.eq_scalar (roi_level_of t) level)).
Proof.
  apply Forall_forall. intros p Hp.
  apply elem_of_level_index in Hp as (b & Hb & _). by rewrite Hb.
Qed.

Lemma big_index_in_range t level :
  Forall (fun p => is_Some (lookup2 t p.1 p.2))
    (Dev.nonzero (Dev._find_big_box level (roi_level_of t))).
Proof.
  apply Forall_forall. intros p Hp.
  apply elem_of_nonzero in Hp as (v & Hv & _).
  unfold Dev._find_big_box in Hv.
  destruct (level =? 2); [|destruct (level =? 3)];
    rewrite ?lookup2_byte_add, !lookup2_eq_scalar, lookup2_roi_level_of in Hv;
    by destruct (lookup2 t p.1 p.2).
Qed.

Lemma Forall_covers {A B} (g : list (list A)) (t : list (list B)) index :
  covers g t ->
  Forall (fun p => is_Some (lookup2 t p.1 p.2)) index ->
  Forall (fun p => is_Some (lookup2 g p.1 p.2)) index.
Proof. intros Hc H. eapply Forall_impl; [exact H|]. intros p. apply Hc. Qed.

Lemma CropAndResizeFunction_map h w fm (f : nat * nat -> Dev.box) index :
  Dev.CropAndResizeFunction fmap crop_and_resize h w fm (map f index) (map fst index) =
  map (fun p => crop_and_resize h w fm (f p) p.1) index.
Proof.
  unfold Dev.CropAndResizeFunction.
  induction index as [|p index IH]; [done|]. simpl. by rewrite IH.
Qed.

Lemma crops_up sz fm level t index :
  upsampled level = true ->
  Dev.CropAndResizeFunction fmap crop_and_resize sz sz (upsample fm)
    (map (Dev.box_scale (Dev.upsample_fac cfg)) (map (get2 Dev.zero_box t) index))
    (map fst index) =
  map (slot_crop sz fm level t) index.
Proof.
  intros Hup. rewrite map_map, CropAndResizeFunction_map.
  unfold slot_crop, level_map, level_box. by rewrite Hup.
Qed.

Lemma crops_plain sz fm level t index :
  upsampled level = false ->
  Dev.CropAndResizeFunction fmap crop_and_resize sz sz fm
    (map (get2 Dev.zero_box t) index) (map fst index) =
  map (slot_crop sz fm level t) index.
Proof.
  intros Hup. rewrite CropAndResizeFunction_map.
  unfold slot_crop, level_map, level_box. by rewrite Hup.
Qed.

(** What one turn of the level loop appends for a level. *)
Definition level_index (t : list (list Dev.box)) (level : Z) : list (nat * nat) :=
  Dev.nonzero (Dev.eq_scalar (roi_level_of t) level).

Definition present (t : list (list Dev.box)) (level : Z) : bool :=
  Dev.any (Dev.eq_scalar (roi_level_of t) level).

(** With ground-truth classes, one turn of the loop succeeds, appends the
    crops of the slots routed to the level, and only extends the store. *)
Lemma level_body_Ok x rois g t (a : acc) i level fm st :
  st !! rois = Some (Dev.Rois t) ->
  x !! i = Some fm ->
  covers g t ->
  exists fo ext,
    level_body x rois (Some g) (roi_level_of t) a i level st =
    (Ok (Acc
           (Dev.pooled _ a ++
              if present t level
              then [map (slot_crop (Dev.pool_size cfg) fm level t) (level_index t level)]
              else [])
           (Dev.mask _ a ++
              if present t level
              then [map (slot_crop (Dev.mask_pool_size cfg) fm level t) (level_index t level)]
              else [])
           (Dev.box_to_level _ a ++
              if present t level then [level_index t level] else [])
           fo),
     st ++ ext).
Proof.
  intros Hr Hx Hc. unfold Dev.level_body, present, level_index.
  destruct (Dev.any (Dev.eq_scalar (roi_level_of t) level)) eqn:Hany; simpl;
    [|exists (Dev.feat_out _ a), []; rewrite !app_nil_r; by destruct a].
  rewrite bind_run, lift_run, Hx. simpl.
  pose proof (gather_Ok Dev.zero_box t _ (level_index_in_range t level)) as Hsmall.
  pose proof (gather_Ok 0 g _ (Forall_covers _ _ _ Hc (level_index_in_range t level)))
    as Hsmallgt.
  pose proof (gather_Ok Dev.zero_box t _ (big_index_in_range t level)) as Hbig.
  pose proof (gather_Ok 0 g _ (Forall_covers _ _ _ Hc (big_index_in_range t level)))
    as Hbiggt.
  rewrite bind_run.
  destruct (Dev.any (Dev._find_big_box level (roi_level_of t))) eqn:Hanybig; simpl.
  - rewrite bind_run, (advanced_index_run _ _ _ _ _ Hr Hbig).
    rewrite bind_run, lift_run. simpl. rewrite Hbiggt.
    rewrite bind_run, read_boxes_fresh, ret_run.
    rewrite bind_run,
      (advanced_index_run _ _ _ _ _ (lookup_app_Some_l _ _ _ _ Hr) Hsmall).
    rewrite bind_run, lift_run. simpl. rewrite Hsmallgt.
    rewrite bind_run.
    destruct ((level =? 2) || (level =? 3)) eqn:Hup.
    + rewrite bind_run, imul_fresh, ret_run, bind_run, read_boxes_fresh, ret_run.
      rewrite !(crops_up _ _ level) by done.
      eexists _, _. rewrite <- app_assoc. reflexivity.
    + rewrite ret_run, bind_run, read_boxes_fresh, ret_run.
      rewrite !(crops_plain _ _ level) by done.
      eexists _, _. rewrite <- app_assoc. reflexivity.
  - rewrite ?ret_run.
    rewrite ?bind_run, (advanced_index_run _ _ _ _ _ Hr Hsmall).
    rewrite bind_run, lift_run. simpl. rewrite Hsmallgt.
    rewrite bind_run.
    destruct ((level =? 2) || (level =? 3)) eqn:Hup.
    + rewrite bind_run, imul_fresh, ret_run, bind_run, read_boxes_fresh, ret_run.
      rewrite !(crops_up _ _ level) by done.
      eexists _, _. reflexivity.
    + rewrite ret_run, bind_run, read_boxes_fresh, ret_run.
      rewrite !(crops_plain _ _ level) by done.
      eexists _, _. reflexivity.
Qed.

(** Without ground-truth classes, a turn of the loop for a level that has
    ROIs raises: the class lookup subscripts [None]. *)
Lemma level_body_None x rois t (a : acc) i level st :
  st !! rois = Some (Dev.Rois t) ->
  present t level = true ->
  exists e st',
    level_body x rois None (roi_level_of t) a i level st = (Raise e, st') /\
    (is_Some (x !! i) -> e = TypeError).
Proof.
  intros Hr Hp. unfold present in Hp. unfold Dev.level_body. rewrite Hp. simpl.
  rewrite bind_run, lift_run.
  destruct (x !! i) as [fm|] eqn:Hx; simpl;
    [|eexists _, _; split; [done|by intros [? ?]]].
  pose proof (gather_Ok Dev.zero_box t _ (level_index_in_range t level)) as Hsmall.
  pose proof (gather_Ok Dev.zero_box t _ (big_index_in_range t level)) as Hbig.
  rewrite bind_run.
  destruct (Dev.any (Dev._find_big_box level (roi_level_of t))) eqn:Hanybig; simpl.
  - rewrite bind_run, (advanced_index_run _ _ _ _ _ Hr Hbig).
    rewrite bind_run, lift_run. simpl. by eexists _, _.
  - rewrite ?ret_run, ?bind_run, (advanced_index_run _ _ _ _ _ Hr Hsmall).
    rewrite bind_run, lift_run. simpl. by eexists _, _.
Qed.

Lemma advanced_index_cases r index st :
  (exists e, Dev.advanced_index r index st = (Raise e, st)) \/
  (exists rows,
     Dev.advanced_index r index st = (Ok (length st), st ++ [Dev.Boxes rows])).
Proof.
  unfold Dev.advanced_index, Dev.read_rois. rewrite bind_run.
  destruct (st !! r) as [[t|bs]|]; [|left; by eexists..].
  rewrite bind_run, lift_run.
  destruct (Dev.gather t index) as [rows|e]; [right|left]; by eexists.
Qed.

(** A turn of the loop leaves every cell of the store it started from
    as it was: the in-place scaling hits the tensor allocated in the same
    turn. *)
Lemma level_body_frame x rois gt rl (a : acc) i level st :
  exists ext, (level_body x rois gt rl a i level st).2 = st ++ ext.
Proof.
  unfold Dev.level_body.
  destruct (negb (Dev.any (Dev.eq_scalar rl level))); [by exists []; rewrite app_nil_r|].
  rewrite bind_run, lift_run.
  destruct (x !! i) as [fm|]; simpl; [|by exists []; rewrite app_nil_r].
  rewrite bind_run.
  assert (Htail : forall (big : list Z * option descs) st1 ext1,
    st1 = st ++ ext1 ->
    exists ext, ((small_boxes ← Dev.advanced_index rois (Dev.nonzero (Dev.eq_scalar rl level));
      small_box_gt ← Dev.lift (Dev.index_gt gt (Dev.nonzero (Dev.eq_scalar rl level)));
      _feat_maps ← (if (level =? 2) || (level =? 3)
                    then _ ← Dev.imul small_boxes (Dev.upsample_fac cfg);
                         mret (upsample fm)
                    else mret fm);
      sb ← Dev.read_boxes small_boxes;
      mret (Acc
        (Dev.pooled _ a ++
         [Dev.CropAndResizeFunction fmap crop_and_resize (Dev.pool_size cfg)
            (Dev.pool_size cfg) _feat_maps sb
            (map fst (Dev.nonzero (Dev.eq_scalar rl level)))])
        (Dev.mask _ a ++
         [Dev.CropAndResizeFunction fmap crop_and_resize (Dev.mask_pool_size cfg)
            (Dev.mask_pool_size cfg) _feat_maps sb
            (map fst (Dev.nonzero (Dev.eq_scalar rl level)))])
        (Dev.box_to_level _ a ++ [Dev.nonzero (Dev.eq_scalar rl level)])
        (if (level =? 2) || (level =? 3)
         then Dev.feat_out _ a ++
              [Dev.FeatRec _ big.1 big.2 small_box_gt
                 (feat_extract
                    (Dev.CropAndResizeFunction fmap crop_and_resize
                       (Dev.mask_pool_size cfg) (Dev.mask_pool_size cfg) _feat_maps sb
                       (map fst (Dev.nonzero (Dev.eq_scalar rl level)))))]
         else Dev.feat_out _ a))) st1).2 = st ++ ext).
  { intros big st1 ext1 ->. rewrite bind_run.
    destruct (advanced_index_cases rois (Dev.nonzero (Dev.eq_scalar rl level))
                (st ++ ext1)) as [[e ->]|[rows ->]]; [simpl; eexists; reflexivity|].
    rewrite bind_run, lift_run.
    destruct (Dev.index_gt gt _); simpl;
      [|eexists; rewrite <- app_assoc; reflexivity].
    rewrite bind_run.
    destruct ((level =? 2) || (level =? 3)).
    - rewrite bind_run, imul_fresh, ret_run, bind_run, read_boxes_fresh, ret_run.
      simpl. eexists; rewrite <- app_assoc; reflexivity.
    - rewrite ret_run, bind_run, read_boxes_fresh, ret_run.
      simpl. eexists; rewrite <- app_assoc; reflexivity. }
  destruct (negb (Dev.any (Dev._find_big_box level rl))).
  - rewrite ret_run. apply (Htail _ _ []). by rewrite app_nil_r.
  - rewrite bind_run.
    destruct (advanced_index_cases rois (Dev.nonzero (Dev._find_big_box level rl)) st)
      as [[e ->]|[rows ->]]; [simpl; by exists []; rewrite app_nil_r|].
    rewrite bind_run, lift_run.
    destruct (Dev.index_gt gt (Dev.nonzero (Dev._find_big_box level rl))); simpl;
      [|eexists; reflexivity].
    rewrite bind_run, read_boxes_fresh, ret_run.
    by eapply Htail.
Qed.

Lemma level_body_absent x rois gt t (a : acc) i level st :
  present t level = false ->
  level_body x rois gt (roi_level_of t) a i level st = (Ok a, st).
Proof. intros Hp. unfold present in Hp. unfold Dev.level_body. by rewrite Hp. Qed.

Lemma for_levels_frame x rois gt rl lvls (a : acc) st :
  exists ext, (for_levels x rois gt rl lvls a st).2 = st ++ ext.
Proof.
  revert a st. induction lvls as [|[i level] lvls IH]; intros a st; simpl.
  - exists []. by rewrite app_nil_r.
  - rewrite bind_run.
    destruct (level_body_frame x rois gt rl a i level st) as [ext1 H1].
    destruct (level_body x rois gt rl a i level st) as [[a'|e] st1]; simpl in H1.
    + destruct (IH a' st1) as [ext2 H2]. rewrite H2, H1, <- app_assoc. by eexists.
    + simpl. by eexists.
Qed.

Lemma for_levels_None x rois t lvls (a : acc) st :
  st !! rois = Some (Dev.Rois t) ->
  Exists (fun il => present t il.2 = true) lvls ->
  exists e st',
    for_levels x rois None (roi_level_of t) lvls a st = (Raise e, st') /\
    (Forall (fun il => is_Some (x !! il.1)) lvls -> e = TypeError).
Proof.
  intros Hr. induction lvls as [|[i level] lvls IH]; intros Hex;
    [by apply Exists_nil in Hex|].
  simpl. rewrite bind_run.
  destruct (present t level) eqn:Hp.
  - destruct (level_body_None x rois t a i level st Hr Hp) as (e & st' & -> & He).
    exists e, st'. split; [done|]. intros Hx. apply He.
    by apply Forall_cons in Hx as [? _].
  - rewrite level_body_absent by done.
    apply Exists_cons in Hex as [Hex|Hex]; [simpl in Hex; congruence|].
    destruct (IH Hex) as (e & st' & -> & He).
    exists e, st'. split; [done|]. intros Hx. apply He.
    by apply Forall_cons in Hx as [_ ?].
Qed.

(** What the whole loop appends. *)
Definition loop_index (t : list (list Dev.box)) (lvls : list (nat * Z))
  : list (list (nat * nat)) :=
  flat_map (fun il => if present t il.2 then [level_index t il.2] else []) lvls.

Definition loop_crops (sz : nat) (x : list fmap) (t : list (list Dev.box))
    (lvls : list (nat * Z)) : list (list Dev.patch) :=
  flat_map (fun il =>
    match x !! il.1 with
    | Some fm =>
        if present t il.2
        then [map (slot_crop sz fm il.2 t) (level_index t il.2)]
        else []
    | None => []
    end) lvls.

Lemma for_levels_Ok x rois g t lvls (a : acc) st :
  st !! rois = Some (Dev.Rois t) ->
  Forall (fun il => is_Some (x !! il.1)) lvls ->
  covers g t ->
  exists fo ext,
    for_levels x rois (Some g) (roi_level_of t) lvls a st =
    (Ok (Acc (Dev.pooled _ a ++ loop_crops (Dev.pool_size cfg) x t lvls)
             (Dev.mask _ a ++ loop_crops (Dev.mask_pool_size cfg) x t lvls)
             (Dev.box_to_level _ a ++ loop_index t lvls)
             fo),
     st ++ ext).
Proof.
  intros Hr Hx Hc. revert a st Hr.
  induction Hx as [|[i level] lvls [fm Hfm] _ IH]; intros a st Hr; simpl.
  - exists (Dev.feat_out _ a), []. rewrite !app_nil_r. by destruct a.
  - rewrite bind_run. simpl in Hfm.
    destruct (level_body_Ok x rois g t a i level fm st Hr Hfm Hc) as (fo1 & ext1 & ->).
    match goal with |- context [for_levels _ _ _ _ _ ?a1 _] =>
      destruct (IH a1 (st ++ ext1) (lookup_app_Some_l _ _ _ _ Hr))
        as (fo2 & ext2 & ->)
    end.
    simpl. rewrite Hfm, <- !app_assoc. by eexists _, _.
Qed.

Lemma cat_Ok {A} (ts : list (list A)) : ts <> [] -> Dev.cat ts = Ok (concat ts).
Proof. by destruct ts. Qed.

(** [_reshape_result] on crops that are a function of their position. *)
Lemma reshape_result_map (Fp Fm : nat * nat -> Dev.patch) index pooled mask b2l bs n :
  pooled <> [] -> mask <> [] -> b2l <> [] ->
  concat b2l = index ->
  concat pooled = map Fp index ->
  concat mask = map Fm index ->
  Forall (fun p => (p.1 < bs)%nat /\ (p.2 < n)%nat) index ->
  exists pooled_out mask_out,
    Dev._reshape_result pooled mask b2l (bs, n) = Ok (pooled_out, mask_out) /\
    length pooled_out = (bs * n)%nat /\
    length mask_out = (bs * n)%nat /\
    forall i j, (i < bs)%nat -> (j < n)%nat ->
      pooled_out !! (i * n + j)%nat =
        Some (if decide ((i, j) ∈ index) then Fp (i, j)
              else Dev.zeros_like (map Fp index)) /\
      mask_out !! (i * n + j)%nat =
        Some (if decide ((i, j) ∈ index) then Fm (i, j)
              else Dev.zeros_like (map Fm index)).
Proof.
  intros Hp Hm Hb Hidx Hpool Hmask Hrange. unfold Dev._reshape_result.
  rewrite (cat_Ok _ Hp), (cat_Ok _ Hm), (cat_Ok _ Hb). simpl.
  rewrite Hidx, Hpool, Hmask.
  assert (Hin : forall (z : Dev.patch),
    Forall (fun p => is_Some (lookup2 (replicate bs (replicate n z)) p.1 p.2)) index).
  { intros z. eapply Forall_impl; [exact Hrange|]. intros p [H1 H2].
    by rewrite lookup2_replicate. }
  destruct (index_put_map Fp index _ (Hin (Dev.zeros_like (map Fp index))))
    as (po & -> & Hrp & Hlp).
  destruct (index_put_map Fm index _ (Hin (Dev.zeros_like (map Fm index))))
    as (mo & -> & Hrm & Hlm).
  simpl. exists (concat po), (concat mo). split; [done|].
  pose proof (Hrp bs n (rect_replicate _ _ _)) as Hrectp.
  pose proof (Hrm bs n (rect_replicate _ _ _)) as Hrectm.
  split; [by eapply length_concat_rect|]. split; [by eapply length_concat_rect|].
  intros i j Hi Hj.
  rewrite (lookup_concat_rect bs n po), (lookup_concat_rect bs n mo) by done.
  rewrite Hlp, Hlm, !lookup2_replicate by done.
  split; by case_decide.
Qed.

(** The feature map of a pyramid level in [x = [p2; p3; p4; p5]]. *)
Definition pyramid_map (x : list fmap) (level : Z) : option fmap :=
  x !! Z.to_nat (level - 2).

(** The crop the router takes for one box: from the map of the box's
    own level, upsampled on levels 2 and 3, with the coordinates scaled by
    the same factor there. *)
Definition routed_crop (sz : nat) (fm : fmap) (b : Dev.box) (image : nat)
  : Dev.patch :=
  crop_and_resize sz sz
    (level_map fm (level_of b))
    (level_box (level_of b) b) image.

Lemma present_level_of t i s b :
  lookup2 t i s = Some b -> present t (level_of b) = true.
Proof.
  intros Hb. unfold present. apply any_true. exists i, s.
  apply (elem_of_nonzero _ (i, s)), elem_of_level_index. by exists b.
Qed.

Lemma concat_present {A} (t : list (list Dev.box)) level (f : list (nat * nat) -> list A) :
  f [] = [] ->
  concat (if present t level then [f (level_index t level)] else []) =
  f (level_index t level).
Proof.
  intros Hf. destruct (present t level) eqn:Hp; simpl; [by rewrite app_nil_r|].
  unfold level_index. by rewrite any_false_nonzero.
Qed.

Lemma exists_present t i s b :
  lookup2 t i s = Some b ->
  Exists (fun il : nat * Z => present t il.2 = true) Dev.levels.
Proof.
  intros Hb. pose proof (present_level_of t i s b Hb) as Hp.
  pose proof (level_of_range b) as Hr.
  unfold Dev.levels. rewrite !Exists_cons. simpl.
  destruct (decide (level_of b = 2)) as [E|?]; [rewrite E in Hp; tauto|].
  destruct (decide (level_of b = 3)) as [E|?]; [rewrite E in Hp; tauto|].
  destruct (decide (level_of b = 4)) as [E|?]; [rewrite E in Hp; tauto|].
  assert (E : level_of b = 5) by lia. rewrite E in Hp. tauto.
Qed.

(** The position-indexed description of what the loop collects. *)
Lemma loop_collects sz p2 p3 p4 p5 t :
  let index := concat (loop_index t Dev.levels) in
  let F := fun p : nat * nat =>
    let l := level_of (get2 Dev.zero_box t p) in
    slot_crop sz (default p2 (pyramid_map [p2; p3; p4; p5] l)) l t p in
  concat (loop_crops sz [p2; p3; p4; p5] t Dev.levels) = map F index /\
  (forall p, p ∈ index <-> is_Some (lookup2 t p.1 p.2)).
Proof.
  intros index F. subst index. unfold loop_crops, loop_index.
  simpl. rewrite !app_nil_r, !concat_app.
  rewrite !(concat_present t _ (fun l => l)) by done.
  rewrite !(concat_present t _ (map _)) by done.
  split.
  - assert (Hlev : forall level fm,
      pyramid_map [p2; p3; p4; p5] level = Some fm ->
      map (slot_crop sz fm level t) (level_index t level) =
      map F (level_index t level)).
    { intros level fm Hfm. apply map_ext_in. intros p Hp%list_elem_of_In.
      apply elem_of_level_index in Hp as (b & Hb & Hl).
      unfold F, get2. rewrite Hb. simpl. by rewrite Hl, Hfm. }
    rewrite !map_app, !Hlev by done. done.
  - intros p. rewrite !elem_of_app. unfold level_index.
    rewrite !elem_of_level_index. split.
    + intros [(b & -> & _)|[(b & -> & _)|[(b & -> & _)|(b & -> & _)]]]; done.
    + intros [b Hb]. pose proof (level_of_range b) as Hr.
      destruct (decide (level_of b = 2)); [left; by exists b|right].
      destruct (decide (level_of b = 3)); [left; by exists b|right].
      destruct (decide (level_of b = 4)); [left; by exists b|right].
      exists b. split; [done|]. change (level_of b = 5). lia.
Qed.

Lemma loop_nonempty sz x t lvls :
  Forall (fun il : nat * Z => is_Some (x !! il.1)) lvls ->
  Exists (fun il : nat * Z => present t il.2 = true) lvls ->
  loop_index t lvls <> [] /\ loop_crops sz x t lvls <> [].
Proof.
  intros Hx Hex. unfold loop_index, loop_crops.
  induction Hx as [|[i level] lvls [fm Hfm] _ IH]; [by apply Exists_nil in Hex|].
  simpl in *. rewrite Hfm.
  destruct (present t level) eqn:Hp; [done|].
  apply Exists_cons in Hex as [Hex|Hex]; [simpl in Hex; congruence|]. by apply IH.
Qed.

Lemma levels_in_pyramid (x : list fmap) :
  (4 <= length x)%nat -> Forall (fun il : nat * Z => is_Some (x !! il.1)) Dev.levels.
Proof.
  intros Hx. unfold Dev.levels.
  repeat (apply Forall_cons; split; [apply lookup_lt_is_Some_2; simpl; lia|]).
  apply Forall_nil_2.
Qed.


Lemma forward_frame_ext x rois gt st :
  exists ext, (forward x rois gt st).2 = st ++ ext.
Proof.
  unfold Dev.forward. rewrite bind_run. unfold Dev.read_rois.
  destruct (st !! rois) as [[t|?]|]; try (exists []; by rewrite app_nil_r).
  destruct (negb (Dev.use_dev cfg)); [exists []; by rewrite app_nil_r|].
  rewrite bind_run.
  destruct (for_levels_frame
              x rois gt (Dev.roi_level_of raw_level t) Dev.levels
              (Dev.Acc descs [] [] [] []) st) as [ext Hext].
  destruct (Dev.for_levels _ _ _ _ _ _ _ _ _ _ _ _ _) as [[a|e] st1]; simpl in Hext;
    [|by exists ext].
  rewrite bind_run, lift_run.
  destruct (Dev._reshape_result _ _ _ _); by exists ext.
Qed.

(** *** The router on an empty ROI tensor *)

Lemma present_no_rois t level :
  Forall (fun row : list Dev.box => row = []) t -> present t level = false.
Proof.
  intros Hempty. unfold present, Dev.any, Dev.eq_scalar, Dev.roi_level_of.
  induction Hempty as [|row t -> _ IH]; [done|]. simpl. exact IH.
Qed.

Lemma for_levels_absent x rois gt t lvls (a : acc) st :
  Forall (fun il : nat * Z => present t il.2 = false) lvls ->
  for_levels x rois gt (roi_level_of t) lvls a st = (Ok a, st).
Proof.
  induction 1 as [|[i level] lvls Hp _ IH]; [done|].
  simpl. rewrite bind_run, level_body_absent by done. exact IH.
Qed.

(** *** What the router hands to the consistency loss *)

(** The record appended to [feat_out] on a level that is upsampled: the
    classes and the descriptors of the big boxes that [_find_big_box] pairs
    with the level, pooled on the level's own map, and the classes and
    descriptors of the level's boxes, pooled on the upsampled map. *)
Definition big_index (t : list (list Dev.box)) (level : Z) : list (nat * nat) :=
  Dev.nonzero (Dev._find_big_box level (roi_level_of t)).

Definition level_record (fm : fmap) (g : list (list Z)) (t : list (list Dev.box))
    (level : Z) : Dev.feat_rec descs :=
  Dev.FeatRec descs
    (map (get2 0 g) (big_index t level))
    (if Dev.any (Dev._find_big_box level (roi_level_of t))
     then Some (feat_extract
                  (map (fun p => crop_and_resize (Dev.feat_pool_size cfg)
                                   (Dev.feat_pool_size cfg) fm
                                   (get2 Dev.zero_box t p) p.1)
                       (big_index t level)))
     else None)
    (map (get2 0 g) (level_index t level))
    (feat_extract (map (slot_crop (Dev.mask_pool_size cfg) fm level t)
                       (level_index t level))).

Definition level_records (fm : fmap) (g : list (list Z)) (t : list (list Dev.box))
    (level : Z) : list (Dev.feat_rec descs) :=
  if present t level && upsampled level then [level_record fm g t level] else [].

(** One turn of the loop, with what it appends to [feat_out]. *)
Lemma level_body_run x rois g t (a : acc) i level fm st :
  st !! rois = Some (Dev.Rois t) ->
  x !! i = Some fm ->
  covers g t ->
  exists ext,
    level_body x rois (Some g) (roi_level_of t) a i level st =
    (Ok (Acc
           (Dev.pooled _ a ++
              if present t level
              then [map (slot_crop (Dev.pool_size cfg) fm level t) (level_index t level)]
              else [])
           (Dev.mask _ a ++
              if present t level
              then [map (slot_crop (Dev.mask_pool_size cfg) fm level t) (level_index t level)]
              else [])
           (Dev.box_to_level _ a ++
              if present t level then [level_index t level] else [])
           (Dev.feat_out _ a ++ level_records fm g t level)),
     st ++ ext).
Proof.
  intros Hr Hx Hc.
  unfold Dev.level_body, level_records, level_record, big_index, present, level_index,
    upsampled.
  destruct (Dev.any (Dev.eq_scalar (roi_level_of t) level)) eqn:Hany; simpl;
    [|exists []; rewrite !app_nil_r; by destruct a].
  rewrite bind_run, lift_run, Hx. simpl.
  pose proof (gather_Ok Dev.zero_box t _ (level_index_in_range t level)) as Hsmall.
  pose proof (gather_Ok 0 g _ (Forall_covers _ _ _ Hc (level_index_in_range t level)))
    as Hsmallgt.
  pose proof (gather_Ok Dev.zero_box t _ (big_index_in_range t level)) as Hbig.
  pose proof (gather_Ok 0 g _ (Forall_covers _ _ _ Hc (big_index_in_range t level)))
    as Hbiggt.
  rewrite bind_run.
  destruct (Dev.any (Dev._find_big_box level (roi_level_of t))) eqn:Hanybig; simpl.
  - rewrite bind_run, (advanced_index_run _ _ _ _ _ Hr Hbig).
    rewrite bind_run, lift_run. simpl. rewrite Hbiggt.
    rewrite bind_run, read_boxes_fresh, ret_run.
    rewrite bind_run,
      (advanced_index_run _ _ _ _ _ (lookup_app_Some_l _ _ _ _ Hr) Hsmall).
    rewrite bind_run, lift_run. simpl. rewrite Hsmallgt.
    rewrite bind_run. rewrite CropAndResizeFunction_map.
    destruct ((level =? 2) || (level =? 3)) eqn:Hup.
    + rewrite bind_run, imul_fresh, ret_run, bind_run, read_boxes_fresh, ret_run.
      rewrite !(crops_up _ _ level) by done.
      eexists. rewrite <- app_assoc. reflexivity.
    + rewrite ret_run, bind_run, read_boxes_fresh, ret_run.
      rewrite !(crops_plain _ _ level) by done.
      eexists. rewrite <- app_assoc, app_nil_r. reflexivity.
  - rewrite ?ret_run.
    rewrite ?bind_run, (advanced_index_run _ _ _ _ _ Hr Hsmall).
    rewrite bind_run, lift_run. simpl. rewrite Hsmallgt.
    rewrite bind_run. rewrite (any_false_nonzero _ Hanybig).
    destruct ((level =? 2) || (level =? 3)) eqn:Hup.
    + rewrite bind_run, imul_fresh, ret_run, bind_run, read_boxes_fresh, ret_run.
      rewrite !(crops_up _ _ level) by done.
      eexists. reflexivity.
    + rewrite ret_run, bind_run, read_boxes_fresh, ret_run.
      rewrite !(crops_plain _ _ level) by done.
      eexists. rewrite app_nil_r. reflexivity.
Qed.

(** What the whole loop appends to [feat_out]. *)
Definition loop_records (x : list fmap) (g : list (list Z)) (t : list (list Dev.box))
    (lvls : list (nat * Z)) : list (Dev.feat_rec descs) :=
  flat_map (fun il : nat * Z =>
    match x !! il.1 with
    | Some fm => level_records fm g t il.2
    | None => []
    end) lvls.

Lemma for_levels_run x rois g t lvls (a : acc) st :
  st !! rois = Some (Dev.Rois t) ->
  Forall (fun il : nat * Z => is_Some (x !! il.1)) lvls ->
  covers g t ->
  exists ext,
    for_levels x rois (Some g) (roi_level_of t) lvls a st =
    (Ok (Acc (Dev.pooled _ a ++ loop_crops (Dev.pool_size cfg) x t lvls)
             (Dev.mask _ a ++ loop_crops (Dev.mask_pool_size cfg) x t lvls)
             (Dev.box_to_level _ a ++ loop_index t lvls)
             (Dev.feat_out _ a ++ loop_records x g t lvls)),
     st ++ ext).
Proof.
  intros Hr Hx Hc. revert a st Hr.
  induction Hx as [|[i level] lvls [fm Hfm] _ IH]; intros a st Hr; simpl.
  - exists []. rewrite !app_nil_r. by destruct a.
  - rewrite bind_run. simpl in Hfm.
    destruct (level_body_run x rois g t a i level fm st Hr Hfm Hc) as (ext1 & ->).
    match goal with |- context [for_levels _ _ _ _ _ ?a1 _] =>
      destruct (IH a1 (st ++ ext1) (lookup_app_Some_l _ _ _ _ Hr)) as (ext2 & ->)
    end.
    simpl. rewrite Hfm, <- !app_assoc. by eexists.
Qed.

(** Whatever its inputs, a turn of the loop that returns has appended at
    most one record to [feat_out], and none on a level that is not
    upsampled. *)
Lemma level_body_feat_out x rois gt rl (a a' : acc) i level st st' :
  level_body x rois gt rl a i level st = (Ok a', st') ->
  (length (Dev.feat_out _ a') <=
   length (Dev.feat_out _ a) + if upsampled level then 1 else 0)%nat.
Proof.
  unfold Dev.level_body, upsampled. intros H.
  destruct (negb (Dev.any (Dev.eq_scalar rl level))).
  { rewrite ret_run in H. simplify_eq. lia. }
  repeat first
    [ rewrite bind_run in H
    | rewrite lift_run in H
    | rewrite ret_run in H
    | match type of H with
      | context [match ?m ?s with _ => _ end] =>
          let r := fresh "r" in let s' := fresh "s" in
          destruct (m s) as [[r|?] s']; [|discriminate]
      | context [match ?m with _ => _ end] => destruct m; [|discriminate]
      end ].
  all: try discriminate.
  all: destruct ((level =? 2) || (level =? 3));
    repeat first
      [ rewrite bind_run in H
      | rewrite ret_run in H
      | match type of H with
        | context [match ?m ?s with _ => _ end] =>
            let r := fresh "r" in let s' := fresh "s" in
            destruct (m s) as [[r|?] s']; [|discriminate]
        end ];
    simplify_eq; simpl; rewrite ?length_app; simpl; lia.
Qed.

Lemma for_levels_feat_out x rois gt rl lvls (a a' : acc) st st' :
  for_levels x rois gt rl lvls a st = (Ok a', st') ->
  (length (Dev.feat_out _ a') <=
   length (Dev.feat_out _ a) + length (filter (fun il : nat * Z => upsampled il.2 = true) lvls))%nat.
Proof.
  revert a st. induction lvls as [|[i level] lvls IH]; intros a st H; simpl in H.
  - rewrite ret_run in H. simplify_eq. simpl. lia.
  - rewrite bind_run in H.
    destruct (level_body x rois gt rl a i level st) as [[a1|e] st1] eqn:Hbody;
      [|discriminate].
    apply level_body_feat_out in Hbody. apply IH in H.
    rewrite filter_cons. simpl.
    destruct (upsampled level); [rewrite decide_True by done|rewrite decide_False by done];
      simpl; lia.
Qed.

Lemma forward_feat_out_le x rois gt st pooled_out mask_out fo st' :
  Dev.use_dev cfg = true ->
  forward x rois gt st = (Ok (pooled_out, mask_out, fo), st') ->
  exists l, fo = Some l /\ (length l <= 2)%nat.
Proof.
  intros Hdev H. unfold Dev.forward in H. rewrite bind_run in H.
  destruct (Dev.read_rois rois st) as [[t|e] st0]; [|discriminate].
  rewrite Hdev in H. cbn [negb] in H. rewrite bind_run in H.
  destruct (for_levels x rois gt (roi_level_of t) Dev.levels (Acc [] [] [] []) st0)
    as [[a|e] st1] eqn:Hloop; [|discriminate].
  apply for_levels_feat_out in Hloop.
  rewrite bind_run, lift_run in H.
  destruct (Dev._reshape_result _ _ _ _) as [out|e]; [|discriminate].
  rewrite ret_run in H. simplify_eq. eexists. split; [done|].
  simpl in Hloop. lia.
Qed.

Lemma elem_of_big_index t level p :
  p ∈ big_index t level <->
  exists b, lookup2 t p.1 p.2 = Some b /\
    ((level = 2 /\ (level_of b = 4 \/ level_of b = 5)) \/
     (level = 3 /\ level_of b = 5) \/
     (level <> 2 /\ level <> 3 /\ level_of b = -1)).
Proof.
  unfold big_index. rewrite elem_of_nonzero. unfold Dev.flagged, Dev._find_big_box.
  destruct (Z.eqb_spec level 2) as [->|H2]; [|destruct (Z.eqb_spec level 3) as [->|H3]];
    rewrite ?lookup2_byte_add, !lookup2_eq_scalar, lookup2_roi_level_of;
    destruct (lookup2 t p.1 p.2) as [b|]; simpl;
    try (split; [by intros (? & ? & _)|by intros (? & ? & _)]).
  - split.
    + intros (v & Hv & Hnz). exists b. split; [done|]. left. split; [done|].
      destruct (Z.eqb_spec (level_of b) 4); [by left|].
      destruct (Z.eqb_spec (level_of b) 5); [by right|]. by simplify_eq/=.
    + intros (b' & Hb' & Hl). simplify_eq.
      destruct Hl as [[_ [E|E]]|[[? _]|(? & _)]]; try done;
        rewrite E; eexists; (split; [reflexivity|done]).
  - split.
    + intros (v & Hv & Hnz). exists b. split; [done|]. right. left. split; [done|].
      destruct (Z.eqb_spec (level_of b) 5); [done|]. by simplify_eq/=.
    + intros (b' & Hb' & Hl). simplify_eq.
      destruct Hl as [[? _]|[[_ E]|(_ & ? & _)]]; try done.
      rewrite E. eexists; (split; [reflexivity|done]).
  - split.
    + intros (v & Hv & Hnz). exists b. split; [done|]. right. right.
      split; [done|]. split; [done|].
      destruct (Z.eqb_spec (level_of b) (-1)); [done|]. by simplify_eq/=.
    + intros (b' & Hb' & Hl). simplify_eq.
      destruct Hl as [[? _]|[[? _]|(_ & _ & E)]]; try done.
      rewrite E. eexists; (split; [reflexivity|done]).
Qed.


(** With ground-truth classes and the four pyramid maps, [forward] returns
    on a non-empty ROI tensor, with the records of levels 2 and 3. *)
Lemma forward_Ok_records p2 p3 p4 p5 rois g t bs n st :
  Dev.use_dev cfg = true ->
  st !! rois = Some (Dev.Rois t) ->
  rect bs n t -> (0 < bs)%nat -> (0 < n)%nat ->
  covers g t ->
  exists pooled_out mask_out ext,
    forward [p2; p3; p4; p5] rois (Some g) st =
      (Ok (pooled_out, mask_out,
           Some (level_records p2 g t 2 ++ level_records p3 g t 3)), st ++ ext).
Proof.
  intros Hdev Hr Hrect Hbs Hn Hc.
  unfold Dev.forward. rewrite bind_run, (read_rois_run _ _ _ Hr), Hdev. cbn [negb].
  rewrite bind_run.
  destruct (for_levels_run [p2; p3; p4; p5] rois g t Dev.levels (Acc [] [] [] []) st Hr)
    as (ext & ->); [by apply levels_in_pyramid|done|].
  simpl.
  destruct (lookup2_lt_is_Some t bs n 0 0 Hrect Hbs Hn) as [b0 Hb0].
  pose proof (exists_present t 0 0 b0 Hb0) as Hex.
  pose proof (levels_in_pyramid [p2; p3; p4; p5] ltac:(simpl; lia)) as Hlv.
  destruct (loop_nonempty (Dev.pool_size cfg) _ t _ Hlv Hex) as [Hi Hp].
  destruct (loop_nonempty (Dev.mask_pool_size cfg) _ t _ Hlv Hex) as [_ Hm].
  destruct (loop_collects (Dev.pool_size cfg) p2 p3 p4 p5 t) as [Hcp Hmem].
  destruct (loop_collects (Dev.mask_pool_size cfg) p2 p3 p4 p5 t) as [Hcm _].
  assert (Hsize : Dev.size2 t = (bs, n)).
  { unfold Dev.size2. destruct Hrect as [<- Hrows]. f_equal.
    destruct t as [|row t]; [simpl in Hbs; lia|]. simpl.
    by apply Forall_cons in Hrows as [? _]. }
  rewrite Hsize, bind_run, lift_run.
  edestruct (reshape_result_map) as (po & mo & -> & _);
    [exact Hp|exact Hm|exact Hi|reflexivity|exact Hcp|exact Hcm| |].
  { apply Forall_forall. intros p Hin. apply Hmem in Hin as [b Hb].
    by eapply lookup2_Some_lt. }
  rewrite ret_run. exists po, mo, ext. simpl.
  unfold loop_records. simpl. unfold level_records at 3 4.
  rewrite !andb_false_r, !app_nil_r. reflexivity.
Qed.


(** Without ground-truth classes the first populated level raises. *)
Lemma forward_None_TypeError x rois t st i s b :
  Dev.use_dev cfg = true ->
  st !! rois = Some (Dev.Rois t) ->
  lookup2 t i s = Some b ->
  (4 <= length x)%nat ->
  exists st', forward x rois None st = (Raise TypeError, st').
Proof.
  intros Hdev Hr Hb Hx. unfold Dev.forward.
  rewrite bind_run, (read_rois_run _ _ _ Hr), Hdev. cbn [negb]. rewrite bind_run.
  destruct (for_levels_None x rois t Dev.levels (Acc [] [] [] []) st Hr
              (exists_present t i s b Hb)) as (e & st' & -> & He).
  exists st'. by rewrite He by by apply levels_in_pyramid.
Qed.

End ForwardFacts.

(** ** The padding layer *)

(** Entry [z] of a list, [d] outside of it. *)
Definition zget {A} (d : A) (v : list A) (z : Z) : A :=
  if 0 <=? z then default d (v !! Z.to_nat z) else d.

Lemma pad_dim_length {A} (d : A) (l r : Z) (v : list A) :
  (l < 0 -> 0 < Z.of_nat (length v) + l) ->
  (r < 0 -> 0 < Z.of_nat (length v) + Z.min l 0 + r) ->
  Z.of_nat (length (Pad.pad_dim d l r v)) = Z.of_nat (length v) + l + r.
Proof.
  intros Hl Hr. unfold Pad.pad_dim.
  rewrite !length_app, !length_replicate.
  destruct (Z.ltb_spec l 0), (Z.ltb_spec r 0);
    rewrite ?length_take, ?length_drop; lia.
Qed.

Lemma pad_dim_lookup {A} (d : A) (l r : Z) (v : list A) (i : nat) :
  (l < 0 -> 0 < Z.of_nat (length v) + l) ->
  (r < 0 -> 0 < Z.of_nat (length v) + Z.min l 0 + r) ->
  Z.of_nat i < Z.of_nat (length v) + l + r ->
  Pad.pad_dim d l r v !! i = Some (zget d v (Z.of_nat i - l)).
Proof.
  intros Hl Hr Hi. unfold Pad.pad_dim, zget.
  destruct (Z.ltb_spec l 0) as [Hln|Hlp].
  - replace (Z.to_nat l) with 0%nat by lia. simpl.
    rewrite (proj2 (Z.leb_le 0 (Z.of_nat i - l))) by lia.
    destruct (Z.ltb_spec r 0) as [Hrn|Hrp].
    + replace (Z.to_nat r) with 0%nat by lia. simpl. rewrite app_nil_r.
      rewrite lookup_take_lt by (rewrite length_drop; lia).
      rewrite lookup_drop.
      replace (Z.to_nat (- l) + i)%nat with (Z.to_nat (Z.of_nat i - l)) by lia.
      destruct (lookup_lt_is_Some_2 v (Z.to_nat (Z.of_nat i - l))) as [x ->]; [lia|]. done.
    + destruct (decide (i < length (drop (Z.to_nat (- l)) v))%nat) as [Hin|Hout].
      * rewrite lookup_app_l by done. rewrite lookup_drop.
        replace (Z.to_nat (- l) + i)%nat with (Z.to_nat (Z.of_nat i - l)) by lia.
        rewrite length_drop in Hin.
        destruct (lookup_lt_is_Some_2 v (Z.to_nat (Z.of_nat i - l))) as [x ->]; [lia|]. done.
      * rewrite lookup_app_r by lia. rewrite length_drop in *.
        rewrite lookup_replicate_2 by lia.
        rewrite lookup_ge_None_2 by lia. done.
  - destruct (decide (i < Z.to_nat l)%nat) as [Hpad|Hin].
    + rewrite lookup_app_l by (rewrite length_replicate; lia).
      rewrite lookup_replicate_2 by lia.
      by rewrite (proj2 (Z.leb_gt 0 (Z.of_nat i - l))) by lia.
    + rewrite lookup_app_r by (rewrite length_replicate; lia).
      rewrite length_replicate.
      rewrite (proj2 (Z.leb_le 0 (Z.of_nat i - l))) by lia.
      replace (Z.to_nat (Z.of_nat i - l)) with (i - Z.to_nat l)%nat by lia.
      destruct (Z.ltb_spec r 0) as [Hrn|Hrp].
      * replace (Z.to_nat r) with 0%nat by lia. simpl. rewrite app_nil_r.
        rewrite lookup_take_lt by lia.
        destruct (lookup_lt_is_Some_2 v (i - Z.to_nat l)) as [x ->]; [lia|]. done.
      * destruct (decide (i - Z.to_nat l < length v)%nat) as [Hv|Hv].
        -- rewrite lookup_app_l by done.
           destruct (lookup_lt_is_Some_2 v (i - Z.to_nat l)) as [x ->]; [lia|]. done.
        -- rewrite lookup_app_r by lia. rewrite lookup_replicate_2 by lia.
           rewrite lookup_ge_None_2 by lia. done.
Qed.

Lemma Qfloor_div (a b : Z) : b <> 0 -> Qfloor (inject_Z a / inject_Z b) = a / b.
Proof.
  intros Hb. destruct b as [|p|p]; [done| |].
  - unfold Qdiv, Qinv, inject_Z, Qmult. simpl. by rewrite Z.mul_1_r.
  - unfold Qdiv, Qinv, inject_Z, Qmult. simpl.
    rewrite <- (Z.div_opp_opp a (Z.neg p)) by lia.
    f_equal. lia.
Qed.

Lemma Qceiling_div (a b : Z) : b <> 0 -> Qceiling (inject_Z a / inject_Z b) = - ((- a) / b).
Proof.
  intros Hb. unfold Qceiling. f_equal.
  rewrite <- (Qfloor_div (- a) b Hb). apply Qfloor_comp.
  rewrite inject_Z_opp. unfold Qdiv. ring.
Qed.

(** A tensor of shape [B, C, H, W]. *)
Definition nchw (B C H W : nat) (input : list (list (list (list Q)))) : Prop :=
  length input = B /\
  Forall (fun img => length img = C /\ Forall (rect H W) img) input.

(** Entry [(y, x)] of a plane, 0 outside of it. *)
Definition zat (plane : list (list Q)) (y x : Z) : Q := zget 0%Q (zget [] plane y) x.

(** The total padding [SamePad2d] computes from a dimension of [n]
    entries, for a kernel [k] and a stride [s]. *)
Definition pad_along (n k s : Z) : Z := (- ((- n) / s) - 1) * s + k - n.

Lemma nchw_sizes B C H W input :
  nchw B C H W input -> (0 < B)%nat -> (0 < C)%nat -> (0 < H)%nat ->
  Pad.size2 input = Z.of_nat H /\ Pad.size3 input = Z.of_nat W.
Proof.
  intros [Hl Hr] HB HC HH. unfold Pad.size2, Pad.size3.
  destruct input as [|img input]; [simpl in Hl; lia|].
  apply Forall_cons in Hr as [[Hc Hp] _].
  destruct img as [|plane img]; [simpl in Hc; lia|].
  apply Forall_cons in Hp as [[Hh Hw] _]. simpl.
  destruct plane as [|row plane]; [simpl in Hh; lia|].
  apply Forall_cons in Hw as [Hw _]. simpl in *. split; lia.
Qed.

(** One plane padded by [(left, right, top, bottom)], none of the crops
    emptying it. *)
Lemma pad_plane H W (plane : list (list Q)) (left right top bottom : Z) :
  rect H W plane ->
  (top < 0 -> 0 < Z.of_nat H + top) ->
  (bottom < 0 -> 0 < Z.of_nat H + Z.min top 0 + bottom) ->
  (left < 0 -> 0 < Z.of_nat W + left) ->
  (right < 0 -> 0 < Z.of_nat W + Z.min left 0 + right) ->
  0 <= Z.of_nat H + top + bottom -> 0 <= Z.of_nat W + left + right ->
  let plane' :=
    Pad.pad_dim (replicate (Z.to_nat (Z.of_nat W + left + right)) 0%Q) top bottom
      (map (Pad.pad_dim 0%Q left right) plane) in
  rect (Z.to_nat (Z.of_nat H + top + bottom)) (Z.to_nat (Z.of_nat W + left + right)) plane' /\
  forall y x : nat,
    Z.of_nat y < Z.of_nat H + top + bottom -> Z.of_nat x < Z.of_nat W + left + right ->
    lookup2 plane' y x = Some (zat plane (Z.of_nat y - top) (Z.of_nat x - left)).
Proof.
  intros [Hh Hw] Ht Hb Hl Hr HH HW plane'.
  assert (Hlen : Z.of_nat (length plane') = Z.of_nat H + top + bottom).
  { subst plane'. rewrite pad_dim_length; rewrite ?length_map; lia. }
  assert (Hrow : forall y : nat, Z.of_nat y < Z.of_nat H + top + bottom ->
    plane' !! y =
    Some (zget (replicate (Z.to_nat (Z.of_nat W + left + right)) 0%Q)
            (map (Pad.pad_dim 0%Q left right) plane) (Z.of_nat y - top))).
  { intros y Hy. subst plane'. apply pad_dim_lookup; rewrite ?length_map; lia. }
  assert (Hrowlen : forall z,
    Z.of_nat (length (zget (replicate (Z.to_nat (Z.of_nat W + left + right)) 0%Q)
                        (map (Pad.pad_dim 0%Q left right) plane) z)) =
    Z.of_nat W + left + right).
  { intros z. unfold zget. destruct (0 <=? z); [|rewrite length_replicate; lia].
    rewrite list_lookup_fmap.
    destruct (plane !! Z.to_nat z) as [row|] eqn:Erow; simpl;
      [|rewrite length_replicate; lia].
    rewrite Forall_lookup in Hw. specialize (Hw _ _ Erow).
    rewrite pad_dim_length; lia. }
  split.
  - split; [lia|]. apply Forall_lookup. intros y row Hy.
    assert (Hy' : Z.of_nat y < Z.of_nat H + top + bottom).
    { apply lookup_lt_Some in Hy. lia. }
    rewrite Hrow in Hy by done. injection Hy as <-.
    specialize (Hrowlen (Z.of_nat y - top)). lia.
  - intros y x Hy Hx. unfold lookup2. rewrite Hrow by done. simpl.
    unfold zat, zget.
    destruct (Z.leb_spec 0 (Z.of_nat y - top)) as [Hge|Hlt].
    + rewrite list_lookup_fmap.
      destruct (plane !! Z.to_nat (Z.of_nat y - top)) as [row|] eqn:Erow; simpl.
      * rewrite Forall_lookup in Hw. specialize (Hw _ _ Erow).
        rewrite pad_dim_lookup by lia. done.
      * rewrite lookup_replicate_2 by lia.
        destruct (0 <=? Z.of_nat x - left); by rewrite ?lookup_nil.
    + rewrite lookup_replicate_2 by lia.
      destruct (0 <=? Z.of_nat x - left); by rewrite ?lookup_nil.
Qed.

Lemma ceil_div_run (a b : Z) :
  b <> 0 -> SamePad2d.ceil_div a b = Return (- ((- a) / b)).
Proof.
  intros Hb. unfold SamePad2d.ceil_div.
  destruct (Z.eqb_spec b 0); [done|]. by rewrite Qceiling_div.
Qed.

Lemma Qfloor_half (p : Z) : Qfloor (inject_Z p / 2) = p / 2.
Proof. change 2%Q with (inject_Z 2). by apply Qfloor_div. Qed.

(** The padded planes of a successful [forward]. *)
Definition padded_plane (self : SamePad2d.t) (H W : nat) (plane : list (list Q))
  : list (list Q) :=
  let pw := pad_along (Z.of_nat H) (SamePad2d.kernel_size self).1 (SamePad2d.stride self).1 in
  let ph := pad_along (Z.of_nat W) (SamePad2d.kernel_size self).2 (SamePad2d.stride self).2 in
  Pad.pad_dim (replicate (Z.to_nat (Z.of_nat W + pw)) 0%Q) (ph / 2) (ph - ph / 2)
    (map (Pad.pad_dim 0%Q (pw / 2) (pw - pw / 2)) plane).

Lemma samepad_forward_unfold (self : SamePad2d.t) input (B C H W : nat) :
  nchw B C H W input -> (0 < B)%nat -> (0 < C)%nat -> (0 < H)%nat ->
  (SamePad2d.stride self).1 <> 0 -> (SamePad2d.stride self).2 <> 0 ->
  let pw := pad_along (Z.of_nat H) (SamePad2d.kernel_size self).1 (SamePad2d.stride self).1 in
  let ph := pad_along (Z.of_nat W) (SamePad2d.kernel_size self).2 (SamePad2d.stride self).2 in
  SamePad2d.forward self input =
  if (0 <? Z.of_nat H + ph) && (0 <? Z.of_nat W + pw)
  then Return (map (map (padded_plane self H W)) input)
  else Throw AssertionError.
Proof.
  intros Hin HB HC HH Hs1 Hs2 pw ph.
  destruct (nchw_sizes B C H W input Hin HB HC HH) as [E2 E3].
  unfold SamePad2d.forward. rewrite E2, E3, !ceil_div_run by done.
  cbn [mbind outcome_mbind]. rewrite !Qfloor_half.
  fold (pad_along (Z.of_nat H) (SamePad2d.kernel_size self).1 (SamePad2d.stride self).1).
  fold (pad_along (Z.of_nat W) (SamePad2d.kernel_size self).2 (SamePad2d.stride self).2).
  fold pw ph. unfold Pad.pad, Pad.check_dim, Pad.crop_dim. rewrite E2, E3.
  replace (Z.of_nat H + ph / 2 + (ph - ph / 2)) with (Z.of_nat H + ph) by lia.
  replace (Z.of_nat W + pw / 2 + (pw - pw / 2)) with (Z.of_nat W + pw) by lia.
  destruct (Z.ltb_spec 0 (Z.of_nat H + ph)) as [Hh|Hh]; cbn [negb andb mbind outcome_mbind];
    [|done].
  destruct (Z.ltb_spec 0 (Z.of_nat W + pw)) as [Hw|Hw]; cbn [negb andb mbind outcome_mbind];
    [|done].
  assert (Hc1 : (ph / 2 <? 0) && negb (0 <? Z.of_nat H + ph / 2) = false).
  { destruct (Z.ltb_spec (ph / 2) 0), (Z.ltb_spec 0 (Z.of_nat H + ph / 2)); try done.
    exfalso. Z.to_euclidean_division_equations. lia. }
  assert (Hc2 : (ph - ph / 2 <? 0) &&
                negb (0 <? Z.of_nat H + Z.min (ph / 2) 0 + (ph - ph / 2)) = false).
  { destruct (Z.ltb_spec (ph - ph / 2) 0),
      (Z.ltb_spec 0 (Z.of_nat H + Z.min (ph / 2) 0 + (ph - ph / 2))); try done.
    exfalso. Z.to_euclidean_division_equations. lia. }
  assert (Hc3 : (pw / 2 <? 0) && negb (0 <? Z.of_nat W + pw / 2) = false).
  { destruct (Z.ltb_spec (pw / 2) 0), (Z.ltb_spec 0 (Z.of_nat W + pw / 2)); try done.
    exfalso. Z.to_euclidean_division_equations. lia. }
  assert (Hc4 : (pw - pw / 2 <? 0) &&
                negb (0 <? Z.of_nat W + Z.min (pw / 2) 0 + (pw - pw / 2)) = false).
  { destruct (Z.ltb_spec (pw - pw / 2) 0),
      (Z.ltb_spec 0 (Z.of_nat W + Z.min (pw / 2) 0 + (pw - pw / 2))); try done.
    exfalso. Z.to_euclidean_division_equations. lia. }
  rewrite Hc1, Hc2, Hc3, Hc4. cbn [mbind outcome_mbind].
  reflexivity.
Qed.

Lemma padded_plane_entries (self : SamePad2d.t) (H W : nat) (plane : list (list Q)) :
  rect H W plane ->
  let pw := pad_along (Z.of_nat H) (SamePad2d.kernel_size self).1 (SamePad2d.stride self).1 in
  let ph := pad_along (Z.of_nat W) (SamePad2d.kernel_size self).2 (SamePad2d.stride self).2 in
  0 < Z.of_nat H + ph -> 0 < Z.of_nat W + pw ->
  rect (Z.to_nat (Z.of_nat H + ph)) (Z.to_nat (Z.of_nat W + pw)) (padded_plane self H W plane) /\
  forall y x : nat,
    Z.of_nat y < Z.of_nat H + ph -> Z.of_nat x < Z.of_nat W + pw ->
    lookup2 (padded_plane self H W plane) y x =
    Some (zat plane (Z.of_nat y - ph / 2) (Z.of_nat x - pw / 2)).
Proof.
  intros Hp pw ph Hh Hw.
  destruct (pad_plane H W plane (pw / 2) (pw - pw / 2) (ph / 2) (ph - ph / 2) Hp)
    as [Hrect Hat]; try (Z.to_euclidean_division_equations; lia).
  replace (Z.of_nat H + ph / 2 + (ph - ph / 2)) with (Z.of_nat H + ph) in * by lia.
  replace (Z.of_nat W + pw / 2 + (pw - pw / 2)) with (Z.of_nat W + pw) in * by lia.
  split; [exact Hrect|]. intros y x Hy Hx. by apply Hat.
Qed.

(** X10. [SamePad2d.forward] on a tensor of shape [B, C, H, W]. With a
    zero stride it raises [ZeroDivisionError]. Otherwise the total padding of
    the columns is computed from the number of rows [H] with the first
    entries of kernel and stride, and that of the rows from the number of
    columns [W] with the second entries; the smaller half goes left and top.
    When a padded dimension would not be positive, [F.pad] raises
    [AssertionError]; else every plane comes back with [H + ph] rows and
    [W + pw] columns, each entry being the input entry [floor(ph / 2)] rows
    up and [floor(pw / 2)] columns to the left, or 0 where there is none (a
    negative padding crops). *)
Theorem samepad_forward (self : SamePad2d.t) (input : list (list (list (list Q))))
    (B C H W : nat) :
  nchw B C H W input -> (0 < B)%nat -> (0 < C)%nat -> (0 < H)%nat ->
  let pw := pad_along (Z.of_nat H) (SamePad2d.kernel_size self).1 (SamePad2d.stride self).1 in
  let ph := pad_along (Z.of_nat W) (SamePad2d.kernel_size self).2 (SamePad2d.stride self).2 in
  ((SamePad2d.stride self).1 = 0 \/ (SamePad2d.stride self).2 = 0 ->
   SamePad2d.forward self input = Throw ZeroDivisionError) /\
  ((SamePad2d.stride self).1 <> 0 -> (SamePad2d.stride self).2 <> 0 ->
   Z.of_nat H + ph <= 0 \/ Z.of_nat W + pw <= 0 ->
   SamePad2d.forward self input = Throw AssertionError) /\
  ((SamePad2d.stride self).1 <> 0 -> (SamePad2d.stride self).2 <> 0 ->
   0 < Z.of_nat H + ph -> 0 < Z.of_nat W + pw ->
   exists f,
     SamePad2d.forward self input = Return (map (map f) input) /\
     forall plane, rect H W plane ->
       rect (Z.to_nat (Z.of_nat H + ph)) (Z.to_nat (Z.of_nat W + pw)) (f plane) /\
       forall y x : nat,
         Z.of_nat y < Z.of_nat H + ph -> Z.of_nat x < Z.of_nat W + pw ->
         lookup2 (f plane) y x =
         Some (zat plane (Z.of_nat y - ph / 2) (Z.of_nat x - pw / 2))).
Proof.
  intros Hin HB HC HH pw ph. split; [|split].
  - intros Hz. unfold SamePad2d.forward, SamePad2d.ceil_div.
    destruct (Z.eqb_spec (SamePad2d.stride self).1 0) as [E1|N1]; [done|].
    cbn [mbind outcome_mbind].
    destruct (Z.eqb_spec (SamePad2d.stride self).2 0) as [E2|N2]; [done|].
    by destruct Hz.
  - intros Hs1 Hs2 Hsmall.
    rewrite (samepad_forward_unfold self input B C H W) by done. fold pw ph.
    destruct (Z.ltb_spec 0 (Z.of_nat H + ph)); [|done].
    destruct (Z.ltb_spec 0 (Z.of_nat W + pw)); [|done]. lia.
  - intros Hs1 Hs2 Hh Hw. exists (padded_plane self H W). split.
    + rewrite (samepad_forward_unfold self input B C H W) by done. fold pw ph.
      by rewrite (proj2 (Z.ltb_lt _ _) Hh), (proj2 (Z.ltb_lt _ _) Hw).
    + intros plane Hp. by apply padded_plane_entries.
Qed.

Lemma samepad_forward_witness :
  let self := SamePad2d.Make (3, 3) (2, 2) in
  let input := [[[[1; 2; 3; 4; 5]; [6; 7; 8; 9; 10]; [11; 12; 13; 14; 15];
                  [16; 17; 18; 19; 20]]]]%Q in
  let pw := pad_along 4 3 2 in
  let ph := pad_along 5 3 2 in
  ((SamePad2d.stride self).1 = 0 \/ (SamePad2d.stride self).2 = 0 ->
   SamePad2d.forward self input = Throw ZeroDivisionError) /\
  ((SamePad2d.stride self).1 <> 0 -> (SamePad2d.stride self).2 <> 0 ->
   4 + ph <= 0 \/ 5 + pw <= 0 ->
   SamePad2d.forward self input = Throw AssertionError) /\
  ((SamePad2d.stride self).1 <> 0 -> (SamePad2d.stride self).2 <> 0 ->
   0 < 4 + ph -> 0 < 5 + pw ->
   exists f,
     SamePad2d.forward self input = Return (map (map f) input) /\
     forall plane, rect 4 5 plane ->
       rect (Z.to_nat (4 + ph)) (Z.to_nat (5 + pw)) (f plane) /\
       forall y x : nat,
         Z.of_nat y < 4 + ph -> Z.of_nat x < 5 + pw ->
         lookup2 (f plane) y x =
         Some (zat plane (Z.of_nat y - ph / 2) (Z.of_nat x - pw / 2))).
Proof.
  intros self input.
  apply (samepad_forward self input 1 1 4 5); try lia.
  split; [reflexivity|]. repeat constructor.
Defined.

(** On 4 rows and 5 columns, with kernel 3 and stride 2: the columns get
    the padding 1 that the 4 rows ask for and the rows the padding 2 that
    the 5 columns ask for. The result has 6 rows and 6 columns, and a
    3-window moved in steps of 2 then fits twice along the 5 columns, not
    the 3 times of [ceil(5 / 2)]. *)
Example samepad_forward_not_square :
  SamePad2d.forward (SamePad2d.__init__ 3 2)
    [[[[1; 2; 3; 4; 5]; [6; 7; 8; 9; 10]; [11; 12; 13; 14; 15]; [16; 17; 18; 19; 20]]]]%Q =
  Return [[[[0; 0; 0; 0; 0; 0];
            [1; 2; 3; 4; 5; 0]; [6; 7; 8; 9; 10; 0]; [11; 12; 13; 14; 15; 0];
            [16; 17; 18; 19; 20; 0];
            [0; 0; 0; 0; 0; 0]]]]%Q.
Proof. reflexivity. Qed.

(** X11. The 'SAME' padding on square planes. For a layer built with
    kernel [k] and stride [s], [0 < s <= k], and planes of [n] rows and [n]
    columns, [forward] returns planes of side [n + p] with
    [p = (ceil(n / s) - 1) * s + k - n >= 0]: a window of [k] moved in steps
    of [s] fits it exactly [ceil(n / s)] times. Nothing is cropped: the
    input sits [floor(p / 2)] rows and columns in, surrounded by zeros, and
    the odd unit of padding goes to the bottom and to the right. *)
Theorem samepad_same (k s : Z) (n B C : nat) (input : list (list (list (list Q)))) :
  0 < s <= k -> nchw B C n n input -> (0 < B)%nat -> (0 < C)%nat -> (0 < n)%nat ->
  let out := - ((- Z.of_nat n) / s) in
  let p := (out - 1) * s + k - Z.of_nat n in
  (out - 1) * s < Z.of_nat n <= out * s /\
  0 <= p /\ p / 2 <= p - p / 2 <= p / 2 + 1 /\
  Z.of_nat n + p - k = (out - 1) * s /\
  exists f,
    SamePad2d.forward (SamePad2d.__init__ k s) input = Return (map (map f) input) /\
    forall plane, rect n n plane ->
      rect (Z.to_nat (Z.of_nat n + p)) (Z.to_nat (Z.of_nat n + p)) (f plane) /\
      (forall y x : nat, (y < n)%nat -> (x < n)%nat ->
         lookup2 (f plane) (y + Z.to_nat (p / 2)) (x + Z.to_nat (p / 2)) = lookup2 plane y x) /\
      (forall y x : nat,
         Z.of_nat y < Z.of_nat n + p -> Z.of_nat x < Z.of_nat n + p ->
         ~ (p / 2 <= Z.of_nat y < p / 2 + Z.of_nat n /\
            p / 2 <= Z.of_nat x < p / 2 + Z.of_nat n) ->
         lookup2 (f plane) y x = Some 0%Q).
Proof.
  intros Hks Hin HB HC Hn out p.
  assert (Hout : (out - 1) * s < Z.of_nat n <= out * s).
  { subst out. Z.to_euclidean_division_equations. nia. }
  assert (Hp : 0 <= p) by (subst p; nia).
  split; [done|]. split; [done|].
  split; [Z.to_euclidean_division_equations; lia|].
  split; [subst p; lia|].
  set (self := SamePad2d.__init__ k s).
  assert (Epad : pad_along (Z.of_nat n) k s = p) by reflexivity.
  exists (padded_plane self n n). split.
  - rewrite (samepad_forward_unfold self input B C n n) by (done || (simpl; lia)).
    cbn [SamePad2d.kernel_size SamePad2d.stride self SamePad2d.__init__ SamePad2d._pair
         fst snd]. rewrite Epad.
    by rewrite (proj2 (Z.ltb_lt 0 (Z.of_nat n + p))) by lia.
  - intros plane Hplane.
    destruct (padded_plane_entries self n n plane Hplane) as [Hrect Hat];
      cbn [SamePad2d.kernel_size SamePad2d.stride self SamePad2d.__init__ SamePad2d._pair
           fst snd]; rewrite ?Epad; try lia.
    cbn [SamePad2d.kernel_size SamePad2d.stride self SamePad2d.__init__ SamePad2d._pair
         fst snd] in Hrect, Hat. rewrite Epad in Hrect, Hat.
    assert (Hhalf : 0 <= p / 2 <= p) by (Z.to_euclidean_division_equations; lia).
    split; [exact Hrect|]. split.
    + intros y x Hy Hx. rewrite Hat by lia.
      unfold zat, zget.
      rewrite (proj2 (Z.leb_le 0 _)) by lia. rewrite (proj2 (Z.leb_le 0 _)) by lia.
      replace (Z.to_nat (Z.of_nat (y + Z.to_nat (p / 2)) - p / 2)) with y by lia.
      replace (Z.to_nat (Z.of_nat (x + Z.to_nat (p / 2)) - p / 2)) with x by lia.
      unfold lookup2.
      destruct (lookup_lt_is_Some_2 plane y) as [row Hrow]; [destruct Hplane; lia|].
      rewrite Hrow. simpl.
      destruct (lookup_lt_is_Some_2 row x) as [q ->]; [|done].
      destruct Hplane as [_ Hr]. rewrite Forall_lookup in Hr.
      rewrite (Hr _ _ Hrow). lia.
    + intros y x Hy Hx Hout'. rewrite Hat by lia. f_equal.
      unfold zat, zget.
      destruct (Z.leb_spec 0 (Z.of_nat y - p / 2)) as [Hy0|Hy0]; simpl;
        [|destruct (0 <=? Z.of_nat x - p / 2); by rewrite ?lookup_nil].
      destruct (plane !! Z.to_nat (Z.of_nat y - p / 2)) as [row|] eqn:Hrow; simpl;
        [|destruct (0 <=? Z.of_nat x - p / 2); by rewrite ?lookup_nil].
      destruct (Z.leb_spec 0 (Z.of_nat x - p / 2)) as [Hx0|Hx0]; [|done].
      destruct (row !! Z.to_nat (Z.of_nat x - p / 2)) as [q|] eqn:Hq; [|done].
      exfalso. apply Hout'.
      apply lookup_lt_Some in Hq.
      destruct Hplane as [Hl Hr]. rewrite Forall_lookup in Hr.
      rewrite (Hr _ _ Hrow) in Hq. apply lookup_lt_Some in Hrow. lia.
Qed.

Lemma samepad_same_witness :
  let input := [[[[1; 2; 3]; [4; 5; 6]; [7; 8; 9]]]]%Q in
  let out := - ((- 3) / 2) in
  let p := (out - 1) * 2 + 3 - 3 in
  (out - 1) * 2 < 3 <= out * 2 /\
  0 <= p /\ p / 2 <= p - p / 2 <= p / 2 + 1 /\
  3 + p - 3 = (out - 1) * 2 /\
  exists f,
    SamePad2d.forward (SamePad2d.__init__ 3 2) input = Return (map (map f) input) /\
    forall plane, rect 3 3 plane ->
      rect (Z.to_nat (3 + p)) (Z.to_nat (3 + p)) (f plane) /\
      (forall y x : nat, (y < 3)%nat -> (x < 3)%nat ->
         lookup2 (f plane) (y + Z.to_nat (p / 2)) (x + Z.to_nat (p / 2)) = lookup2 plane y x) /\
      (forall y x : nat,
         Z.of_nat y < 3 + p -> Z.of_nat x < 3 + p ->
         ~ (p / 2 <= Z.of_nat y < p / 2 + 3 /\ p / 2 <= Z.of_nat x < p / 2 + 3) ->
         lookup2 (f plane) y x = Some 0%Q).
Proof.
  intros input.
  apply (samepad_same 3 2 3 1 1 input); try lia.
  split; [reflexivity|]. repeat constructor.
Defined.

(** Kernel 3 and stride 2 on a 4 x 4 plane: one row and one column of
    zeros, at the bottom and at the right. *)
Example samepad_same_example :
  SamePad2d.forward (SamePad2d.__init__ 3 2)
    [[[[1; 2; 3; 4]; [5; 6; 7; 8]; [9; 10; 11; 12]; [13; 14; 15; 16]]]]%Q =
  Return [[[[1; 2; 3; 4; 0]; [5; 6; 7; 8; 0]; [9; 10; 11; 12; 0]; [13; 14; 15; 16; 0];
            [0; 0; 0; 0; 0]]]]%Q.
Proof. reflexivity. Qed.

(** ** The network on shapes *)

(** The shape of a tensor of shape [B, C, H, W]. *)
Lemma samepad_shape_unfold (self : SamePad2d.t) (B C H W : nat) :
  (SamePad2d.stride self).1 <> 0 -> (SamePad2d.stride self).2 <> 0 ->
  let pw := pad_along (Z.of_nat H) (SamePad2d.kernel_size self).1 (SamePad2d.stride self).1 in
  let ph := pad_along (Z.of_nat W) (SamePad2d.kernel_size self).2 (SamePad2d.stride self).2 in
  Torch.SamePad_forward self [B; C; H; W] =
  if (0 <? Z.of_nat H + ph) && (0 <? Z.of_nat W + pw)
  then Return [B; C; Z.to_nat (Z.of_nat H + ph); Z.to_nat (Z.of_nat W + pw)]
  else Throw AssertionError.
Proof.
  intros Hs1 Hs2 pw ph.
  unfold Torch.SamePad_forward. cbn [lookup list_lookup].
  rewrite !ceil_div_run by done.
  cbn [mbind outcome_mbind]. rewrite !Qfloor_half.
  fold (pad_along (Z.of_nat H) (SamePad2d.kernel_size self).1 (SamePad2d.stride self).1).
  fold (pad_along (Z.of_nat W) (SamePad2d.kernel_size self).2 (SamePad2d.stride self).2).
  fold pw ph. unfold Torch.pad, Pad.check_dim, Pad.crop_dim. cbn [rev app].
  replace (Z.of_nat H + ph / 2 + (ph - ph / 2)) with (Z.of_nat H + ph) by lia.
  replace (Z.of_nat W + pw / 2 + (pw - pw / 2)) with (Z.of_nat W + pw) by lia.
  destruct (Z.ltb_spec 0 (Z.of_nat H + ph)) as [Hh|Hh]; cbn [negb andb mbind outcome_mbind];
    [|done].
  destruct (Z.ltb_spec 0 (Z.of_nat W + pw)) as [Hw|Hw]; cbn [negb andb mbind outcome_mbind];
    [|done].
  assert (Hc1 : (ph / 2 <? 0) && negb (0 <? Z.of_nat H + ph / 2) = false).
  { destruct (Z.ltb_spec (ph / 2) 0), (Z.ltb_spec 0 (Z.of_nat H + ph / 2)); try done.
    exfalso. Z.to_euclidean_division_equations. lia. }
  assert (Hc2 : (ph - ph / 2 <? 0) &&
                negb (0 <? Z.of_nat H + Z.min (ph / 2) 0 + (ph - ph / 2)) = false).
  { destruct (Z.ltb_spec (ph - ph / 2) 0),
      (Z.ltb_spec 0 (Z.of_nat H + Z.min (ph / 2) 0 + (ph - ph / 2))); try done.
    exfalso. Z.to_euclidean_division_equations. lia. }
  assert (Hc3 : (pw / 2 <? 0) && negb (0 <? Z.of_nat W + pw / 2) = false).
  { destruct (Z.ltb_spec (pw / 2) 0), (Z.ltb_spec 0 (Z.of_nat W + pw / 2)); try done.
    exfalso. Z.to_euclidean_division_equations. lia. }
  assert (Hc4 : (pw - pw / 2 <? 0) &&
                negb (0 <? Z.of_nat W + Z.min (pw / 2) 0 + (pw - pw / 2)) = false).
  { destruct (Z.ltb_spec (pw - pw / 2) 0),
      (Z.ltb_spec 0 (Z.of_nat W + Z.min (pw / 2) 0 + (pw - pw / 2))); try done.
    exfalso. Z.to_euclidean_division_equations. lia. }
  rewrite Hc1, Hc2, Hc3, Hc4. cbn [mbind outcome_mbind].
  reflexivity.
Qed.

(** The shape of a tensor, read off its first entries. *)
Definition shape_of (t : list (list (list (list Q)))) : Torch.shape :=
  [length t; length (hd [] t); length (hd [] (hd [] t));
   length (hd [] (hd [] (hd [] t)))].

Lemma nchw_shape_of B C H W t :
  nchw B C H W t -> (0 < B)%nat -> (0 < C)%nat -> (0 < H)%nat ->
  shape_of t = [B; C; H; W].
Proof.
  intros Hin HB HC HH.
  destruct (nchw_sizes B C H W t Hin HB HC HH) as [E2 E3].
  unfold Pad.size2, Pad.size3 in *. unfold shape_of.
  destruct Hin as [Hl Hr]. destruct t as [|img t]; [simpl in Hl; lia|].
  apply Forall_cons in Hr as [[Hc _] _]. simpl in *. repeat f_equal; lia.
Qed.

(** On the shapes, the padding layer of the source does what it does on
    the tensors. *)
Lemma samepad_shape_sound (self : SamePad2d.t) (B C H W : nat) input :
  nchw B C H W input -> (0 < B)%nat -> (0 < C)%nat -> (0 < H)%nat ->
  Torch.SamePad_forward self (shape_of input) =
  match SamePad2d.forward self input with
  | Return out => Return (shape_of out)
  | Throw e => Throw e
  end.
Proof.
  intros Hin HB HC HH. rewrite (nchw_shape_of B C H W) by done.
  destruct (Z.eq_dec (SamePad2d.stride self).1 0) as [E1|N1].
  { unfold Torch.SamePad_forward, SamePad2d.forward, SamePad2d.ceil_div.
    cbn [lookup list_lookup]. rewrite E1. done. }
  destruct (Z.eq_dec (SamePad2d.stride self).2 0) as [E2|N2].
  { unfold Torch.SamePad_forward, SamePad2d.forward, SamePad2d.ceil_div.
    cbn [lookup list_lookup]. rewrite E2.
    destruct (Z.eqb_spec (SamePad2d.stride self).1 0); done. }
  rewrite samepad_shape_unfold, (samepad_forward_unfold self input B C H W) by done.
  cbv zeta.
  set (pw := pad_along (Z.of_nat H) _ _). set (ph := pad_along (Z.of_nat W) _ _).
  destruct (Z.ltb_spec 0 (Z.of_nat H + ph)) as [Hh|Hh]; [|done].
  destruct (Z.ltb_spec 0 (Z.of_nat W + pw)) as [Hw|Hw]; [|done].
  cbn [andb]. f_equal. symmetry.
  apply (nchw_shape_of B C); try lia.
  destruct Hin as [Hl Hr]. split; [by rewrite length_map|].
  apply Forall_map. eapply Forall_impl; [exact Hr|].
  intros img [Hc Hp]. split; [by rewrite length_map|].
  apply Forall_map. eapply Forall_impl; [exact Hp|].
  intros plane Hrect. by apply padded_plane_entries.
Qed.

(** [ceil(size / stride)] on positive sizes. *)
Definition strided (size stride : nat) : nat := ((size - 1) / stride + 1)%nat.

Lemma strided_ceil (size stride : nat) :
  (1 <= size)%nat -> (1 <= stride)%nat ->
  (stride * (strided size stride - 1) < size <= stride * strided size stride)%nat.
Proof.
  intros Hs Hk. unfold strided.
  pose proof (Nat.div_mod_eq (size - 1) stride) as E.
  pose proof (Nat.mod_upper_bound (size - 1) stride ltac:(lia)) as Hm.
  nia.
Qed.

Lemma strided_one (size : nat) : (1 <= size)%nat -> strided size 1 = size.
Proof. intros Hs. unfold strided. rewrite Nat.div_1_r. lia. Qed.

Lemma strided_pos (size stride : nat) : (1 <= strided size stride)%nat.
Proof. unfold strided. lia. Qed.

Lemma strided_multiple (a stride : nat) :
  (1 <= a)%nat -> (1 <= stride)%nat -> strided (stride * a) stride = a.
Proof.
  intros Ha Hs. unfold strided.
  replace (stride * a - 1)%nat with ((a - 1) * stride + (stride - 1))%nat by nia.
  rewrite Nat.div_add_l by lia. rewrite Nat.div_small by lia. lia.
Qed.

Lemma pad_along_nonneg (n k s : Z) : 0 <= n -> 1 <= s -> s <= k -> 0 <= pad_along n k s.
Proof.
  intros Hn Hs Hk. unfold pad_along. Z.to_euclidean_division_equations. nia.
Qed.

Lemma pad_along_stride_one (n k : Z) : pad_along n k 1 = k - 1.
Proof. unfold pad_along. rewrite Z.div_1_r. lia. Qed.

Section Layers.

Variable training : bool.

Lemma samepad_run (k s : Z) (n c h w : nat) :
  1 <= s -> s <= k -> (1 <= h)%nat -> (1 <= w)%nat ->
  Torch.forward training (Torch.SamePad (SamePad2d.__init__ k s)) [n; c; h; w] =
  Return [n; c; (h + Z.to_nat (pad_along (Z.of_nat w) k s))%nat;
          (w + Z.to_nat (pad_along (Z.of_nat h) k s))%nat].
Proof.
  intros Hs Hk Hh Hw. cbn [Torch.forward].
  rewrite samepad_shape_unfold by (simpl; lia).
  cbn [SamePad2d.__init__ SamePad2d._pair SamePad2d.kernel_size SamePad2d.stride fst snd].
  pose proof (pad_along_nonneg (Z.of_nat w) k s ltac:(lia) Hs Hk).
  pose proof (pad_along_nonneg (Z.of_nat h) k s ltac:(lia) Hs Hk).
  destruct (Z.ltb_spec 0 (Z.of_nat h + pad_along (Z.of_nat w) k s)); [|lia].
  destruct (Z.ltb_spec 0 (Z.of_nat w + pad_along (Z.of_nat h) k s)); [|lia].
  cbn [andb]. repeat f_equal; lia.
Qed.

Lemma samepad_same_run (k : Z) (n c h w : nat) :
  1 <= k -> (1 <= h)%nat -> (1 <= w)%nat ->
  Torch.forward training (Torch.SamePad (SamePad2d.__init__ k 1)) [n; c; h; w] =
  Return [n; c; (h + Z.to_nat (k - 1))%nat; (w + Z.to_nat (k - 1))%nat].
Proof.
  intros Hk Hh Hw. rewrite samepad_run by lia. by rewrite !pad_along_stride_one.
Qed.

Lemma conv_run (cin cout k s p n h w : nat) :
  (1 <= s)%nat -> (1 <= k)%nat -> (k <= h + 2 * p)%nat -> (k <= w + 2 * p)%nat ->
  Torch.forward training (Torch.Conv2d cin cout k s p) [n; cin; h; w] =
  Return [n; cout; Torch.window_out h k s p; Torch.window_out w k s p].
Proof.
  intros Hs Hk Hh Hw. cbn [Torch.forward]. rewrite Nat.eqb_refl. cbn [negb].
  destruct (Nat.eqb_spec s 0); [lia|]. destruct (Nat.eqb_spec k 0); [lia|].
  destruct (Nat.ltb_spec (h + 2 * p) k); [lia|].
  destruct (Nat.ltb_spec (w + 2 * p) k); [lia|]. done.
Qed.

Lemma bn_run (f : nat) (eps momentum : Q) (n h w : nat) :
  (training = true -> (1 < n * (h * w))%nat) ->
  Torch.forward training (Torch.BatchNorm2d f eps momentum) [n; f; h; w] =
  Return [n; f; h; w].
Proof.
  intros Hn. cbn [Torch.forward]. rewrite Nat.eqb_refl. cbn [negb].
  destruct training; cbn [andb]; [|done].
  destruct (Nat.eqb_spec (n * (h * w)) 1); [|done]. specialize (Hn eq_refl). lia.
Qed.

Lemma relu_run (x : Torch.shape) : Torch.forward training Torch.ReLU x = Return x.
Proof. done. Qed.

Lemma iadd_same (a : Torch.shape) : Torch.iadd a a = Return a.
Proof.
  assert (H : forall s, Torch.broadcast s s = Return s).
  { induction s as [|d s IH]; [done|]. cbn [Torch.broadcast]. rewrite IH.
    cbn [mbind outcome_mbind]. by rewrite Nat.eqb_refl. }
  unfold Torch.iadd, Torch.add. rewrite H. cbn [mbind outcome_mbind].
  rewrite rev_involutive. by destruct (decide (a = a)).
Qed.

Lemma add_same (a : Torch.shape) : Torch.add a a = Return a.
Proof.
  assert (H : forall s, Torch.broadcast s s = Return s).
  { induction s as [|d s IH]; [done|]. cbn [Torch.broadcast]. rewrite IH.
    cbn [mbind outcome_mbind]. by rewrite Nat.eqb_refl. }
  unfold Torch.add. rewrite H. cbn [mbind outcome_mbind]. by rewrite rev_involutive.
Qed.

Lemma window_one (size stride : nat) : Torch.window_out size 1 stride 0 = strided size stride.
Proof. unfold Torch.window_out, strided. by rewrite Nat.add_0_r. Qed.

Lemma window_same (size : nat) :
  (1 <= size)%nat -> Torch.window_out (size + Z.to_nat (3 - 1)) 3 1 0 = size.
Proof.
  intros Hs. unfold Torch.window_out. rewrite Nat.div_1_r.
  change (Z.to_nat (3 - 1)) with 2%nat. lia.
Qed.

(** One block: the shape [[n, inplanes, h, w]] becomes
    [[n, 4 planes, ceil(h / stride), ceil(w / stride)]] when the shortcut
    has its convolution, or needs none. *)
Lemma bottleneck_forward (inplanes planes stride : nat) downsample (n h w : nat) :
  (1 <= stride)%nat -> (1 <= n)%nat -> (1 <= h)%nat -> (1 <= w)%nat ->
  (training = true -> (1 < n * (strided h stride * strided w stride))%nat) ->
  downsample = Some [Torch.Conv2d inplanes (planes * Bottleneck.expansion) 1 stride 0;
                     Torch.BatchNorm2d (planes * Bottleneck.expansion) (1 # 1000) (1 # 100)]
  \/ (downsample = None /\ stride = 1%nat /\ inplanes = (planes * Bottleneck.expansion)%nat) ->
  Bottleneck.forward training (Bottleneck.__init__ inplanes planes stride downsample)
    [n; inplanes; h; w] =
  Return [n; (planes * 4)%nat; strided h stride; strided w stride].
Proof.
  intros Hs Hn Hh Hw Htr Hd.
  pose proof (strided_pos h stride). pose proof (strided_pos w stride).
  unfold Bottleneck.forward, Bottleneck.__init__.
  cbn [Bottleneck.conv1 Bottleneck.bn1 Bottleneck.relu Bottleneck.padding2
       Bottleneck.conv2 Bottleneck.bn2 Bottleneck.conv3 Bottleneck.bn3
       Bottleneck.downsample].
  rewrite conv_run by lia. cbn [mbind outcome_mbind]. rewrite !window_one.
  rewrite bn_run by done. cbn [mbind outcome_mbind]. rewrite relu_run. cbn [mbind outcome_mbind].
  rewrite samepad_same_run by lia. cbn [mbind outcome_mbind].
  rewrite conv_run by (change (Z.to_nat (3 - 1)) with 2%nat; lia).
  cbn [mbind outcome_mbind]. rewrite !window_same by done.
  rewrite bn_run by done. cbn [mbind outcome_mbind]. rewrite relu_run. cbn [mbind outcome_mbind].
  rewrite conv_run by lia. cbn [mbind outcome_mbind]. rewrite !window_one, !strided_one by lia.
  rewrite bn_run by done. cbn [mbind outcome_mbind].
  destruct Hd as [->|(-> & -> & ->)].
  - cbn [Torch.Sequential_forward]. rewrite conv_run by lia.
    cbn [mbind outcome_mbind]. rewrite !window_one.
    unfold Bottleneck.expansion. rewrite bn_run by done.
    cbn [mbind outcome_mbind]. rewrite iadd_same. done.
  - cbn [mbind outcome_mbind]. rewrite !strided_one by lia.
    unfold Bottleneck.expansion. rewrite iadd_same. done.
Qed.

Lemma later_blocks_forward {A} (planes : nat) (l : list A) (n h w : nat) :
  (1 <= n)%nat -> (1 <= h)%nat -> (1 <= w)%nat ->
  (training = true -> (1 < n * (h * w))%nat) ->
  ResNet.blocks_forward training
    (map (fun _ => Bottleneck.__init__ (planes * Bottleneck.expansion) planes 1 None) l)
    [n; (planes * 4)%nat; h; w] =
  Return [n; (planes * 4)%nat; h; w].
Proof.
  intros Hn Hh Hw Htr. induction l as [|i l IH]; [done|].
  cbn [map ResNet.blocks_forward].
  change (planes * 4)%nat with (planes * Bottleneck.expansion)%nat at 1.
  rewrite bottleneck_forward; try lia.
  - cbn [mbind outcome_mbind]. by rewrite !strided_one by lia.
  - by rewrite !strided_one by lia.
  - by right.
Qed.

Lemma make_layer_inplanes (inplanes planes blocks stride : nat) :
  ResNet.make_layer inplanes planes blocks stride =
  ((ResNet.make_layer inplanes planes blocks stride).1, (planes * 4)%nat).
Proof. done. Qed.

Lemma make_layer_run (inplanes planes blocks stride n h w : nat) :
  (1 <= stride)%nat -> (1 <= n)%nat -> (1 <= h)%nat -> (1 <= w)%nat ->
  (training = true -> (1 < n * (strided h stride * strided w stride))%nat) ->
  ResNet.call training (Some (ResNet.make_layer inplanes planes blocks stride).1)
    [n; inplanes; h; w] =
  Return [n; (planes * 4)%nat; strided h stride; strided w stride].
Proof.
  intros Hs Hn Hh Hw Htr.
  pose proof (strided_pos h stride). pose proof (strided_pos w stride).
  unfold ResNet.make_layer. cbn [fst ResNet.call app ResNet.blocks_forward].
  rewrite bottleneck_forward; try done.
  - cbn [mbind outcome_mbind]. by apply later_blocks_forward.
  - destruct (Nat.eqb_spec stride 1) as [->|Hne]; cbn [negb orb]; [|by left].
    destruct (Nat.eqb_spec inplanes (planes * Bottleneck.expansion)) as [->|Hne];
      cbn [negb]; [by right|by left].
Qed.

End Layers.

(** X12. A stage built by [ResNet.make_layer], in either mode of its batch
    normalisations, maps a batch of shape [[n, inplanes, h, w]] to the shape
    [[n, 4 planes, ceil(h / stride), ceil(w / stride)]], and leaves
    [4 planes] as the next [inplanes]: whatever the number of blocks, the
    shortcut of every block has the shape of its residual branch, so that
    [out += residual] never fails. In training mode the batch normalisations
    need more than one value per channel. *)
Theorem make_layer_forward (training : bool) (inplanes planes blocks stride n h w : nat) :
  (1 <= stride)%nat -> (1 <= n)%nat -> (1 <= h)%nat -> (1 <= w)%nat ->
  (training = true -> (1 < n * (strided h stride * strided w stride))%nat) ->
  (ResNet.make_layer inplanes planes blocks stride).2 = (4 * planes)%nat /\
  (stride * (strided h stride - 1) < h <= stride * strided h stride)%nat /\
  (stride * (strided w stride - 1) < w <= stride * strided w stride)%nat /\
  ResNet.call training (Some (ResNet.make_layer inplanes planes blocks stride).1)
    [n; inplanes; h; w] =
  Return [n; (4 * planes)%nat; strided h stride; strided w stride].
Proof.
  intros Hs Hn Hh Hw Htr. rewrite (Nat.mul_comm 4).
  split; [done|]. split; [by apply strided_ceil|]. split; [by apply strided_ceil|].
  by apply make_layer_run.
Qed.

Lemma make_layer_forward_witness :
  (ResNet.make_layer 256 128 4 2).2 = (4 * 128)%nat /\
  (2 * (strided 7 2 - 1) < 7 <= 2 * strided 7 2)%nat /\
  (2 * (strided 5 2 - 1) < 5 <= 2 * strided 5 2)%nat /\
  ResNet.call true (Some (ResNet.make_layer 256 128 4 2).1) [1; 256; 7; 5]%nat =
  Return [1; 4 * 128; strided 7 2; strided 5 2]%nat.
Proof.
  apply (make_layer_forward true 256 128 4 2 1 7 5); try lia.
  intros _. vm_compute. lia.
Defined.

(** The first stage of the backbone. *)
Definition C1_layers : list Torch.layer :=
  [Torch.Conv2d 3 64 7 2 3;
   Torch.BatchNorm2d 64 (1 # 1000) (1 # 100);
   Torch.ReLU;
   Torch.SamePad (SamePad2d.__init__ 3 2);
   Torch.MaxPool2d 3 2].

(** What [ResNet.__init__] builds. *)
Lemma resnet_init (architecture : string) (stage5 : bool) (resnet : ResNet.t) :
  ResNet.__init__ architecture stage5 = Return resnet ->
  exists blocks,
    (architecture = "resnet50"%string /\ blocks = 6%nat \/
     architecture = "resnet101"%string /\ blocks = 23%nat) /\
    resnet =
    ResNet.Make (if stage5 then 512 * 4 else 256 * 4)%nat [3; 4; blocks; 3]%nat stage5
      (Some (ResNet.Layers C1_layers))
      (Some (ResNet.make_layer 64 64 3 1).1)
      (Some (ResNet.make_layer (64 * 4) 128 4 2).1)
      (Some (ResNet.make_layer (128 * 4) 256 blocks 2).1)
      (if stage5 then Some (ResNet.make_layer (256 * 4) 512 3 2).1 else None).
Proof.
  unfold ResNet.__init__. intros Hinit.
  destruct (String.eqb_spec architecture "resnet50") as [->|H50].
  - exists 6%nat. split; [by left|].
    cbn [orb negb nth] in Hinit.
    rewrite (make_layer_inplanes 64 64), (make_layer_inplanes (64 * 4) 128),
      (make_layer_inplanes (128 * 4) 256) in Hinit.
    destruct stage5.
    + rewrite (make_layer_inplanes (256 * 4) 512) in Hinit. by injection Hinit as <-.
    + by injection Hinit as <-.
  - destruct (String.eqb_spec architecture "resnet101") as [->|H101]; [|done].
    exists 23%nat. split; [by right|].
    cbn [orb negb nth] in Hinit.
    rewrite (make_layer_inplanes 64 64), (make_layer_inplanes (64 * 4) 128),
      (make_layer_inplanes (128 * 4) 256) in Hinit.
    destruct stage5.
    + rewrite (make_layer_inplanes (256 * 4) 512) in Hinit. by injection Hinit as <-.
    + by injection Hinit as <-.
Qed.

Section Backbone.

Variable training : bool.

Lemma maxpool_run (k s n c h w : nat) :
  (1 <= s)%nat -> (1 <= k)%nat -> (k <= h)%nat -> (k <= w)%nat ->
  Torch.forward training (Torch.MaxPool2d k s) [n; c; h; w] =
  Return [n; c; Torch.window_out h k s 0; Torch.window_out w k s 0].
Proof.
  intros Hs Hk Hh Hw. cbn [Torch.forward rev app length Nat.eqb orb negb].
  destruct (Nat.eqb_spec s 0); [lia|]. destruct (Nat.eqb_spec k 0); [lia|].
  destruct (Nat.ltb_spec h k); [lia|]. destruct (Nat.ltb_spec w k); [lia|]. done.
Qed.

(** The first stage quarters the sides of the image. *)
Lemma C1_forward (n a b : nat) :
  (1 <= n)%nat -> (1 <= a)%nat -> (1 <= b)%nat ->
  ResNet.call training (Some (ResNet.Layers C1_layers)) [n; 3; 4 * a; 4 * b]%nat =
  Return [n; 64; a; b]%nat.
Proof.
  intros Hn Ha Hb. cbn [ResNet.call C1_layers Torch.Sequential_forward].
  rewrite conv_run by lia. cbn [mbind outcome_mbind].
  assert (E : forall m, (1 <= m)%nat -> Torch.window_out (4 * m) 7 2 3 = (2 * m)%nat).
  { intros m Hm. unfold Torch.window_out.
    replace (4 * m + 2 * 3 - 7)%nat with ((m - 1) * 2 * 2 + 3)%nat by lia.
    rewrite Nat.div_add_l by lia. change (3 / 2)%nat with 1%nat. lia. }
  rewrite !E by done.
  rewrite bn_run by (intros _; nia). cbn [mbind outcome_mbind].
  rewrite relu_run. cbn [mbind outcome_mbind].
  rewrite samepad_run by lia. cbn [mbind outcome_mbind].
  assert (P : forall m, (1 <= m)%nat -> pad_along (Z.of_nat (2 * m)) 3 2 = 1).
  { intros m Hm. unfold pad_along. Z.to_euclidean_division_equations. lia. }
  rewrite !P by done. change (Z.to_nat 1) with 1%nat.
  rewrite maxpool_run by lia.
  assert (W : forall m, (1 <= m)%nat -> Torch.window_out (2 * m + 1) 3 2 0 = m).
  { intros m Hm. unfold Torch.window_out.
    replace (2 * m + 1 + 2 * 0 - 3)%nat with ((m - 1) * 2)%nat by lia.
    rewrite Nat.div_mul by lia. lia. }
  by rewrite !W by done.
Qed.

Lemma strided_two (a : nat) : (1 <= a)%nat -> strided (2 * a) 2 = a.
Proof. intros Ha. apply strided_multiple; lia. Qed.

(** The stages C2 to C4 on the output of C1, for sides that are multiples
    of 8 after it. *)
Lemma stages_forward (blocks n a b : nat) :
  (1 <= n)%nat -> (1 <= a)%nat -> (1 <= b)%nat ->
  ResNet.call training (Some (ResNet.make_layer 64 64 3 1).1)
    [n; 64; 2 * (2 * (2 * a)); 2 * (2 * (2 * b))]%nat =
    Return [n; 64 * 4; 2 * (2 * (2 * a)); 2 * (2 * (2 * b))]%nat /\
  ResNet.call training (Some (ResNet.make_layer (64 * 4) 128 4 2).1)
    [n; 64 * 4; 2 * (2 * (2 * a)); 2 * (2 * (2 * b))]%nat =
    Return [n; 128 * 4; 2 * (2 * a); 2 * (2 * b)]%nat /\
  ResNet.call training (Some (ResNet.make_layer (128 * 4) 256 blocks 2).1)
    [n; 128 * 4; 2 * (2 * a); 2 * (2 * b)]%nat =
    Return [n; 256 * 4; 2 * a; 2 * b]%nat /\
  ((training = true -> (1 < n * (a * b))%nat) ->
   ResNet.call training (Some (ResNet.make_layer (256 * 4) 512 3 2).1)
     [n; 256 * 4; 2 * a; 2 * b]%nat =
     Return [n; 512 * 4; a; b]%nat).
Proof.
  intros Hn Ha Hb. repeat split.
  - rewrite make_layer_run; try lia.
    + by rewrite !strided_one by lia.
    + intros _. rewrite !strided_one by lia. nia.
  - rewrite make_layer_run; try lia.
    + by rewrite !strided_two by lia.
    + intros _. rewrite !strided_two by lia. nia.
  - rewrite make_layer_run; try lia.
    + by rewrite !strided_two by lia.
    + intros _. rewrite !strided_two by lia. nia.
  - intros Htr. rewrite make_layer_run; try lia.
    + by rewrite !strided_two by lia.
    + rewrite !strided_two by lia. done.
Qed.

End Backbone.

Section Pyramid.

Variable training : bool.

Lemma lateral_forward (oc n h w : nat) :
  (1 <= h)%nat -> (1 <= w)%nat ->
  Torch.Sequential_forward training
    [Torch.SamePad (SamePad2d.__init__ 3 1); Torch.Conv2d oc oc 3 1 0] [n; oc; h; w] =
  Return [n; oc; h; w].
Proof.
  intros Hh Hw. cbn [Torch.Sequential_forward].
  rewrite samepad_same_run by lia. cbn [mbind outcome_mbind].
  rewrite conv_run by (change (Z.to_nat (3 - 1)) with 2%nat; lia).
  cbn [mbind outcome_mbind]. by rewrite !window_same by done.
Qed.

Lemma top_down (cin oc n h w : nat) :
  (1 <= h)%nat -> (1 <= w)%nat ->
  (a ← Torch.forward training (Torch.Conv2d cin oc 1 1 0) [n; cin; 2 * h; 2 * w]%nat;
   b ← Torch.upsample2 [n; oc; h; w]; Torch.add a b) =
  Return [n; oc; 2 * h; 2 * w]%nat.
Proof.
  intros Hh Hw. rewrite conv_run by lia. cbn [mbind outcome_mbind Torch.upsample2].
  rewrite !window_one, !strided_one by lia.
  rewrite (Nat.mul_comm h 2), (Nat.mul_comm w 2). apply add_same.
Qed.

Lemma fpn_forward_run (architecture : string) (resnet : ResNet.t) (oc n a b : nat) :
  ResNet.__init__ architecture true = Return resnet ->
  (1 <= n)%nat -> (1 <= a)%nat -> (1 <= b)%nat ->
  (training = true -> (1 < n * (a * b))%nat) ->
  FPN.forward training
    (FPN.__init__ (ResNet.C1 resnet) (ResNet.C2 resnet) (ResNet.C3 resnet)
       (ResNet.C4 resnet) (ResNet.C5 resnet) oc)
    [n; 3; 32 * a; 32 * b]%nat =
  Return [[n; oc; 8 * a; 8 * b]; [n; oc; 4 * a; 4 * b]; [n; oc; 2 * a; 2 * b];
          [n; oc; a; b]; [n; oc; strided a 2; strided b 2]]%nat.
Proof.
  intros Hinit Hn Ha Hb Htr.
  apply resnet_init in Hinit as (blocks & _ & ->).
  destruct (stages_forward training blocks n a b Hn Ha Hb) as (E2 & E3 & E4 & E5).
  specialize (E5 Htr).
  unfold FPN.forward, FPN.__init__.
  cbn [ResNet.C1 ResNet.C2 ResNet.C3 ResNet.C4 ResNet.C5 FPN.C1 FPN.C2 FPN.C3 FPN.C4
       FPN.C5 FPN.P6 FPN.P5_conv1 FPN.P5_conv2 FPN.P4_conv1 FPN.P4_conv2 FPN.P3_conv1
       FPN.P3_conv2 FPN.P2_conv1 FPN.P2_conv2].
  replace (32 * a)%nat with (4 * (2 * (2 * (2 * a))))%nat by lia.
  replace (32 * b)%nat with (4 * (2 * (2 * (2 * b))))%nat by lia.
  rewrite C1_forward by lia. cbn [mbind outcome_mbind].
  rewrite E2. cbn [mbind outcome_mbind].
  rewrite E3. cbn [mbind outcome_mbind].
  rewrite E4. cbn [mbind outcome_mbind].
  rewrite E5. cbn [mbind outcome_mbind].
  change (512 * 4)%nat with 2048%nat. change (256 * 4)%nat with 1024%nat.
  change (128 * 4)%nat with 512%nat. change (64 * 4)%nat with 256%nat.
  rewrite (conv_run training 2048 oc 1 1 0 n a b) by lia. cbn [mbind outcome_mbind].
  rewrite !window_one, !strided_one by lia.
  rewrite (top_down 1024 oc n a b) by lia. cbn [mbind outcome_mbind].
  rewrite (top_down 512 oc n (2 * a) (2 * b)) by lia. cbn [mbind outcome_mbind].
  rewrite (top_down 256 oc n (2 * (2 * a)) (2 * (2 * b))) by lia. cbn [mbind outcome_mbind].
  rewrite !lateral_forward by lia. cbn [mbind outcome_mbind].
  rewrite maxpool_run by lia. cbn [mbind outcome_mbind]. rewrite !window_one.
  replace (8 * a)%nat with (2 * (2 * (2 * a)))%nat by lia.
  replace (8 * b)%nat with (2 * (2 * (2 * b)))%nat by lia.
  replace (4 * a)%nat with (2 * (2 * a))%nat by lia.
  replace (4 * b)%nat with (2 * (2 * b))%nat by lia.
  reflexivity.
Qed.

End Pyramid.

(** X13. The pyramid of a backbone with its fifth stage, in either mode:
    for a batch of [n] images with 3 channels whose sides are the multiples
    [32 a] and [32 b] of 32, [FPN.forward] returns five maps of
    [out_channels] channels whose sides are the sides of the image divided
    by 4, 8, 16 and 32, and for the fifth the sides of the fourth halved and
    rounded up; every addition of the top-down path is between equal shapes.
    In training mode the coarsest batch normalisations need more than one
    value per channel. *)
Theorem fpn_forward_pyramid (training : bool) (architecture : string) (resnet : ResNet.t)
    (out_channels n a b : nat) :
  ResNet.__init__ architecture true = Return resnet ->
  (1 <= n)%nat -> (1 <= a)%nat -> (1 <= b)%nat ->
  (training = true -> (1 < n * (a * b))%nat) ->
  FPN.forward training
    (FPN.__init__ (ResNet.C1 resnet) (ResNet.C2 resnet) (ResNet.C3 resnet)
       (ResNet.C4 resnet) (ResNet.C5 resnet) out_channels)
    [n; 3; 32 * a; 32 * b]%nat =
  Return [[n; out_channels; 8 * a; 8 * b]; [n; out_channels; 4 * a; 4 * b];
          [n; out_channels; 2 * a; 2 * b]; [n; out_channels; a; b];
          [n; out_channels; (a - 1) / 2 + 1; (b - 1) / 2 + 1]]%nat.
Proof. apply fpn_forward_run. Qed.

Lemma fpn_forward_pyramid_witness :
  exists resnet,
    ResNet.__init__ "resnet50" true = Return resnet /\
    FPN.forward true
      (FPN.__init__ (ResNet.C1 resnet) (ResNet.C2 resnet) (ResNet.C3 resnet)
         (ResNet.C4 resnet) (ResNet.C5 resnet) 256)
      [2; 3; 32 * 3; 32 * 2]%nat =
    Return [[2; 256; 8 * 3; 8 * 2]; [2; 256; 4 * 3; 4 * 2];
            [2; 256; 2 * 3; 2 * 2]; [2; 256; 3; 2];
            [2; 256; (3 - 1) / 2 + 1; (2 - 1) / 2 + 1]]%nat.
Proof.
  eexists. split; [reflexivity|].
  apply (fpn_forward_pyramid true "resnet50" _ 256 2 3 2); [reflexivity|lia..].
Defined.

(** An image of 100 by 100 pixels: the fourth stage gives 7 by 7, the fifth
    4 by 4, and 8 by 8 cannot be added to 7 by 7. *)
Example fpn_forward_not_multiple :
  forall resnet, ResNet.__init__ "resnet101" true = Return resnet ->
  FPN.forward false
    (FPN.__init__ (ResNet.C1 resnet) (ResNet.C2 resnet) (ResNet.C3 resnet)
       (ResNet.C4 resnet) (ResNet.C5 resnet) 256)
    [1; 3; 100; 100]%nat = Throw (Raised RuntimeError).
Proof. intros resnet [= <-]. vm_compute. reflexivity. Qed.

(** X14. A backbone built without its fifth stage, which is the default of
    [ResNet.__init__], has [C5 = None], and its [forward] never returns:
    whatever the input, it raises; on images whose sides are multiples of
    32, where the four stages succeed, the exception is the [TypeError] of
    calling [None]. *)
Theorem resnet_forward_without_stage5 (training : bool) (architecture : string)
    (resnet : ResNet.t) :
  ResNet.__init__ architecture false = Return resnet ->
  ResNet.C5 resnet = None /\
  (forall x, exists e, ResNet.forward training resnet x = Throw e) /\
  (forall n a b, (1 <= n)%nat -> (1 <= a)%nat -> (1 <= b)%nat ->
     ResNet.forward training resnet [n; 3; 32 * a; 32 * b]%nat = Throw (Raised TypeError)).
Proof.
  intros Hinit. apply resnet_init in Hinit as (blocks & _ & ->).
  split; [done|]. split.
  - intros x. unfold ResNet.forward. cbn [ResNet.C1 ResNet.C2 ResNet.C3 ResNet.C4 ResNet.C5].
    destruct (ResNet.call training (Some (ResNet.Layers C1_layers)) x) as [x1|e];
      cbn [mbind outcome_mbind]; [|by eexists].
    destruct (ResNet.call training _ x1) as [x2|e]; cbn [mbind outcome_mbind]; [|by eexists].
    destruct (ResNet.call training _ x2) as [x3|e]; cbn [mbind outcome_mbind]; [|by eexists].
    destruct (ResNet.call training _ x3) as [x4|e]; cbn [mbind outcome_mbind]; [|by eexists].
    by eexists.
  - intros n a b Hn Ha Hb.
    destruct (stages_forward training blocks n a b Hn Ha Hb) as (E2 & E3 & E4 & _).
    unfold ResNet.forward. cbn [ResNet.C1 ResNet.C2 ResNet.C3 ResNet.C4 ResNet.C5].
    replace (32 * a)%nat with (4 * (2 * (2 * (2 * a))))%nat by lia.
    replace (32 * b)%nat with (4 * (2 * (2 * (2 * b))))%nat by lia.
    rewrite C1_forward by lia. cbn [mbind outcome_mbind].
    rewrite E2. cbn [mbind outcome_mbind].
    rewrite E3. cbn [mbind outcome_mbind].
    rewrite E4. cbn [mbind outcome_mbind]. done.
Qed.

Lemma resnet_forward_without_stage5_witness :
  exists resnet,
    ResNet.__init__ "resnet50" false = Return resnet /\
    ResNet.C5 resnet = None /\
    (forall x, exists e, ResNet.forward false resnet x = Throw e) /\
    (forall n a b, (1 <= n)%nat -> (1 <= a)%nat -> (1 <= b)%nat ->
       ResNet.forward false resnet [n; 3; 32 * a; 32 * b]%nat = Throw (Raised TypeError)).
Proof.
  eexists. split; [reflexivity|].
  apply (resnet_forward_without_stage5 false "resnet50"). reflexivity.
Defined.

(** *** The heads *)

Lemma view_a_m1_c_run (x : Torch.shape) (a m c : nat) :
  Torch.numel x = (a * m * c)%nat -> (1 <= a)%nat -> (1 <= m)%nat -> (1 <= c)%nat ->
  Torch.view_a_m1_c x a c = Return [a; m; c].
Proof.
  intros Hx Ha Hm Hc. unfold Torch.view_a_m1_c. rewrite Hx.
  destruct (Nat.eqb_spec (a * c) 0); [nia|].
  destruct (Nat.eqb_spec (a * m * c) 0); [nia|]. cbn [orb].
  replace (a * m * c)%nat with (m * (a * c))%nat by lia.
  rewrite Nat.Div0.mod_mul, Nat.div_mul by lia. done.
Qed.

Lemma view_m1_c_run (x : Torch.shape) (m c : nat) :
  Torch.numel x = (m * c)%nat -> (1 <= m)%nat -> (1 <= c)%nat ->
  Torch.view_m1_c x c = Return [m; c].
Proof.
  intros Hx Hm Hc. unfold Torch.view_m1_c. rewrite Hx.
  destruct (Nat.eqb_spec c 0); [lia|].
  destruct (Nat.eqb_spec (m * c) 0); [nia|]. cbn [orb].
  rewrite Nat.Div0.mod_mul, Nat.div_mul by lia. done.
Qed.

Lemma ceiling_div_pos (n s : Z) : 1 <= n -> 1 <= s -> - ((- n) / s) = (n - 1) / s + 1.
Proof.
  intros Hn Hs.
  pose proof (Z.div_mod (n - 1) s ltac:(lia)) as E.
  pose proof (Z.mod_pos_bound (n - 1) s ltac:(lia)) as Hr.
  rewrite <- (Z.div_unique_pos (- n) s (- ((n - 1) / s + 1)) (s - 1 - (n - 1) mod s));
    lia.
Qed.

(** After the padding of [SamePad2d], a window of the same kernel and
    stride gives [ceil(size / stride)] where the padding was computed from
    the size it is applied to. *)
Lemma window_padded (size k s : nat) :
  (1 <= size)%nat -> (1 <= s)%nat -> (s <= k)%nat ->
  (k <= size + Z.to_nat (pad_along (Z.of_nat size) (Z.of_nat k) (Z.of_nat s)))%nat /\
  Torch.window_out (size + Z.to_nat (pad_along (Z.of_nat size) (Z.of_nat k) (Z.of_nat s)))
    k s 0 = strided size s.
Proof.
  intros Hsize Hs Hk.
  pose proof (pad_along_nonneg (Z.of_nat size) (Z.of_nat k) (Z.of_nat s)
                ltac:(lia) ltac:(lia) ltac:(lia)) as Hp.
  assert (E : Z.of_nat size + pad_along (Z.of_nat size) (Z.of_nat k) (Z.of_nat s) =
              Z.of_nat ((strided size s - 1) * s + k)).
  { unfold pad_along, strided.
    rewrite Nat2Z.inj_add, Nat2Z.inj_mul, Nat2Z.inj_sub, Nat2Z.inj_add, Nat2Z.inj_div,
      Nat2Z.inj_sub by lia.
    change (Z.of_nat 1) with 1. rewrite ceiling_div_pos by lia. ring. }
  assert (E' : (size + Z.to_nat (pad_along (Z.of_nat size) (Z.of_nat k) (Z.of_nat s)) =
               (strided size s - 1) * s + k)%nat) by lia.
  rewrite E'. split; [nia|]. unfold Torch.window_out.
  replace ((strided size s - 1) * s + k + 2 * 0 - k)%nat with ((strided size s - 1) * s)%nat
    by (generalize ((strided size s - 1) * s)%nat; lia).
  rewrite Nat.div_mul by lia. pose proof (strided_pos size s). lia.
Qed.

Section Heads.

Variable training : bool.

Lemma rpn_forward_run (anchors_per_location anchor_stride input_ch n h w : nat) :
  (1 <= anchors_per_location)%nat -> (1 <= anchor_stride <= 3)%nat ->
  (1 <= n)%nat -> (1 <= h)%nat -> (1 <= w)%nat ->
  anchor_stride = 1%nat \/ h = w ->
  let rows := (strided h anchor_stride * strided w anchor_stride * anchors_per_location)%nat in
  RPN.forward training (RPN.__init__ anchors_per_location anchor_stride input_ch)
    [n; input_ch; h; w] =
  Return [[n; rows; 2%nat]; [n; rows; 2%nat]; [n; rows; 4%nat]].
Proof.
  intros HA Hs Hn Hh Hw Hsq rows.
  assert (Hpad :
    (3 <= h + Z.to_nat (pad_along (Z.of_nat w) 3 (Z.of_nat anchor_stride)))%nat /\
    (3 <= w + Z.to_nat (pad_along (Z.of_nat h) 3 (Z.of_nat anchor_stride)))%nat /\
    Torch.window_out (h + Z.to_nat (pad_along (Z.of_nat w) 3 (Z.of_nat anchor_stride)))
      3 anchor_stride 0 = strided h anchor_stride /\
    Torch.window_out (w + Z.to_nat (pad_along (Z.of_nat h) 3 (Z.of_nat anchor_stride)))
      3 anchor_stride 0 = strided w anchor_stride).
  { destruct Hsq as [->| ->].
    - change (Z.of_nat 1) with 1. rewrite !pad_along_stride_one.
      change (Z.to_nat (3 - 1)) with 2%nat. rewrite !strided_one by lia.
      unfold Torch.window_out. rewrite !Nat.div_1_r. lia.
    - destruct (window_padded w 3 anchor_stride) as [H1 H2]; try lia.
      change (Z.of_nat 3) with 3 in *. done. }
  destruct Hpad as (Hh3 & Hw3 & Eh & Ew).
  pose proof (strided_pos h anchor_stride). pose proof (strided_pos w anchor_stride).
  unfold RPN.forward, RPN.__init__.
  cbn [RPN.padding RPN.conv_shared RPN.relu RPN.conv_class RPN.softmax RPN.conv_bbox].
  rewrite samepad_run by lia. cbn [mbind outcome_mbind].
  rewrite conv_run by lia. cbn [mbind outcome_mbind]. rewrite Eh, Ew.
  rewrite relu_run. cbn [mbind outcome_mbind].
  rewrite !conv_run by lia. cbn [mbind outcome_mbind Torch.permute_0231].
  rewrite !window_one, !strided_one by lia.
  rewrite (view_a_m1_c_run _ n rows 2); [|unfold rows; simpl; nia|lia|unfold rows; nia|lia].
  cbn [mbind outcome_mbind Torch.forward length].
  rewrite (view_a_m1_c_run _ n rows 4); [|unfold rows; simpl; nia|lia|unfold rows; nia|lia].
  done.
Qed.

(** X15. [RPN.forward] on a map of shape [[n, input_ch, h, w]], with an
    anchor stride between 1 and 3, and with a square map when the stride is
    not 1: the class logits and the probabilities have the shape
    [[n, ceil(h / stride) ceil(w / stride) A, 2]] and the box deltas
    [[n, ceil(h / stride) ceil(w / stride) A, 4]], where [A] is the number
    of anchors per location: one row for each anchor of each location. *)
Theorem rpn_forward_rows (anchors_per_location anchor_stride input_ch n h w : nat) :
  (1 <= anchors_per_location)%nat -> (1 <= anchor_stride <= 3)%nat ->
  (1 <= n)%nat -> (1 <= h)%nat -> (1 <= w)%nat ->
  anchor_stride = 1%nat \/ h = w ->
  let rows := (strided h anchor_stride * strided w anchor_stride * anchors_per_location)%nat in
  RPN.forward training (RPN.__init__ anchors_per_location anchor_stride input_ch)
    [n; input_ch; h; w] =
  Return [[n; rows; 2%nat]; [n; rows; 2%nat]; [n; rows; 4%nat]].
Proof. apply rpn_forward_run. Qed.


Lemma deconv_run (cin cout k s p op n h w : nat) :
  (1 <= s)%nat -> (1 <= k)%nat ->
  (2 * p < (h - 1) * s + k + op)%nat -> (2 * p < (w - 1) * s + k + op)%nat ->
  Torch.forward training (Torch.ConvTranspose2d cin cout k s p op) [n; cin; h; w] =
  Return [n; cout; ((h - 1) * s + k + op - 2 * p)%nat; ((w - 1) * s + k + op - 2 * p)%nat].
Proof.
  intros Hs Hk Hh Hw. cbn [Torch.forward]. rewrite Nat.eqb_refl. cbn [negb].
  destruct (Nat.eqb_spec s 0); [lia|]. destruct (Nat.eqb_spec k 0); [lia|].
  destruct (Nat.leb_spec ((h - 1) * s + k + op) (2 * p)); [lia|].
  destruct (Nat.leb_spec ((w - 1) * s + k + op) (2 * p)); [lia|]. done.
Qed.

(** X16. [Classifier.forward] on crops of shape [[N, depth, h, w]] with
    sides of at least [pool_size]: the first convolution leaves
    [(h - pool_size + 1) (w - pool_size + 1)] positions for each crop, and
    [view(-1, 1024)] makes each of them a row. The logits and the
    probabilities have one row for each position and one column for each
    class, the box deltas the shape [[rows, num_classes, 4]]: there is one
    row for each crop exactly when the crops have the side [pool_size]. In
    training mode a single row makes the batch normalisation raise
    [ValueError]. *)
Theorem classifier_forward_rows (depth num_classes pool_size N h w : nat) :
  (1 <= num_classes)%nat -> (1 <= pool_size)%nat -> (1 <= N)%nat ->
  (pool_size <= h)%nat -> (pool_size <= w)%nat ->
  let rows := (N * ((h - pool_size + 1) * (w - pool_size + 1)))%nat in
  Classifier.forward training (Classifier.__init__ depth num_classes pool_size)
    [N; depth; h; w] =
  if training && (rows =? 1)%nat then Throw (Raised ValueError)
  else Return [[rows; num_classes]; [rows; num_classes]; [rows; num_classes; 4%nat]].
Proof.
  intros Hc Hp HN Hh Hw rows.
  unfold Classifier.forward, Classifier.__init__.
  cbn [Classifier.conv1 Classifier.bn1 Classifier.conv2 Classifier.bn2 Classifier.relu
       Classifier.linear_class Classifier.softmax Classifier.linear_bbox].
  rewrite conv_run by lia. cbn [mbind outcome_mbind].
  assert (E : forall m, (pool_size <= m)%nat ->
                Torch.window_out m pool_size 1 0 = (m - pool_size + 1)%nat).
  { intros m Hm. unfold Torch.window_out. rewrite Nat.div_1_r. lia. }
  rewrite !E by done. fold rows.
  destruct (training && (rows =? 1)%nat) eqn:Htr.
  - apply andb_prop in Htr as [-> Hr]. cbn [Torch.forward]. fold rows. rewrite Hr. done.
  - rewrite bn_run; [|intros ->; fold rows; destruct (Nat.eqb_spec rows 1); [done|];
                      unfold rows in *; nia].
    cbn [mbind outcome_mbind]. rewrite relu_run. cbn [mbind outcome_mbind].
    rewrite conv_run by lia. cbn [mbind outcome_mbind].
    rewrite !window_one, !strided_one by lia.
    rewrite bn_run; [|intros ->; fold rows; destruct (Nat.eqb_spec rows 1); [done|];
                      unfold rows in *; nia].
    cbn [mbind outcome_mbind]. rewrite relu_run. cbn [mbind outcome_mbind].
    rewrite (view_m1_c_run _ rows 1024); [|unfold rows; simpl; nia|unfold rows; nia|lia].
    cbn [mbind outcome_mbind Torch.forward rev app Nat.eqb length Nat.ltb Nat.leb].
    rewrite (view_a_m1_c_run _ rows num_classes 4);
      [done|unfold rows; simpl; nia|unfold rows; nia|lia|lia].
Qed.

(** X17. [Mask.forward] on crops of shape [[N, depth, h, w]]: every padded
    convolution keeps the sides, the transposed convolution doubles them,
    and the masks have the shape [[N, num_classes, 2 h, 2 w]]. In training
    mode a single value per channel makes the batch normalisation raise
    [ValueError]. *)
Theorem mask_forward_shape (depth num_classes N h w : nat) :
  (1 <= N)%nat -> (1 <= h)%nat -> (1 <= w)%nat ->
  Mask.forward training (Mask.__init__ depth num_classes) [N; depth; h; w] =
  if training && (N * (h * w) =? 1)%nat then Throw (Raised ValueError)
  else Return [N; num_classes; 2 * h; 2 * w]%nat.
Proof.
  intros HN Hh Hw.
  unfold Mask.forward, Mask.__init__.
  cbn [Mask.padding Mask.conv1 Mask.bn1 Mask.conv2 Mask.bn2 Mask.conv3 Mask.bn3
       Mask.conv4 Mask.bn4 Mask.deconv Mask.conv5 Mask.sigmoid Mask.relu].
  destruct (training && (N * (h * w) =? 1)%nat) eqn:Htr.
  - apply andb_prop in Htr as [-> Hr].
    rewrite samepad_same_run by lia. cbn [mbind outcome_mbind].
    rewrite conv_run by (change (Z.to_nat (3 - 1)) with 2%nat; lia).
    rewrite !window_same by done. cbn [mbind outcome_mbind Torch.forward].
    rewrite Hr. done.
  - assert (Hbn : training = true -> (1 < N * (h * w))%nat).
    { intros ->. destruct (Nat.eqb_spec (N * (h * w)) 1); [done|]. nia. }
    do 4 (rewrite samepad_same_run by lia; cbn [mbind outcome_mbind];
          rewrite conv_run by (change (Z.to_nat (3 - 1)) with 2%nat; lia);
          rewrite !window_same by done; cbn [mbind outcome_mbind];
          rewrite bn_run by done; cbn [mbind outcome_mbind];
          rewrite relu_run; cbn [mbind outcome_mbind]).
    rewrite deconv_run by lia. cbn [mbind outcome_mbind].
    rewrite relu_run. cbn [mbind outcome_mbind].
    rewrite conv_run by lia. cbn [mbind outcome_mbind].
    rewrite !window_one, !strided_one by lia.
    replace ((h - 1) * 2 + 2 + 0 - 2 * 0)%nat with (2 * h)%nat by lia.
    replace ((w - 1) * 2 + 2 + 0 - 2 * 0)%nat with (2 * w)%nat by lia. done.
Qed.

End Heads.

(** *** The layers of the feature branch *)

Lemma squeeze_descriptor (m : nat) :
  Torch.squeeze [m; 1024; 1; 1]%nat = if (m =? 1)%nat then [1024%nat] else [m; 1024%nat].
Proof.
  unfold Torch.squeeze.
  destruct (Nat.eqb_spec m 1) as [->|Hm]; [vm_compute; reflexivity|].
  cbn [filter list_filter].
  destruct (decide (m <> 1%nat)) as [?|Hn]; [|done]. vm_compute. reflexivity.
Qed.

(** X18. [Dev.__init__] with [DEV.SWITCH] on. An odd
    [FEAT_BRANCH_POOL_SIZE] fails the assertion, before the upsampling
    factor is looked at; an even one with a factor other than 2 raises
    [Exception]. Otherwise the branch is built: its [upsample] doubles the
    sides of a map and keeps its channels, and its [feat_extract], on [m]
    crops of sides [g] and [g'], leaves
    [(ceil(g / 2) - FEAT_BRANCH_POOL_SIZE / 2 + 1)] positions along each
    side, so that, after [squeeze()], crops of the side
    [FEAT_BRANCH_POOL_SIZE] give one descriptor of 1024 entries each, of
    shape [[m, 1024]], and a single crop the shape [[1024]] in evaluation
    mode and [ValueError] in training mode. *)
Theorem dev_init_layers (training : bool) (config : Dev.config) (depth : nat) :
  Dev.use_dev config = true ->
  let f := Dev.feat_pool_size config in
  ((f mod 2 <> 0)%nat -> DevNet.__init__ config depth = Throw AssertionError) /\
  ((f mod 2 = 0)%nat -> ~ (Dev.upsample_fac config == 2)%Q ->
   DevNet.__init__ config depth = Throw (Raised Exception)) /\
  ((f mod 2 = 0)%nat -> (Dev.upsample_fac config == 2)%Q -> (2 <= f)%nat ->
   exists dev up,
     DevNet.__init__ config depth = Return dev /\
     DevNet.upsample dev = Some up /\
     (forall n h w, (1 <= n)%nat -> (1 <= h)%nat -> (1 <= w)%nat ->
        Torch.Sequential_forward training up [n; depth; h; w] =
        Return [n; depth; 2 * h; 2 * w]%nat) /\
     (forall m g g', (1 <= m)%nat -> (1 <= g)%nat -> (1 <= g')%nat ->
        (f / 2 <= (g - 1) / 2 + 1)%nat -> (f / 2 <= (g' - 1) / 2 + 1)%nat ->
        let u := ((g - 1) / 2 + 1 - f / 2 + 1)%nat in
        let u' := ((g' - 1) / 2 + 1 - f / 2 + 1)%nat in
        DevNet.extract training dev [m; depth; g; g'] =
        if training && (m * (u * u') =? 1)%nat then Throw (Raised ValueError)
        else Return (Torch.squeeze [m; 1024%nat; u; u'])) /\
     (forall m, (1 <= m)%nat ->
        DevNet.extract training dev [m; depth; f; f] =
        if (m =? 1)%nat
        then (if training then Throw (Raised ValueError) else Return [1024%nat])
        else Return [m; 1024%nat])).
Proof.
  intros Hdev f.
  assert (Hextract : forall m g g', (1 <= m)%nat -> (2 <= f)%nat ->
    (1 <= g)%nat -> (1 <= g')%nat ->
    (f / 2 <= (g - 1) / 2 + 1)%nat -> (f / 2 <= (g' - 1) / 2 + 1)%nat ->
    (y ← Torch.Sequential_forward training
           [Torch.Conv2d depth 512 3 2 1;
            Torch.BatchNorm2d 512 (1 # 100000) (1 # 10);
            Torch.ReLU;
            Torch.Conv2d 512 1024 (f / 2) 1 0;
            Torch.BatchNorm2d 1024 (1 # 100000) (1 # 10);
            Torch.ReLU] [m; depth; g; g'];
     Return (Torch.squeeze y)) =
    if training && (m * (((g - 1) / 2 + 1 - f / 2 + 1) * ((g' - 1) / 2 + 1 - f / 2 + 1)) =? 1)%nat
    then Throw (Raised ValueError)
    else Return (Torch.squeeze [m; 1024%nat; ((g - 1) / 2 + 1 - f / 2 + 1)%nat;
                                ((g' - 1) / 2 + 1 - f / 2 + 1)%nat])).
  { intros m g g' Hm Hf Hgp Hgp' Hg Hg'.
    assert (Hf2 : (1 <= f / 2)%nat) by (apply (Nat.div_le_lower_bound f 2 1); lia).
    assert (E : forall s, (1 <= s)%nat -> Torch.window_out s 3 2 1 = ((s - 1) / 2 + 1)%nat).
    { intros s Hs. unfold Torch.window_out. do 2 f_equal. lia. }
    assert (E' : forall s, (f / 2 <= s)%nat ->
                   Torch.window_out s (f / 2) 1 0 = (s - f / 2 + 1)%nat).
    { intros s Hs. unfold Torch.window_out. rewrite Nat.div_1_r. lia. }
    cbn [Torch.Sequential_forward].
    rewrite conv_run by lia. cbn [mbind outcome_mbind]. rewrite !E by done.
    set (u := ((g - 1) / 2 + 1 - f / 2 + 1)%nat).
    set (u' := ((g' - 1) / 2 + 1 - f / 2 + 1)%nat).
    destruct (training && (m * (u * u') =? 1)%nat) eqn:Htr.
    - apply andb_prop in Htr as [-> Hr]. apply Nat.eqb_eq in Hr.
      assert (m = 1%nat /\ u = 1%nat /\ u' = 1%nat) as (-> & Hu & Hu') by nia.
      destruct (Nat.eq_dec (1 * (((g - 1) / 2 + 1) * ((g' - 1) / 2 + 1)))%nat 1%nat) as [E1|N1].
      + cbn [Torch.forward andb]. rewrite E1. done.
      + rewrite bn_run by (intros _; lia). cbn [mbind outcome_mbind].
        rewrite relu_run. cbn [mbind outcome_mbind].
        rewrite conv_run by lia. cbn [mbind outcome_mbind]. rewrite !E' by done.
        fold u u'. rewrite Hu, Hu'. done.
    - assert (Hbn : training = true -> (1 < m * (u * u'))%nat).
      { intros ->. destruct (Nat.eqb_spec (m * (u * u')) 1); [done|]. unfold u, u' in *. nia. }
      rewrite bn_run by (intros Ht; specialize (Hbn Ht); unfold u, u' in Hbn; nia).
      cbn [mbind outcome_mbind]. rewrite relu_run. cbn [mbind outcome_mbind].
      rewrite conv_run by lia. cbn [mbind outcome_mbind]. rewrite !E' by done.
      fold u u'. rewrite bn_run by done. cbn [mbind outcome_mbind].
      rewrite relu_run. done. }
  unfold DevNet.__init__. rewrite Hdev. fold f. split; [|split].
  - intros Hodd. by destruct (Nat.eqb_spec (f mod 2) 0).
  - intros Heven Hfac. destruct (Nat.eqb_spec (f mod 2) 0); [|done]. cbn [negb].
    destruct (Qeq_bool (Dev.upsample_fac config) 2) eqn:E; [|done].
    by apply Qeq_bool_eq in E.
  - intros Heven Hfac Hf. destruct (Nat.eqb_spec (f mod 2) 0); [|done]. cbn [negb].
    rewrite (Qeq_eq_bool _ _ Hfac).
    eexists _, _. split; [reflexivity|]. split; [reflexivity|]. split; [|split].
    + intros n h w Hn Hh Hw. cbn [Torch.Sequential_forward].
      rewrite deconv_run by lia. cbn [mbind outcome_mbind].
      replace ((h - 1) * 2 + 3 + 1 - 2 * 1)%nat with (2 * h)%nat by lia.
      replace ((w - 1) * 2 + 3 + 1 - 2 * 1)%nat with (2 * w)%nat by lia.
      rewrite bn_run by (intros _; nia). cbn [mbind outcome_mbind].
      rewrite relu_run. cbn [mbind outcome_mbind].
      rewrite conv_run by lia. cbn [mbind outcome_mbind].
      assert (E : forall s, (1 <= s)%nat -> Torch.window_out s 3 1 1 = s).
      { intros s Hs. unfold Torch.window_out. rewrite Nat.div_1_r. lia. }
      rewrite !E by lia.
      rewrite bn_run by (intros _; nia). cbn [mbind outcome_mbind].
      by rewrite relu_run.
    + intros m g g' Hm Hgp Hgp' Hg Hg'. cbv zeta. unfold DevNet.extract. cbn [DevNet.feat_extract].
      by apply Hextract.
    + intros m Hm. unfold DevNet.extract. cbn [DevNet.feat_extract].
      assert (Hhalf : ((f - 1) / 2 + 1 = f / 2)%nat).
      { pose proof (Nat.div_mod_eq f 2) as E1.
        pose proof (Nat.div_mod_eq (f - 1) 2) as E2.
        pose proof (Nat.mod_upper_bound (f - 1) 2 ltac:(lia)). lia. }
      rewrite Hextract by lia. rewrite Hhalf.
      replace (f / 2 - f / 2 + 1)%nat with 1%nat by lia.
      rewrite squeeze_descriptor.
      change (1 * 1)%nat with 1%nat. rewrite Nat.mul_1_r.
      destruct (Nat.eqb_spec m 1) as [->|Hne]; [by destruct training|].
      by rewrite andb_false_r.
Qed.

Lemma rpn_forward_rows_witness :
  RPN.forward true (RPN.__init__ 3 2 256) [2; 256; 5; 5]%nat =
  Return [[2; strided 5 2 * strided 5 2 * 3; 2]; [2; strided 5 2 * strided 5 2 * 3; 2];
          [2; strided 5 2 * strided 5 2 * 3; 4]]%nat.
Proof. apply (rpn_forward_rows true 3 2 256 2 5 5); lia. Defined.

(** With a stride of 2 on a map of 4 by 5, the padding computed from each
    side goes to the other one: the 5 columns get the padding of the 4 rows
    and give 2 positions, not 3. *)
Example rpn_forward_not_square :
  RPN.forward false (RPN.__init__ 3 2 256) [1; 256; 4; 5]%nat =
  Return [[1; 2 * 2 * 3; 2]; [1; 2 * 2 * 3; 2]; [1; 2 * 2 * 3; 4]]%nat.
Proof. vm_compute. reflexivity. Qed.

Lemma classifier_forward_rows_witness :
  Classifier.forward true (Classifier.__init__ 256 81 7) [1; 256; 7; 7]%nat =
  (if true && (1 * ((7 - 7 + 1) * (7 - 7 + 1)) =? 1)%nat then Throw (Raised ValueError)
   else Return [[1 * ((7 - 7 + 1) * (7 - 7 + 1)); 81]; [1 * ((7 - 7 + 1) * (7 - 7 + 1)); 81];
                [1 * ((7 - 7 + 1) * (7 - 7 + 1)); 81; 4]]%nat).
Proof. apply (classifier_forward_rows true 256 81 7 1 7 7); lia. Defined.

(** Crops of side 14 given to a classifier built for side 7: 64 rows for
    each crop. *)
Example classifier_forward_wrong_side :
  Classifier.forward false (Classifier.__init__ 256 81 7) [3; 256; 14; 14]%nat =
  Return [[192; 81]; [192; 81]; [192; 81; 4]]%nat.
Proof. apply (classifier_forward_rows false 256 81 7 3 14 14); lia. Qed.

Lemma mask_forward_shape_witness :
  Mask.forward true (Mask.__init__ 256 81) [3; 256; 14; 14]%nat =
  (if true && (3 * (14 * 14) =? 1)%nat then Throw (Raised ValueError)
   else Return [3; 81; 2 * 14; 2 * 14]%nat).
Proof. apply (mask_forward_shape true 256 81 3 14 14); lia. Defined.

Lemma dev_init_layers_witness :
  let config := Dev.Config true 7 14 14 2 (1024, 1024) in
  let f := Dev.feat_pool_size config in
  ((f mod 2 <> 0)%nat -> DevNet.__init__ config 256 = Throw AssertionError) /\
  ((f mod 2 = 0)%nat -> ~ (Dev.upsample_fac config == 2)%Q ->
   DevNet.__init__ config 256 = Throw (Raised Exception)) /\
  ((f mod 2 = 0)%nat -> (Dev.upsample_fac config == 2)%Q -> (2 <= f)%nat ->
   exists dev up,
     DevNet.__init__ config 256 = Return dev /\
     DevNet.upsample dev = Some up /\
     (forall n h w, (1 <= n)%nat -> (1 <= h)%nat -> (1 <= w)%nat ->
        Torch.Sequential_forward true up [n; 256%nat; h; w] =
        Return [n; 256; 2 * h; 2 * w]%nat) /\
     (forall m g g', (1 <= m)%nat -> (1 <= g)%nat -> (1 <= g')%nat ->
        (f / 2 <= (g - 1) / 2 + 1)%nat -> (f / 2 <= (g' - 1) / 2 + 1)%nat ->
        let u := ((g - 1) / 2 + 1 - f / 2 + 1)%nat in
        let u' := ((g' - 1) / 2 + 1 - f / 2 + 1)%nat in
        DevNet.extract true dev [m; 256%nat; g; g'] =
        if true && (m * (u * u') =? 1)%nat then Throw (Raised ValueError)
        else Return (Torch.squeeze [m; 1024%nat; u; u'])) /\
     (forall m, (1 <= m)%nat ->
        DevNet.extract true dev [m; 256%nat; f; f] =
        if (m =? 1)%nat
        then (if true then Throw (Raised ValueError) else Return [1024%nat])
        else Return [m; 1024%nat])).
Proof.
  intros config. apply (dev_init_layers true config 256). reflexivity.
Defined.

(** Crops of side 28 given to a branch built for side 14: eight positions
    along each side are left, and the descriptors are not vectors. *)
Example dev_extract_wrong_side :
  forall dev, DevNet.__init__ (Dev.Config true 7 28 14 2 (1024, 1024)) 256 = Return dev ->
  DevNet.extract false dev [5; 256; 28; 28]%nat = Return [5; 1024; 8; 8]%nat.
Proof. intros dev [= <-]. vm_compute. reflexivity. Qed.

(** ** The level formula *)

Section LevelFacts.
Import RoiLevel.
Local Open Scope R_scope.

Lemma round_half_away_mono r1 r2 :
  r1 <= r2 -> (round_half_away r1 <= round_half_away r2)%Z.
Proof.
  intros Hle. unfold round_half_away, Zceil.
  destruct (Rle_dec 0 r1) as [H1|H1], (Rle_dec 0 r2) as [H2|H2]; try lra.
  - apply Zfloor_le. lra.
  - assert (0 <= Zfloor (- (r1 - / 2)))%Z by (apply Zfloor_lub; lra).
    assert (0 <= Zfloor (r2 + / 2))%Z by (apply Zfloor_lub; lra). lia.
  - assert (Zfloor (- (r2 - / 2)) <= Zfloor (- (r1 - / 2)))%Z
      by (apply Zfloor_le; lra). lia.
Qed.

Lemma trunc_IZR (z : Z) : (if Rle_dec 0 (IZR z) then Zfloor (IZR z) else Zceil (IZR z)) = z.
Proof.
  destruct (Rle_dec 0 (IZR z)); [apply ZfloorZ|].
  unfold Zceil. rewrite <- opp_IZR, ZfloorZ. lia.
Qed.

Lemma clamp_saturate (z : Z) :
  Dev.clamp 2 5 (Z.max (- 2 ^ 31) (Z.min (2 ^ 31 - 1) z)) = Dev.clamp 2 5 z.
Proof. unfold Dev.clamp. lia. Qed.

Lemma clamp_mono (z1 z2 : Z) : (z1 <= z2)%Z -> (Dev.clamp 2 5 z1 <= Dev.clamp 2 5 z2)%Z.
Proof. unfold Dev.clamp. lia. Qed.

Lemma clamp_range (z : Z) : (2 <= Dev.clamp 2 5 z <= 5)%Z.
Proof. unfold Dev.clamp. lia. Qed.

(** The value entering [log2] for a box of non-negative area. *)
Definition ratio (H W : Z) (b : Dev.box) : R :=
  sqrt (area b) / (224 / sqrt (IZR H * IZR W)).

Lemma divisor_pos (H W : Z) : (0 < H)%Z -> (0 < W)%Z -> 0 < 224 / sqrt (IZR H * IZR W).
Proof.
  intros HH HW. apply Rdiv_lt_0_compat; [lra|]. apply sqrt_lt_R0.
  apply Rmult_lt_0_compat; by apply IZR_lt.
Qed.

Lemma level_float_nonneg (H W : Z) b :
  (0 < H)%Z -> (0 < W)%Z -> 0 <= area b ->
  level_float (H, W) b = fadd (Fin 4) (log2 (Fin (ratio H W b))).
Proof.
  intros HH HW Ha. unfold level_float, fsqrt. simpl.
  destruct (Rlt_dec (area b) 0); [lra|].
  rewrite mult_IZR.
  destruct (Rlt_dec (IZR H * IZR W) 0) as [Hneg|_].
  { pose proof (Rmult_lt_0_compat _ _ (IZR_lt _ _ HH) (IZR_lt _ _ HW)). lra. }
  pose proof (divisor_pos H W HH HW) as Hd.
  assert (Hs : sqrt (IZR H * IZR W) <> 0).
  { intros E. rewrite E in Hd. unfold Rdiv in Hd. rewrite Rinv_0 in Hd. lra. }
  simpl. destruct (Req_dec_T (sqrt (IZR H * IZR W)) 0); [done|].
  destruct (Req_dec_T (224 / sqrt (IZR H * IZR W)) 0); [lra|]. done.
Qed.

Lemma ratio_pos (H W : Z) b :
  (0 < H)%Z -> (0 < W)%Z -> 0 < area b -> 0 < ratio H W b.
Proof.
  intros HH HW Ha. unfold ratio. apply Rdiv_lt_0_compat; [by apply sqrt_lt_R0|].
  by apply divisor_pos.
Qed.

(** On a box of positive area the source computes the formula. *)
Lemma level_int_pos (H W : Z) b :
  (0 < H)%Z -> (0 < W)%Z -> 0 < area b ->
  Dev.clamp 2 5 (level_int (H, W) b) = spec_level H W b.
Proof.
  intros HH HW Ha. unfold level_int, spec_level.
  rewrite level_float_nonneg by (done || lra).
  pose proof (ratio_pos H W b HH HW Ha) as Hr. fold (ratio H W b).
  unfold log2. destruct (Rlt_dec (ratio H W b) 0); [lra|].
  destruct (Req_dec_T (ratio H W b) 0); [lra|].
  simpl. by rewrite trunc_IZR, clamp_saturate.
Qed.

(** A box without area is routed to the finest level. *)
Lemma level_int_degenerate (H W : Z) b :
  (0 < H)%Z -> (0 < W)%Z -> area b <= 0 ->
  Dev.clamp 2 5 (level_int (H, W) b) = 2%Z.
Proof.
  intros HH HW Ha. unfold level_int.
  destruct (Rlt_dec (area b) 0) as [Hneg|Hnn].
  - unfold level_float, fsqrt. destruct (Rlt_dec (area b) 0); [|lra]. done.
  - assert (E : area b = 0) by lra.
    rewrite level_float_nonneg by (done || lra).
    assert (Hz : ratio H W b = 0).
    { unfold ratio. rewrite E, sqrt_0. unfold Rdiv. ring. }
    rewrite Hz. unfold log2. destruct (Rlt_dec 0 0); [lra|].
    destruct (Req_dec_T 0 0); [|done]. done.
Qed.

Lemma spec_level_mono (H W : Z) b b' :
  (0 < H)%Z -> (0 < W)%Z -> 0 < area b -> area b <= area b' ->
  (spec_level H W b <= spec_level H W b')%Z.
Proof.
  intros HH HW Ha Hle. unfold spec_level.
  apply clamp_mono, round_half_away_mono.
  pose proof (divisor_pos H W HH HW) as Hd.
  assert (Hl2 : 0 < ln 2) by (rewrite <- ln_1; apply ln_increasing; lra).
  apply Rplus_le_compat_l. apply Rmult_le_compat_r; [left; by apply Rinv_0_lt_compat|].
  assert (Hs : sqrt (area b) <= sqrt (area b')) by (apply sqrt_le_1; lra).
  assert (Hsp : 0 < sqrt (area b)) by (by apply sqrt_lt_R0).
  assert (Hq : sqrt (area b) / (224 / sqrt (IZR H * IZR W)) <=
               sqrt (area b') / (224 / sqrt (IZR H * IZR W))).
  { apply Rmult_le_compat_r; [left; by apply Rinv_0_lt_compat|done]. }
  destruct Hq as [Hlt|Heq]; [|rewrite Heq; lra].
  left. apply ln_increasing; [|done]. by apply Rdiv_lt_0_compat.
Qed.

(** *** The formula as three area thresholds *)

Lemma round_half_away_ge (k : Z) v :
  (1 <= k)%Z -> (k <= round_half_away v)%Z <-> IZR k - / 2 <= v.
Proof.
  intros Hk. unfold round_half_away, Zceil.
  assert (1 <= IZR k) by (by apply IZR_le).
  destruct (Rle_dec 0 v) as [Hv|Hv].
  - pose proof (Zfloor_bound (v + / 2)) as B. split.
    + intros Hle%IZR_le. lra.
    + intros Hle. apply Zfloor_lub. lra.
  - assert (0 <= Zfloor (- (v - / 2)))%Z by (apply Zfloor_lub; lra).
    split; [lia|lra].
Qed.

Lemma ln_2_pos : 0 < ln 2.
Proof. rewrite <- ln_1. apply ln_increasing; lra. Qed.

Lemma ln_le_iff a c : 0 < a -> 0 < c -> ln c <= ln a <-> c <= a.
Proof.
  intros Ha Hc. split.
  - intros Hle. destruct (Rle_dec c a) as [|Hn]; [done|].
    assert (ln a < ln c) by (apply ln_increasing; lra). lra.
  - intros [Hlt| ->]; [left; by apply ln_increasing|lra].
Qed.

(** [4 + log2(s) >= k - 1/2] says [s * s >= c] when [c] is [2 ^ (2k - 9)]. *)
Lemma formula_ge (k : Z) (e : R) s c :
  0 < s -> 0 < c -> ln c = e * ln 2 -> e = 2 * IZR k - 9 ->
  IZR k - / 2 <= 4 + ln s / ln 2 <-> c <= s * s.
Proof.
  intros Hs Hc Hlc He. pose proof ln_2_pos as H2.
  rewrite <- (ln_le_iff (s * s) c) by (try done; by apply Rmult_lt_0_compat).
  rewrite ln_mult, Hlc, He by done.
  split.
  - intros Hle.
    assert (Hm : (IZR k - / 2 - 4) * ln 2 <= ln s).
    { apply (Rmult_le_reg_r (/ ln 2)); [by apply Rinv_0_lt_compat|].
      rewrite Rmult_assoc, Rinv_r by lra. unfold Rdiv in Hle. lra. }
    lra.
  - intros Hle.
    assert (Hm : (IZR k - / 2 - 4) <= ln s / ln 2).
    { apply (Rmult_le_reg_r (ln 2)); [done|]. unfold Rdiv.
      rewrite Rmult_assoc, Rinv_l by lra. lra. }
    lra.
Qed.

Lemma ratio_square (H W : Z) b :
  (0 < H)%Z -> (0 < W)%Z -> 0 <= area b ->
  ratio H W b * ratio H W b = area b * IZR (H * W) / 50176.
Proof.
  intros HH HW Ha. unfold ratio. rewrite mult_IZR.
  assert (Hp : 0 < IZR H * IZR W).
  { apply Rmult_lt_0_compat; by apply IZR_lt. }
  assert (Hs : 0 < sqrt (IZR H * IZR W)) by (by apply sqrt_lt_R0).
  transitivity (sqrt (area b) * sqrt (area b) *
                (sqrt (IZR H * IZR W) * sqrt (IZR H * IZR W)) / 50176).
  - field. lra.
  - rewrite !sqrt_sqrt by lra. done.
Qed.

Lemma ln_half : ln (/ 2) = -1 * ln 2.
Proof. rewrite ln_Rinv by lra. ring. Qed.

Lemma ln_eighth : ln (/ 8) = -3 * ln 2.
Proof.
  rewrite ln_Rinv by lra. replace 8 with (2 * (2 * 2)) by ring.
  rewrite !ln_mult by lra. ring.
Qed.

Lemma spec_level_thresholds (H W : Z) b :
  (0 < H)%Z -> (0 < W)%Z -> 0 < area b ->
  let v := area b * IZR (H * W) in
  (100352 <= v -> spec_level H W b = 5%Z) /\
  (25088 <= v < 100352 -> spec_level H W b = 4%Z) /\
  (6272 <= v < 25088 -> spec_level H W b = 3%Z) /\
  (v < 6272 -> spec_level H W b = 2%Z).
Proof.
  intros HH HW Ha v. unfold spec_level. fold (ratio H W b).
  pose proof (ratio_pos H W b HH HW Ha) as Hr.
  pose proof (ratio_square H W b HH HW (Rlt_le _ _ Ha)) as Hsq. fold v in Hsq.
  pose proof (round_half_away_ge 5 (4 + ln (ratio H W b) / ln 2) ltac:(lia)) as H5.
  pose proof (round_half_away_ge 4 (4 + ln (ratio H W b) / ln 2) ltac:(lia)) as H4.
  pose proof (round_half_away_ge 3 (4 + ln (ratio H W b) / ln 2) ltac:(lia)) as H3.
  rewrite (formula_ge 5 1 (ratio H W b) 2) in H5 by (try done; lra).
  rewrite (formula_ge 4 (-1) (ratio H W b) (/ 2)) in H4
    by (try done; try lra; apply ln_half).
  rewrite (formula_ge 3 (-3) (ratio H W b) (/ 8)) in H3
    by (try done; try lra; apply ln_eighth).
  rewrite Hsq in H5, H4, H3.
  assert (E5 : 2 <= v / 50176 <-> 100352 <= v) by (split; lra).
  assert (E4 : / 2 <= v / 50176 <-> 25088 <= v) by (split; lra).
  assert (E3 : / 8 <= v / 50176 <-> 6272 <= v) by (split; lra).
  set (x := 4 + ln (ratio H W b) / ln 2) in *.
  unfold Dev.clamp.
  repeat split; intros Hv.
  - assert (5 <= round_half_away x)%Z by (apply H5; lra). lia.
  - assert (4 <= round_half_away x)%Z by (apply H4; lra).
    assert (~ (5 <= round_half_away x)%Z) by (rewrite H5; lra). lia.
  - assert (3 <= round_half_away x)%Z by (apply H3; lra).
    assert (~ (4 <= round_half_away x)%Z) by (rewrite H4; lra). lia.
  - assert (~ (3 <= round_half_away x)%Z) by (rewrite H3; lra). lia.
Qed.

Lemma level_q_area (H W : Z) b :
  Q2R ((Dev.y2 b - Dev.y1 b) * (Dev.x2 b - Dev.x1 b) * inject_Z (H * W)) =
  area b * IZR (H * W).
Proof.
  unfold area. rewrite !Q2R_mult, !Q2R_minus. f_equal.
  unfold Q2R, inject_Z. simpl. field.
Qed.

Lemma Qle_bool_Q2R (c : Z) (q : Q) : Qle_bool (c # 1) q = true <-> IZR c <= Q2R q.
Proof.
  rewrite Qle_bool_iff. replace (IZR c) with (Q2R (c # 1)).
  - split; [apply Qle_Rle|apply Rle_Qle].
  - unfold Q2R. simpl. field.
Qed.

(** The level the source assigns is the one the thresholds give, for
    every box. *)
Lemma level_int_level_q (H W : Z) b :
  (0 < H)%Z -> (0 < W)%Z ->
  Dev.clamp 2 5 (level_int (H, W) b) = level_q H W b.
Proof.
  intros HH HW. unfold level_q.
  pose proof (Qle_bool_Q2R 100352 ((Dev.y2 b - Dev.y1 b) * (Dev.x2 b - Dev.x1 b) * inject_Z (H * W))) as B5.
  pose proof (Qle_bool_Q2R 25088 ((Dev.y2 b - Dev.y1 b) * (Dev.x2 b - Dev.x1 b) * inject_Z (H * W))) as B4.
  pose proof (Qle_bool_Q2R 6272 ((Dev.y2 b - Dev.y1 b) * (Dev.x2 b - Dev.x1 b) * inject_Z (H * W))) as B3.
  rewrite level_q_area in B5, B4, B3.
  assert (Hp : 0 < IZR (H * W)).
  { rewrite mult_IZR. apply Rmult_lt_0_compat; by apply IZR_lt. }
  destruct (Rle_dec (area b) 0) as [Hdeg|Hpos].
  - rewrite level_int_degenerate by done.
    assert (area b * IZR (H * W) <= 0) by nra.
    destruct (Qle_bool 100352 _); [destruct B5 as [B5 _]; specialize (B5 eq_refl); lra|].
    destruct (Qle_bool 25088 _); [destruct B4 as [B4 _]; specialize (B4 eq_refl); lra|].
    destruct (Qle_bool 6272 _); [destruct B3 as [B3 _]; specialize (B3 eq_refl); lra|].
    done.
  - rewrite level_int_pos by (done || lra).
    destruct (spec_level_thresholds H W b HH HW ltac:(lra)) as (T5 & T4 & T3 & T2).
    destruct (Qle_bool 100352 _) eqn:E5; [apply T5, B5; done|].
    assert (~ 100352 <= area b * IZR (H * W)) by (rewrite <- B5; congruence).
    destruct (Qle_bool 25088 _) eqn:E4;
      [apply T4; split; [by apply B4|lra]|].
    assert (~ 25088 <= area b * IZR (H * W)) by (rewrite <- B4; congruence).
    destruct (Qle_bool 6272 _) eqn:E3;
      [apply T3; split; [by apply B3|lra]|].
    assert (~ 6272 <= area b * IZR (H * W)) by (rewrite <- B3; congruence).
    apply T2. lra.
Qed.

Lemma lookup2_roi_level cfg rois i s :
  lookup2 (roi_level cfg rois) i s =
  (fun b => Dev.clamp 2 5 (level_int (Dev.image_shape cfg) b)) <$> lookup2 rois i s.
Proof. apply lookup2_roi_level_of. Qed.

End LevelFacts.



(** The computable form agrees with the source on every box. *)
Lemma roi_level_computable (cfg : Dev.config) (rois : list (list Dev.box)) (H W : Z) :
  Dev.image_shape cfg = (H, W) -> 0 < H -> 0 < W ->
  RoiLevel.roi_level cfg rois = map (map (RoiLevel.level_q H W)) rois.
Proof.
  intros Hshape HH HW. unfold RoiLevel.roi_level, Dev.roi_level_of. rewrite Hshape.
  apply map_ext. intros row. apply map_ext. intros b. by apply level_int_level_q.
Qed.

(** A quarter-size box on a 1024 x 1024 image is routed to level 4, a
    zero-padded slot to level 2, the whole image to level 5. *)
Example roi_level_example :
  RoiLevel.roi_level (Dev.Config true 7 14 14 2 (1024, 1024))
    [[Dev.Box 0 0 (1 # 4) (1 # 4); Dev.Box 0 0 0 0; Dev.Box 0 0 1 1;
      Dev.Box (1 # 2) (1 # 2) (9 # 16) (9 # 16)]] =
  [[4; 2; 5; 2]].
Proof. rewrite (roi_level_computable _ _ 1024 1024) by (reflexivity || lia). reflexivity. Qed.

(** Every entry of the level tensor of [Dev.forward] is one of the pyramid
    levels 2 to 5. *)
Lemma roi_level_range (cfg : Dev.config) (rois : list (list Dev.box)) (i s : nat) (l : Z) :
  lookup2 (RoiLevel.roi_level cfg rois) i s = Some l -> 2 <= l <= 5.
Proof.
  rewrite lookup2_roi_level. destruct (lookup2 rois i s); simpl; intros E; simplify_eq.
  apply clamp_range.
Qed.

(** The rule of [_find_big_box] for the higher levels looks for the entry
    -1, which the level tensor never holds; on a tensor that did hold it the
    entry would be flagged. *)
Example find_big_box_unassigned :
  Dev.flagged (Dev._find_big_box 4 [[-1; 5]]) 0 0 /\
  ~ Dev.flagged (Dev._find_big_box 4 [[-1; 5]]) 0 1.
Proof.
  split.
  - exists 1. by split.
  - intros (v & Hv & Hnz). vm_compute in Hv. by simplify_eq.
Qed.

(** ** Properties of the scale router *)

(** An instance of the collaborators, for concrete runs: feature maps of
    shape [batch, channels, height, width]; a pooling operator that fills the
    crop of each channel with the feature under the top-left corner of the
    box, which is what bilinear crop-and-resize returns for a box whose
    corners coincide; nearest-neighbour upsampling by two. *)
Module Instance.

Abbreviation fmap := (list (list (list (list Q)))).

Definition corner_crop (h w : nat) (image : fmap) (b : Dev.box) (ind : nat)
  : Dev.patch :=
  map (fun channel : list (list Q) =>
         let rows := length channel in
         let cols := length (hd [] channel) in
         let r := Qfloor (Dev.y1 b * inject_Z (Z.of_nat rows - 1)) in
         let c := Qfloor (Dev.x1 b * inject_Z (Z.of_nat cols - 1)) in
         let v := default 0%Q (lookup2 channel (Z.to_nat r) (Z.to_nat c)) in
         replicate h (replicate w v))
      (default [] (image !! ind)).

Definition twice {A} (l : list A) : list A := flat_map (fun a => [a; a]) l.

Definition upsample (image : fmap) : fmap :=
  map (map (fun channel => twice (map twice channel))) image.

Definition forward (cfg : Dev.config) :=
  Dev.forward fmap unit corner_crop upsample (fun _ => tt) (fun _ _ _ => [])
    (RoiLevel.level_int (Dev.image_shape cfg)) cfg.

End Instance.

(** [forward] depends on the level entries only through their clamp. *)
Lemma forward_level_ext
    (fmap descs : Type)
    (crop_and_resize : nat -> nat -> fmap -> Dev.box -> nat -> Dev.patch)
    (upsample : fmap -> fmap) (feat_extract : list Dev.patch -> descs)
    (pyramid_roi_align : list (list Dev.box) -> list fmap -> nat -> list Dev.patch)
    (raw_level raw_level' : Dev.box -> Z) (cfg : Dev.config)
    (x : list fmap) (rois : nat) (roi_cls_gt : option (list (list Z)))
    (st : list Dev.cell) :
  (forall b, Dev.clamp 2 5 (raw_level b) = Dev.clamp 2 5 (raw_level' b)) ->
  Dev.forward fmap descs crop_and_resize upsample feat_extract pyramid_roi_align
    raw_level cfg x rois roi_cls_gt st =
  Dev.forward fmap descs crop_and_resize upsample feat_extract pyramid_roi_align
    raw_level' cfg x rois roi_cls_gt st.
Proof.
  intros Hext. unfold Dev.forward. rewrite !bind_run.
  destruct (Dev.read_rois rois st) as [[t|e] st']; [|done].
  destruct (negb (Dev.use_dev cfg)); [done|].
  replace (Dev.roi_level_of raw_level t) with (Dev.roi_level_of raw_level' t); [done|].
  unfold Dev.roi_level_of. apply map_ext. intros row. apply map_ext. intros b.
  by rewrite Hext.
Qed.

(** The instance runs with the computable level. *)
Lemma instance_forward_computable (cfg : Dev.config) (H W : Z)
    (x : list Instance.fmap) (rois : nat) (roi_cls_gt : option (list (list Z)))
    (st : list Dev.cell) :
  Dev.image_shape cfg = (H, W) -> 0 < H -> 0 < W ->
  Instance.forward cfg x rois roi_cls_gt st =
  Dev.forward Instance.fmap unit Instance.corner_crop Instance.upsample (fun _ => tt)
    (fun _ _ _ => []) (RoiLevel.level_q H W) cfg x rois roi_cls_gt st.
Proof.
  intros Hshape HH HW. unfold Instance.forward. rewrite Hshape.
  apply forward_level_ext. intros b.
  rewrite (level_int_level_q H W b HH HW).
  unfold RoiLevel.level_q, Dev.clamp.
  repeat match goal with |- context [if ?c then _ else _] => destruct c end; lia.
Qed.


(** The zero-padded slot of the real level function: level 2. *)
Lemma zero_box_level (H W : Z) :
  0 < H -> 0 < W -> level_of (RoiLevel.level_int (H, W)) Dev.zero_box = 2.
Proof.
  intros HH HW. apply level_int_degenerate; [done|done|].
  unfold RoiLevel.area, Dev.zero_box. simpl. rewrite RMicromega.Q2R_0. lra.
Qed.


(** C4. In dynamic mode, [forward] called without ground-truth classes
    raises as soon as the ROI tensor holds one ROI: every ROI is routed to
    some level, and the first level that has ROIs subscripts [None]. With
    the four pyramid maps in place the exception is the [TypeError] of that
    subscript. *)
Theorem dev_forward_without_gt_raises
    (fmap descs : Type)
    (crop_and_resize : nat -> nat -> fmap -> Dev.box -> nat -> Dev.patch)
    (upsample : fmap -> fmap) (feat_extract : list Dev.patch -> descs)
    (pyramid_roi_align : list (list Dev.box) -> list fmap -> nat -> list Dev.patch)
    (raw_level : Dev.box -> Z) (cfg : Dev.config)
    (x : list fmap) (rois : nat) (t : list (list Dev.box)) (st : list Dev.cell)
    (i s : nat) (b : Dev.box) :
  Dev.use_dev cfg = true ->
  st !! rois = Some (Dev.Rois t) ->
  lookup2 t i s = Some b ->
  exists e st',
    Dev.forward fmap descs crop_and_resize upsample feat_extract pyramid_roi_align
      raw_level cfg x rois None st = (Raise e, st') /\
    ((4 <= length x)%nat -> e = TypeError).
Proof.
  intros Hdev Hr Hb. unfold Dev.forward.
  rewrite bind_run, (read_rois_run _ _ _ Hr), Hdev. cbn [negb]. rewrite bind_run.
  destruct (for_levels_None fmap descs crop_and_resize upsample feat_extract raw_level cfg
              x rois t Dev.levels (Dev.Acc descs [] [] [] []) st Hr
              (exists_present _ crop_and_resize pyramid_roi_align raw_level t i s b Hb)) as (e & st' & -> & He).
  exists e, st'. split; [done|]. intros Hx. by apply He, levels_in_pyramid.
Qed.

Lemma dev_forward_without_gt_raises_witness :
  let cfg := Dev.Config true 1 2 2 2 (1024, 1024) in
  let p := [[[[3 # 1]]]]%Q in
  exists e st',
    Instance.forward cfg [p; p; p; p] 0%nat None
      [Dev.Rois [[Dev.Box 0 0 (1 # 2) (1 # 2); Dev.zero_box]]] = (Raise e, st') /\
    ((4 <= 4)%nat -> e = TypeError).
Proof.
  intros cfg p.
  apply (dev_forward_without_gt_raises Instance.fmap unit Instance.corner_crop
           Instance.upsample (fun _ => tt) (fun _ _ _ => [])
           (RoiLevel.level_int (1024, 1024)) cfg [p; p; p; p] 0%nat
           [[Dev.Box 0 0 (1 # 2) (1 # 2); Dev.zero_box]] _ 0%nat 1%nat Dev.zero_box);
    reflexivity.
Defined.

(** C10. [forward] leaves the [rois] tensor, and every tensor that existed
    before the call, as it found them, whatever its inputs and whether it
    returns or raises: the in-place scaling by the upsample factor writes to
    the tensor that indexing [rois] has just allocated. *)
Theorem dev_forward_preserves_rois
    (fmap descs : Type)
    (crop_and_resize : nat -> nat -> fmap -> Dev.box -> nat -> Dev.patch)
    (upsample : fmap -> fmap) (feat_extract : list Dev.patch -> descs)
    (pyramid_roi_align : list (list Dev.box) -> list fmap -> nat -> list Dev.patch)
    (raw_level : Dev.box -> Z) (cfg : Dev.config)
    (x : list fmap) (rois : nat) (roi_cls_gt : option (list (list Z)))
    (st : list Dev.cell) :
  let st' := (Dev.forward fmap descs crop_and_resize upsample feat_extract
                pyramid_roi_align raw_level cfg x rois roi_cls_gt st).2 in
  st' !! rois = st !! rois /\
  forall l : nat, (l < length st)%nat -> st' !! l = st !! l.
Proof.
  intros st'.
  destruct (forward_frame_ext fmap descs crop_and_resize upsample feat_extract
              pyramid_roi_align raw_level cfg x rois roi_cls_gt st) as [ext Hext].
  fold st' in Hext.
  assert (Hframe : forall l : nat, (l < length st)%nat -> st' !! l = st !! l).
  { intros l Hl. by rewrite Hext, lookup_app_l. }
  split; [|done].
  destruct (st !! rois) as [c|] eqn:Hr.
  - rewrite Hframe; [done|]. by eapply lookup_lt_Some.
  - subst st'. unfold Dev.forward, Dev.read_rois. rewrite bind_run, Hr. done.
Qed.

(** The scaling does happen, on the copy: after routing one small box on
    a 1024 x 1024 image, the store holds [rois] as before and, next to it,
    the gathered row with its coordinates doubled. *)
Example dev_forward_scales_copy :
  let cfg := Dev.Config true 1 2 2 2 (1024, 1024) in
  let p := [[[[3 # 1]]]]%Q in
  let rois := [[Dev.Box (1 # 8) (1 # 8) (1 # 4) (1 # 4)]] in
  (Dev.forward Instance.fmap unit Instance.corner_crop Instance.upsample (fun _ => tt)
     (fun _ _ _ => []) (RoiLevel.level_q 1024 1024) cfg
     [p; p; p; p] 0%nat (Some [[1]]) [Dev.Rois rois]).2 =
  [Dev.Rois rois;
   Dev.Boxes [Dev.Box ((1 # 8) * 2) ((1 # 8) * 2) ((1 # 4) * 2) ((1 # 4) * 2)]].
Proof. reflexivity. Qed.

(** *** Runs of the router on the instance *)



(** On a 1024 x 1024 image, a half-size box (level 5) and a small box
    (level 2): the only record is that of level 2, which pairs the class of
    the small box with the class of the big one. *)
Example dev_forward_feat_out_example :
  let cfg := Dev.Config true 1 2 2 2 (1024, 1024) in
  let p := [[[[3 # 1]]]]%Q in
  let t := [[Dev.Box 0 0 (1 # 2) (1 # 2); Dev.Box 0 0 (1 # 16) (1 # 16)]] in
  (Dev.forward Instance.fmap unit Instance.corner_crop Instance.upsample (fun _ => tt)
     (fun _ _ _ => []) (RoiLevel.level_q 1024 1024) cfg
     [p; p; p; p] 0%nat (Some [[7; 9]]) [Dev.Rois t]).1 ≫= (fun out => Ok out.2) =
  Ok (Some [Dev.FeatRec unit [7] (Some tt) [9] tt]).
Proof. vm_compute. reflexivity. Qed.

(** ** The consistency tracker *)

(** The proofs read the arithmetic of the tensors over the rationals. *)
Ltac rationals :=
  cbn [MaskRCNN.zero MaskRCNN.eps MaskRCNN.add MaskRCNN.sub MaskRCNN.mul MaskRCNN.div
       MaskRCNN.is_zero MaskRCNN.of_count MaskRCNN.Q_scalar] in *.

(** *** Broadcasting *)

Lemma expand_same {A} (l : list A) : MaskRCNN.expand (length l) l = l.
Proof. by destruct l as [|a [|b l]]. Qed.

Lemma bzip_same_length {A B C} (f : A -> B -> C) a b :
  length a = length b -> MaskRCNN.bzip f a b = zip_with f a b.
Proof.
  intros H. unfold MaskRCNN.bzip. rewrite <- H at 1. rewrite H at 2.
  by rewrite !expand_same.
Qed.

Lemma bzip_singleton_r {A B C} (f : A -> B -> C) a (b : B) :
  MaskRCNN.bzip f a [b] = map (fun x => f x b) a.
Proof.
  unfold MaskRCNN.bzip. change (length [b]) with 1%nat. simpl.
  replace (MaskRCNN.expand 1 a) with a by (by destruct a as [|x [|y a]]).
  induction a as [|x a IH]; [done|]. simpl. by rewrite IH.
Qed.

Lemma Forall_expand {A} (P : A -> Prop) n l :
  Forall P l -> Forall P (MaskRCNN.expand n l).
Proof.
  intros H. destruct l as [|a [|b l]]; [done| |done].
  simpl. apply Forall_replicate. by apply Forall_cons in H as [? _].
Qed.

Lemma Forall_bzip {A B C} (P : A -> Prop) (Q : B -> Prop) (R : C -> Prop)
    (f : A -> B -> C) a b :
  (forall x y, P x -> Q y -> R (f x y)) ->
  Forall P a -> Forall Q b -> Forall R (MaskRCNN.bzip f a b).
Proof.
  intros Hf Ha Hb. unfold MaskRCNN.bzip.
  apply (Forall_expand _ (length b)) in Ha. apply (Forall_expand _ (length a)) in Hb.
  revert Hb. generalize (MaskRCNN.expand (length a) b).
  induction Ha as [|x a' Hx _ IH]; intros b' Hb'; [done|].
  destruct Hb' as [|y b'' Hy Hb'']; [done|]. simpl. constructor; [by apply Hf|by apply IH].
Qed.

Lemma sum0_ind {A} (P : A -> Prop) (add : A -> A -> A) (empty : A) t :
  (forall x y, P x -> P y -> P (add x y)) -> P empty -> Forall P t ->
  P (MaskRCNN.sum0 add empty t).
Proof.
  intros Hadd He Ht. destruct Ht as [|a t Ha Ht]; [done|]. simpl.
  revert a Ha. induction Ht as [|b t Hb _ IH]; intros a Ha; [done|].
  simpl. apply IH. by apply Hadd.
Qed.

(** *** Non-negative counts *)

Definition nonneg1 (v : list Q) : Prop := Forall (fun q => 0 <= q)%Q v.
Definition nonneg2 (t : list (list Q)) : Prop := Forall nonneg1 t.
Definition nonneg3 (t : list (list (list Q))) : Prop := Forall nonneg2 t.
Definition nonneg4 (t : list (list (list (list Q)))) : Prop := Forall nonneg3 t.

Lemma nonneg1_add a b : nonneg1 a -> nonneg1 b -> nonneg1 (MaskRCNN.vop Qplus a b).
Proof.
  apply Forall_bzip. intros x y Hx Hy.
  replace 0%Q with (0 + 0)%Q by done. by apply Qplus_le_compat.
Qed.

Lemma nonneg2_add a b : nonneg2 a -> nonneg2 b -> nonneg2 (MaskRCNN.mop Qplus a b).
Proof. apply Forall_bzip. apply nonneg1_add. Qed.

Lemma nonneg3_add a b : nonneg3 a -> nonneg3 b -> nonneg3 (MaskRCNN.t3op Qplus a b).
Proof. apply Forall_bzip. apply nonneg2_add. Qed.

Lemma merged_count_nonneg box_feat box_cnt :
  nonneg4 box_cnt -> nonneg2 (MaskRCNN._merge_feat_vec box_feat box_cnt).2.
Proof.
  intros H. simpl. unfold MaskRCNN.t3sum0, MaskRCNN.t4sum0.
  apply sum0_ind; [apply nonneg2_add|by constructor|].
  apply sum0_ind; [apply nonneg3_add|by constructor|done].
Qed.

(** *** The buffer update of [meta_loss] *)

(** The state [meta_loss] leaves behind, written out per branch. *)
Definition pushed (self : MaskRCNN.state Q) (inp : MaskRCNN.feat_input Q) : MaskRCNN.state Q :=
  let x := (MaskRCNN._merge_feat_vec (MaskRCNN.big_feat inp) (MaskRCNN.big_cnt inp)).1 in
  let c := (MaskRCNN._merge_feat_vec (MaskRCNN.big_feat inp) (MaskRCNN.big_cnt inp)).2 in
  if (length (MaskRCNN.buffer self) =? 1)%nat then
    let buffer_cnt' := MaskRCNN.t3op Qplus (MaskRCNN.buffer_cnt self) [c] in
    MaskRCNN.State
      (MaskRCNN.t3op Qdiv
         (MaskRCNN.t3op Qplus
            (MaskRCNN.t3op Qmult (MaskRCNN.buffer self) (MaskRCNN.buffer_cnt self))
            (MaskRCNN.t3op Qmult [x] [c]))
         (MaskRCNN.t3add_eps buffer_cnt'))
      buffer_cnt'
  else
    MaskRCNN.State (tail (MaskRCNN.buffer self) ++ [x])
                   (tail (MaskRCNN.buffer_cnt self) ++ [c]).

Lemma meta_loss_state criterion self inp :
  (MaskRCNN.meta_loss criterion self inp).2 =
  if (length (MaskRCNN.buffer self) =? 0)%nat then self else pushed self inp.
Proof.
  unfold MaskRCNN.meta_loss, pushed.
  destruct (MaskRCNN._merge_feat_vec (MaskRCNN.small_feat inp) (MaskRCNN.small_cnt inp))
    as [sf sc].
  destruct (MaskRCNN._merge_feat_vec (MaskRCNN.big_feat inp) (MaskRCNN.big_cnt inp))
    as [x c]. cbn [fst snd].
  destruct (length (MaskRCNN.buffer self) =? 1)%nat eqn:E1.
  - apply Nat.eqb_eq in E1. by rewrite E1.
  - by destruct (length (MaskRCNN.buffer self) =? 0)%nat.
Qed.

Lemma tail_app_length {A} (l : list A) (a : A) :
  l <> [] -> length (tail l ++ [a]) = length l.
Proof. destruct l; [done|]. intros _. rewrite length_app. simpl. lia. Qed.

(** C9. Every call of [meta_loss] that is given non-negative big-object
    counts, whether it returns or raises, keeps every count of the running
    buffer non-negative and keeps the counts slot for slot with the
    features: both tensors keep their number of slots; in the ring branch
    both drop their oldest slot and take the step's average and count as
    their last slot; in the capacity-1 branch the single count slot grows by
    the step's count and is the weight of the single feature slot. *)
Theorem meta_loss_keeps_counts
    (criterion : option (list (list Q) -> list (list Q) -> Q))
    (self : MaskRCNN.state Q) (inp : MaskRCNN.feat_input Q) :
  length (MaskRCNN.buffer self) = length (MaskRCNN.buffer_cnt self) ->
  nonneg3 (MaskRCNN.buffer_cnt self) ->
  nonneg4 (MaskRCNN.big_cnt inp) ->
  let self' := (MaskRCNN.meta_loss criterion self inp).2 in
  let x := (MaskRCNN._merge_feat_vec (MaskRCNN.big_feat inp) (MaskRCNN.big_cnt inp)).1 in
  let c := (MaskRCNN._merge_feat_vec (MaskRCNN.big_feat inp) (MaskRCNN.big_cnt inp)).2 in
  nonneg3 (MaskRCNN.buffer_cnt self') /\
  length (MaskRCNN.buffer self') = length (MaskRCNN.buffer self) /\
  length (MaskRCNN.buffer_cnt self') = length (MaskRCNN.buffer self') /\
  ((2 <= length (MaskRCNN.buffer self))%nat ->
     MaskRCNN.buffer self' = tail (MaskRCNN.buffer self) ++ [x] /\
     MaskRCNN.buffer_cnt self' = tail (MaskRCNN.buffer_cnt self) ++ [c]) /\
  (length (MaskRCNN.buffer self) = 1%nat ->
     MaskRCNN.buffer_cnt self' = MaskRCNN.t3op Qplus (MaskRCNN.buffer_cnt self) [c] /\
     MaskRCNN.buffer self' =
       MaskRCNN.t3op Qdiv
         (MaskRCNN.t3op Qplus
            (MaskRCNN.t3op Qmult (MaskRCNN.buffer self) (MaskRCNN.buffer_cnt self))
            (MaskRCNN.t3op Qmult [x] [c]))
         (MaskRCNN.t3add_eps (MaskRCNN.buffer_cnt self'))).
Proof.
  intros Hlen Hnn Hin self' x c. subst self'. rewrite meta_loss_state.
  pose proof (merged_count_nonneg (MaskRCNN.big_feat inp) _ Hin) as Hc. fold c in Hc.
  destruct (length (MaskRCNN.buffer self) =? 0)%nat eqn:E0.
  { apply Nat.eqb_eq in E0. repeat split; try done; lia. }
  apply Nat.eqb_neq in E0.
  unfold pushed. fold x c.
  destruct (length (MaskRCNN.buffer self) =? 1)%nat eqn:E1.
  - apply Nat.eqb_eq in E1. cbn [MaskRCNN.buffer MaskRCNN.buffer_cnt].
    split; [apply nonneg3_add; [done|by constructor]|].
    destruct self as [[|m [|? ?]] [|n [|? ?]]]; try done.
    repeat split; try done; cbn in *; lia.
  - apply Nat.eqb_neq in E1. cbn [MaskRCNN.buffer MaskRCNN.buffer_cnt].
    assert (Hb : MaskRCNN.buffer self <> []) by (by destruct (MaskRCNN.buffer self)).
    assert (Hbc : MaskRCNN.buffer_cnt self <> []).
    { destruct (MaskRCNN.buffer_cnt self); [|done]. simpl in Hlen. lia. }
    split.
    { apply Forall_app. split; [|by repeat constructor].
      destruct (MaskRCNN.buffer_cnt self); [done|]. by apply Forall_cons in Hnn as [_ ?]. }
    split; [by apply tail_app_length|].
    split; [by rewrite !tail_app_length|].
    split; [done|]. intros. lia.
Qed.

Lemma meta_loss_keeps_counts_witness :
  let self := MaskRCNN.State [[[0; 0; 0]]; [[1; 2; 3]]]%Q [[[0; 0; 0]]; [[0; 1; 2]]]%Q in
  let inp := MaskRCNN.FeatInput [[[[0; 1; 2]]; [[0; 3; 2]]]]%Q [[[[0; 1; 1]]; [[0; 1; 0]]]]%Q
                                [[[[0; 1; 5]]]]%Q [[[[1; 0; 0]]]]%Q in
  let self' := (MaskRCNN.meta_loss None self inp).2 in
  let x := (MaskRCNN._merge_feat_vec (MaskRCNN.big_feat inp) (MaskRCNN.big_cnt inp)).1 in
  let c := (MaskRCNN._merge_feat_vec (MaskRCNN.big_feat inp) (MaskRCNN.big_cnt inp)).2 in
  nonneg3 (MaskRCNN.buffer_cnt self') /\
  length (MaskRCNN.buffer self') = length (MaskRCNN.buffer self) /\
  length (MaskRCNN.buffer_cnt self') = length (MaskRCNN.buffer self') /\
  ((2 <= length (MaskRCNN.buffer self))%nat ->
     MaskRCNN.buffer self' = tail (MaskRCNN.buffer self) ++ [x] /\
     MaskRCNN.buffer_cnt self' = tail (MaskRCNN.buffer_cnt self) ++ [c]) /\
  (length (MaskRCNN.buffer self) = 1%nat ->
     MaskRCNN.buffer_cnt self' = MaskRCNN.t3op Qplus (MaskRCNN.buffer_cnt self) [c] /\
     MaskRCNN.buffer self' =
       MaskRCNN.t3op Qdiv
         (MaskRCNN.t3op Qplus
            (MaskRCNN.t3op Qmult (MaskRCNN.buffer self) (MaskRCNN.buffer_cnt self))
            (MaskRCNN.t3op Qmult [x] [c]))
         (MaskRCNN.t3add_eps (MaskRCNN.buffer_cnt self'))).
Proof.
  intros self inp.
  apply (meta_loss_keeps_counts None self inp).
  - reflexivity.
  - repeat constructor; by vm_compute.
  - repeat constructor; by vm_compute.
Defined.

(** The ring branch on that input: the oldest slot is gone, the step's
    average and count are the last slot. *)
Example meta_loss_ring_shift :
  let self := MaskRCNN.State [[[0; 0; 0]]; [[1; 2; 3]]]%Q [[[0; 0; 0]]; [[0; 1; 2]]]%Q in
  let inp := MaskRCNN.FeatInput [[[[0; 1; 2]]; [[0; 3; 2]]]]%Q [[[[0; 1; 1]]; [[0; 1; 0]]]]%Q
                                [[[[0; 1; 5]]]]%Q [[[[1; 0; 0]]]]%Q in
  MaskRCNN.buffer_cnt (MaskRCNN.meta_loss None self inp).2 = [[[0; 1; 2]]; [[0; 2; 1]]]%Q /\
  (MaskRCNN.meta_loss None self inp).1 = Ok 0%Q.
Proof. split; vm_compute; reflexivity. Qed.

(** *** One entry of the capacity-1 accumulation *)

(** The new buffer entry from the old entry [b], its count [n], the step's
    average [x] and count [c]. *)
Definition upd (b n x c : Q) : Q :=
  ((b * n + x * c) / ((n + c) + MaskRCNN.EPS))%Q.

Lemma EPS_pos : (0 < MaskRCNN.EPS)%Q.
Proof. done. Qed.

(** The factor [(a * n + c) / (n + c + EPS)] stays strictly between
    [1 - EPS / c] and [1]. *)
Lemma factor_bounds (a n c : Q) :
  (0 <= n -> 0 < c -> 1 - MaskRCNN.EPS / c < a -> a < 1 ->
   1 - MaskRCNN.EPS / c < (a * n + c) / (n + c + MaskRCNN.EPS) /\
   (a * n + c) / (n + c + MaskRCNN.EPS) < 1)%Q.
Proof.
  pose proof EPS_pos as He. set (e := MaskRCNN.EPS) in *.
  intros Hn Hc Hlo Hhi.
  assert (Hd : (0 < n + c + e)%Q) by lra.
  assert (Hq : (e / c * c == e)%Q) by (field; lra).
  set (r := (e / c)%Q) in *.
  assert (Hr : (0 < r)%Q).
  { unfold r. apply Qlt_shift_div_l; lra. }
  split.
  - apply Qlt_shift_div_l; [done|].
    assert ((1 - r) * n <= a * n)%Q by (apply Qmult_le_compat_r; lra).
    assert (0 <= r * n)%Q by (apply Qmult_le_0_compat; lra).
    assert (0 < r * e)%Q by (by apply Qmult_lt_0_compat).
    nra.
  - apply Qlt_shift_div_r; [done|].
    assert (a * n <= 1 * n)%Q by (apply Qmult_le_compat_r; lra).
    lra.
Qed.

Lemma upd_fresh (b n x c : Q) :
  (n == 0 -> 0 < c ->
   exists a, upd b n x c == x * a /\ 1 - MaskRCNN.EPS / c < a /\ a < 1)%Q.
Proof.
  pose proof EPS_pos as He. intros Hn Hc.
  exists (c / (c + MaskRCNN.EPS))%Q. split; [|split].
  - unfold upd. rewrite Hn. field. lra.
  - apply Qlt_shift_div_l; [lra|].
    assert (Hq : (MaskRCNN.EPS / c * c == MaskRCNN.EPS)%Q) by (field; lra).
    assert (0 < MaskRCNN.EPS / c)%Q by (apply Qlt_shift_div_l; lra).
    assert (0 < MaskRCNN.EPS / c * MaskRCNN.EPS)%Q by (by apply Qmult_lt_0_compat).
    nra.
  - apply Qlt_shift_div_r; lra.
Qed.

Lemma upd_keeps (b n x c a : Q) :
  (0 <= n -> 0 < c -> b == x * a -> 1 - MaskRCNN.EPS / c < a -> a < 1 ->
   exists a', upd b n x c == x * a' /\ 1 - MaskRCNN.EPS / c < a' /\ a' < 1)%Q.
Proof.
  pose proof EPS_pos as He. intros Hn Hc Hb Hlo Hhi.
  exists ((a * n + c) / (n + c + MaskRCNN.EPS))%Q. split.
  - unfold upd. rewrite Hb. field. lra.
  - by apply factor_bounds.
Qed.

(** *** The capacity-1 branch, entry by entry *)

Lemma lookup_vop (f : Q -> Q -> Q) (a b : list Q) k :
  length a = length b ->
  MaskRCNN.vop f a b !! k =
  match a !! k, b !! k with
  | Some p, Some q => Some (f p q)
  | _, _ => None
  end.
Proof.
  intros H. unfold MaskRCNN.vop. rewrite bzip_same_length, lookup_zip_with by done.
  destruct (a !! k); simpl; [|done]. by destruct (b !! k).
Qed.

Lemma length_vop (f : Q -> Q -> Q) (a b : list Q) :
  length a = length b -> length (MaskRCNN.vop f a b) = length a.
Proof.
  intros H. unfold MaskRCNN.vop. rewrite bzip_same_length, length_zip_with by done. lia.
Qed.

Lemma lookup_mop_row (f : Q -> Q -> Q) (m : list (list Q)) (r : list Q) i :
  MaskRCNN.mop f m [r] !! i = (fun row => MaskRCNN.vop f row r) <$> m !! i.
Proof. unfold MaskRCNN.mop. by rewrite bzip_singleton_r, list_lookup_fmap. Qed.

Lemma length_mop_row (f : Q -> Q -> Q) (m : list (list Q)) (r : list Q) :
  length (MaskRCNN.mop f m [r]) = length m.
Proof. unfold MaskRCNN.mop. by rewrite bzip_singleton_r, length_map. Qed.

Lemma lookup_mop_same (f : Q -> Q -> Q) (a b : list (list Q)) i :
  length a = length b ->
  MaskRCNN.mop f a b !! i =
  match a !! i, b !! i with
  | Some ra, Some rb => Some (MaskRCNN.vop f ra rb)
  | _, _ => None
  end.
Proof.
  intros H. unfold MaskRCNN.mop. rewrite bzip_same_length, lookup_zip_with by done.
  destruct (a !! i); simpl; [|done]. by destruct (b !! i).
Qed.

Lemma length_mop_same (f : Q -> Q -> Q) (a b : list (list Q)) :
  length a = length b -> length (MaskRCNN.mop f a b) = length a.
Proof.
  intros H. unfold MaskRCNN.mop. rewrite bzip_same_length, length_zip_with by done. lia.
Qed.

(** The single slot after one more accumulation. *)
Definition accumulate (m : list (list Q)) (n : list Q) (x : list (list Q)) (cv : list Q)
  : list (list Q) :=
  MaskRCNN.mop Qdiv
    (MaskRCNN.mop Qplus (MaskRCNN.mop Qmult m [n]) (MaskRCNN.mop Qmult x [cv]))
    (MaskRCNN.madd_eps (MaskRCNN.mop Qplus [n] [cv])).

Lemma pushed_capacity_one inp m n x cv :
  MaskRCNN._merge_feat_vec (MaskRCNN.big_feat inp) (MaskRCNN.big_cnt inp) = (x, [cv]) ->
  pushed (MaskRCNN.State [m] [[n]]) inp =
  MaskRCNN.State [accumulate m n x cv] [[MaskRCNN.vop Qplus n cv]].
Proof. intros H. unfold pushed. rewrite H. reflexivity. Qed.

Lemma accumulate_row F C m n x cv f mr xr :
  rect F C m -> length n = C -> rect F C x -> length cv = C ->
  m !! f = Some mr -> x !! f = Some xr ->
  accumulate m n x cv !! f =
  Some (MaskRCNN.vop Qdiv
          (MaskRCNN.vop Qplus (MaskRCNN.vop Qmult mr n) (MaskRCNN.vop Qmult xr cv))
          (map (fun q => q + MaskRCNN.EPS)%Q (MaskRCNN.vop Qplus n cv))).
Proof.
  intros [Hm _] Hn [Hx _] Hcv Hmr Hxr. unfold accumulate.
  change (MaskRCNN.madd_eps (MaskRCNN.mop Qplus [n] [cv]))
    with [map (fun q => q + MaskRCNN.EPS)%Q (MaskRCNN.vop Qplus n cv)].
  rewrite lookup_mop_row, lookup_mop_same by (rewrite !length_mop_row; lia).
  by rewrite !lookup_mop_row, Hmr, Hxr.
Qed.

Lemma accumulate_entry F C m n x cv f k b nk xv ck :
  rect F C m -> length n = C -> rect F C x -> length cv = C ->
  lookup2 m f k = Some b -> n !! k = Some nk ->
  lookup2 x f k = Some xv -> cv !! k = Some ck ->
  lookup2 (accumulate m n x cv) f k = Some (upd b nk xv ck).
Proof.
  intros Hm Hn Hx Hcv Hb Hnk Hxv Hck. unfold lookup2 in *.
  destruct (m !! f) as [mr|] eqn:Hmr; [|done].
  destruct (x !! f) as [xr|] eqn:Hxr; [|done]. simpl in Hb, Hxv.
  rewrite (accumulate_row F C m n x cv f mr xr) by done. simpl.
  assert (Lmr : length mr = C).
  { destruct Hm as [_ Hr]. rewrite Forall_lookup in Hr. by eapply Hr. }
  assert (Lxr : length xr = C).
  { destruct Hx as [_ Hr]. rewrite Forall_lookup in Hr. by eapply Hr. }
  rewrite lookup_vop.
  2:{ rewrite length_map, !length_vop; rewrite ?length_vop; lia. }
  rewrite list_lookup_fmap.
  rewrite !lookup_vop by (rewrite ?length_vop; lia).
  by rewrite Hb, Hnk, Hxv, Hck.
Qed.

Lemma accumulate_rect F C m n x cv :
  rect F C m -> length n = C -> rect F C x -> length cv = C ->
  rect F C (accumulate m n x cv).
Proof.
  intros Hm Hn Hx Hcv. split.
  - unfold accumulate.
    change (MaskRCNN.madd_eps (MaskRCNN.mop Qplus [n] [cv]))
      with [map (fun q => q + MaskRCNN.EPS)%Q (MaskRCNN.vop Qplus n cv)].
    rewrite length_mop_row, length_mop_same, length_mop_row by
      (rewrite !length_mop_row; destruct Hm, Hx; lia).
    by destruct Hm.
  - apply Forall_lookup. intros f row Hrow.
    assert (Hf : (f < F)%nat).
    { apply lookup_lt_Some in Hrow. revert Hrow. unfold accumulate.
      change (MaskRCNN.madd_eps (MaskRCNN.mop Qplus [n] [cv]))
        with [map (fun q => q + MaskRCNN.EPS)%Q (MaskRCNN.vop Qplus n cv)].
      rewrite length_mop_row, length_mop_same, length_mop_row by
        (rewrite !length_mop_row; destruct Hm, Hx; lia).
      destruct Hm. lia. }
    destruct (lookup_lt_is_Some_2 m f) as [mr Hmr]; [destruct Hm; lia|].
    destruct (lookup_lt_is_Some_2 x f) as [xr Hxr]; [destruct Hx; lia|].
    rewrite (accumulate_row F C m n x cv f mr xr) in Hrow by done.
    injection Hrow as <-.
    assert (Lmr : length mr = C).
    { destruct Hm as [_ Hr]. rewrite Forall_lookup in Hr. by eapply Hr. }
    assert (Lxr : length xr = C).
    { destruct Hx as [_ Hr]. rewrite Forall_lookup in Hr. by eapply Hr. }
    rewrite length_vop; rewrite ?length_map, !length_vop; rewrite ?length_vop; lia.
Qed.

(** *** Consecutive steps at capacity 1 *)

(** When the small-object side is well formed and the criterion is set,
    [meta_loss] returns, whatever the counts. *)
Lemma meta_loss_returns crit self inp row q :
  length (MaskRCNN.buffer self) <> 0%nat ->
  (MaskRCNN._merge_feat_vec (MaskRCNN.small_feat inp) (MaskRCNN.small_cnt inp)).2 !! 0%nat
    = Some row ->
  row !! 0%nat = Some q ->
  exists loss, MaskRCNN.meta_loss (Some crit) self inp = (Ok loss, pushed self inp).
Proof.
  intros Hk Hrow Hq. unfold MaskRCNN.meta_loss, pushed.
  destruct (MaskRCNN._merge_feat_vec (MaskRCNN.small_feat inp) (MaskRCNN.small_cnt inp))
    as [sf sc].
  destruct (MaskRCNN._merge_feat_vec (MaskRCNN.big_feat inp) (MaskRCNN.big_cnt inp))
    as [x c]. cbn [fst snd] in *.
  destruct (length (MaskRCNN.buffer self) =? 1)%nat eqn:E1.
  - rewrite Hrow. cbn. rewrite Hq. cbn.
    destruct (MaskRCNN.nonzero _); by eexists.
  - destruct (length (MaskRCNN.buffer self) =? 0)%nat eqn:E0;
      [by apply Nat.eqb_eq in E0|].
    rewrite Hrow. cbn. rewrite Hq. cbn.
    destruct (MaskRCNN.nonzero _); by eexists.
Qed.

Section CapacityOne.
Variable inp : MaskRCNN.feat_input Q.
Variables (x : list (list Q)) (cv : list Q) (F C : nat).
Hypothesis Hmerge :
  MaskRCNN._merge_feat_vec (MaskRCNN.big_feat inp) (MaskRCNN.big_cnt inp) = (x, [cv]).
Hypothesis Hx : rect F C x.
Hypothesis Hcv : length cv = C.
Hypothesis Hcv_nonneg : nonneg1 cv.

(** Every entry of the single slot is the step's average scaled by a
    factor strictly between [1 - EPS / c] and [1]. *)
Definition tracks (self : MaskRCNN.state Q) : Prop :=
  exists m n,
    self = MaskRCNN.State [m] [[n]] /\ rect F C m /\ length n = C /\ nonneg1 n /\
    forall f k bv xv ck,
      lookup2 m f k = Some bv -> lookup2 x f k = Some xv -> cv !! k = Some ck ->
      (0 < ck)%Q ->
      exists a, (bv == xv * a /\ 1 - MaskRCNN.EPS / ck < a /\ a < 1)%Q.

Lemma lookup_rect_entries (m : list (list Q)) (n : list Q) f k bv :
  rect F C m -> length n = C -> lookup2 (accumulate m n x cv) f k = Some bv ->
  exists b nk xv ck,
    lookup2 m f k = Some b /\ n !! k = Some nk /\
    lookup2 x f k = Some xv /\ cv !! k = Some ck /\ bv = upd b nk xv ck.
Proof.
  intros Hm Hn Hbv.
  destruct (lookup2_Some_lt _ F C f k bv (accumulate_rect F C m n x cv Hm Hn Hx Hcv) Hbv)
    as [Hf Hk].
  destruct (lookup2_lt_is_Some m F C f k Hm Hf Hk) as [b Hb].
  destruct (lookup2_lt_is_Some x F C f k Hx Hf Hk) as [xv Hxv].
  destruct (lookup_lt_is_Some_2 n k) as [nk Hnk]; [lia|].
  destruct (lookup_lt_is_Some_2 cv k) as [ck Hck]; [lia|].
  exists b, nk, xv, ck. repeat split; try done.
  rewrite (accumulate_entry F C m n x cv f k b nk xv ck) in Hbv by done. congruence.
Qed.

Lemma nonneg1_lookup (v : list Q) k q : nonneg1 v -> v !! k = Some q -> (0 <= q)%Q.
Proof. unfold nonneg1. rewrite Forall_lookup. intros H Hq. by eapply H. Qed.

Lemma tracks_first m n :
  rect F C m -> length n = C -> Forall (fun q => q == 0)%Q n ->
  tracks (pushed (MaskRCNN.State [m] [[n]]) inp).
Proof.
  intros Hm Hn Hz. rewrite (pushed_capacity_one inp m n x cv Hmerge).
  exists (accumulate m n x cv), (MaskRCNN.vop Qplus n cv).
  split; [done|]. split; [by apply accumulate_rect|].
  split; [rewrite length_vop; lia|]. split.
  { apply nonneg1_add; [|done]. eapply Forall_impl; [exact Hz|].
    intros q Hq. simpl in Hq. rewrite Hq. done. }
  intros f k bv xv ck Hbv Hxv Hck Hpos.
  destruct (lookup_rect_entries m n f k bv Hm Hn Hbv)
    as (b & nk & xv' & ck' & Hb & Hnk & Hxv' & Hck' & ->).
  assert (xv' = xv) by congruence. assert (ck' = ck) by congruence. subst xv' ck'.
  apply upd_fresh; [|done].
  rewrite Forall_lookup in Hz. by apply (Hz k).
Qed.

Lemma tracks_next self : tracks self -> tracks (pushed self inp).
Proof.
  intros (m & n & -> & Hm & Hn & Hnn & Hent).
  rewrite (pushed_capacity_one inp m n x cv Hmerge).
  exists (accumulate m n x cv), (MaskRCNN.vop Qplus n cv).
  split; [done|]. split; [by apply accumulate_rect|].
  split; [rewrite length_vop; lia|]. split; [by apply nonneg1_add|].
  intros f k bv xv ck Hbv Hxv Hck Hpos.
  destruct (lookup_rect_entries m n f k bv Hm Hn Hbv)
    as (b & nk & xv' & ck' & Hb & Hnk & Hxv' & Hck' & ->).
  assert (xv' = xv) by congruence. assert (ck' = ck) by congruence. subst xv' ck'.
  destruct (Hent f k b xv ck Hb Hxv Hck Hpos) as (a & Ha & Hlo & Hhi).
  eapply upd_keeps; eauto. by eapply nonneg1_lookup.
Qed.

Lemma steps_tracks crit row q N self :
  (MaskRCNN._merge_feat_vec (MaskRCNN.small_feat inp) (MaskRCNN.small_cnt inp)).2 !! 0%nat
    = Some row ->
  row !! 0%nat = Some q ->
  tracks self ->
  exists losses self',
    MaskRCNN.steps (Some crit) N self inp = (Ok losses, self') /\ tracks self'.
Proof.
  intros Hrow Hq. revert self. induction N as [|N IH]; intros self Ht.
  - by exists [], self.
  - assert (Hk : length (MaskRCNN.buffer self) <> 0%nat).
    { by destruct Ht as (m & n & -> & _). }
    destruct (meta_loss_returns crit self inp row q Hk Hrow Hq) as [loss Hloss].
    destruct (IH _ (tracks_next self Ht)) as (losses & self' & Hsteps & Ht').
    exists (loss :: losses), self'. split; [|done].
    cbn [MaskRCNN.steps]. by rewrite Hloss, Hsteps.
Qed.

End CapacityOne.


(** The float buffer after one and after two of these steps holds the
    descriptor itself: [1 + EPS] rounds to 1. *)
Example capacity_one_float_first_steps :
  let d := MaskRCNN.of_Z 11184814 in
  let o := MaskRCNN.of_Z 0 in
  let self := MaskRCNN.State [[[o; o]]] [[[o; o]]] in
  let inp := MaskRCNN.FeatInput [[[[o; d]]]] [[[[o; MaskRCNN.of_Z 1]]]]
                                [[[[o; o]]]] [[[[o; o]]]] in
  MaskRCNN.add (MaskRCNN.of_Z 1) MaskRCNN.eps = MaskRCNN.of_Z 1 /\
  MaskRCNN.buffer (MaskRCNN.steps (Some MaskRCNN.MSELoss) 1 self inp).2 = [[[o; d]]] /\
  MaskRCNN.buffer (MaskRCNN.steps (Some MaskRCNN.MSELoss) 2 self inp).2 = [[[o; d]]].
Proof. repeat split; vm_compute; reflexivity. Qed.

(** [EPS32] is a float of the format, the nearest to [EPS]: they differ by
    less than half the spacing [2^-87] of the floats around it. *)
Example EPS32_nearest :
  valid_binary MaskRCNN.prec MaskRCNN.emax MaskRCNN.EPS32 = true /\
  ((15474250 # 1) / (2 ^ 87) - MaskRCNN.EPS < (1 # 2) / (2 ^ 87))%Q /\
  (MaskRCNN.EPS - (15474250 # 1) / (2 ^ 87) < (1 # 2) / (2 ^ 87))%Q.
Proof. repeat split; vm_compute; reflexivity. Qed.



(** *** The consistency loss *)

(** The reference [final_big_feat] that [meta_loss] compares against. *)
Definition reference (self : MaskRCNN.state Q) (inp : MaskRCNN.feat_input Q) : list (list Q) :=
  let self' := pushed self inp in
  if (length (MaskRCNN.buffer self) =? 1)%nat then hd [] (MaskRCNN.buffer self')
  else
    MaskRCNN.mop Qdiv
      (MaskRCNN.t3sum0 (MaskRCNN.t3op Qmult (MaskRCNN.buffer self') (MaskRCNN.buffer_cnt self')))
      (MaskRCNN.madd_eps (MaskRCNN.t3sum0 (MaskRCNN.buffer_cnt self'))).

(** The squared distance between the columns of class [k]. *)
Definition class_distance (sm bg : list (list Q)) (k : nat) : Q :=
  foldr Qplus 0%Q
    (zip_with (fun p q => (p - q) * (p - q))%Q
       (map (fun row => default 0%Q (row !! k)) sm)
       (map (fun row => default 0%Q (row !! k)) bg)).

(** What each class adds to the sum of squares, by its small-object
    count: nothing when the count is zero. *)
Fixpoint class_terms (sm bg : list (list Q)) (k : nat) (cnt : list Q) : Q :=
  match cnt with
  | [] => 0%Q
  | q :: cnt' =>
      ((if Qeq_bool q 0 then 0 else class_distance sm bg k) + class_terms sm bg (S k) cnt')%Q
  end.

Lemma elem_of_selected_from k v j :
  j ∈ MaskRCNN.nonzero_from k v <->
  (k <= j)%nat /\ exists q, v !! (j - k)%nat = Some q /\ ~ (q == 0)%Q.
Proof.
  revert k. induction v as [|q v IH]; intros k; simpl.
  - split; [by intros ?%elem_of_nil|]. by intros (_ & ? & ? & _).
  - rewrite elem_of_app, IH. split.
    + intros [H|(Hk & q' & Hq' & Hnz)].
      * destruct (Qeq_bool q 0) eqn:E; [by apply elem_of_nil in H|].
        apply list_elem_of_singleton in H as ->. split; [done|].
        exists q. rewrite Nat.sub_diag. split; [done|].
        by apply Qeq_bool_neq.
      * split; [lia|]. exists q'. split; [|done].
        by replace (j - k)%nat with (S (j - S k)) by lia.
    + intros (Hk & q' & Hq' & Hnz).
      destruct (decide (j = k)) as [->|Hne].
      * left. rewrite Nat.sub_diag in Hq'. simpl in Hq'. injection Hq' as ->.
        destruct (Qeq_bool q' 0) eqn:E; [by apply Qeq_bool_eq in E|].
        by apply list_elem_of_singleton.
      * right. split; [lia|]. exists q'. split; [|done].
        by replace (j - k)%nat with (S (j - S k)) in Hq' by lia.
Qed.

Lemma elem_of_selected v j :
  j ∈ MaskRCNN.nonzero v <-> exists q, v !! j = Some q /\ ~ (q == 0)%Q.
Proof.
  unfold MaskRCNN.nonzero. rewrite elem_of_selected_from, Nat.sub_0_r.
  split; [by intros [_ ?]|]. intros ?; split; [lia|done].
Qed.

Lemma sumsq_columns sm bg idx :
  MaskRCNN.sumsq (MaskRCNN.columns sm idx) (MaskRCNN.columns bg idx) =
  foldr Qplus 0%Q (map (class_distance sm bg) idx).
Proof.
  unfold MaskRCNN.sumsq, MaskRCNN.columns. rationals. f_equal.
  induction idx as [|k idx IH]; [done|]. simpl. by rewrite IH.
Qed.

Lemma sum_selected sm bg k cnt :
  (foldr Qplus 0 (map (class_distance sm bg) (MaskRCNN.nonzero_from k cnt)) ==
   class_terms sm bg k cnt)%Q.
Proof.
  revert k. induction cnt as [|q cnt IH]; intros k; simpl; [done|].
  rewrite map_app, foldr_app.
  destruct (Qeq_bool q 0); simpl.
  - rewrite IH. ring.
  - rewrite <- IH. generalize (map (class_distance sm bg) (MaskRCNN.nonzero_from (S k) cnt)).
    intros l. done.
Qed.

Lemma meta_loss_unfold criterion self inp row rest q :
  length (MaskRCNN.buffer self) <> 0%nat ->
  (MaskRCNN._merge_feat_vec (MaskRCNN.small_feat inp) (MaskRCNN.small_cnt inp)).2
    = row :: rest ->
  row !! 0%nat = Some q ->
  MaskRCNN.meta_loss criterion self inp =
  (match MaskRCNN.nonzero (<[0%nat := 0%Q]> row) with
   | [] => Ok 0%Q
   | k :: idx =>
       crit ← or_raise criterion AttributeError;
       Ok (crit
             (MaskRCNN.columns
                (MaskRCNN._merge_feat_vec (MaskRCNN.small_feat inp)
                   (MaskRCNN.small_cnt inp)).1 (k :: idx))
             (MaskRCNN.columns (reference self inp) (k :: idx)))
   end,
   pushed self inp).
Proof.
  intros Hk Hsc Hq. unfold MaskRCNN.meta_loss, reference, pushed.
  destruct (MaskRCNN._merge_feat_vec (MaskRCNN.small_feat inp) (MaskRCNN.small_cnt inp))
    as [sf sc].
  destruct (MaskRCNN._merge_feat_vec (MaskRCNN.big_feat inp) (MaskRCNN.big_cnt inp))
    as [x c]. cbn [fst snd] in *. subst sc.
  destruct (length (MaskRCNN.buffer self) =? 1)%nat eqn:E1.
  - cbn [mbind result_mbind result_bind lookup list_lookup or_raise]. rewrite Hq.
    cbn [or_raise result_bind insert list_insert list_alter hd].
    by destruct (MaskRCNN.nonzero _).
  - destruct (length (MaskRCNN.buffer self) =? 0)%nat eqn:E0;
      [by apply Nat.eqb_eq in E0|].
    cbn [mbind result_mbind result_bind lookup list_lookup or_raise]. rewrite Hq.
    cbn [or_raise result_bind insert list_insert list_alter hd].
    by destruct (MaskRCNN.nonzero _).
Qed.



(** *** The ring of buffer slots *)

(** Consecutive calls of [meta_loss], one per training step, each with
    the step's own input; the model state is threaded from call to call,
    whether a call returns or raises. *)
Fixpoint feed (criterion : option (list (list Q) -> list (list Q) -> Q))
    (self : MaskRCNN.state Q) (inps : list (MaskRCNN.feat_input Q)) : MaskRCNN.state Q :=
  match inps with
  | [] => self
  | inp :: inps' => feed criterion (MaskRCNN.meta_loss criterion self inp).2 inps'
  end.

(** The merged big-object average and count of a step. *)
Definition step_feat (inp : MaskRCNN.feat_input Q) : list (list Q) :=
  (MaskRCNN._merge_feat_vec (MaskRCNN.big_feat inp) (MaskRCNN.big_cnt inp)).1.
Definition step_cnt (inp : MaskRCNN.feat_input Q) : list (list Q) :=
  (MaskRCNN._merge_feat_vec (MaskRCNN.big_feat inp) (MaskRCNN.big_cnt inp)).2.

Lemma tail_snoc_drop {A} (l : list A) (a : A) (rest : list A) :
  l <> [] -> (tail l ++ [a]) ++ rest = drop 1 (l ++ a :: rest).
Proof. destruct l; [done|]. intros _. simpl. by rewrite <- app_assoc. Qed.

Lemma feed_ring criterion inps b bc :
  (2 <= length b)%nat -> length bc = length b ->
  MaskRCNN.buffer (feed criterion (MaskRCNN.State b bc) inps) =
    drop (length inps) (b ++ map step_feat inps) /\
  MaskRCNN.buffer_cnt (feed criterion (MaskRCNN.State b bc) inps) =
    drop (length inps) (bc ++ map step_cnt inps).
Proof.
  revert b bc. induction inps as [|inp inps IH]; intros b bc Hb Hbc.
  - simpl. by rewrite !app_nil_r.
  - cbn [feed]. rewrite meta_loss_state. cbn [MaskRCNN.buffer].
    destruct (length b =? 0)%nat eqn:E0; [apply Nat.eqb_eq in E0; lia|].
    unfold pushed. cbn [MaskRCNN.buffer MaskRCNN.buffer_cnt].
    destruct (length b =? 1)%nat eqn:E1; [apply Nat.eqb_eq in E1; lia|].
    fold (step_feat inp) (step_cnt inp).
    assert (Hb' : b <> []) by (intros ->; simpl in Hb; lia).
    assert (Hbc' : bc <> []) by (intros ->; simpl in Hbc; lia).
    destruct (IH (tail b ++ [step_feat inp]) (tail bc ++ [step_cnt inp])) as [H1 H2].
    { rewrite tail_app_length by done. lia. }
    { rewrite !tail_app_length by done. lia. }
    rewrite H1, H2. cbn [map length].
    rewrite !tail_snoc_drop by done. by rewrite !drop_drop.
Qed.

(** X5. With two or more slots, the buffer is a sliding window over the
    training steps: after any number of calls of [meta_loss], each with its
    own input and whether it returned or raised, the buffer holds the last
    [buffer_size] entries of the sequence made of its initial slots followed
    by the steps' merged big-object averages, in that order, and [buffer_cnt]
    holds the counts of the same steps at the same slots. After [buffer_size]
    or more steps nothing of the initial contents is left. *)
Theorem meta_loss_sliding_window
    (criterion : option (list (list Q) -> list (list Q) -> Q))
    (self : MaskRCNN.state Q) (inps : list (MaskRCNN.feat_input Q)) :
  (2 <= length (MaskRCNN.buffer self))%nat ->
  length (MaskRCNN.buffer_cnt self) = length (MaskRCNN.buffer self) ->
  let self' := feed criterion self inps in
  MaskRCNN.buffer self' = drop (length inps) (MaskRCNN.buffer self ++ map step_feat inps) /\
  MaskRCNN.buffer_cnt self' =
    drop (length inps) (MaskRCNN.buffer_cnt self ++ map step_cnt inps) /\
  length (MaskRCNN.buffer self') = length (MaskRCNN.buffer self) /\
  ((length (MaskRCNN.buffer self) <= length inps)%nat ->
   MaskRCNN.buffer self' =
     drop (length inps - length (MaskRCNN.buffer self)) (map step_feat inps) /\
   MaskRCNN.buffer_cnt self' =
     drop (length inps - length (MaskRCNN.buffer self)) (map step_cnt inps)).
Proof.
  intros Hb Hbc self'. destruct self as [b bc]. cbn [MaskRCNN.buffer MaskRCNN.buffer_cnt] in *.
  destruct (feed_ring criterion inps b bc) as [H1 H2]; try done.
  subst self'. rewrite H1, H2. split; [done|]. split; [done|]. split.
  - rewrite length_drop, length_app, length_map. lia.
  - intros Hlen. rewrite !drop_app_ge by lia. by rewrite Hbc.
Qed.

Lemma meta_loss_sliding_window_witness :
  let self := MaskRCNN.State [[[0; 0; 0]]; [[1; 2; 3]]]%Q [[[0; 0; 0]]; [[0; 1; 2]]]%Q in
  let inp1 := MaskRCNN.FeatInput [[[[0; 1; 2]]; [[0; 3; 2]]]]%Q [[[[0; 1; 1]]; [[0; 1; 0]]]]%Q
                                 [[[[0; 1; 5]]]]%Q [[[[1; 0; 0]]]]%Q in
  let inp2 := MaskRCNN.FeatInput [[[[0; 4; 4]]]]%Q [[[[0; 2; 0]]]]%Q
                                 [[[[0; 1; 5]]]]%Q [[[[1; 0; 3]]]]%Q in
  let inps := [inp1; inp2; inp1] in
  let self' := feed None self inps in
  MaskRCNN.buffer self' = drop (length inps) (MaskRCNN.buffer self ++ map step_feat inps) /\
  MaskRCNN.buffer_cnt self' =
    drop (length inps) (MaskRCNN.buffer_cnt self ++ map step_cnt inps) /\
  length (MaskRCNN.buffer self') = length (MaskRCNN.buffer self) /\
  ((length (MaskRCNN.buffer self) <= length inps)%nat ->
   MaskRCNN.buffer self' =
     drop (length inps - length (MaskRCNN.buffer self)) (map step_feat inps) /\
   MaskRCNN.buffer_cnt self' =
     drop (length inps - length (MaskRCNN.buffer self)) (map step_cnt inps)).
Proof.
  intros self inp1 inp2 inps.
  apply (meta_loss_sliding_window None self inps).
  - simpl. lia.
  - reflexivity.
Defined.

(** Three steps into two slots: the counts left are those of the last two
    steps; the second call raised for want of a criterion and was pushed all
    the same. *)
Example meta_loss_sliding_window_example :
  let self := MaskRCNN.State [[[0; 0; 0]]; [[1; 2; 3]]]%Q [[[0; 0; 0]]; [[0; 1; 2]]]%Q in
  let inp1 := MaskRCNN.FeatInput [[[[0; 1; 2]]; [[0; 3; 2]]]]%Q [[[[0; 1; 1]]; [[0; 1; 0]]]]%Q
                                 [[[[0; 1; 5]]]]%Q [[[[1; 0; 0]]]]%Q in
  let inp2 := MaskRCNN.FeatInput [[[[0; 4; 4]]]]%Q [[[[0; 2; 0]]]]%Q
                                 [[[[0; 1; 5]]]]%Q [[[[1; 0; 3]]]]%Q in
  MaskRCNN.buffer_cnt (feed None self [inp1; inp2; inp1]) = [[[0; 2; 0]]; [[0; 2; 1]]]%Q /\
  (MaskRCNN.meta_loss None (feed None self [inp1]) inp2).1 = Raise AttributeError.
Proof. split; vm_compute; reflexivity. Qed.

(** *** Failing calls *)


(** A capacity-1 buffer, no criterion, class 2 observed among the small
    objects: the call raises and the count of the step is in the buffer. *)
Example meta_loss_failures_example :
  let self := MaskRCNN.State [[[0; 0; 0]]]%Q [[[0; 0; 0]]]%Q in
  let inp := MaskRCNN.FeatInput [[[[0; 4; 4]]]]%Q [[[[0; 2; 0]]]]%Q
                                [[[[0; 1; 5]]]]%Q [[[[1; 0; 3]]]]%Q in
  (MaskRCNN.meta_loss None self inp).1 = Raise AttributeError /\
  MaskRCNN.buffer_cnt (MaskRCNN.meta_loss None self inp).2 = [[[0; 2; 0]]]%Q /\
  MaskRCNN.meta_loss None (MaskRCNN.State [] []) inp = (Raise IndexError, MaskRCNN.State [] []).
Proof. repeat split; vm_compute; reflexivity. Qed.

(** *** Sums along the first dimension, entry by entry *)

(** Entries of tensors of rationals, zero where there is none. *)
Definition at1 (v : list Q) (k : nat) : Q := default 0%Q (v !! k).
Definition at2 (m : list (list Q)) (f k : nat) : Q := at1 (default [] (m !! f)) k.
Definition at3 (t : list (list (list Q))) (s f k : nat) : Q := at2 (default [] (t !! s)) f k.
Definition at4 (t : list (list (list (list Q)))) (g s f k : nat) : Q :=
  at3 (default [] (t !! g)) s f k.

(** Shapes at ranks 3 and 4. *)
Definition shape3 (S F C : nat) (t : list (list (list Q))) : Prop :=
  length t = S /\ Forall (rect F C) t.
Definition shape4 (G S F C : nat) (t : list (list (list (list Q)))) : Prop :=
  length t = G /\ Forall (shape3 S F C) t.

Definition sumQ (l : list Q) : Q := foldr Qplus 0%Q l.

Lemma foldl_Qplus (a : Q) (l : list Q) : (foldl Qplus a l == a + sumQ l)%Q.
Proof.
  revert a. induction l as [|b l IH]; intros a; simpl; [ring|].
  rewrite IH. unfold sumQ. ring.
Qed.

Lemma lookup_bzip_same {A B C} (f : A -> B -> C) a b s x y :
  length a = length b -> a !! s = Some x -> b !! s = Some y ->
  MaskRCNN.bzip f a b !! s = Some (f x y).
Proof.
  intros H Ha Hb. rewrite bzip_same_length, lookup_zip_with by done.
  by rewrite Ha, Hb.
Qed.

Lemma length_bzip_same {A B C} (f : A -> B -> C) a b :
  length a = length b -> length (MaskRCNN.bzip f a b) = length a.
Proof. intros H. rewrite bzip_same_length, length_zip_with by done. lia. Qed.

(** Folding an elementwise operation over tensors of one length works
    position by position. *)
Lemma foldl_bzip_length {A} (add : A -> A -> A) n t ts :
  length t = n -> Forall (fun u : list A => length u = n) ts ->
  length (foldl (MaskRCNN.bzip add) t ts) = n.
Proof.
  intros Ht Hts. revert t Ht. induction Hts as [|u ts Hu _ IH]; intros t Ht; [done|].
  simpl. apply IH. rewrite length_bzip_same; lia.
Qed.

Lemma foldl_bzip_lookup {A} (add : A -> A -> A) (d : A) n t ts s :
  length t = n -> Forall (fun u : list A => length u = n) ts -> (s < n)%nat ->
  foldl (MaskRCNN.bzip add) t ts !! s =
    Some (foldl add (default d (t !! s)) (map (fun u => default d (u !! s)) ts)).
Proof.
  intros Ht Hts Hs. revert t Ht. induction Hts as [|u ts Hu _ IH]; intros t Ht.
  - simpl. destruct (lookup_lt_is_Some_2 t s) as [x ->]; [lia|]. done.
  - simpl. rewrite IH by (rewrite length_bzip_same; lia).
    destruct (lookup_lt_is_Some_2 t s) as [x Hx]; [lia|].
    destruct (lookup_lt_is_Some_2 u s) as [y Hy]; [lia|].
    rewrite (lookup_bzip_same add t u s x y) by (done || lia).
    by rewrite Hx, Hy.
Qed.

Lemma rect_row {A} F C (m : list (list A)) i :
  rect F C m -> (i < F)%nat -> length (default [] (m !! i)) = C.
Proof.
  intros [Hl Hr] Hi. destruct (lookup_lt_is_Some_2 m i) as [row Hrow]; [lia|].
  rewrite Hrow. simpl. rewrite Forall_lookup in Hr. by eapply Hr.
Qed.

Lemma rect_intro {A} F C (m : list (list A)) :
  length m = F -> (forall i, (i < F)%nat -> length (default [] (m !! i)) = C) ->
  rect F C m.
Proof.
  intros Hl Hr. split; [done|]. apply Forall_lookup. intros i row Hrow.
  specialize (Hr i ltac:(apply lookup_lt_Some in Hrow; lia)). by rewrite Hrow in Hr.
Qed.

Lemma shape3_slot S F C (t : list (list (list Q))) s :
  shape3 S F C t -> (s < S)%nat -> rect F C (default [] (t !! s)).
Proof.
  intros [Hl Hr] Hs. destruct (lookup_lt_is_Some_2 t s) as [m Hm]; [lia|].
  rewrite Hm. simpl. rewrite Forall_lookup in Hr. by eapply Hr.
Qed.

Lemma shape4_slot G S F C (t : list (list (list (list Q)))) g :
  shape4 G S F C t -> (g < G)%nat -> shape3 S F C (default [] (t !! g)).
Proof.
  intros [Hl Hr] Hg. destruct (lookup_lt_is_Some_2 t g) as [m Hm]; [lia|].
  rewrite Hm. simpl. rewrite Forall_lookup in Hr. by eapply Hr.
Qed.

(** The sum of matrices of one shape. *)
Lemma sum_mats F C (m : list (list Q)) (ms : list (list (list Q))) :
  rect F C m -> Forall (rect F C) ms ->
  rect F C (foldl (MaskRCNN.mop Qplus) m ms) /\
  forall i j, (i < F)%nat -> (j < C)%nat ->
    (at2 (foldl (MaskRCNN.mop Qplus) m ms) i j ==
     at2 m i j + sumQ (map (fun u => at2 u i j) ms))%Q.
Proof.
  intros Hm Hms.
  assert (Hlen : Forall (fun u : list (list Q) => length u = F) ms).
  { eapply Forall_impl; [exact Hms|]. by intros u [? _]. }
  assert (Hrow : forall i, (i < F)%nat ->
    Forall (fun r : list Q => length r = C)
      (map (fun u : list (list Q) => default [] (u !! i)) ms)).
  { intros i Hi. apply Forall_map. eapply Forall_impl; [exact Hms|].
    intros u Hu. simpl. by apply (rect_row F C). }
  assert (Hat : forall i, (i < F)%nat ->
    foldl (MaskRCNN.mop Qplus) m ms !! i =
    Some (foldl (MaskRCNN.vop Qplus) (default [] (m !! i))
            (map (fun u => default [] (u !! i)) ms))).
  { intros i Hi. apply (foldl_bzip_lookup (MaskRCNN.vop Qplus) [] F); [by destruct Hm|done..]. }
  split.
  - apply rect_intro.
    + apply foldl_bzip_length; [by destruct Hm|done].
    + intros i Hi. rewrite Hat by done. simpl.
      apply foldl_bzip_length; [by apply (rect_row F)|by apply Hrow].
  - intros i j Hi Hj. unfold at2 at 1. rewrite Hat by done. simpl.
    unfold at1 at 1. unfold MaskRCNN.vop.
    rewrite (foldl_bzip_lookup Qplus 0%Q C) by
      (first [by apply (rect_row F) | by apply Hrow | done]).
    simpl. rewrite foldl_Qplus, map_map. reflexivity.
Qed.

(** The sum of rank-3 tensors of one shape. *)
Lemma sum_ten3 S F C (t : list (list (list Q))) (ts : list (list (list (list Q)))) :
  shape3 S F C t -> Forall (shape3 S F C) ts ->
  shape3 S F C (foldl (MaskRCNN.t3op Qplus) t ts) /\
  forall s i j, (s < S)%nat -> (i < F)%nat -> (j < C)%nat ->
    (at3 (foldl (MaskRCNN.t3op Qplus) t ts) s i j ==
     at3 t s i j + sumQ (map (fun u => at3 u s i j) ts))%Q.
Proof.
  intros Ht Hts.
  assert (Hlen : Forall (fun u : list (list (list Q)) => length u = S) ts).
  { eapply Forall_impl; [exact Hts|]. by intros u [? _]. }
  assert (Hslot : forall s, (s < S)%nat ->
    Forall (rect F C) (map (fun u : list (list (list Q)) => default [] (u !! s)) ts)).
  { intros s Hs. apply Forall_map. eapply Forall_impl; [exact Hts|].
    intros u Hu. simpl. by apply (shape3_slot S). }
  assert (Hat : forall s, (s < S)%nat ->
    foldl (MaskRCNN.t3op Qplus) t ts !! s =
    Some (foldl (MaskRCNN.mop Qplus) (default [] (t !! s))
            (map (fun u => default [] (u !! s)) ts))).
  { intros s Hs. apply (foldl_bzip_lookup (MaskRCNN.mop Qplus) [] S); [by destruct Ht|done..]. }
  split.
  - split; [apply foldl_bzip_length; [by destruct Ht|done]|].
    apply Forall_lookup. intros s m Hm.
    assert (Hs : (s < S)%nat).
    { apply lookup_lt_Some in Hm.
      rewrite (foldl_bzip_length (MaskRCNN.mop Qplus) S) in Hm; [done|by destruct Ht|done]. }
    rewrite Hat in Hm by done. injection Hm as <-.
    apply sum_mats; [by apply (shape3_slot S)|by apply Hslot].
  - intros s i j Hs Hi Hj. unfold at3 at 1. rewrite Hat by done. simpl.
    destruct (sum_mats F C (default [] (t !! s)) _
                (shape3_slot S F C t s Ht Hs) (Hslot s Hs)) as [_ H].
    rewrite H by done. by rewrite map_map.
Qed.

(** Sums over an index range. *)
Definition sum_over (n : nat) (h : nat -> Q) : Q := sumQ (map h (seq 0 n)).

Lemma sum_over_ext n (h h' : nat -> Q) :
  (forall i, (i < n)%nat -> (h i == h' i)%Q) -> (sum_over n h == sum_over n h')%Q.
Proof.
  unfold sum_over. intros H.
  assert (G : forall k, (forall i, (k <= i < k + n)%nat -> (h i == h' i)%Q) ->
    (sumQ (map h (seq k n)) == sumQ (map h' (seq k n)))%Q).
  { clear H. induction n as [|n IH]; intros k H; [done|].
    simpl. rewrite (H k) by lia. rewrite (IH (S k)); [done|].
    intros i Hi. apply H. lia. }
  apply G. intros i Hi. apply H. lia.
Qed.

Lemma map_lookup_seq {A B} (d : A) (h : A -> B) (l : list A) :
  map h l = map (fun i => h (default d (l !! i))) (seq 0 (length l)).
Proof.
  induction l as [|a l IH]; [done|]. simpl. f_equal.
  rewrite IH, <- seq_shift, map_map. done.
Qed.

Lemma sumQ_list (d : list (list Q)) (h : list (list Q) -> Q) (m : list (list Q)) ms :
  (h m + sumQ (map h ms) ==
   sum_over (S (length ms)) (fun s => h (default d ((m :: ms) !! s))))%Q.
Proof.
  unfold sum_over. change (S (length ms)) with (length (m :: ms)).
  rewrite <- (map_lookup_seq d h (m :: ms)). reflexivity.
Qed.

Lemma t3sum0_entry S F C (t : list (list (list Q))) :
  shape3 S F C t -> (0 < S)%nat ->
  rect F C (MaskRCNN.t3sum0 t) /\
  forall i j, (i < F)%nat -> (j < C)%nat ->
    (at2 (MaskRCNN.t3sum0 t) i j == sum_over S (fun s => at3 t s i j))%Q.
Proof.
  intros [Hl Hr] HS. destruct t as [|m ms]; [simpl in Hl; lia|].
  apply Forall_cons in Hr as [Hm Hms].
  destruct (sum_mats F C m ms Hm Hms) as [Hrect Hat].
  split; [exact Hrect|]. intros i j Hi Hj.
  change (MaskRCNN.t3sum0 (m :: ms)) with (foldl (MaskRCNN.mop Qplus) m ms).
  rewrite Hat by done. simpl in Hl. subst S.
  apply (sumQ_list [] (fun u => at2 u i j)).
Qed.

Lemma sumQ_list3 (h : list (list (list Q)) -> Q) (m : list (list (list Q))) ms :
  (h m + sumQ (map h ms) ==
   sum_over (S (length ms)) (fun s => h (default [] ((m :: ms) !! s))))%Q.
Proof.
  unfold sum_over. change (S (length ms)) with (length (m :: ms)).
  rewrite <- (map_lookup_seq [] h (m :: ms)). reflexivity.
Qed.

Lemma t4sum0_entry G S F C (t : list (list (list (list Q)))) :
  shape4 G S F C t -> (0 < G)%nat ->
  shape3 S F C (MaskRCNN.t4sum0 t) /\
  forall s i j, (s < S)%nat -> (i < F)%nat -> (j < C)%nat ->
    (at3 (MaskRCNN.t4sum0 t) s i j == sum_over G (fun g => at4 t g s i j))%Q.
Proof.
  intros [Hl Hr] HG. destruct t as [|m ms]; [simpl in Hl; lia|].
  apply Forall_cons in Hr as [Hm Hms].
  destruct (sum_ten3 S F C m ms Hm Hms) as [Hshape Hat].
  split; [exact Hshape|]. intros s i j Hs Hi Hj.
  change (MaskRCNN.t4sum0 (m :: ms)) with (foldl (MaskRCNN.t3op Qplus) m ms).
  rewrite Hat by done. simpl in Hl. subst G.
  apply (sumQ_list3 (fun u => at3 u s i j)).
Qed.

(** The double sum [torch.sum(torch.sum(t, dim=0), dim=0)]. *)
Lemma sum_sum_entry G S F C (t : list (list (list (list Q)))) :
  shape4 G S F C t -> (0 < G)%nat -> (0 < S)%nat ->
  rect F C (MaskRCNN.t3sum0 (MaskRCNN.t4sum0 t)) /\
  forall i j, (i < F)%nat -> (j < C)%nat ->
    (at2 (MaskRCNN.t3sum0 (MaskRCNN.t4sum0 t)) i j ==
     sum_over S (fun s => sum_over G (fun g => at4 t g s i j)))%Q.
Proof.
  intros Ht HG HS.
  destruct (t4sum0_entry G S F C t Ht HG) as [Hshape Hat3].
  destruct (t3sum0_entry S F C _ Hshape HS) as [Hrect Hat2].
  split; [exact Hrect|]. intros i j Hi Hj.
  rewrite Hat2 by done. apply sum_over_ext. intros s Hs. by apply Hat3.
Qed.

(** *** Products and quotients with a broadcast count row *)

Lemma rect_one {A} C (b : list (list A)) :
  rect 1 C b -> exists r, b = [r] /\ length r = C.
Proof.
  intros [Hl Hr]. destruct b as [|r [|? ?]]; try done.
  exists r. split; [done|]. by apply Forall_cons in Hr as [? _].
Qed.

Lemma mop_row_entry (f : Q -> Q -> Q) F C (a : list (list Q)) (r : list Q) :
  rect F C a -> length r = C ->
  rect F C (MaskRCNN.mop f a [r]) /\
  forall i j, (i < F)%nat -> (j < C)%nat ->
    at2 (MaskRCNN.mop f a [r]) i j = f (at2 a i j) (at1 r j).
Proof.
  intros Ha Hr. split.
  - apply rect_intro; [rewrite length_mop_row; by destruct Ha|].
    intros i Hi. rewrite lookup_mop_row.
    destruct (lookup_lt_is_Some_2 a i) as [row Hrow]; [destruct Ha; lia|].
    rewrite Hrow. simpl. rewrite length_vop; pose proof (rect_row F C a i Ha Hi) as H;
      rewrite Hrow in H; simpl in H; lia.
  - intros i j Hi Hj. unfold at2. rewrite lookup_mop_row.
    destruct (lookup_lt_is_Some_2 a i) as [row Hrow]; [destruct Ha; lia|].
    rewrite Hrow. simpl.
    pose proof (rect_row F C a i Ha Hi) as H. rewrite Hrow in H. simpl in H.
    unfold at1. rewrite lookup_vop by lia.
    destruct (lookup_lt_is_Some_2 row j) as [x ->]; [lia|].
    destruct (lookup_lt_is_Some_2 r j) as [y ->]; [lia|]. done.
Qed.

Lemma t3op_row_entry (f : Q -> Q -> Q) S F C (a b : list (list (list Q))) :
  shape3 S F C a -> shape3 S 1 C b ->
  shape3 S F C (MaskRCNN.t3op f a b) /\
  forall s i j, (s < S)%nat -> (i < F)%nat -> (j < C)%nat ->
    at3 (MaskRCNN.t3op f a b) s i j = f (at3 a s i j) (at3 b s 0 j).
Proof.
  intros Ha Hb.
  assert (Hl : length a = length b) by (destruct Ha, Hb; lia).
  assert (Hat : forall s, (s < S)%nat ->
    exists r, default [] (b !! s) = [r] /\ length r = C /\
      MaskRCNN.t3op f a b !! s = Some (MaskRCNN.mop f (default [] (a !! s)) [r])).
  { intros s Hs.
    destruct (rect_one C _ (shape3_slot S 1 C b s Hb Hs)) as (r & Hr & Lr).
    exists r. split; [done|]. split; [done|].
    destruct (lookup_lt_is_Some_2 a s) as [x Hx]; [destruct Ha; lia|].
    destruct (lookup_lt_is_Some_2 b s) as [y Hy]; [destruct Hb; lia|].
    unfold MaskRCNN.t3op. rewrite (lookup_bzip_same _ a b s x y) by done.
    rewrite Hx. rewrite Hy in Hr. simpl in *. by rewrite Hr. }
  split.
  - split; [unfold MaskRCNN.t3op; rewrite length_bzip_same by done; by destruct Ha|].
    apply Forall_lookup. intros s m Hm.
    assert (Hs : (s < S)%nat).
    { apply lookup_lt_Some in Hm. unfold MaskRCNN.t3op in Hm.
      rewrite length_bzip_same in Hm by done. destruct Ha; lia. }
    destruct (Hat s Hs) as (r & _ & Lr & Hlook). rewrite Hlook in Hm. injection Hm as <-.
    by apply mop_row_entry; [apply (shape3_slot S)|].
  - intros s i j Hs Hi Hj. destruct (Hat s Hs) as (r & Hr & Lr & Hlook).
    unfold at3. rewrite Hlook, Hr. simpl.
    destruct (mop_row_entry f F C (default [] (a !! s)) r
                (shape3_slot S F C a s Ha Hs) Lr) as [_ H].
    by rewrite H.
Qed.

Lemma t4op_row_entry (f : Q -> Q -> Q) G S F C (a b : list (list (list (list Q)))) :
  shape4 G S F C a -> shape4 G S 1 C b ->
  shape4 G S F C (MaskRCNN.t4op f a b) /\
  forall g s i j, (g < G)%nat -> (s < S)%nat -> (i < F)%nat -> (j < C)%nat ->
    at4 (MaskRCNN.t4op f a b) g s i j = f (at4 a g s i j) (at4 b g s 0 j).
Proof.
  intros Ha Hb.
  assert (Hl : length a = length b) by (destruct Ha, Hb; lia).
  assert (Hat : forall g, (g < G)%nat ->
    MaskRCNN.t4op f a b !! g =
    Some (MaskRCNN.t3op f (default [] (a !! g)) (default [] (b !! g)))).
  { intros g Hg.
    destruct (lookup_lt_is_Some_2 a g) as [x Hx]; [destruct Ha; lia|].
    destruct (lookup_lt_is_Some_2 b g) as [y Hy]; [destruct Hb; lia|].
    unfold MaskRCNN.t4op. rewrite (lookup_bzip_same _ a b g x y) by done.
    by rewrite Hx, Hy. }
  split.
  - split; [unfold MaskRCNN.t4op; rewrite length_bzip_same by done; by destruct Ha|].
    apply Forall_lookup. intros g m Hm.
    assert (Hg : (g < G)%nat).
    { apply lookup_lt_Some in Hm. unfold MaskRCNN.t4op in Hm.
      rewrite length_bzip_same in Hm by done. destruct Ha; lia. }
    rewrite Hat in Hm by done. injection Hm as <-.
    by apply t3op_row_entry; apply (shape4_slot G).
  - intros g s i j Hg Hs Hi Hj. unfold at4. rewrite Hat by done. simpl.
    destruct (t3op_row_entry f S F C _ _ (shape4_slot G S F C a g Ha Hg)
                (shape4_slot G S 1 C b g Hb Hg)) as [_ H].
    by rewrite H.
Qed.

Lemma madd_eps_row C (cs : list (list Q)) :
  rect 1 C cs ->
  exists r, MaskRCNN.madd_eps cs = [r] /\ length r = C /\
    forall j, (j < C)%nat -> at1 r j = (at2 cs 0 j + MaskRCNN.EPS)%Q.
Proof.
  intros H. destruct (rect_one C cs H) as (r & -> & Lr).
  exists (map (fun q => q + MaskRCNN.EPS)%Q r). split; [done|].
  split; [by rewrite length_map|]. intros j Hj.
  unfold at2, at1. simpl. rewrite list_lookup_fmap.
  destruct (lookup_lt_is_Some_2 r j) as [x ->]; [lia|]. done.
Qed.

(** [_merge_feat_vec] entry by entry: the count of a class is the sum of
    its counts over devices and scales, and the feature is the sum of the
    count-weighted features divided by that count plus [EPS]. *)
Lemma merge_feat_vec_entry G S F C box_feat box_cnt :
  shape4 G S F C box_feat -> shape4 G S 1 C box_cnt -> (0 < G)%nat -> (0 < S)%nat ->
  let merged := MaskRCNN._merge_feat_vec box_feat box_cnt in
  rect F C merged.1 /\ rect 1 C merged.2 /\
  forall i j, (i < F)%nat -> (j < C)%nat ->
    (at2 merged.2 0 j == sum_over S (fun s => sum_over G (fun g => at4 box_cnt g s 0 j)))%Q /\
    (at2 merged.1 i j ==
     sum_over S (fun s => sum_over G (fun g =>
       at4 box_feat g s i j * at4 box_cnt g s 0 j)) / (at2 merged.2 0 j + MaskRCNN.EPS))%Q.
Proof.
  intros Hf Hc HG HS merged. subst merged. unfold MaskRCNN._merge_feat_vec.
  cbn [fst snd]. rationals.
  destruct (t4op_row_entry Qmult G S F C box_feat box_cnt Hf Hc) as [Hprod Hprod_at].
  destruct (sum_sum_entry G S F C _ Hprod HG HS) as [Hnum Hnum_at].
  destruct (sum_sum_entry G S 1 C _ Hc HG HS) as [Hcnt Hcnt_at].
  destruct (madd_eps_row C _ Hcnt) as (r & Hr & Lr & Hr_at).
  rewrite Hr.
  destruct (mop_row_entry Qdiv F C _ r Hnum Lr) as [Hres Hres_at].
  split; [exact Hres|]. split; [exact Hcnt|].
  intros i j Hi Hj. split; [by apply Hcnt_at; lia|].
  rewrite Hres_at, Hr_at, Hnum_at by done.
  apply Qdiv_comp; [|reflexivity].
  apply sum_over_ext. intros s Hs. apply sum_over_ext. intros g Hg.
  by rewrite Hprod_at.
Qed.

Lemma sum_over_shift n k (h : nat -> Q) :
  sumQ (map h (seq k n)) = sum_over n (fun i => h (k + i)%nat).
Proof.
  unfold sum_over. revert k. induction n as [|n IH]; intros k; [done|].
  simpl. rewrite Nat.add_0_r. f_equal.
  rewrite (IH (S k)), <- seq_shift, map_map.
  f_equal. apply map_ext. intros i. f_equal. lia.
Qed.

Lemma sum_over_S n (h : nat -> Q) :
  sum_over (S n) h = (h 0%nat + sum_over n (fun i => h (S i)))%Q.
Proof. unfold sum_over at 1. simpl. by rewrite (sum_over_shift n 1 h). Qed.

Lemma sum_over_nonneg n (h : nat -> Q) :
  (forall i, (i < n)%nat -> (0 <= h i)%Q) -> (0 <= sum_over n h)%Q.
Proof.
  revert h. induction n as [|n IH]; intros h H; [done|].
  rewrite sum_over_S.
  assert (0 <= h 0%nat)%Q by (apply H; lia).
  assert (0 <= sum_over n (fun i => h (S i)))%Q by (apply IH; intros i Hi; apply H; lia).
  lra.
Qed.

Lemma sum_over_zero n (h : nat -> Q) :
  (forall i, (i < n)%nat -> (h i == 0)%Q) -> (sum_over n h == 0)%Q.
Proof.
  revert h. induction n as [|n IH]; intros h H; [done|].
  rewrite sum_over_S.
  assert (H0 : (h 0%nat == 0)%Q) by (apply H; lia).
  assert (Hr : (sum_over n (fun i => h (S i)) == 0)%Q).
  { apply IH. intros i Hi. apply H. lia. }
  rewrite H0, Hr. ring.
Qed.

Lemma sum_over_nonneg_zero n (h : nat -> Q) :
  (forall i, (i < n)%nat -> (0 <= h i)%Q) -> (sum_over n h == 0)%Q ->
  forall i, (i < n)%nat -> (h i == 0)%Q.
Proof.
  revert h. induction n as [|n IH]; intros h H Hz i Hi; [lia|].
  rewrite sum_over_S in Hz.
  assert (H0 : (0 <= h 0%nat)%Q) by (apply H; lia).
  assert (Hr : (0 <= sum_over n (fun i => h (S i)))%Q).
  { apply sum_over_nonneg. intros k Hk. apply H. lia. }
  destruct i as [|i]; [lra|].
  apply (IH (fun i => h (S i))); [intros k Hk; apply H; lia|lra|lia].
Qed.

Lemma nonneg1_at (v : list Q) j : nonneg1 v -> (0 <= at1 v j)%Q.
Proof.
  intros H. unfold at1. destruct (v !! j) as [q|] eqn:E; [|done].
  simpl. by eapply nonneg1_lookup.
Qed.

Lemma nonneg4_at (t : list (list (list (list Q)))) g s i j :
  nonneg4 t -> (0 <= at4 t g s i j)%Q.
Proof.
  intros H. unfold at4, at3, at2. apply nonneg1_at.
  destruct (t !! g) as [t3|] eqn:E3; simpl;
    [|repeat (rewrite lookup_nil; simpl); by constructor].
  assert (H3 : nonneg3 t3) by (unfold nonneg4 in H; rewrite Forall_lookup in H; by eapply H).
  destruct (t3 !! s) as [t2|] eqn:E2; simpl;
    [|repeat (rewrite lookup_nil; simpl); by constructor].
  assert (H2 : nonneg2 t2) by (unfold nonneg3 in H3; rewrite Forall_lookup in H3; by eapply H3).
  destruct (t2 !! i) as [t1|] eqn:E1; simpl; [|by constructor].
  unfold nonneg2 in H2. rewrite Forall_lookup in H2. by eapply H2.
Qed.

(** X7. [_merge_feat_vec] on features of shape [G, S, F, C] and
    non-negative counts of shape [G, S, 1, C] returns the features merged to
    shape [F, C] and the counts to [1, C]. The merged count of a class is the
    sum of its counts over devices and scales; the merged feature times
    (count + EPS) is the sum of the features weighted by their counts: a
    count-weighted mean, damped by [EPS]. The divisor is never zero, and a
    class that no device and no scale has observed gets the feature 0. *)
Theorem merge_feat_vec_weighted_mean (G S F C : nat)
    (box_feat box_cnt : list (list (list (list Q)))) (i j : nat) :
  shape4 G S F C box_feat -> shape4 G S 1 C box_cnt ->
  (0 < G)%nat -> (0 < S)%nat -> nonneg4 box_cnt ->
  (i < F)%nat -> (j < C)%nat ->
  let merged := MaskRCNN._merge_feat_vec box_feat box_cnt in
  let avg := at2 merged.1 i j in
  let cnt := at2 merged.2 0 j in
  rect F C merged.1 /\ rect 1 C merged.2 /\
  (cnt == sum_over S (fun s => sum_over G (fun g => at4 box_cnt g s 0 j)))%Q /\
  (0 < cnt + MaskRCNN.EPS)%Q /\
  (avg * (cnt + MaskRCNN.EPS) ==
   sum_over S (fun s => sum_over G (fun g =>
     at4 box_feat g s i j * at4 box_cnt g s 0 j)))%Q /\
  ((cnt == 0)%Q -> (avg == 0)%Q).
Proof.
  intros Hf Hc HG HS Hnn Hi Hj merged avg cnt.
  destruct (merge_feat_vec_entry G S F C box_feat box_cnt Hf Hc HG HS)
    as (Hr1 & Hr2 & Hat).
  destruct (Hat i j Hi Hj) as [Hcnt Havg]. fold merged in Hr1, Hr2, Hcnt, Havg.
  fold cnt in Hcnt, Havg. fold avg in Havg.
  assert (Hcnt_nn : (0 <= cnt)%Q).
  { rewrite Hcnt. apply sum_over_nonneg. intros s _. apply sum_over_nonneg.
    intros g _. by apply nonneg4_at. }
  pose proof EPS_pos as He.
  split; [done|]. split; [done|]. split; [done|]. split; [lra|]. split.
  - rewrite Havg. field. lra.
  - intros Hz. rewrite Havg.
    assert (Hall : forall s g, (s < S)%nat -> (g < G)%nat ->
      (at4 box_cnt g s 0 j == 0)%Q).
    { intros s g Hs Hg. rewrite Hz in Hcnt. symmetry in Hcnt.
      pose proof (sum_over_nonneg_zero S _
        (fun s _ => sum_over_nonneg G _ (fun g _ => nonneg4_at box_cnt g s 0 j Hnn))
        Hcnt s Hs) as Hs0.
      by apply (sum_over_nonneg_zero G _
        (fun g _ => nonneg4_at box_cnt g s 0 j Hnn) Hs0 g Hg). }
    rewrite sum_over_zero.
    + field. lra.
    + intros s Hs. apply sum_over_zero. intros g Hg. rewrite Hall by done. ring.
Qed.

Lemma merge_feat_vec_weighted_mean_witness :
  let box_feat := [[[[0; 1; 2]]; [[0; 3; 2]]]]%Q in
  let box_cnt := [[[[0; 1; 1]]; [[0; 1; 0]]]]%Q in
  let merged := MaskRCNN._merge_feat_vec box_feat box_cnt in
  let avg := at2 merged.1 0 1 in
  let cnt := at2 merged.2 0 1 in
  rect 1 3 merged.1 /\ rect 1 3 merged.2 /\
  (cnt == sum_over 2 (fun s => sum_over 1 (fun g => at4 box_cnt g s 0 1)))%Q /\
  (0 < cnt + MaskRCNN.EPS)%Q /\
  (avg * (cnt + MaskRCNN.EPS) ==
   sum_over 2 (fun s => sum_over 1 (fun g =>
     at4 box_feat g s 0 1 * at4 box_cnt g s 0 1)))%Q /\
  ((cnt == 0)%Q -> (avg == 0)%Q).
Proof.
  intros box_feat box_cnt.
  apply (merge_feat_vec_weighted_mean 1 2 1 3 box_feat box_cnt 0 1).
  - split; [reflexivity|]. repeat constructor.
  - split; [reflexivity|]. repeat constructor.
  - lia.
  - lia.
  - repeat constructor; by vm_compute.
  - lia.
  - lia.
Defined.

(** Two scales on one device: class 1 is seen once at each scale with
    features 1 and 3, class 2 once with feature 2; the merged counts are
    [0, 2, 1] and the merged features of classes 1 and 2 are [4 / (2 + EPS)]
    and [2 / (1 + EPS)]. *)
Example merge_feat_vec_example :
  let merged := MaskRCNN._merge_feat_vec [[[[0; 1; 2]]; [[0; 3; 2]]]]%Q
                                         [[[[0; 1; 1]]; [[0; 1; 0]]]]%Q in
  merged.2 = [[0; 2; 1]]%Q /\
  (at2 merged.1 0 0 == 0)%Q /\
  (at2 merged.1 0 1 == 4 / (2 + MaskRCNN.EPS))%Q /\
  (at2 merged.1 0 2 == 2 / (1 + MaskRCNN.EPS))%Q.
Proof. repeat split; vm_compute; reflexivity. Qed.

(** *** The shape of the buffer *)

Lemma shape3_tail_snoc K F C (t : list (list (list Q))) (x : list (list Q)) :
  shape3 K F C t -> (0 < K)%nat -> rect F C x -> shape3 K F C (tail t ++ [x]).
Proof.
  intros [Hl Hr] HK Hx. split.
  - rewrite tail_app_length; [done|]. intros ->. simpl in Hl. lia.
  - apply Forall_app. split; [|by constructor].
    destruct t; [done|]. by apply Forall_cons in Hr as [_ ?].
Qed.

Lemma shape3_one F C (t : list (list (list Q))) :
  shape3 1 F C t -> exists m, t = [m] /\ rect F C m.
Proof.
  intros [Hl Hr]. destruct t as [|m [|? ?]]; try done.
  exists m. split; [done|]. by apply Forall_cons in Hr as [? _].
Qed.

(** X8. [meta_loss] keeps the shape of the running buffer: with [K >= 1]
    slots of features [F, C] and counts [1, C], and a step whose big-object
    features and counts have the shapes [G, S, F, C] and [G, S, 1, C], the
    buffer left by the call, returning or raising, has again [K] slots of
    features [F, C] and counts [1, C], in the accumulating branch as in the
    ring branch. *)
Theorem meta_loss_keeps_shape
    (criterion : option (list (list Q) -> list (list Q) -> Q))
    (self : MaskRCNN.state Q) (inp : MaskRCNN.feat_input Q) (K F C G S : nat) :
  (0 < K)%nat -> (0 < G)%nat -> (0 < S)%nat ->
  shape3 K F C (MaskRCNN.buffer self) ->
  shape3 K 1 C (MaskRCNN.buffer_cnt self) ->
  shape4 G S F C (MaskRCNN.big_feat inp) ->
  shape4 G S 1 C (MaskRCNN.big_cnt inp) ->
  let self' := (MaskRCNN.meta_loss criterion self inp).2 in
  shape3 K F C (MaskRCNN.buffer self') /\ shape3 K 1 C (MaskRCNN.buffer_cnt self').
Proof.
  intros HK HG HS Hb Hbc Hf Hc self'. subst self'. rewrite meta_loss_state.
  destruct (merge_feat_vec_entry G S F C _ _ Hf Hc HG HS) as (Hx & Hcv & _).
  destruct (length (MaskRCNN.buffer self) =? 0)%nat eqn:E0.
  { apply Nat.eqb_eq in E0. destruct Hb. lia. }
  unfold pushed.
  destruct (MaskRCNN._merge_feat_vec (MaskRCNN.big_feat inp) (MaskRCNN.big_cnt inp))
    as [x c] eqn:Hm. cbn [fst snd] in *.
  destruct (length (MaskRCNN.buffer self) =? 1)%nat eqn:E1.
  - apply Nat.eqb_eq in E1. assert (K = 1%nat) as -> by (destruct Hb; lia).
    destruct (shape3_one F C _ Hb) as (m & Em & Hrm).
    destruct (shape3_one 1 C _ Hbc) as (nn & En & Hrn).
    destruct (rect_one C nn Hrn) as (n & -> & Ln).
    destruct (rect_one C c Hcv) as (cv & -> & Lcv).
    cbn [MaskRCNN.buffer MaskRCNN.buffer_cnt]. rewrite Em, En.
    change (MaskRCNN.t3op Qdiv _ _) with [accumulate m n x cv].
    change (MaskRCNN.t3op Qplus [[n]] [[cv]]) with [[MaskRCNN.vop Qplus n cv]].
    split.
    + split; [done|]. constructor; [|done]. by apply accumulate_rect.
    + split; [done|]. constructor; [|done]. split; [done|].
      constructor; [|done]. rewrite length_vop; lia.
  - cbn [MaskRCNN.buffer MaskRCNN.buffer_cnt]. split; by apply shape3_tail_snoc.
Qed.

Lemma meta_loss_keeps_shape_witness :
  let self := MaskRCNN.State [[[0; 0; 0]]; [[1; 2; 3]]]%Q [[[0; 0; 0]]; [[0; 1; 2]]]%Q in
  let inp := MaskRCNN.FeatInput [[[[0; 1; 2]]; [[0; 3; 2]]]]%Q [[[[0; 1; 1]]; [[0; 1; 0]]]]%Q
                                [[[[0; 1; 5]]]]%Q [[[[1; 0; 0]]]]%Q in
  let self' := (MaskRCNN.meta_loss None self inp).2 in
  shape3 2 1 3 (MaskRCNN.buffer self') /\ shape3 2 1 3 (MaskRCNN.buffer_cnt self').
Proof.
  intros self inp.
  apply (meta_loss_keeps_shape None self inp 2 1 3 1 2); try lia;
    (split; [reflexivity|]; repeat constructor).
Defined.

(** *** The reference of the ring branch *)

Lemma nonneg3_at (t : list (list (list Q))) s i j :
  nonneg3 t -> (0 <= at3 t s i j)%Q.
Proof.
  intros H. unfold at3, at2. apply nonneg1_at.
  destruct (t !! s) as [t2|] eqn:E2; simpl;
    [|repeat (rewrite lookup_nil; simpl); by constructor].
  assert (H2 : nonneg2 t2) by (unfold nonneg3 in H; rewrite Forall_lookup in H; by eapply H).
  destruct (t2 !! i) as [t1|] eqn:E1; simpl; [|by constructor].
  unfold nonneg2 in H2. rewrite Forall_lookup in H2. by eapply H2.
Qed.

(** X9. In the ring branch the reference that the small-object features
    are compared with is the count-weighted mean over the slots of the
    buffer, the step just pushed included: for every feature and class, the
    reference times (the sum of the slots' counts + EPS) is the sum over
    the slots of feature times count. A slot whose count for a class is zero
    adds nothing to the reference of that class, and a class without any
    count in the buffer has the reference 0. *)
Theorem meta_loss_ring_reference
    (criterion : option (list (list Q) -> list (list Q) -> Q))
    (self : MaskRCNN.state Q) (inp : MaskRCNN.feat_input Q) (K F C G S i j : nat) :
  (2 <= K)%nat -> (0 < G)%nat -> (0 < S)%nat ->
  shape3 K F C (MaskRCNN.buffer self) ->
  shape3 K 1 C (MaskRCNN.buffer_cnt self) ->
  shape4 G S F C (MaskRCNN.big_feat inp) ->
  shape4 G S 1 C (MaskRCNN.big_cnt inp) ->
  nonneg3 (MaskRCNN.buffer_cnt self) -> nonneg4 (MaskRCNN.big_cnt inp) ->
  (i < F)%nat -> (j < C)%nat ->
  let self' := (MaskRCNN.meta_loss criterion self inp).2 in
  let ref := at2 (reference self inp) i j in
  let total := sum_over K (fun s => at3 (MaskRCNN.buffer_cnt self') s 0 j) in
  (0 < total + MaskRCNN.EPS)%Q /\
  (ref * (total + MaskRCNN.EPS) ==
   sum_over K (fun s => at3 (MaskRCNN.buffer self') s i j *
                        at3 (MaskRCNN.buffer_cnt self') s 0 j))%Q /\
  ((total == 0)%Q -> (ref == 0)%Q).
Proof.
  intros HK HG HS Hb Hbc Hf Hc Hnb Hnc Hi Hj self' ref total.
  destruct (merge_feat_vec_entry G S F C _ _ Hf Hc HG HS) as (Hx & Hcv & _).
  pose proof (merged_count_nonneg (MaskRCNN.big_feat inp) _ Hnc) as Hncv.
  assert (E0 : (length (MaskRCNN.buffer self) =? 0)%nat = false).
  { apply Nat.eqb_neq. destruct Hb. lia. }
  assert (E1 : (length (MaskRCNN.buffer self) =? 1)%nat = false).
  { apply Nat.eqb_neq. destruct Hb. lia. }
  assert (Hself : self' = pushed self inp).
  { subst self'. by rewrite meta_loss_state, E0. }
  subst ref total. rewrite Hself. unfold reference. rewrite E1.
  unfold pushed. rewrite E1. cbn [MaskRCNN.buffer MaskRCNN.buffer_cnt].
  set (b' := tail (MaskRCNN.buffer self) ++ _).
  set (c' := tail (MaskRCNN.buffer_cnt self) ++ _).
  assert (Hb' : shape3 K F C b') by (apply shape3_tail_snoc; [done|lia|done]).
  assert (Hc' : shape3 K 1 C c') by (apply shape3_tail_snoc; [done|lia|done]).
  assert (Hnc' : nonneg3 c').
  { apply Forall_app. split; [|by repeat constructor].
    destruct (MaskRCNN.buffer_cnt self); [done|]. by apply Forall_cons in Hnb as [_ ?]. }
  destruct (t3op_row_entry Qmult K F C b' c' Hb' Hc') as [Hprod Hprod_at].
  destruct (t3sum0_entry K F C _ Hprod ltac:(lia)) as [Hnum Hnum_at].
  destruct (t3sum0_entry K 1 C _ Hc' ltac:(lia)) as [Hcnt Hcnt_at].
  destruct (madd_eps_row C _ Hcnt) as (r & Hr & Lr & Hr_at).
  rewrite Hr.
  destruct (mop_row_entry Qdiv F C _ r Hnum Lr) as [_ Hres_at].
  rewrite Hres_at, Hr_at, Hnum_at, Hcnt_at by (done || lia).
  set (total := sum_over K (fun s => at3 c' s 0 j)).
  assert (Htot : (0 <= total)%Q).
  { apply sum_over_nonneg. intros s _. by apply nonneg3_at. }
  pose proof EPS_pos as He.
  assert (Hnum_eq : (sum_over K (fun s => at3 (MaskRCNN.t3op Qmult b' c') s i j) ==
                     sum_over K (fun s => at3 b' s i j * at3 c' s 0 j))%Q).
  { apply sum_over_ext. intros s Hs. by rewrite Hprod_at. }
  rewrite Hnum_eq.
  split; [lra|]. split; [field; lra|].
  intros Hz.
  rewrite sum_over_zero; [field; lra|].
  intros s Hs.
  rewrite (sum_over_nonneg_zero K _ (fun s _ => nonneg3_at c' s 0 j Hnc') Hz s Hs). ring.
Qed.

Lemma meta_loss_ring_reference_witness :
  let self := MaskRCNN.State [[[0; 0; 0]]; [[1; 2; 3]]]%Q [[[0; 0; 0]]; [[0; 1; 2]]]%Q in
  let inp := MaskRCNN.FeatInput [[[[0; 1; 2]]; [[0; 3; 2]]]]%Q [[[[0; 1; 1]]; [[0; 1; 0]]]]%Q
                                [[[[0; 1; 5]]]]%Q [[[[1; 0; 0]]]]%Q in
  let self' := (MaskRCNN.meta_loss None self inp).2 in
  let ref := at2 (reference self inp) 0 1 in
  let total := sum_over 2 (fun s => at3 (MaskRCNN.buffer_cnt self') s 0 1) in
  (0 < total + MaskRCNN.EPS)%Q /\
  (ref * (total + MaskRCNN.EPS) ==
   sum_over 2 (fun s => at3 (MaskRCNN.buffer self') s 0 1 *
                        at3 (MaskRCNN.buffer_cnt self') s 0 1))%Q /\
  ((total == 0)%Q -> (ref == 0)%Q).
Proof.
  intros self inp.
  apply (meta_loss_ring_reference None self inp 2 1 3 1 2 0 1); try lia;
    first [ split; [reflexivity|]; repeat constructor
          | repeat constructor; by vm_compute ].
Defined.

(** ** Ground-truth batching *)

Lemma foldl_max_ge (l : list nat) (a : nat) :
  (a <= foldl Nat.max a l)%nat /\ Forall (fun n => (n <= foldl Nat.max a l)%nat) l.
Proof.
  revert a. induction l as [|b l IH]; intros a; simpl; [by split|].
  destruct (IH (Nat.max a b)) as [H1 H2]. split; [lia|].
  constructor; [lia|done].
Qed.

Lemma foldl_max_in (l : list nat) (a : nat) : foldl Nat.max a l ∈ a :: l.
Proof.
  revert a. induction l as [|b l IH]; intros a; simpl; [left|].
  specialize (IH (Nat.max a b)).
  apply elem_of_cons in IH as [IH|IH]; [|by do 2 right].
  rewrite IH. destruct (Nat.max_spec a b) as [[_ ->]|[_ ->]]; [right; left|left].
Qed.

Lemma pymax_Ok (l : list nat) :
  l <> [] ->
  exists m, MaskRCNN.pymax l = Ok m /\ m ∈ l /\ Forall (fun n => (n <= m)%nat) l.
Proof.
  destruct l as [|a l]; [done|]. intros _. exists (foldl Nat.max a l).
  split; [done|]. split; [apply foldl_max_in|].
  destruct (foldl_max_ge l a). by constructor.
Qed.

Lemma setitem_prefix_zero {A} (ok : A -> bool) (T : list (list A)) i k src z maxn :
  T !! i = Some (replicate maxn z) ->
  length src = k ->
  forallb ok src = true ->
  MaskRCNN.setitem_prefix ok T i k src = Ok (<[i := src ++ replicate (maxn - k) z]> T).
Proof.
  intros Hrow Hlen Hok. unfold MaskRCNN.setitem_prefix. rewrite Hrow. cbn.
  rewrite Hok, (proj2 (Nat.eqb_eq _ _) Hlen). cbn. by rewrite drop_replicate.
Qed.

Section Batch.
Variable gt_cls_ids : list (list Z).
Variable gt_boxes : list (list (list Q)).
Variable gt_masks : list MaskRCNN.mask_array.
Variables (bs mask_shape max_gt_num : nat).

(** A well-formed batch: one entry per image in each list; per image, as
    many boxes (rows of four coordinates) and masks (square, of the common
    side [mask_shape]) as class ids. *)
Hypothesis Hbs : length gt_cls_ids = bs.
Hypothesis Hboxes : length gt_boxes = bs.
Hypothesis Hmasks : length gt_masks = bs.
Hypothesis Himage : forall i cls boxes masks,
  gt_cls_ids !! i = Some cls -> gt_boxes !! i = Some boxes -> gt_masks !! i = Some masks ->
  length boxes = length cls /\
  Forall (fun r => length r = 4%nat) boxes /\
  length (MaskRCNN.mask_items masks) = length cls /\
  MaskRCNN.mask_h masks = mask_shape /\ MaskRCNN.mask_w masks = mask_shape.

Definition zero_box_row : list Q := replicate 4 0%Q.
Definition zero_mask : list (list Q) := replicate mask_shape (replicate mask_shape 0%Q).

(** The padded rows of image [i]. *)
Definition padded_ids (cls : list Z) : list Q :=
  map inject_Z cls ++ replicate (max_gt_num - length cls) 0%Q.
Definition padded_boxes (cls : list Z) (boxes : list (list Q)) : list (list Q) :=
  boxes ++ replicate (max_gt_num - length cls) zero_box_row.
Definition padded_masks (cls : list Z) (masks : MaskRCNN.mask_array)
  : list (list (list Q)) :=
  MaskRCNN.mask_items masks ++ replicate (max_gt_num - length cls) zero_mask.

(** The loop invariant: the images before [j] are padded, the others are
    still zero. *)
Definition padded_upto (j : nat) (p : MaskRCNN.padded) : Prop :=
  forall i cls boxes masks,
    gt_cls_ids !! i = Some cls -> gt_boxes !! i = Some boxes -> gt_masks !! i = Some masks ->
    if decide (i < j)%nat then
      MaskRCNN.GT_CLS_IDS p !! i = Some (padded_ids cls) /\
      MaskRCNN.GT_BOXES p !! i = Some (padded_boxes cls boxes) /\
      MaskRCNN.GT_MASKS p !! i = Some (padded_masks cls masks)
    else
      MaskRCNN.GT_CLS_IDS p !! i = Some (replicate max_gt_num 0%Q) /\
      MaskRCNN.GT_BOXES p !! i = Some (replicate max_gt_num zero_box_row) /\
      MaskRCNN.GT_MASKS p !! i = Some (replicate max_gt_num zero_mask).

Definition same_lengths (p : MaskRCNN.padded) : Prop :=
  length (MaskRCNN.GT_CLS_IDS p) = bs /\
  length (MaskRCNN.GT_BOXES p) = bs /\
  length (MaskRCNN.GT_MASKS p) = bs.

Lemma image_lookups i :
  (i < bs)%nat ->
  exists cls boxes masks,
    gt_cls_ids !! i = Some cls /\ gt_boxes !! i = Some boxes /\ gt_masks !! i = Some masks.
Proof.
  intros Hi.
  destruct (lookup_lt_is_Some_2 gt_cls_ids i) as [cls ?]; [lia|].
  destruct (lookup_lt_is_Some_2 gt_boxes i) as [boxes ?]; [lia|].
  destruct (lookup_lt_is_Some_2 gt_masks i) as [masks ?]; [lia|].
  by exists cls, boxes, masks.
Qed.

Lemma forallb_length4 (boxes : list (list Q)) :
  Forall (fun r => length r = 4%nat) boxes ->
  forallb (fun r : list Q => (length r =? 4)%nat) boxes = true.
Proof.
  intros H. apply forallb_forall. intros r Hr.
  rewrite Forall_forall in H. apply Nat.eqb_eq, H. by apply list_elem_of_In.
Qed.

Lemma forallb_true {A} (l : list A) : forallb (fun _ => true) l = true.
Proof. by induction l. Qed.

Lemma pad_image_step j p :
  (j < bs)%nat -> padded_upto j p -> same_lengths p ->
  exists p',
    MaskRCNN.pad_image gt_cls_ids gt_boxes gt_masks (map length gt_cls_ids) mask_shape p j
      = Ok p' /\
    padded_upto (S j) p' /\ same_lengths p'.
Proof.
  intros Hj Hinv (Lc & Lb & Lm).
  destruct (image_lookups j Hj) as (cls & boxes & masks & Hcls & Hbx & Hmk).
  destruct (Himage j cls boxes masks Hcls Hbx Hmk) as (Hlb & H4 & Hlm & Hh & Hw).
  pose proof (Hinv j cls boxes masks Hcls Hbx Hmk) as Hrow.
  rewrite decide_False in Hrow by lia. destruct Hrow as (Rc & Rb & Rm).
  unfold MaskRCNN.pad_image.
  rewrite list_lookup_fmap, Hcls, Hbx, Hmk. cbn.
  rewrite (setitem_prefix_zero _ _ j _ _ 0%Q max_gt_num Rc)
    by (by rewrite ?length_map, ?forallb_true). cbn.
  rewrite (setitem_prefix_zero _ _ j _ _ zero_box_row max_gt_num Rb)
    by (by rewrite ?forallb_length4). cbn.
  rewrite Hh, Hw, Nat.eqb_refl. cbn.
  rewrite (setitem_prefix_zero _ _ j _ _ zero_mask max_gt_num Rm)
    by (by rewrite ?forallb_true). cbn.
  eexists. split; [reflexivity|]. split.
  - intros i cls' boxes' masks' Hcls' Hbx' Hmk'. cbn.
    destruct (decide (i = j)) as [->|Hne].
    + rewrite decide_True by lia.
      rewrite !list_lookup_insert_eq by lia.
      assert (cls' = cls) by congruence. assert (boxes' = boxes) by congruence.
      assert (masks' = masks) by congruence. subst. done.
    + rewrite !list_lookup_insert_ne by done.
      pose proof (Hinv i cls' boxes' masks' Hcls' Hbx' Hmk') as Hrow.
      destruct (decide (i < j)%nat).
      * by rewrite decide_True by lia.
      * by rewrite decide_False by lia.
  - unfold same_lengths. cbn. by rewrite !length_insert.
Qed.

Lemma pad_images_loop k j p :
  (j + k = bs)%nat -> padded_upto j p -> same_lengths p ->
  exists p',
    MaskRCNN.pad_images gt_cls_ids gt_boxes gt_masks (map length gt_cls_ids) mask_shape
      (seq j k) p = Ok p' /\
    padded_upto bs p' /\ same_lengths p'.
Proof.
  revert j p. induction k as [|k IH]; intros j p Hjk Hinv Hlen.
  - exists p. simpl. replace bs with j by lia. done.
  - destruct (pad_image_step j p) as (p1 & Hstep & Hinv1 & Hlen1); [lia|done|done|].
    destruct (IH (S j) p1) as (p' & Hloop & Hinv' & Hlen'); [lia|done|done|].
    exists p'. simpl. rewrite Hstep. cbn. by rewrite Hloop.
Qed.

End Batch.



(** An empty batch is rejected: [max] of no counts raises. *)
Example adjust_input_gt_empty_batch :
  MaskRCNN.adjust_input_gt [] [] [] = Raise ValueError.
Proof. reflexivity. Qed.

(** ** Building the model *)

Lemma quotient_integer (x k : Z) :
  Qeq_bool (inject_Z x / inject_Z (2 ^ 6)) (inject_Z k) = true <-> x = 64 * k.
Proof.
  rewrite Qeq_bool_iff. change (2 ^ 6) with 64.
  unfold Qeq, Qdiv, Qmult, Qinv, inject_Z. simpl. lia.
Qed.

(** The size check of [_build] is divisibility by 64. *)
Lemma fraction_divisible (x : Z) : MaskRCNN.fraction x = false <-> x mod 64 = 0.
Proof.
  unfold MaskRCNN.fraction. rewrite negb_false_iff, quotient_integer. split.
  - intros E. rewrite E, Z.mul_comm. apply Z.mod_mul. lia.
  - intros Hm. unfold MaskRCNN.int. change (2 ^ 6) with 64.
    rewrite Qfloor_div, Qceiling_div by lia.
    destruct (Qle_bool 0 (inject_Z x / inject_Z 64)); Z.to_euclidean_division_equations; lia.
Qed.

Section BuildFacts.

Variable anchors : Type.
Variable generate_pyramid_priors :
  MaskRCNN.config -> MaskRCNN.build_config -> outcome anchors.

Let _build := MaskRCNN._build anchors generate_pyramid_priors.

(** What a successful [_build] has passed. *)
Lemma build_Return (config : MaskRCNN.config) (options : MaskRCNN.build_config) m :
  _build config options = Return m ->
  exists resnet priors dev_roi,
    (Dev.image_shape (MaskRCNN.DEV config)).1 mod 64 = 0 /\
    (Dev.image_shape (MaskRCNN.DEV config)).2 mod 64 = 0 /\
    ResNet.__init__ (MaskRCNN.BACKBONE options) true = Return resnet /\
    generate_pyramid_priors config options = Return priors /\
    DevNet.__init__ (MaskRCNN.DEV config) 256 = Return dev_roi /\
    m = MaskRCNN.Model.Make
          (FPN.__init__ (ResNet.C1 resnet) (ResNet.C2 resnet) (ResNet.C3 resnet)
             (ResNet.C4 resnet) (ResNet.C5 resnet) 256)
          priors
          (RPN.__init__ (length (MaskRCNN.ANCHOR_RATIOS options))
             (MaskRCNN.ANCHOR_STRIDE options) 256)
          dev_roi
          (if Dev.use_dev (MaskRCNN.DEV config)
              && String.eqb (MaskRCNN.LOSS_CHOICE options) "l2"
           then Some (MaskRCNN.MSELoss (num := Q)) else None)
          (Classifier.__init__ 256 (MaskRCNN.NUM_CLASSES config)
             (Dev.pool_size (MaskRCNN.DEV config)))
          (Mask.__init__ 256 (MaskRCNN.NUM_CLASSES config)).
Proof.
  unfold _build, MaskRCNN._build.
  destruct (Dev.image_shape (MaskRCNN.DEV config)) as [h w]. cbn [fst snd].
  destruct (MaskRCNN.fraction h) eqn:Eh; [done|].
  destruct (MaskRCNN.fraction w) eqn:Ew; [done|]. cbn [orb].
  apply fraction_divisible in Eh, Ew.
  destruct (ResNet.__init__ (MaskRCNN.BACKBONE options) true) as [resnet|e] eqn:Er; [|done].
  cbn [mbind outcome_mbind ResNet.stages].
  destruct (generate_pyramid_priors config options) as [priors|e]; [|done].
  cbn [mbind outcome_mbind].
  destruct (DevNet.__init__ (MaskRCNN.DEV config) 256) as [dev_roi|e]; [|done].
  cbn [mbind outcome_mbind]. intros [= <-].
  by exists resnet, priors, dev_roi.
Qed.

(** X19. The size check of [_build] and what it buys. When a side of
    [DATA.IMAGE_SHAPE] is not a multiple of 64, [_build] raises [Exception]
    before anything is built, whatever the rest of the configuration. When
    [_build] returns a model, both sides are multiples of 64, the backbone
    is one of the two known ones, and on every batch of images of the
    configured size, in either mode, the pyramid of the model returns five
    maps of 256 channels whose sides are the sides of the image divided by
    4, 8, 16, 32 and 64. *)
Theorem build_image_size (config : MaskRCNN.config) (options : MaskRCNN.build_config) :
  let h := (Dev.image_shape (MaskRCNN.DEV config)).1 in
  let w := (Dev.image_shape (MaskRCNN.DEV config)).2 in
  (h mod 64 <> 0 \/ w mod 64 <> 0 -> _build config options = Throw (Raised Exception)) /\
  (forall m, _build config options = Return m ->
     h mod 64 = 0 /\ w mod 64 = 0 /\
     (MaskRCNN.BACKBONE options = "resnet50"%string \/
      MaskRCNN.BACKBONE options = "resnet101"%string) /\
     forall training n, (1 <= n)%nat -> 0 < h -> 0 < w ->
       FPN.forward training (MaskRCNN.Model.fpn m) [n; 3%nat; Z.to_nat h; Z.to_nat w] =
       Return (map (fun d => [n; 256%nat; Z.to_nat (h / d); Z.to_nat (w / d)])
                 [4; 8; 16; 32; 64])).
Proof.
  intros h w. split.
  - intros Hnot. unfold _build, MaskRCNN._build. subst h w.
    destruct (Dev.image_shape (MaskRCNN.DEV config)) as [h w]. cbn [fst snd] in *.
    destruct (MaskRCNN.fraction h) eqn:Eh; [done|].
    destruct (MaskRCNN.fraction w) eqn:Ew; [done|].
    apply fraction_divisible in Eh, Ew. lia.
  - intros m Hm.
    apply build_Return in Hm
      as (resnet & priors & dev_roi & Hh & Hw & Hres & _ & _ & ->).
    fold h in Hh. fold w in Hw. split; [done|]. split; [done|]. split.
    { apply resnet_init in Hres as (blocks & [[-> _]|[-> _]] & _); [by left|by right]. }
    intros training n Hn Hhp Hwp. cbn [MaskRCNN.Model.fpn map].
    assert (exists a, h = 64 * Z.of_nat a /\ (1 <= a)%nat) as (a & Ea & Ha).
    { exists (Z.to_nat (h / 64)). Z.to_euclidean_division_equations. lia. }
    assert (exists b, w = 64 * Z.of_nat b /\ (1 <= b)%nat) as (b & Eb & Hb).
    { exists (Z.to_nat (w / 64)). Z.to_euclidean_division_equations. lia. }
    rewrite Ea, Eb.
    replace (Z.to_nat (64 * Z.of_nat a)) with (32 * (2 * a))%nat by lia.
    replace (Z.to_nat (64 * Z.of_nat b)) with (32 * (2 * b))%nat by lia.
    rewrite (fpn_forward_run training _ resnet 256 n (2 * a) (2 * b) Hres)
      by (try lia; intros _; nia).
    rewrite !strided_two by lia.
    assert (E : forall c d k, d * k = 64 -> 0 < d -> 
              Z.to_nat (64 * Z.of_nat c / d) = (Z.to_nat k * c)%nat).
    { intros c d k Hdk Hd. replace (64 * Z.of_nat c) with (k * Z.of_nat c * d) by nia.
      rewrite Z.div_mul by lia. lia. }
    rewrite !(E _ 4 16), !(E _ 8 8), !(E _ 16 4), !(E _ 32 2), !(E _ 64 1) by lia.
    repeat (f_equal; try lia).
Qed.


Lemma cat_dim1_five (n c r1 r2 r3 r4 r5 : nat) :
  Torch.cat_dim1 [[n; r1; c]; [n; r2; c]; [n; r3; c]; [n; r4; c]; [n; r5; c]] =
  Return [n; (r1 + (r2 + (r3 + (r4 + r5))))%nat; c].
Proof.
  cbn [Torch.cat_dim1].
  repeat (cbn [mbind outcome_mbind];
          rewrite (decide_True (P := n = n /\ [c] = [c])) by (split; reflexivity)).
  done.
Qed.

(** X23. The region proposals of a built model. With an anchor stride of
    1 and [A >= 1] anchor ratios, on a batch of [n] images of the configured
    size [h] by [w], the trunk runs on the five maps of the pyramid and the
    concatenated outputs have [341 (h / 64) (w / 64) A] rows for each image:
    [A] for every location of the maps of strides 4, 8, 16, 32 and 64, with
    2 columns for the class logits and the probabilities and 4 for the box
    deltas. *)
Theorem rpn_outputs_rows (config : MaskRCNN.config) (options : MaskRCNN.build_config)
    (m : MaskRCNN.Model.t anchors) (training : bool) (n : nat) :
  let h := (Dev.image_shape (MaskRCNN.DEV config)).1 in
  let w := (Dev.image_shape (MaskRCNN.DEV config)).2 in
  let A := length (MaskRCNN.ANCHOR_RATIOS options) in
  let rows := (341 * (Z.to_nat (h / 64) * Z.to_nat (w / 64)) * A)%nat in
  _build config options = Return m ->
  MaskRCNN.ANCHOR_STRIDE options = 1%nat -> (1 <= A)%nat ->
  (1 <= n)%nat -> 0 < h -> 0 < w ->
  MaskRCNN.rpn_outputs training (MaskRCNN.Model.fpn m) (MaskRCNN.Model.rpn m)
    [n; 3%nat; Z.to_nat h; Z.to_nat w] =
  Return ([n; rows; 2%nat], [n; rows; 2%nat], [n; rows; 4%nat]).
Proof.
  intros h w A rows Hm Hstride HA Hn Hhp Hwp.
  apply build_Return in Hm
    as (resnet & priors & dev_roi & Hh & Hw & Hres & _ & _ & ->).
  fold h in Hh. fold w in Hw. cbn [MaskRCNN.Model.fpn MaskRCNN.Model.rpn].
  assert (exists a, h = 64 * Z.of_nat a /\ (1 <= a)%nat) as (a & Ea & Ha).
  { exists (Z.to_nat (h / 64)). Z.to_euclidean_division_equations. lia. }
  assert (exists b, w = 64 * Z.of_nat b /\ (1 <= b)%nat) as (b & Eb & Hb).
  { exists (Z.to_nat (w / 64)). Z.to_euclidean_division_equations. lia. }
  assert (Erows : rows = (341 * (a * b) * A)%nat).
  { unfold rows. rewrite Ea, Eb, !(Z.mul_comm 64), !Z.div_mul by lia.
    by rewrite !Nat2Z.id. }
  clearbody rows. subst rows. rewrite Ea, Eb.
  replace (Z.to_nat (64 * Z.of_nat a)) with (32 * (2 * a))%nat by lia.
  replace (Z.to_nat (64 * Z.of_nat b)) with (32 * (2 * b))%nat by lia.
  unfold MaskRCNN.rpn_outputs.
  rewrite (fpn_forward_run training _ resnet 256 n (2 * a) (2 * b) Hres)
    by (try lia; intros _; nia).
  rewrite !strided_two by lia. cbn [mbind outcome_mbind mapM].
  rewrite Hstride. fold A.
  rewrite !rpn_forward_run by (try lia; by left).
  cbn [mbind outcome_mbind mret outcome_mret].
  rewrite !strided_one by lia.
  cbn [MaskRCNN.zip_unpacked length map foldr Nat.min seq omap list_omap lookup list_lookup].
  cbn [mapM]. rewrite !cat_dim1_five. cbn [mbind outcome_mbind mret outcome_mret].
  assert (E : (8 * (2 * a) * (8 * (2 * b)) * A +
               (4 * (2 * a) * (4 * (2 * b)) * A +
                (2 * (2 * a) * (2 * (2 * b)) * A + (2 * a * (2 * b) * A + a * b * A))) =
               341 * (a * b) * A)%nat) by ring.
  by rewrite E.
Qed.

End BuildFacts.

Definition example_config (loss_choice : string) : MaskRCNN.config * MaskRCNN.build_config :=
  (MaskRCNN.Config 1000 2000 200 28 81 (Dev.Config true 7 14 14 2 (1024, 512)),
   MaskRCNN.BuildConfig "resnet101" [1 # 2; 1; 2]%Q 1 loss_choice).

(** A model is built for images of 1024 by 512 pixels, without a criterion
    when the loss is not 'l2'; for images of 1000 by 512 none is built. *)
Example build_example :
  (exists m, MaskRCNN._build unit (fun _ _ => Return tt)
               (example_config "l1").1 (example_config "l1").2 = Return m /\
             MaskRCNN.Model.criterion m = None) /\
  MaskRCNN._build unit (fun _ _ => Return tt)
    (MaskRCNN.Config 1000 2000 200 28 81 (Dev.Config true 7 14 14 2 (1000, 512)))
    (example_config "l2").2 = Throw (Raised Exception).
Proof. split; [eexists; split; reflexivity|reflexivity]. Qed.


Lemma rpn_outputs_rows_witness :
  exists m,
    MaskRCNN._build unit (fun _ _ => Return tt)
      (example_config "l2").1 (example_config "l2").2 = Return m /\
    MaskRCNN.rpn_outputs true (MaskRCNN.Model.fpn m) (MaskRCNN.Model.rpn m)
      [2%nat; 3%nat; Z.to_nat 1024; Z.to_nat 512] =
    Return ([2; 341 * (Z.to_nat (1024 / 64) * Z.to_nat (512 / 64)) * 3; 2]%nat,
            [2; 341 * (Z.to_nat (1024 / 64) * Z.to_nat (512 / 64)) * 3; 2]%nat,
            [2; 341 * (Z.to_nat (1024 / 64) * Z.to_nat (512 / 64)) * 3; 4]%nat).
Proof.
  eexists. split; [reflexivity|].
  apply (rpn_outputs_rows unit (fun _ _ => Return tt) (example_config "l2").1
           (example_config "l2").2 _ true 2); [reflexivity|reflexivity|simpl; lia|lia|done|done].
Defined.

(** ** Freezing the layers *)

Section TrainableFacts.

Variable fullmatch : string -> string -> bool.
Variable log : Type.
Variable print_log : string -> log -> log.

Let set_trainable := MaskRCNN.set_trainable fullmatch log print_log.

Lemma set_trainable_lookup layer_regex named_parameters log_file (i : nat) :
  (set_trainable layer_regex named_parameters log_file).1 !! i =
  (fun param =>
     MaskRCNN.Named (MaskRCNN.name param)
       (MaskRCNN.requires_grad param && fullmatch layer_regex (MaskRCNN.name param)))
  <$> named_parameters !! i.
Proof.
  unfold set_trainable, MaskRCNN.set_trainable. cbn [fst].
  rewrite list_lookup_fmap. destruct (named_parameters !! i) as [[name g]|]; [|done].
  cbn [fmap option_fmap option_map MaskRCNN.name MaskRCNN.requires_grad].
  destruct (fullmatch layer_regex name); cbn [negb]; [by rewrite andb_true_r|].
  by rewrite andb_false_r.
Qed.

(** X21. [set_trainable] only ever turns [requires_grad] off. After a
    call, the parameters are the same, in the same order, and a parameter
    requires a gradient exactly when it did before and its name matches the
    expression. So after two calls a parameter is trainable only when it
    was at the start and its name matches both expressions: no later call
    makes a frozen layer trainable again, and the order of the calls makes no
    difference. *)
Theorem set_trainable_only_freezes (regex1 regex2 : string)
    (named_parameters : list MaskRCNN.parameter) (log1 log2 : log) :
  let first := (set_trainable regex1 named_parameters log1).1 in
  let second := (set_trainable regex2 first log2).1 in
  map MaskRCNN.name first = map MaskRCNN.name named_parameters /\
  (forall i name requires_grad,
     named_parameters !! i = Some (MaskRCNN.Named name requires_grad) ->
     first !! i = Some (MaskRCNN.Named name (requires_grad && fullmatch regex1 name)) /\
     second !! i =
       Some (MaskRCNN.Named name
               (requires_grad && fullmatch regex1 name && fullmatch regex2 name))) /\
  (forall i name, first !! i = Some (MaskRCNN.Named name false) ->
     second !! i = Some (MaskRCNN.Named name false)) /\
  second = (set_trainable regex1 (set_trainable regex2 named_parameters log2).1 log1).1.
Proof.
  intros first second.
  assert (Hfirst : forall i name g,
            named_parameters !! i = Some (MaskRCNN.Named name g) ->
            first !! i = Some (MaskRCNN.Named name (g && fullmatch regex1 name))).
  { intros i name g Hi. unfold first. by rewrite set_trainable_lookup, Hi. }
  split; [|split; [|split]].
  - unfold first, set_trainable, MaskRCNN.set_trainable. cbn [fst].
    rewrite map_map. apply map_ext. intros [name g]. cbn [MaskRCNN.name].
    by destruct (fullmatch regex1 name).
  - intros i name g Hi. split; [by apply Hfirst|].
    unfold second. by rewrite set_trainable_lookup, (Hfirst i name g Hi).
  - intros i name Hi. unfold second. by rewrite set_trainable_lookup, Hi.
  - apply list_eq. intros i. unfold second, first.
    rewrite !set_trainable_lookup.
    destruct (named_parameters !! i) as [[name g]|]; [|done].
    cbn [fmap option_fmap option_map MaskRCNN.name MaskRCNN.requires_grad]. do 2 f_equal.
    by destruct g, (fullmatch regex1 name), (fullmatch regex2 name).
Qed.

End TrainableFacts.

(** ** The train path on an empty ROI sample *)

(** A box of the ROI tensor whose four coordinates are zero. *)
Definition is_zero_box (b : Dev.box) : Prop :=
  (Dev.y1 b == 0 /\ Dev.x1 b == 0 /\ Dev.y2 b == 0 /\ Dev.x2 b == 0)%Q.

Lemma sum_rois_zero (rois : list (list Dev.box)) :
  Forall (Forall is_zero_box) rois -> (MaskRCNN.sum_rois rois == 0)%Q.
Proof.
  unfold MaskRCNN.sum_rois. induction 1 as [|row rois Hrow _ IH]; [done|].
  simpl. rewrite IH.
  assert (Hr : (foldr Qplus 0 (map MaskRCNN.sum_box row) == 0)%Q).
  { induction Hrow as [|b row (H1 & H2 & H3 & H4) _ IHr]; [done|].
    simpl. unfold MaskRCNN.sum_box at 1. rewrite IHr, H1, H2, H3, H4. done. }
  rewrite Hr. done.
Qed.

Lemma stack_dim1_five (l1 l2 l3 l4 l5 : list Q) (n : nat) :
  length l1 = n -> length l2 = n -> length l3 = n -> length l4 = n -> length l5 = n ->
  exists loss_merge,
    MaskRCNN.stack_dim1 [l1; l2; l3; l4; l5] = Ok loss_merge /\
    length loss_merge = n /\
    forall i a b c d e,
      l1 !! i = Some a -> l2 !! i = Some b -> l3 !! i = Some c ->
      l4 !! i = Some d -> l5 !! i = Some e ->
      loss_merge !! i = Some [a; b; c; d; e].
Proof.
  intros H1 H2 H3 H4 H5. unfold MaskRCNN.stack_dim1.
  cbn [forallb]. rewrite H1, H2, H3, H4, H5, Nat.eqb_refl. cbn [andb].
  eexists. split; [reflexivity|]. split; [by rewrite length_imap|].
  intros i a b c d e Ha Hb Hc Hd He.
  rewrite list_lookup_imap, Ha. cbn. by rewrite Ha, Hb, Hc, Hd, He.
Qed.

Section PipelineFacts.
Variables images metas tensor rpn_targets : Type.
Variable fmap : Type.
Variable descs : Type.
Variable crop_and_resize : nat -> nat -> fmap -> Dev.box -> nat -> Dev.patch.
Variable upsample : fmap -> fmap.
Variable feat_extract : list Dev.patch -> descs.
Variable pyramid_roi_align : list (list Dev.box) -> list fmap -> nat -> list Dev.patch.
Variable raw_level : Dev.box -> Z.
Variable batch_size : images -> nat.
Variable fpn : images -> list fmap.
Variable rpn : fmap -> tensor * tensor * tensor.
Variable cat1 : list tensor -> tensor.
Variable proposal_layer : tensor -> tensor -> nat -> list (list Dev.box).
Variable parse_image_meta : metas -> tensor.
Variable detection_layer :
  list (list Dev.box) -> list (list Q) -> list (list (list Q)) -> tensor ->
  list (list (list Q)).
Variable classifier :
  list Dev.patch -> result (list (list Q) * list (list Q) * list (list (list Q))).
Variable mask : list Dev.patch -> result (list (list (list (list Q)))).
Variable prepare_rpn_target :
  list (list Q) -> list (list (list Q)) -> rpn_targets * tensor.
Variable prepare_det_target :
  list (list Dev.box) -> list (list Q) -> list (list (list Q)) ->
  list (list (list (list Q))) ->
  list (list Dev.box) * list (list Z) * list (list (list (list Q))) *
  list (list (list (list Q))).
Variable compute_rpn_class_loss : rpn_targets -> tensor -> list Q.
Variable compute_rpn_bbox_loss : tensor -> rpn_targets -> tensor -> list Q.
Variable compute_mrcnn_class_loss : list (list Z) -> list (list (list Q)) -> list Q.
Variable compute_mrcnn_bbox_loss :
  list (list (list (list Q))) -> list (list Z) -> list (list (list (list Q))) -> list Q.
Variable compute_mrcnn_mask_loss :
  list (list (list (list Q))) -> list (list Z) ->
  list (list (list (list (list Q)))) -> list Q.
Variable cfg : MaskRCNN.config.

Local Abbreviation forward :=
  (MaskRCNN.forward images metas tensor rpn_targets fmap descs crop_and_resize upsample
     feat_extract pyramid_roi_align raw_level batch_size fpn rpn cat1 proposal_layer
     parse_image_meta detection_layer classifier mask prepare_rpn_target
     prepare_det_target compute_rpn_class_loss compute_rpn_bbox_loss
     compute_mrcnn_class_loss compute_mrcnn_bbox_loss compute_mrcnn_mask_loss cfg).

(** The outputs of the region-proposal trunk over the five maps. *)
Definition rpn_logits (maps : list fmap) : tensor := cat1 (map (fun o => o.1.1) (map rpn maps)).
Definition rpn_scores (maps : list fmap) : tensor := cat1 (map (fun o => o.1.2) (map rpn maps)).
Definition rpn_bbox (maps : list fmap) : tensor := cat1 (map (fun o => o.2) (map rpn maps)).


(** *** The pipeline with the router switched on *)

Local Abbreviation train_rois maps inp :=
  (prepare_det_target
     (proposal_layer (rpn_scores maps) (rpn_bbox maps) (MaskRCNN.POST_NMS_ROIS_TRAINING cfg))
     (MaskRCNN.gt_class_ids _ _ inp)
     (MaskRCNN.normalize_gt (Dev.image_shape (MaskRCNN.DEV cfg)) (MaskRCNN.gt_boxes _ _ inp))
     (MaskRCNN.gt_masks _ _ inp)).

(** X3. With [DEV.SWITCH] on, [forward] in inference mode raises
    [TypeError] as soon as the proposal layer returns one proposal: the
    router is called without ground-truth classes and subscripts [None] on
    the first populated level, before any head is run. *)
Theorem inference_forward_dynamic_raises inp st maps i s b :
  Dev.use_dev (MaskRCNN.DEV cfg) = true ->
  length maps = 5%nat ->
  fpn (MaskRCNN.molded_images _ _ inp) = maps ->
  lookup2 (proposal_layer (rpn_scores maps) (rpn_bbox maps)
             (MaskRCNN.POST_NMS_ROIS_INFERENCE cfg)) i s = Some b ->
  exists st', forward inp "inference" st = (Raise TypeError, st').
Proof.
  intros Hdev Hlen Hfpn Hb.
  destruct maps as [|p2 [|p3 [|p4 [|p5 [|p6 [|? ?]]]]]]; try done.
  unfold MaskRCNN.forward.
  change (String.eqb "inference" "inference") with true. cbn iota.
  rewrite bind_run, lift_run, bind_run, lift_run, Hfpn. cbn iota beta.
  unfold rpn_scores, rpn_bbox in Hb.
  rewrite bind_run. unfold Dev.alloc at 1. cbn iota beta.
  rewrite bind_run. unfold MaskRCNN.dev_roi.
  edestruct (forward_None_TypeError fmap descs crop_and_resize upsample feat_extract
               pyramid_roi_align raw_level (MaskRCNN.DEV cfg) [p2; p3; p4; p5]
               (length st)) as [st' ->]; [exact Hdev| |exact Hb|simpl; lia|].
  { by rewrite list_lookup_middle. }
  by exists st'.
Qed.

(** X4. With [DEV.SWITCH] on, [forward] in train mode never returns its
    losses once a sampled ROI is not zero: the router returns at most two
    records, one per upsampled level, and the four names unpacked from them
    need four. When the ROI tensor is rectangular and every ROI has its target
    class, the router and the unpacking are reached and the exception is the
    [ValueError] of the unpacking. *)
Theorem train_forward_dynamic_raises inp st maps
    _rois target_class_ids target_deltas target_mask :
  Dev.use_dev (MaskRCNN.DEV cfg) = true ->
  length maps = 5%nat ->
  fpn (MaskRCNN.molded_images _ _ inp) = maps ->
  train_rois maps inp = (_rois, target_class_ids, target_deltas, target_mask) ->
  ~ (MaskRCNN.sum_rois _rois == 0)%Q ->
  (exists e st', forward inp "train" st = (Raise e, st')) /\
  (forall bs n,
     rect bs n _rois -> (0 < bs)%nat -> (0 < n)%nat -> covers target_class_ids _rois ->
     exists st', forward inp "train" st = (Raise ValueError, st')).
Proof.
  intros Hdev Hlen Hfpn Hdet Hsum.
  destruct maps as [|p2 [|p3 [|p4 [|p5 [|p6 [|? ?]]]]]]; try done.
  assert (Hnz : Qeq_bool (MaskRCNN.sum_rois _rois) 0 = false).
  { destruct (Qeq_bool _ _) eqn:E; [|done]. by apply Qeq_bool_eq in E. }
  assert (Hrun : forall r st1,
    MaskRCNN.dev_roi fmap descs crop_and_resize upsample feat_extract pyramid_roi_align
      raw_level cfg [p2; p3; p4; p5] (length st) (Some target_class_ids)
      (st ++ [Dev.Rois _rois]) = (r, st1) ->
    exists e st',
      forward inp "train" st = (Raise e, st') /\
      (forall po mo fo, r = Ok (po, mo, fo) -> e = ValueError)).
  { intros r st1 Hr. unfold MaskRCNN.forward.
    change (String.eqb "train" "inference") with false.
    change (String.eqb "train" "train") with true. cbn iota.
    rewrite bind_run, lift_run, bind_run, lift_run, Hfpn. cbn iota beta.
    destruct (prepare_rpn_target _ _) as [target_rpn_match target_rpn_bbox].
    unfold rpn_scores, rpn_bbox in Hdet. rewrite Hdet, Hnz. cbn [negb].
    rewrite bind_run, bind_run. unfold Dev.alloc at 1. cbn iota beta.
    rewrite bind_run, Hr.
    destruct r as [[[po mo] fo]|e]; [|by eexists _, _].
    destruct (forward_feat_out_le fmap descs crop_and_resize upsample feat_extract
                pyramid_roi_align raw_level (MaskRCNN.DEV cfg) _ _ _ _ _ _ _ _ Hdev Hr)
      as (l & -> & Hl).
    rewrite bind_run, lift_run, Hdev.
    destruct l as [|a [|b [|c [|d [|? ?]]]]]; simpl in Hl; try lia;
      eexists _, _; (split; [reflexivity|done]). }
  split.
  - destruct (Hrun _ _ (surjective_pairing _)) as (e & st' & H & _). by exists e, st'.
  - intros bs n Hrect Hbs Hn Hc.
    edestruct (forward_Ok_records fmap descs crop_and_resize upsample feat_extract
                 pyramid_roi_align raw_level (MaskRCNN.DEV cfg) p2 p3 p4 p5 (length st)
                 target_class_ids _rois bs n (st ++ [Dev.Rois _rois]))
      as (po & mo & ext & Hok); try done.
    { by rewrite list_lookup_middle. }
    destruct (Hrun _ _ Hok) as (e & st' & H & He).
    exists st'. by rewrite H, (He _ _ _ eq_refl).
Qed.

(** X22. Whatever the configuration, a call of [forward] in train mode
    that returns, returns the meta outputs it started from: the zero
    tensors of shapes [[1, 2, 1024, num_cls]] and [[1, 2, 1, num_cls]]. With
    the router switched off they are never assigned, and with the router
    switched on the assignment is the unpacking that raises; no returning
    call hands descriptors of the router to [meta_loss]. *)
Theorem train_forward_meta_zeros inp st out st' :
  forward inp "train" st = (Ok out, st') ->
  exists loss_merge,
    out = MaskRCNN.Losses descs loss_merge
            (MaskRCNN.MetaZeros descs
               (MaskRCNN.zeros4 1 2 1024 (MaskRCNN.NUM_CLASSES cfg))
               (MaskRCNN.zeros4 1 2 1 (MaskRCNN.NUM_CLASSES cfg))
               (MaskRCNN.zeros4 1 2 1024 (MaskRCNN.NUM_CLASSES cfg))
               (MaskRCNN.zeros4 1 2 1 (MaskRCNN.NUM_CLASSES cfg))).
Proof.
  unfold MaskRCNN.forward.
  change (String.eqb "train" "inference") with false.
  change (String.eqb "train" "train") with true. cbn iota.
  rewrite bind_run, lift_run, bind_run, lift_run.
  destruct (fpn (MaskRCNN.molded_images _ _ inp))
    as [|p2 [|p3 [|p4 [|p5 [|p6 [|? ?]]]]]]; try done.
  cbn iota beta.
  destruct (prepare_rpn_target _ _) as [target_rpn_match target_rpn_bbox].
  destruct (prepare_det_target _ _ _ _)
    as [[[_rois target_class_ids] target_deltas] target_mask].
  rewrite bind_run.
  destruct (Qeq_bool (MaskRCNN.sum_rois _rois) 0) eqn:Hz; cbn [negb].
  - rewrite ret_run. rewrite bind_run, lift_run.
    destruct (MaskRCNN.stack_dim1 _) as [loss_merge|e]; [|done].
    rewrite ret_run. intros [= <- <-]. by eexists.
  - rewrite bind_run. unfold Dev.alloc at 1. cbn iota beta.
    rewrite bind_run.
    destruct (MaskRCNN.dev_roi _ _ _ _ _ _ _ _ _ _ _ _) as [[[[po mo] fo]|e] st1] eqn:Hr;
      [|done].
    rewrite bind_run, lift_run.
    destruct (Dev.use_dev (MaskRCNN.DEV cfg)) eqn:Hdev.
    + unfold MaskRCNN.dev_roi in Hr.
      destruct (forward_feat_out_le fmap descs crop_and_resize upsample feat_extract
                  pyramid_roi_align raw_level (MaskRCNN.DEV cfg) _ _ _ _ _ _ _ _ Hdev Hr)
        as (l & -> & Hl).
      destruct l as [|a [|b [|c [|d [|? ?]]]]]; simpl in Hl; try lia; done.
    + rewrite bind_run, lift_run.
      destruct (classifier po) as [[[logits probs] bbox]|e]; [|done].
      rewrite bind_run, lift_run.
      destruct (mask mo) as [mk|e]; [|done].
      rewrite bind_run, lift_run.
      destruct (MaskRCNN.view _ logits) as [v1|e]; [|done].
      rewrite bind_run, lift_run.
      destruct (MaskRCNN.view _ bbox) as [v2|e]; [|done].
      rewrite bind_run, lift_run.
      destruct (MaskRCNN.view _ mk) as [v3|e]; [|done].
      rewrite ret_run, bind_run, lift_run.
      destruct (MaskRCNN.stack_dim1 _) as [loss_merge|e]; [|done].
      rewrite ret_run. intros [= <- <-]. by eexists.
Qed.

End PipelineFacts.


(** With one ROI that is not zero the heads are run: here they raise, and
    so does the call. *)
Example train_forward_nonzero_rois_runs_heads :
  let cfg := MaskRCNN.Config 3 2 2 1 2 (Dev.Config false 1 2 2 2 (1024, 1024)) in
  (MaskRCNN.forward unit unit unit unit unit unit
     (fun _ _ _ _ _ => []) (fun f => f) (fun _ => tt) (fun _ _ _ => [])
     (fun _ => 0) (fun _ => 1%nat) (fun _ => [tt; tt; tt; tt; tt])
     (fun _ => (tt, tt, tt)) (fun _ => tt)
     (fun _ _ n => [replicate n (Dev.Box 0 0 1 1)]) (fun _ => tt) (fun _ _ _ _ => [])
     (fun _ => Raise RuntimeError) (fun _ => Raise RuntimeError)
     (fun _ _ => (tt, tt))
     (fun props _ _ _ => (props, [[0; 0]], [], []))
     (fun _ _ => [1 # 2]%Q) (fun _ _ _ => [1 # 3]%Q) (fun _ _ => [1 # 4]%Q)
     (fun _ _ _ => [1 # 5]%Q) (fun _ _ _ => [1 # 6]%Q) cfg
     (MaskRCNN.Input unit unit tt tt [[1]]%Q [[[0; 0; 8; 8]]]%Q []) "train"%string []).1 =
  Raise RuntimeError.
Proof. vm_compute. reflexivity. Qed.

(** *** Runs of the pipeline with the router switched on *)

Lemma inference_forward_dynamic_raises_witness :
  let cfg := MaskRCNN.Config 3 2 2 1 2 (Dev.Config true 1 2 2 2 (1024, 1024)) in
  let fwd :=
    MaskRCNN.forward unit unit unit unit unit unit
      (fun _ _ _ _ _ => []) (fun f => f) (fun _ => tt) (fun _ _ _ => [])
      (fun _ => 0) (fun _ => 1%nat) (fun _ => [tt; tt; tt; tt; tt])
      (fun _ => (tt, tt, tt)) (fun _ => tt)
      (fun _ _ n => [replicate n (Dev.Box 0 0 1 1)]) (fun _ => tt) (fun _ _ _ _ => [])
      (fun _ => Ok ([], [], [])) (fun _ => Ok [])
      (fun _ _ => (tt, tt))
      (fun props _ _ _ => (props, [[0; 0]], [], []))
      (fun _ _ => [1 # 2]%Q) (fun _ _ _ => [1 # 3]%Q) (fun _ _ => [1 # 4]%Q)
      (fun _ _ _ => [1 # 5]%Q) (fun _ _ _ => [1 # 6]%Q) cfg in
  exists st',
    fwd (MaskRCNN.Input unit unit tt tt [[1]]%Q [[[0; 0; 8; 8]]]%Q []) "inference"%string [] =
    (Raise TypeError, st').
Proof.
  intros cfg fwd.
  apply (inference_forward_dynamic_raises unit unit unit unit unit unit
           (fun _ _ _ _ _ => []) (fun f => f) (fun _ => tt) (fun _ _ _ => [])
           (fun _ => 0) (fun _ => 1%nat) (fun _ => [tt; tt; tt; tt; tt])
           (fun _ => (tt, tt, tt)) (fun _ => tt)
           (fun _ _ n => [replicate n (Dev.Box 0 0 1 1)]) (fun _ => tt) (fun _ _ _ _ => [])
           (fun _ => Ok ([], [], [])) (fun _ => Ok [])
           (fun _ _ => (tt, tt))
           (fun props _ _ _ => (props, [[0; 0]], [], []))
           (fun _ _ => [1 # 2]%Q) (fun _ _ _ => [1 # 3]%Q) (fun _ _ => [1 # 4]%Q)
           (fun _ _ _ => [1 # 5]%Q) (fun _ _ _ => [1 # 6]%Q) cfg
           (MaskRCNN.Input unit unit tt tt [[1]]%Q [[[0; 0; 8; 8]]]%Q []) []
           [tt; tt; tt; tt; tt] 0%nat 0%nat (Dev.Box 0 0 1 1)).
  - reflexivity.
  - reflexivity.
  - reflexivity.
  - reflexivity.
Defined.

Lemma train_forward_dynamic_raises_witness :
  let cfg := MaskRCNN.Config 3 2 2 1 2 (Dev.Config true 1 2 2 2 (1024, 1024)) in
  let fwd :=
    MaskRCNN.forward unit unit unit unit unit unit
      (fun _ _ _ _ _ => []) (fun f => f) (fun _ => tt) (fun _ _ _ => [])
      (fun _ => 0) (fun _ => 1%nat) (fun _ => [tt; tt; tt; tt; tt])
      (fun _ => (tt, tt, tt)) (fun _ => tt)
      (fun _ _ n => [replicate n (Dev.Box 0 0 1 1)]) (fun _ => tt) (fun _ _ _ _ => [])
      (fun _ => Ok ([], [], [])) (fun _ => Ok [])
      (fun _ _ => (tt, tt))
      (fun props _ _ _ => (props, [[0; 0]], [], []))
      (fun _ _ => [1 # 2]%Q) (fun _ _ _ => [1 # 3]%Q) (fun _ _ => [1 # 4]%Q)
      (fun _ _ _ => [1 # 5]%Q) (fun _ _ _ => [1 # 6]%Q) cfg in
  let inp := MaskRCNN.Input unit unit tt tt [[1]]%Q [[[0; 0; 8; 8]]]%Q [] in
  let _rois := [[Dev.Box 0 0 1 1; Dev.Box 0 0 1 1]] in
  (exists e st', fwd inp "train"%string [] = (Raise e, st')) /\
  (forall bs n,
     rect bs n _rois -> (0 < bs)%nat -> (0 < n)%nat -> covers [[0; 0]] _rois ->
     exists st', fwd inp "train"%string [] = (Raise ValueError, st')).
Proof.
  intros cfg fwd inp _rois.
  apply (train_forward_dynamic_raises unit unit unit unit unit unit
           (fun _ _ _ _ _ => []) (fun f => f) (fun _ => tt) (fun _ _ _ => [])
           (fun _ => 0) (fun _ => 1%nat) (fun _ => [tt; tt; tt; tt; tt])
           (fun _ => (tt, tt, tt)) (fun _ => tt)
           (fun _ _ n => [replicate n (Dev.Box 0 0 1 1)]) (fun _ => tt) (fun _ _ _ _ => [])
           (fun _ => Ok ([], [], [])) (fun _ => Ok [])
           (fun _ _ => (tt, tt))
           (fun props _ _ _ => (props, [[0; 0]], [], []))
           (fun _ _ => [1 # 2]%Q) (fun _ _ _ => [1 # 3]%Q) (fun _ _ => [1 # 4]%Q)
           (fun _ _ _ => [1 # 5]%Q) (fun _ _ _ => [1 # 6]%Q) cfg inp []
           [tt; tt; tt; tt; tt] _rois [[0; 0]] [] []).
  - reflexivity.
  - reflexivity.
  - reflexivity.
  - reflexivity.
  - vm_compute. discriminate.
Defined.

Lemma train_forward_meta_zeros_witness :
  let cfg := MaskRCNN.Config 3 2 2 1 2 (Dev.Config false 1 2 2 2 (1024, 1024)) in
  let fwd :=
    MaskRCNN.forward unit unit unit unit unit unit
      (fun _ _ _ _ _ => []) (fun f => f) (fun _ => tt) (fun _ _ _ => [])
      (fun _ => 0) (fun _ => 1%nat) (fun _ => [tt; tt; tt; tt; tt])
      (fun _ => (tt, tt, tt)) (fun _ => tt)
      (fun _ _ n => [replicate n (Dev.Box 0 0 1 1)]) (fun _ => tt) (fun _ _ _ _ => [])
      (fun _ => Ok ([[1; 2]; [3; 4]], [[1; 0]; [0; 1]], [[[0; 0; 0; 0]]; [[0; 0; 0; 0]]])%Q)
      (fun _ => Ok [[[[1]]]; [[[0]]]]%Q)
      (fun _ _ => (tt, tt))
      (fun props _ _ _ => (props, [[0; 1]], [], []))
      (fun _ _ => [1 # 2]%Q) (fun _ _ _ => [1 # 3]%Q) (fun _ _ => [1 # 4]%Q)
      (fun _ _ _ => [1 # 5]%Q) (fun _ _ _ => [1 # 6]%Q) cfg in
  exists out st',
    fwd (MaskRCNN.Input unit unit tt tt [[1]]%Q [[[0; 0; 8; 8]]]%Q []) "train"%string [] =
      (Ok out, st') /\
    exists loss_merge,
      out = MaskRCNN.Losses unit loss_merge
              (MaskRCNN.MetaZeros unit
                 (MaskRCNN.zeros4 1 2 1024 (MaskRCNN.NUM_CLASSES cfg))
                 (MaskRCNN.zeros4 1 2 1 (MaskRCNN.NUM_CLASSES cfg))
                 (MaskRCNN.zeros4 1 2 1024 (MaskRCNN.NUM_CLASSES cfg))
                 (MaskRCNN.zeros4 1 2 1 (MaskRCNN.NUM_CLASSES cfg))).
Proof.
  intros cfg fwd.
  assert (Hrun : exists out st',
    fwd (MaskRCNN.Input unit unit tt tt [[1]]%Q [[[0; 0; 8; 8]]]%Q []) "train"%string [] =
      (Ok out, st')).
  { eexists _, _. vm_compute. reflexivity. }
  destruct Hrun as (out & st' & Hrun). exists out, st'. split; [exact Hrun|].
  exact (train_forward_meta_zeros unit unit unit unit unit unit
           (fun _ _ _ _ _ => []) (fun f => f) (fun _ => tt) (fun _ _ _ => [])
           (fun _ => 0) (fun _ => 1%nat) (fun _ => [tt; tt; tt; tt; tt])
           (fun _ => (tt, tt, tt)) (fun _ => tt)
           (fun _ _ n => [replicate n (Dev.Box 0 0 1 1)]) (fun _ => tt) (fun _ _ _ _ => [])
           (fun _ => Ok ([[1; 2]; [3; 4]], [[1; 0]; [0; 1]],
                         [[[0; 0; 0; 0]]; [[0; 0; 0; 0]]])%Q)
           (fun _ => Ok [[[[1]]]; [[[0]]]]%Q)
           (fun _ _ => (tt, tt))
           (fun props _ _ _ => (props, [[0; 1]], [], []))
           (fun _ _ => [1 # 2]%Q) (fun _ _ _ => [1 # 3]%Q) (fun _ _ => [1 # 4]%Q)
           (fun _ _ _ => [1 # 5]%Q) (fun _ _ _ => [1 # 6]%Q) cfg
           (MaskRCNN.Input unit unit tt tt [[1]]%Q [[[0; 0; 8; 8]]]%Q []) [] out st' Hrun).
Defined.
